(** * ComfyUI-Lora-Manager: bulk selection and tag filters

    A shallow embedding of the browser-side selection manager
    ([static/js/managers/BulkManager.js]), of the card copy handler
    ([createLoraCard]) and of the two filter managers ([FilterManager],
    [RecipeFilterManager]), with the properties the specification states
    about them; then of the code around them: the page-level bulk mode
    ([toggleBulkMode], [updateCardsForBulkMode]), the filter panel, the
    loader node's [mergeLoras] ([web/comfyui/lora_loader.js]), the tags
    and the target path of the recipe import dialog
    ([static/js/managers/ImportManager.js]) and the theme and folder tags
    of [static/js/utils/uiHelpers.js].

    JavaScript values are an inductive type, exceptions are an explicit
    completion, the DOM and the browser services (local storage,
    clipboard, toasts, timers) are fields of an explicit state. *)

From Stdlib Require Import Ascii String ZArith NArith List Bool Lia.
From stdpp Require Import gmap strings list.

Local Open Scope string_scope.
Set Warnings "-register-all".

(** ** JavaScript values, completions and the JSON built-ins *)

Module JS.

(** The errors the modelled code can raise: [JSON.parse] on bad text,
    property access on [null] or a call of a missing method, the engine's
    answer to unbounded recursion, and the rejection of an awaited call of
    a collaborator. *)
Inductive JSError : Type :=
| SyntaxError
| TypeError
| RangeError
| Rejected.

(** How a call ends: it returns a value or it throws. *)
Inductive Completion (A : Type) : Type :=
| Returned (a : A)
| Threw (e : JSError).
Arguments Returned {A} a.
Arguments Threw {A} e.

(** The severities [showToast] is called with. *)
Inductive Severity : Type := success | warning | error | info.

(** A Number is an IEEE 754 double.  A finite one is kept by the decimal
    [Number::toString] prints for it, the shortest that reads back as the
    same double: [0.d1d2...dk * 10^point], with [digits] free of leading
    and trailing zeros (empty for the two zeros).  [JSON.parse] and
    [Number(text)] round what they read to the nearest double
    ([to_double], below), which may be a zero or an infinity. *)
Inductive JSNumber : Type :=
| mkNum (negative : bool) (digits : string) (point : Z)
| Infinity (negative : bool).

Inductive JSValue : Type :=
| JNull
| JBool (b : bool)
| JNum (n : JSNumber)
| JStr (s : string)
| JArr (l : list JSValue)
| JObj (fields : list (string * JSValue)).

Definition num_of_nat_digits (ds : string) : JSNumber :=
  mkNum false ds (Z.of_nat (String.length ds)).

Definition JOne : JSValue := JNum (num_of_nat_digits "1").

(** [ToBoolean]: an absent property ([undefined]) is [None]. *)
Definition truthy (v : JSValue) : bool :=
  match v with
  | JNull => false
  | JBool b => b
  | JNum (mkNum _ ds _) => negb (String.eqb ds "")
  | JNum (Infinity _) => true
  | JStr s => negb (String.eqb s "")
  | JArr _ => true
  | JObj _ => true
  end.

(** [a || b] for a possibly undefined left operand. *)
Definition or_else (a : option JSValue) (b : JSValue) : JSValue :=
  match a with
  | Some v => if truthy v then v else b
  | None => b
  end.

Fixpoint obj_get (k : string) (fs : list (string * JSValue)) : option JSValue :=
  match fs with
  | [] => None
  | (k', v) :: r => if String.eqb k k' then Some v else obj_get k r
  end.

(** *** Decimal printing *)

Fixpoint zeros (n : nat) : string :=
  match n with
  | O => ""
  | S m => String "0" (zeros m)
  end.

Fixpoint take_str (n : nat) (s : string) : string :=
  match n, s with
  | S m, String c r => String c (take_str m r)
  | _, _ => ""
  end.

Fixpoint drop_str (n : nat) (s : string) : string :=
  match n, s with
  | S m, String _ r => drop_str m r
  | _, _ => s
  end.

Definition digit_of_N (d : N) : ascii := ascii_of_N (48 + d).

Fixpoint N_digits (fuel : nat) (n : N) (acc : string) : string :=
  match fuel with
  | O => acc
  | S f =>
      let acc' := String (digit_of_N (n mod 10)) acc in
      if (n / 10 =? 0)%N then acc' else N_digits f (n / 10)%N acc'
  end.

Definition string_of_N (n : N) : string := N_digits (S (N.to_nat (N.log2 n))) n "".
Definition string_of_nat (n : nat) : string := string_of_N (N.of_nat n).

(** [Number::toString] in radix ten. *)
Definition number_to_string (x : JSNumber) : string :=
  match x with
  | Infinity neg => if neg then "-Infinity" else "Infinity"
  | mkNum _ "" _ => "0"
  | mkNum neg (String d rest) n =>
      let ds := String d rest in
      let k := Z.of_nat (String.length ds) in
      let body :=
        if ((k <=? n) && (n <=? 21))%Z then ds ++ zeros (Z.to_nat (n - k))
        else if ((0 <? n) && (n <=? 21))%Z then
          take_str (Z.to_nat n) ds ++ "." ++ drop_str (Z.to_nat n) ds
        else if ((-6 <? n) && (n <=? 0))%Z then
          "0." ++ zeros (Z.to_nat (- n)) ++ ds
        else
          let e := (n - 1)%Z in
          let es := (if (0 <=? e)%Z then "+" else "-") ++ string_of_N (Z.abs_N e) in
          match rest with
          | "" => String d "" ++ "e" ++ es
          | _ => String d "" ++ "." ++ rest ++ "e" ++ es
          end
      in if neg then "-" ++ body else body
  end.

Fixpoint join (sep : string) (l : list string) : string :=
  match l with
  | [] => ""
  | [x] => x
  | x :: r => x ++ sep ++ join sep r
  end.

(** [ToString], as a template literal or an attribute setter applies
    it.  An array prints its elements joined by commas ([null] as the
    empty string), and throws where an element does.  An object without
    an own [toString] property prints as [[object Object]]; with one,
    which in a parsed value is never a function, neither it nor [valueOf]
    yields a primitive and the conversion throws a [TypeError]. *)
Fixpoint to_string (v : JSValue) : Completion string :=
  match v with
  | JNull => Returned "null"
  | JBool true => Returned "true"
  | JBool false => Returned "false"
  | JNum n => Returned (number_to_string n)
  | JStr s => Returned s
  | JArr l =>
      (fix elements (l : list JSValue) (acc : list string) : Completion string :=
         match l with
         | [] => Returned (join "," acc)
         | e :: r =>
             match match e with JNull => Returned "" | _ => to_string e end with
             | Returned t => elements r (acc ++ [t])%list
             | Threw x => Threw x
             end
         end) l []
  | JObj fs =>
      match obj_get "toString" fs with
      | Some _ => Threw TypeError
      | None => Returned "[object Object]"
      end
  end.

(** The loop of [Array.prototype.join] inside [to_string], by its own
    name. *)
Fixpoint join_elements (l : list JSValue) (acc : list string) : Completion string :=
  match l with
  | [] => Returned (join "," acc)
  | e :: r =>
      match match e with JNull => Returned "" | _ => to_string e end with
      | Returned t => join_elements r (acc ++ [t])%list
      | Threw x => Threw x
      end
  end.

(** [ToString] of a possibly undefined value. *)
Definition to_string_opt (v : option JSValue) : Completion string :=
  match v with
  | Some x => to_string x
  | None => Returned "undefined"
  end.

(** The text of a string that may be [undefined]. *)
Definition text_or_undefined (t : option string) : string :=
  match t with
  | Some x => x
  | None => "undefined"
  end.

(** *** [JSON.stringify] *)

Abbreviation dquote := "034"%char (only parsing).
Abbreviation bslash := "092"%char (only parsing).

Definition hex_digit (n : N) : ascii :=
  if (n <? 10)%N then ascii_of_N (48 + n) else ascii_of_N (87 + n).

(** [QuoteJSONString], one character at a time. *)
Definition escape_char (c : ascii) : string :=
  match c with
  | "008"%char => "\b"
  | "009"%char => "\t"
  | "010"%char => "\n"
  | "012"%char => "\f"
  | "013"%char => "\r"
  | dquote => String bslash (String dquote "")
  | bslash => String bslash (String bslash "")
  | Ascii _ _ _ _ _ false false false =>
      let n := N_of_ascii c in
      "\u00" ++ String (hex_digit (n / 16)) (String (hex_digit (n mod 16)) "")
  | _ => String c ""
  end.

Fixpoint quote_chars (s : string) : string :=
  match s with
  | "" => ""
  | String c r => escape_char c ++ quote_chars r
  end.

Definition quote (s : string) : string :=
  String dquote (quote_chars s ++ String dquote "").

Fixpoint stringify (v : JSValue) : string :=
  match v with
  | JNull => "null"
  | JBool true => "true"
  | JBool false => "false"
  | JNum (Infinity _) => "null"
  | JNum n => number_to_string n
  | JStr s => quote s
  | JArr l => "[" ++ join "," (List.map stringify l) ++ "]"
  | JObj fs =>
      "{" ++ join "," (List.map (fun kv => quote (fst kv) ++ ":" ++ stringify (snd kv)) fs)
          ++ "}"
  end.

(** *** [JSON.parse] *)

Definition is_ws (c : ascii) : bool :=
  match c with
  | " "%char | "009"%char | "010"%char | "013"%char => true
  | _ => false
  end.

Fixpoint skip_ws (s : string) : string :=
  match s with
  | String c r => if is_ws c then skip_ws r else s
  | "" => ""
  end.

Definition hex_val (c : ascii) : option N :=
  let n := N_of_ascii c in
  if ((48 <=? n) && (n <=? 57))%N then Some (n - 48)%N
  else if ((97 <=? n) && (n <=? 102))%N then Some (n - 87)%N
  else if ((65 <=? n) && (n <=? 70))%N then Some (n - 55)%N
  else None.

Definition hex4 (a b c d : ascii) : option N :=
  match hex_val a, hex_val b, hex_val c, hex_val d with
  | Some x, Some y, Some z, Some w => Some (((x * 16 + y) * 16 + z) * 16 + w)%N
  | _, _, _, _ => None
  end.

(** A code point as UTF-8 bytes (strings are byte strings here). A
    surrogate half that is not part of a pair is stored in the same
    three-byte form. *)
Definition utf8 (cp : N) : string :=
  if (cp <? 128)%N then String (ascii_of_N cp) ""
  else if (cp <? 2048)%N then
    String (ascii_of_N (192 + cp / 64)) (String (ascii_of_N (128 + cp mod 64)) "")
  else if (cp <? 65536)%N then
    String (ascii_of_N (224 + cp / 4096))
      (String (ascii_of_N (128 + (cp / 64) mod 64))
         (String (ascii_of_N (128 + cp mod 64)) ""))
  else
    String (ascii_of_N (240 + cp / 262144))
      (String (ascii_of_N (128 + (cp / 4096) mod 64))
         (String (ascii_of_N (128 + (cp / 64) mod 64))
            (String (ascii_of_N (128 + cp mod 64)) ""))).

Definition is_high_surrogate (cp : N) : bool := ((55296 <=? cp) && (cp <=? 56319))%N.
Definition is_low_surrogate (cp : N) : bool := ((56320 <=? cp) && (cp <=? 57343))%N.

(** The code point of a surrogate pair. *)
Definition pair_code_point (hi lo : N) : N :=
  (65536 + (hi - 55296) * 1024 + (lo - 56320))%N.

Definition simple_escape (e : ascii) : option ascii :=
  match e with
  | dquote => Some dquote
  | bslash => Some bslash
  | "/"%char => Some "/"%char
  | "b"%char => Some "008"%char
  | "f"%char => Some "012"%char
  | "n"%char => Some "010"%char
  | "r"%char => Some "013"%char
  | "t"%char => Some "009"%char
  | _ => None
  end.

Definition prepend (pre : string) (r : option (string * string)) : option (string * string) :=
  match r with
  | Some (body, rest) => Some (pre ++ body, rest)
  | None => None
  end.

(** The characters of a string literal after its opening quote: the
    decoded text and what follows the closing quote. *)
Fixpoint parse_string_chars (s : string) : option (string * string) :=
  match s with
  | "" => None
  | String c r =>
      match c with
      | dquote => Some ("", r)
      | bslash =>
          match r with
          | String e r2 =>
              match simple_escape e with
              | Some ch => prepend (String ch "") (parse_string_chars r2)
              | None =>
                  match e, r2 with
                  | "u"%char, String h1 (String h2 (String h3 (String h4 r3))) =>
                      match hex4 h1 h2 h3 h4 with
                      | Some cp =>
                          if is_high_surrogate cp then
                            match r3 with
                            | String bslash (String "u"%char
                                (String l1 (String l2 (String l3 (String l4 r4))))) =>
                                match hex4 l1 l2 l3 l4 with
                                | Some lo =>
                                    if is_low_surrogate lo
                                    then prepend (utf8 (pair_code_point cp lo))
                                           (parse_string_chars r4)
                                    else prepend (utf8 cp) (parse_string_chars r3)
                                | None => prepend (utf8 cp) (parse_string_chars r3)
                                end
                            | _ => prepend (utf8 cp) (parse_string_chars r3)
                            end
                          else prepend (utf8 cp) (parse_string_chars r3)
                      | None => None
                      end
                  | _, _ => None
                  end
              end
          | "" => None
          end
      | Ascii _ _ _ _ _ false false false => None
      | _ => prepend (String c "") (parse_string_chars r)
      end
  end.

Definition is_digit (c : ascii) : bool :=
  let n := N_of_ascii c in ((48 <=? n) && (n <=? 57))%N.

Fixpoint span_digits (s : string) : string * string :=
  match s with
  | String c r =>
      if is_digit c then let (d, rest) := span_digits r in (String c d, rest)
      else ("", s)
  | "" => ("", "")
  end.

Fixpoint Z_of_digits (s : string) (acc : Z) : Z :=
  match s with
  | String c r => Z_of_digits r (acc * 10 + Z.of_N (N_of_ascii c - 48))%Z
  | "" => acc
  end.

Fixpoint strip_leading (s : string) (p : Z) : string * Z :=
  match s with
  | String "0"%char r => strip_leading r (p - 1)%Z
  | _ => (s, p)
  end.

Fixpoint strip_trailing (s : string) : string :=
  match s with
  | "" => ""
  | String c r =>
      match c, strip_trailing r with
      | "0"%char, "" => ""
      | _, r' => String c r'
      end
  end.

Definition normal_number (neg : bool) (ds : string) (p : Z) : JSNumber :=
  let (ds1, p1) := strip_leading ds p in
  match strip_trailing ds1 with
  | "" => mkNum neg "" 0
  | ds2 => mkNum neg ds2 p1
  end.

(** *** The properties of a parsed object *)

Fixpoint all_digits (s : string) : bool :=
  match s with
  | "" => true
  | String c r => (is_digit c && all_digits r)%bool
  end.

(** An array index: the decimal, without a leading zero, of an integer
    below [2^32 - 1]. *)
Definition array_index (k : string) : option Z :=
  match k with
  | "" => None
  | String c r =>
      if (all_digits k && (negb (Ascii.eqb c "0") || String.eqb r "")
          && (String.length k <=? 10)%nat)%bool
      then
        let n := Z_of_digits k 0 in
        if (n <? 4294967295)%Z then Some n else None
      else None
  end.

(** Whether a new key [k] goes before the key [k'] already there: the
    keys of an object are its array indices in ascending order, then its
    other keys in the order of their creation. *)
Definition goes_before (k k' : string) : bool :=
  match array_index k, array_index k' with
  | Some n, Some n' => (n <? n')%Z
  | Some _, None => true
  | None, _ => false
  end.

(** Property definition on a parsed object: a repeated key keeps its
    place and takes the last value. *)
Fixpoint obj_set (k : string) (v : JSValue) (fs : list (string * JSValue))
  : list (string * JSValue) :=
  match fs with
  | [] => [(k, v)]
  | (k', v') :: r =>
      if String.eqb k k' then (k', v) :: r
      else if goes_before k k' then (k, v) :: (k', v') :: r
      else (k', v') :: obj_set k v r
  end.

Definition obj_of_members (ms : list (string * JSValue)) : list (string * JSValue) :=
  fold_left (fun acc kv => obj_set (fst kv) (snd kv) acc) ms [].

(** *** Rounding to a double, and the shortest decimal of a double *)

Section Binary64.
Local Open Scope Z_scope.

(** A double that is no NaN, without its sign: a zero, the value
    [m * 2^e] with [m < 2^53] and [-1074 <= e <= 971], where [2^52 <= m]
    unless [e = -1074], or an infinity. *)
Inductive Binary64 : Type :=
| BZero
| BFinite (m e : Z)
| BInfinity.

Definition Binary64_eqb (a b : Binary64) : bool :=
  match a, b with
  | BZero, BZero | BInfinity, BInfinity => true
  | BFinite m e, BFinite m' e' => (m =? m') && (e =? e')
  | _, _ => false
  end.

(** The integer part of [num / den / 2^e]. *)
Definition floor_scaled (num den e : Z) : Z :=
  if 0 <=? e then num / (den * 2 ^ e) else (num * 2 ^ (- e)) / den.

(** [n / d] rounded to the nearest integer, a tie to the even one. *)
Definition round_half_even (n d : Z) : Z :=
  let q := n / d in
  let r := n mod d in
  if 2 * r <? d then q
  else if d <? 2 * r then q + 1
  else if Z.even q then q else q + 1.

Definition round_scaled (num den e : Z) : Z :=
  if 0 <=? e then round_half_even num (den * 2 ^ e)
  else round_half_even (num * 2 ^ (- e)) den.

(** The double nearest to [num / den], for positive [num] and [den]
    (round to nearest, ties to even).  The exponent is the one that
    leaves 53 bits before the binary point, or the least one; the
    quotient is rounded once, at that exponent. *)
Definition nearest_ratio (num den : Z) : Binary64 :=
  let l := Z.log2 num - Z.log2 den in
  let e0 := Z.max (l - 53) (-1074) in
  let e := if floor_scaled num den e0 <? 2 ^ 53 then e0 else e0 + 1 in
  let m := round_scaled num den e in
  if m =? 0 then BZero
  else
    let (m1, e1) := if m =? 2 ^ 53 then (2 ^ 52, e + 1) else (m, e) in
    if 971 <? e1 then BInfinity else BFinite m1 e1.

(** The double nearest to the decimal [0.ds * 10^p].  A decimal of more
    than 310 digits before the point is beyond every double, one that
    starts more than 330 places after it is below half the least. *)
Definition nearest (digits : string) (point : Z) : Binary64 :=
  let (ds, p) := strip_leading digits point in
  let D := Z_of_digits ds 0 in
  let k := Z.of_nat (String.length ds) in
  if D =? 0 then BZero
  else if 310 <? p then BInfinity
  else if p <? -330 then BZero
  else if k <=? p then nearest_ratio (D * 10 ^ (p - k)) 1
  else nearest_ratio D (10 ^ (k - p)).

Definition nearest_of (x : JSNumber) : Binary64 :=
  match x with
  | mkNum _ ds p => nearest ds p
  | Infinity _ => BInfinity
  end.

(** The decimal with the digits of [s] whose last digit stands at
    [10^last]. *)
Definition candidate (neg : bool) (s last : Z) : JSNumber :=
  let ds := string_of_N (Z.to_N s) in
  normal_number neg ds (last + Z.of_nat (String.length ds)).

(** [Number::toString] takes the least number of digits [k] for which a
    decimal of [k] digits reads back as the double, and of two such
    decimals the one nearer to it.  [M * 10^sh] is the exact value of the
    double and [L] the number of digits of [M]; the two decimals of [k]
    digits around the value are tried, the nearer one first. *)
Fixpoint shortest_from (fuel : nat) (neg : bool) (b : Binary64) (M L sh k : Z) : JSNumber :=
  match fuel with
  | O => candidate neg M sh
  | S f =>
      let unit := 10 ^ (L - k) in
      let lo := M / unit in
      let r := M mod unit in
      let c_lo := candidate neg lo (sh + L - k) in
      let c_hi := candidate neg (lo + 1) (sh + L - k) in
      let lo_first := (2 * r <? unit) || ((2 * r =? unit) && Z.even lo) in
      let (c1, c2) := if lo_first then (c_lo, c_hi) else (c_hi, c_lo) in
      if Binary64_eqb (nearest_of c1) b then c1
      else if Binary64_eqb (nearest_of c2) b then c2
      else shortest_from f neg b M L sh (k + 1)
  end.

Definition shortest (neg : bool) (m e : Z) : JSNumber :=
  let M := if 0 <=? e then m * 2 ^ e else m * 5 ^ (- e) in
  let sh := Z.min e 0 in
  let L := Z.of_nat (String.length (string_of_N (Z.to_N M))) in
  shortest_from (Z.to_nat L) neg (BFinite m e) M L sh 1.

(** The Number a decimal denotes: the nearest double. *)
Definition to_double (x : JSNumber) : JSNumber :=
  match nearest_of x with
  | BZero => mkNum (match x with mkNum n _ _ | Infinity n => n end) "" 0
  | BInfinity => Infinity (match x with mkNum n _ _ | Infinity n => n end)
  | BFinite m e => shortest (match x with mkNum n _ _ | Infinity n => n end) m e
  end.

End Binary64.

(** The JSON number grammar: [-? int frac? exp?]. *)
Definition parse_number (s : string) : option (JSNumber * string) :=
  let (neg, s1) := match s with String "-"%char r => (true, r) | _ => (false, s) end in
  let (ip, s2) := span_digits s1 in
  match ip with
  | "" => None
  | String "0"%char (String _ _) => None
  | _ =>
      let frac :=
        match s2 with
        | String "."%char r =>
            let (fp, s3) := span_digits r in
            match fp with "" => None | _ => Some (fp, s3) end
        | _ => Some ("", s2)
        end in
      match frac with
      | None => None
      | Some (fp, s3) =>
          let expo :=
            match s3 with
            | String e r =>
                if (Ascii.eqb e "e" || Ascii.eqb e "E")%bool then
                  let (sgn, r1) :=
                    match r with
                    | String "-"%char r' => ((-1)%Z, r')
                    | String "+"%char r' => (1%Z, r')
                    | _ => (1%Z, r)
                    end in
                  let (ep, s4) := span_digits r1 in
                  match ep with
                  | "" => None
                  | _ => Some ((sgn * Z_of_digits ep 0)%Z, s4)
                  end
                else Some (0%Z, s3)
            | "" => Some (0%Z, s3)
            end in
          match expo with
          | None => None
          | Some (e, s4) =>
              Some (to_double (normal_number neg (ip ++ fp) (Z.of_nat (String.length ip) + e)),
                    s4)
          end
      end
  end.

(** Recursive descent; [fuel] bounds nesting depth plus element count, both
    of which the length of the text bounds. *)
Fixpoint parse_value (fuel : nat) (s : string) : option (JSValue * string) :=
  match fuel with
  | O => None
  | S f =>
      match s with
      | "" => None
      | String "["%char r =>
          match skip_ws r with
          | String "]"%char r' => Some (JArr [], r')
          | r1 =>
              match parse_elems f r1 with
              | Some (vs, r') => Some (JArr vs, r')
              | None => None
              end
          end
      | String "{"%char r =>
          match skip_ws r with
          | String "}"%char r' => Some (JObj [], r')
          | r1 =>
              match parse_members f r1 with
              | Some (ms, r') => Some (JObj (obj_of_members ms), r')
              | None => None
              end
          end
      | String dquote r =>
          match parse_string_chars r with
          | Some (str, r') => Some (JStr str, r')
          | None => None
          end
      | String "t"%char (String "r"%char (String "u"%char (String "e"%char r))) =>
          Some (JBool true, r)
      | String "f"%char (String "a"%char (String "l"%char (String "s"%char (String "e"%char r)))) =>
          Some (JBool false, r)
      | String "n"%char (String "u"%char (String "l"%char (String "l"%char r))) =>
          Some (JNull, r)
      | _ =>
          match parse_number s with
          | Some (n, r) => Some (JNum n, r)
          | None => None
          end
      end
  end
with parse_elems (fuel : nat) (s : string) : option (list JSValue * string) :=
  match fuel with
  | O => None
  | S f =>
      match parse_value f s with
      | Some (v, r) =>
          match skip_ws r with
          | String ","%char r' =>
              match parse_elems f (skip_ws r') with
              | Some (vs, r'') => Some (v :: vs, r'')
              | None => None
              end
          | String "]"%char r' => Some ([v], r')
          | _ => None
          end
      | None => None
      end
  end
with parse_members (fuel : nat) (s : string) : option (list (string * JSValue) * string) :=
  match fuel with
  | O => None
  | S f =>
      match s with
      | String dquote r =>
          match parse_string_chars r with
          | Some (k, r1) =>
              match skip_ws r1 with
              | String ":"%char r2 =>
                  match parse_value f (skip_ws r2) with
                  | Some (v, r3) =>
                      match skip_ws r3 with
                      | String ","%char r4 =>
                          match parse_members f (skip_ws r4) with
                          | Some (ms, r5) => Some ((k, v) :: ms, r5)
                          | None => None
                          end
                      | String "}"%char r4 => Some ([(k, v)], r4)
                      | _ => None
                      end
                  | None => None
                  end
              | _ => None
              end
          | None => None
          end
      | _ => None
      end
  end.

(** [JSON.parse(text)]: one value between optional white space, or a
    [SyntaxError]. *)
Definition JSON_parse (text : string) : Completion JSValue :=
  match parse_value (S (String.length text)) (skip_ws text) with
  | Some (v, r) =>
      match skip_ws r with
      | "" => Returned v
      | _ => Threw SyntaxError
      end
  | None => Threw SyntaxError
  end.

(** [v.name] on a parsed value: a [TypeError] on [null], the own property
    of an object, [undefined] on anything else (the names read by the
    modelled code are on no prototype). *)
Definition get_prop (v : JSValue) (name : string) : Completion (option JSValue) :=
  match v with
  | JNull => Threw TypeError
  | JObj fs => Returned (obj_get name fs)
  | _ => Returned None
  end.

End JS.

(** ** The selection manager: [BulkManager] *)

Module Bulk.
Import JS.

(** A rendered [.lora-card]: the data attributes the manager reads, the
    preview elements inside the card ([img] and [video_source] hold the
    [src] property of the first [img] and of the first [video source],
    the URL as the browser resolved it) and the [selected] class. *)
Record Card : Type := mkCard {
  filepath : string;
  file_name : option string;
  usage_tips : option string;
  name : option string;
  img : option string;
  video : bool;
  video_source : option string;
  selected : bool
}.

(** A value of [state.loraMetadataCache]. *)
Record Metadata : Type := mkMetadata {
  fileName : option string;
  usageTips : option string;
  previewUrl : string;
  isVideo : bool;
  modelName : option string
}.

(** A [.selected-thumbnails-strip] element in the document, with the
    children of its [.thumbnails-container]. *)
Record Thumbnail : Type := mkThumbnail {
  thumb_filepath : string;
  thumb_video : bool;
  thumb_src : string;
  thumb_name : option string
}.

Record Strip : Type := mkStrip {
  strip_id : nat;
  strip_visible : bool;
  thumbnails : list Thumbnail
}.

(** The [#selectedCount] element: its text and the caret appended to it. *)
Record CountElement : Type := mkCount {
  count_text : string;
  caret_down : bool;
  caret_shown : bool
}.

(** The callbacks handed to [setTimeout]. *)
Inductive Callback : Type :=
| AddVisible (id : nat)
| RemoveStrip (id : nat).

(** [#bulkOperationsPanel] with its two classes. *)
Record Panel : Type := mkPanel {
  panel_hidden : bool;
  panel_visible : bool
}.

Record State : Type := mkState {
  bulkMode : bool;                         (* state.bulkMode *)
  cards : list Card;                       (* the rendered cards, in document order *)
  selectedLoras : list string;             (* a JS Set: insertion order, no repeats *)
  loraMetadataCache : gmap string Metadata;
  isStripVisible : bool;
  strips : list Strip;                     (* strip elements, in document order *)
  next_id : nat;
  countElement : option CountElement;      (* None: no #selectedCount element *)
  timers : list (nat * Callback);          (* pending timeouts: delay, callback *)
  toasts : list (string * Severity);       (* showToast calls *)
  clipboard : list string;                 (* navigator.clipboard.writeText calls *)
  clipboard_ok : bool;                     (* does writeText resolve? *)
  bulkPanel : option Panel                 (* this.bulkPanel; None: no such element *)
}.

Definition with_bulkMode (v : bool) (s : State) : State :=
  mkState v (cards s) (selectedLoras s) (loraMetadataCache s) (isStripVisible s) (strips s)
    (next_id s) (countElement s) (timers s) (toasts s) (clipboard s) (clipboard_ok s) (bulkPanel s).
Definition with_cards (v : list Card) (s : State) : State :=
  mkState (bulkMode s) v (selectedLoras s) (loraMetadataCache s) (isStripVisible s) (strips s)
    (next_id s) (countElement s) (timers s) (toasts s) (clipboard s) (clipboard_ok s) (bulkPanel s).
Definition with_selectedLoras (v : list string) (s : State) : State :=
  mkState (bulkMode s) (cards s) v (loraMetadataCache s) (isStripVisible s) (strips s)
    (next_id s) (countElement s) (timers s) (toasts s) (clipboard s) (clipboard_ok s) (bulkPanel s).
Definition with_cache (v : gmap string Metadata) (s : State) : State :=
  mkState (bulkMode s) (cards s) (selectedLoras s) v (isStripVisible s) (strips s)
    (next_id s) (countElement s) (timers s) (toasts s) (clipboard s) (clipboard_ok s) (bulkPanel s).
Definition with_isStripVisible (v : bool) (s : State) : State :=
  mkState (bulkMode s) (cards s) (selectedLoras s) (loraMetadataCache s) v (strips s)
    (next_id s) (countElement s) (timers s) (toasts s) (clipboard s) (clipboard_ok s) (bulkPanel s).
Definition with_strips (v : list Strip) (s : State) : State :=
  mkState (bulkMode s) (cards s) (selectedLoras s) (loraMetadataCache s) (isStripVisible s) v
    (next_id s) (countElement s) (timers s) (toasts s) (clipboard s) (clipboard_ok s) (bulkPanel s).
Definition with_next_id (v : nat) (s : State) : State :=
  mkState (bulkMode s) (cards s) (selectedLoras s) (loraMetadataCache s) (isStripVisible s) (strips s)
    v (countElement s) (timers s) (toasts s) (clipboard s) (clipboard_ok s) (bulkPanel s).
Definition with_countElement (v : option CountElement) (s : State) : State :=
  mkState (bulkMode s) (cards s) (selectedLoras s) (loraMetadataCache s) (isStripVisible s) (strips s)
    (next_id s) v (timers s) (toasts s) (clipboard s) (clipboard_ok s) (bulkPanel s).
Definition with_timers (v : list (nat * Callback)) (s : State) : State :=
  mkState (bulkMode s) (cards s) (selectedLoras s) (loraMetadataCache s) (isStripVisible s) (strips s)
    (next_id s) (countElement s) v (toasts s) (clipboard s) (clipboard_ok s) (bulkPanel s).
Definition with_toasts (v : list (string * Severity)) (s : State) : State :=
  mkState (bulkMode s) (cards s) (selectedLoras s) (loraMetadataCache s) (isStripVisible s) (strips s)
    (next_id s) (countElement s) (timers s) v (clipboard s) (clipboard_ok s) (bulkPanel s).
Definition with_clipboard (v : list string) (s : State) : State :=
  mkState (bulkMode s) (cards s) (selectedLoras s) (loraMetadataCache s) (isStripVisible s) (strips s)
    (next_id s) (countElement s) (timers s) (toasts s) v (clipboard_ok s) (bulkPanel s).

Definition with_bulkPanel (v : option Panel) (s : State) : State :=
  mkState (bulkMode s) (cards s) (selectedLoras s) (loraMetadataCache s) (isStripVisible s) (strips s)
    (next_id s) (countElement s) (timers s) (toasts s) (clipboard s) (clipboard_ok s) v.

Definition showToast (msg : string) (sev : Severity) (s : State) : State :=
  with_toasts (toasts s ++ [(msg, sev)])%list s.

Definition setTimeout (cb : Callback) (delay : nat) (s : State) : State :=
  with_timers (timers s ++ [(delay, cb)])%list s.

(** *** The JS [Set] of selected keys *)

Definition set_has (k : string) (l : list string) : bool := existsb (String.eqb k) l.

Definition set_add (k : string) (l : list string) : list string :=
  if set_has k l then l else (l ++ [k])%list.

Definition set_delete (k : string) (l : list string) : list string :=
  List.filter (fun x => negb (String.eqb k x)) l.

Definition set_size (l : list string) : nat := length l.

(** *** [updateSelectedCount] and [hideThumbnailStrip]

    The two methods call each other.  [fuel] is the call-stack depth left;
    the engine answers its exhaustion with a [RangeError].  State changes
    made before a throw stay. *)

Definition mark_hidden (st : Strip) : Strip :=
  mkStrip (strip_id st) false (thumbnails st).

Fixpoint updateSelectedCount (fuel : nat) (s : State) : Completion unit * State :=
  match fuel with
  | O => (Threw RangeError, s)
  | S f =>
      match countElement s with
      | Some _ =>
          let size := set_size (selectedLoras s) in
          let el := mkCount (string_of_nat size ++ " selected ")
                      (isStripVisible s) (0 <? size)%nat in
          let s1 := with_countElement (Some el) s in
          if (size =? 0)%nat then hideThumbnailStrip f s1 else (Returned tt, s1)
      | None => (Returned tt, s)
      end
  end
with hideThumbnailStrip (fuel : nat) (s : State) : Completion unit * State :=
  match fuel with
  | O => (Threw RangeError, s)
  | S f =>
      match strips s with
      | st :: rest =>
          let s1 := with_isStripVisible false (with_strips (mark_hidden st :: rest) s) in
          match updateSelectedCount f s1 with
          | (Returned _, s2) => (Returned tt, setTimeout (RemoveStrip (strip_id st)) 300 s2)
          | (Threw e, s2) => (Threw e, s2)
          end
      | [] => (Returned tt, s)
      end
  end.

(** *** [updateThumbnailStrip] *)

Definition thumbnail_of (cache : gmap string Metadata) (k : string) : option Thumbnail :=
  match cache !! k with
  | Some m => Some (mkThumbnail k (isVideo m) (previewUrl m) (modelName m))
  | None => None
  end.

Fixpoint thumbnails_of (cache : gmap string Metadata) (keys : list string) : list Thumbnail :=
  match keys with
  | [] => []
  | k :: r =>
      match thumbnail_of cache k with
      | Some t => t :: thumbnails_of cache r
      | None => thumbnails_of cache r
      end
  end.

Definition updateThumbnailStrip (s : State) : State :=
  match strips s with
  | st :: rest =>
      with_strips
        (mkStrip (strip_id st) (strip_visible st)
           (thumbnails_of (loraMetadataCache s) (selectedLoras s)) :: rest) s
  | [] => s
  end.

(** *** [toggleCardSelection] *)

Definition getCardPreviewUrl (c : Card) : string :=
  match img c with
  | Some src => src
  | None =>
      match video_source c with
      | Some src => src
      | None => "/loras_static/images/no-preview.png"
      end
  end.

Definition isCardPreviewVideo (c : Card) : bool := video c.

Definition card_metadata (c : Card) : Metadata :=
  mkMetadata (file_name c) (usage_tips c) (getCardPreviewUrl c)
    (isCardPreviewVideo c) (name c).

Definition set_selected (b : bool) (c : Card) : Card :=
  mkCard (filepath c) (file_name c) (usage_tips c) (name c) (img c) (video c)
    (video_source c) b.

(** The card is the [i]-th rendered card; an index past the end stands for
    no card and nothing happens. *)
Definition toggleCardSelection (fuel : nat) (i : nat) (s : State) : Completion unit * State :=
  match cards s !! i with
  | None => (Returned tt, s)
  | Some card =>
      let fp := filepath card in
      let s1 :=
        if selected card then
          with_selectedLoras (set_delete fp (selectedLoras s))
            (with_cards (<[i := set_selected false card]> (cards s)) s)
        else
          with_cache (<[fp := card_metadata card]> (loraMetadataCache s))
            (with_selectedLoras (set_add fp (selectedLoras s))
               (with_cards (<[i := set_selected true card]> (cards s)) s)) in
      match updateSelectedCount fuel s1 with
      | (Returned _, s2) =>
          (Returned tt, if isStripVisible s2 then updateThumbnailStrip s2 else s2)
      | (Threw e, s2) => (Threw e, s2)
      end
  end.

(** *** [applySelectionState] *)

(** The [forEach] over the rendered cards: each card takes the marker of
    its key, and a selected card refreshes its cache entry. *)
Definition refresh_cache (sel : list string) (cs : list Card)
    (cache : gmap string Metadata) : gmap string Metadata :=
  fold_left
    (fun m c => if set_has (filepath c) sel then <[filepath c := card_metadata c]> m else m)
    cs cache.

Definition applySelectionState (fuel : nat) (s : State) : Completion unit * State :=
  if negb (bulkMode s) then (Returned tt, s)
  else
    let sel := selectedLoras s in
    let cs := List.map (fun c => set_selected (set_has (filepath c) sel) c) (cards s) in
    updateSelectedCount fuel
      (with_cache (refresh_cache sel (cards s) (loraMetadataCache s)) (with_cards cs s)).

(** *** [clearSelection] *)

Definition clearSelection (fuel : nat) (s : State) : Completion unit * State :=
  let s1 := with_cards (List.map (set_selected false) (cards s)) s in
  let s2 := with_selectedLoras [] s1 in
  match updateSelectedCount fuel s2 with
  | (Returned _, s3) => hideThumbnailStrip fuel s3
  | (Threw e, s3) => (Threw e, s3)
  end.

(** *** The thumbnail strip *)

(** The strip is inserted before the panel: without the panel the read
    of [this.bulkPanel.parentNode] throws and nothing is inserted. *)
Definition showThumbnailStrip (fuel : nat) (s : State) : Completion unit * State :=
  match bulkPanel s with
  | None => (Threw TypeError, s)
  | Some _ =>
      let id := next_id s in
      let s1 := with_next_id (S id) (with_strips (strips s ++ [mkStrip id false []])%list s) in
      let s2 := with_isStripVisible true (updateThumbnailStrip s1) in
      match updateSelectedCount fuel s2 with
      | (Returned _, s3) => (Returned tt, setTimeout (AddVisible id) 10 s3)
      | (Threw e, s3) => (Threw e, s3)
      end
  end.

Definition toggleThumbnailStrip (fuel : nat) (s : State) : Completion unit * State :=
  if (set_size (selectedLoras s) =? 0)%nat then (Returned tt, s)
  else
    match strips s with
    | _ :: _ => hideThumbnailStrip fuel s
    | [] => showThumbnailStrip fuel s
    end.

(** *** [deselectItem] *)

(** The key goes as it is between the quotes of the selector
    [.lora-card[data-filepath="..."]].  A key that holds no quote, no
    backslash, no line break (LF, FF, CR), no NUL and no surrogate half
    on its own is the value of the selector's string, and the selector
    finds the first card whose attribute is the key.  For any other key
    the string of the selector ends early, or holds escapes, or is
    replaced in part: what [querySelector] then answers (a
    [SyntaxError], an element, nothing) is left to the selector engine,
    which is an argument.  The engine names a card by its index; an
    index past the cards stands for an element that is no rendered
    card. *)
Definition plain_key_char (c : ascii) : bool :=
  let n := N_of_ascii c in
  negb ((n =? 0) || (n =? 10) || (n =? 12) || (n =? 13) || (n =? 34) || (n =? 92))%N.

(** The three bytes that stand for a surrogate half start with [ED] and
    a byte from [A0] on. *)
Definition surrogate_start (c : ascii) (r : string) : bool :=
  match r with
  | String d _ => ((N_of_ascii c =? 237) && (160 <=? N_of_ascii d))%N
  | "" => false
  end.

Fixpoint plain_key (k : string) : bool :=
  match k with
  | "" => true
  | String c r => (plain_key_char c && negb (surrogate_start c r) && plain_key r)%bool
  end.

Definition SelectorEngine : Type := string -> list Card -> Completion (option nat).

Fixpoint first_with_key (k : string) (cs : list Card) : option nat :=
  match cs with
  | [] => None
  | c :: r =>
      if String.eqb (filepath c) k then Some 0%nat
      else option_map S (first_with_key k r)
  end.

Definition card_selector (k : string) : string :=
  ".lora-card[data-filepath=" ++ String dquote (k ++ String dquote "]").

Definition querySelector_card (engine : SelectorEngine) (k : string) (cs : list Card)
  : Completion (option nat) :=
  if plain_key k then Returned (first_with_key k cs) else engine (card_selector k) cs.

Definition unmark_found (found : option nat) (cs : list Card) : list Card :=
  match found with
  | Some i => alter (set_selected false) i cs
  | None => cs
  end.

Definition deselectItem (engine : SelectorEngine) (fuel : nat) (k : string) (s : State)
  : Completion unit * State :=
  match querySelector_card engine k (cards s) with
  | Threw e => (Threw e, s)
  | Returned found =>
      let s1 :=
        with_selectedLoras (set_delete k (selectedLoras s))
          (with_cards (unmark_found found (cards s)) s) in
      match updateSelectedCount fuel s1 with
      | (Returned _, s2) =>
          let s3 := updateThumbnailStrip s2 in
          if (set_size (selectedLoras s3) =? 0)%nat then hideThumbnailStrip fuel s3
          else (Returned tt, s3)
      | (Threw e, s2) => (Threw e, s2)
      end
  end.

(** Firing the pending timeouts.  [AddVisible] sets a class on one strip,
    [RemoveStrip] detaches one strip; the two commute, so the callbacks
    are run in the order they were queued. *)
Definition fire (cb : Callback) (l : list Strip) : list Strip :=
  match cb with
  | AddVisible id =>
      List.map (fun st => if (strip_id st =? id)%nat then mkStrip id true (thumbnails st) else st) l
  | RemoveStrip id => List.filter (fun st => negb (strip_id st =? id)%nat) l
  end.

Definition run_timers (s : State) : State :=
  with_timers []
    (with_strips (fold_left (fun l t => fire (snd t) l) (timers s) (strips s)) s).

(** *** [copyAllLorasSyntax] *)

(** [text || '{}']: an absent attribute and the empty string are falsy. *)
Definition usage_text (u : option string) : string :=
  match u with
  | None => "{}"
  | Some "" => "{}"
  | Some t => t
  end.

(** The token built from a file name and a usage-tips text:
    [JSON.parse(tips || '{}')], then [usageTips.strength || 1], then the
    template literal.  The bulk copy and the copy button of a card
    ([createLoraCard]) both compute it. *)
Definition lora_syntax (file : option string) (tips : option string) : Completion string :=
  match JSON_parse (usage_text tips) with
  | Threw e => Threw e
  | Returned usageTips =>
      match get_prop usageTips "strength" with
      | Threw e => Threw e
      | Returned st =>
          match to_string (or_else st JOne) with
          | Threw e => Threw e
          | Returned strength =>
              Returned ("<lora:" ++ text_or_undefined file ++ ":" ++ strength ++ ">")
          end
      end
  end.

(** The loop over [state.selectedLoras]: the tokens and the keys without
    cached metadata, or the exception that ends the loop. *)
Fixpoint collect (cache : gmap string Metadata) (keys : list string)
    (loraSyntaxes missingLoras : list string) : Completion (list string * list string) :=
  match keys with
  | [] => Returned (loraSyntaxes, missingLoras)
  | k :: r =>
      match cache !! k with
      | Some metadata =>
          match lora_syntax (fileName metadata) (usageTips metadata) with
          | Returned t => collect cache r (loraSyntaxes ++ [t])%list missingLoras
          | Threw e => Threw e
          end
      | None => collect cache r loraSyntaxes (missingLoras ++ [k])%list
      end
  end.

Definition copyAllLorasSyntax (s : State) : Completion unit * State :=
  if (set_size (selectedLoras s) =? 0)%nat then
    (Returned tt, showToast "No LoRAs selected" warning s)
  else
    match collect (loraMetadataCache s) (selectedLoras s) [] [] with
    | Threw e => (Threw e, s)
    | Returned (loraSyntaxes, missingLoras) =>
        let s1 :=
          if (0 <? length missingLoras)%nat then
            showToast ("Missing data for " ++ string_of_nat (length missingLoras) ++ " LoRAs")
              warning s
          else s in
        if (length loraSyntaxes =? 0)%nat then
          (Returned tt, showToast "No valid LoRAs to copy" error s1)
        else
          let s2 := with_clipboard (clipboard s1 ++ [join ", " loraSyntaxes])%list s1 in
          if clipboard_ok s2 then
            (Returned tt,
             showToast ("Copied " ++ string_of_nat (length loraSyntaxes)
                          ++ " LoRA syntaxes to clipboard") success s2)
          else (Returned tt, showToast "Copy failed" error s2)
    end.

(** The text the copy button of a card puts on the clipboard. *)
Definition card_lora_syntax (c : Card) : Completion string :=
  lora_syntax (file_name c) (usage_tips c).

End Bulk.

(** ** The filter managers: [FilterManager] and [RecipeFilterManager] *)

Module Filters.
Import JS.

(** [this.filters]: the two fields hold whatever value was put there. *)
Record Filters : Type := mkFilters {
  baseModel : JSValue;
  tags : JSValue
}.

Definition empty_filters : Filters := mkFilters (JArr []) (JArr []).

(** A [.filter-tag] element: its data attribute and the [active] class. *)
Record TagElement : Type := mkTag {
  tag_name : string;
  active : bool
}.

(** The [#activeFiltersCount] element. *)
Record Badge : Type := mkBadge {
  badge_text : string;
  badge_display : string
}.

(** [window.recipeManager], when it has a [loadRecipes] function: whether
    it also has the two optional loading hooks. *)
Record RecipeManager : Type := mkRecipeManager {
  has_showLoading : bool;
  has_hideLoading : bool
}.

(** Calls made to the collaborators, in order.  A navigation records the
    query parameters appended before the browser serialises them. *)
Inductive Call : Type :=
| LoadRecipesReset                       (* recipeManager.loadRecipes(true) *)
| LoadRecipesWith (f : Filters)          (* recipeManager.loadRecipes(this.filters) *)
| LoadRecipesPlain                       (* recipeManager.loadRecipes() *)
| LoadMoreLoras                          (* loadMoreLoras(true, true) *)
| LoadCheckpoints                        (* checkpointManager.loadCheckpoints(true) *)
| ShowLoading
| HideLoading
| Navigate (base_models : option string) (tags_param : option string).

Record State : Type := mkState {
  currentPage : string;
  filters : Filters;
  pageFilters : option Filters;          (* getCurrentPageState().filters *)
  baseModelTags : list TagElement;       (* the .base-model-tag elements *)
  modelTags : list TagElement;           (* the .tag-filter elements *)
  activeFiltersCount : option Badge;
  filterButton : option bool;            (* the button, with its active class *)
  localStorage : gmap string string;
  recipeManager : option RecipeManager;
  checkpointManager : bool;
  reload_ok : bool;                      (* does the awaited reload resolve? *)
  calls : list Call;
  toasts : list (string * Severity)
}.

Definition with_currentPage (v : string) (s : State) : State :=
  mkState v (filters s) (pageFilters s) (baseModelTags s) (modelTags s)
    (activeFiltersCount s) (filterButton s) (localStorage s) (recipeManager s)
    (checkpointManager s) (reload_ok s) (calls s) (toasts s).
Definition with_filters (v : Filters) (s : State) : State :=
  mkState (currentPage s) v (pageFilters s) (baseModelTags s) (modelTags s)
    (activeFiltersCount s) (filterButton s) (localStorage s) (recipeManager s)
    (checkpointManager s) (reload_ok s) (calls s) (toasts s).
Definition with_pageFilters (v : option Filters) (s : State) : State :=
  mkState (currentPage s) (filters s) v (baseModelTags s) (modelTags s)
    (activeFiltersCount s) (filterButton s) (localStorage s) (recipeManager s)
    (checkpointManager s) (reload_ok s) (calls s) (toasts s).
Definition with_baseModelTags (v : list TagElement) (s : State) : State :=
  mkState (currentPage s) (filters s) (pageFilters s) v (modelTags s)
    (activeFiltersCount s) (filterButton s) (localStorage s) (recipeManager s)
    (checkpointManager s) (reload_ok s) (calls s) (toasts s).
Definition with_modelTags (v : list TagElement) (s : State) : State :=
  mkState (currentPage s) (filters s) (pageFilters s) (baseModelTags s) v
    (activeFiltersCount s) (filterButton s) (localStorage s) (recipeManager s)
    (checkpointManager s) (reload_ok s) (calls s) (toasts s).
Definition with_badge (v : option Badge) (s : State) : State :=
  mkState (currentPage s) (filters s) (pageFilters s) (baseModelTags s) (modelTags s)
    v (filterButton s) (localStorage s) (recipeManager s)
    (checkpointManager s) (reload_ok s) (calls s) (toasts s).
Definition with_filterButton (v : option bool) (s : State) : State :=
  mkState (currentPage s) (filters s) (pageFilters s) (baseModelTags s) (modelTags s)
    (activeFiltersCount s) v (localStorage s) (recipeManager s)
    (checkpointManager s) (reload_ok s) (calls s) (toasts s).
Definition with_localStorage (v : gmap string string) (s : State) : State :=
  mkState (currentPage s) (filters s) (pageFilters s) (baseModelTags s) (modelTags s)
    (activeFiltersCount s) (filterButton s) v (recipeManager s)
    (checkpointManager s) (reload_ok s) (calls s) (toasts s).
Definition with_calls (v : list Call) (s : State) : State :=
  mkState (currentPage s) (filters s) (pageFilters s) (baseModelTags s) (modelTags s)
    (activeFiltersCount s) (filterButton s) (localStorage s) (recipeManager s)
    (checkpointManager s) (reload_ok s) v (toasts s).
Definition with_toasts (v : list (string * Severity)) (s : State) : State :=
  mkState (currentPage s) (filters s) (pageFilters s) (baseModelTags s) (modelTags s)
    (activeFiltersCount s) (filterButton s) (localStorage s) (recipeManager s)
    (checkpointManager s) (reload_ok s) (calls s) v.

Definition showToast (msg : string) (sev : Severity) (s : State) : State :=
  with_toasts (toasts s ++ [(msg, sev)])%list s.

Definition call (c : Call) (s : State) : State :=
  with_calls (calls s ++ [c])%list s.

(** An awaited call of a collaborator: it is made, then resolves or
    rejects. *)
Definition await (c : Call) (s : State) : Completion unit * State :=
  if reload_ok s then (Returned tt, call c s) else (Threw Rejected, call c s).

(** Sequencing of calls that may throw: the state made before a throw
    stays. *)
Definition andThen (r : Completion unit * State) (k : State -> Completion unit * State)
  : Completion unit * State :=
  match r with
  | (Returned _, s) => k s
  | (Threw e, s) => (Threw e, s)
  end.

(** [try { body } catch (error) { console.error(...) }]. *)
Definition try_catch (r : Completion unit * State) : Completion unit * State :=
  (Returned tt, snd r).

(** *** The methods the code calls on a filter field *)

Fixpoint is_prefix (p s : string) : bool :=
  match p, s with
  | "", _ => true
  | String a p', String b s' => (Ascii.eqb a b && is_prefix p' s')%bool
  | _, _ => false
  end.

Fixpoint is_substring (p s : string) : bool :=
  (is_prefix p s ||
   match s with
   | "" => false
   | String _ s' => is_substring p s'
   end)%bool.

Definition is_str (t : string) (v : JSValue) : bool :=
  match v with
  | JStr x => String.eqb x t
  | _ => false
  end.

(** [field.includes(t)]: an array method and a string method; a call of
    [undefined] on anything else. *)
Definition js_includes (field : JSValue) (t : string) : Completion bool :=
  match field with
  | JArr l => Returned (existsb (is_str t) l)
  | JStr x => Returned (is_substring t x)
  | _ => Threw TypeError
  end.

(** [field.push(t)]. *)
Definition js_push (field : JSValue) (t : string) : Completion JSValue :=
  match field with
  | JArr l => Returned (JArr (l ++ [JStr t])%list)
  | _ => Threw TypeError
  end.

(** [field.filter(x => x !== t)]. *)
Definition js_remove (field : JSValue) (t : string) : Completion JSValue :=
  match field with
  | JArr l => Returned (JArr (List.filter (fun x => negb (is_str t x)) l))
  | _ => Threw TypeError
  end.

(** The number of UTF-16 code units of a text held as UTF-8 bytes: one
    for each character, two for a character outside the basic plane (a
    four-byte sequence). *)
Fixpoint utf16_length (x : string) : nat :=
  match x with
  | "" => 0
  | String c r =>
      let n := N_of_ascii c in
      ((if ((128 <=? n) && (n <? 192))%N then 0
        else if (240 <=? n)%N then 2 else 1) + utf16_length r)%nat
  end.

(** [field.length] of an array, a string, a number or a boolean: [None]
    is [undefined].  No operation of a manager makes a field [null],
    whose [length] would throw ([FilterProofs.filters_never_null]); for
    [null], and for a stored object, whose own [length] is not looked
    at, the same [None] stands. *)
Definition js_length (field : JSValue) : option nat :=
  match field with
  | JArr l => Some (length l)
  | JStr x => Some (utf16_length x)
  | _ => None
  end.

(** [n > 0] for a possibly undefined [n]. *)
Definition positive (n : option nat) : bool :=
  match n with
  | Some k => (0 <? k)%nat
  | None => false
  end.

(** [field.join(',')]. *)
Definition js_join (field : JSValue) : Completion string :=
  match field with
  | JArr l => to_string (JArr l)
  | _ => Threw TypeError
  end.

Definition show_count (n : option nat) : string :=
  match n with
  | Some k => string_of_nat k
  | None => "undefined"
  end.

Definition plural (n : option nat) : string :=
  match n with
  | Some k => if (1 <? k)%nat then "s" else ""
  | None => ""
  end.

Definition set_active (b : bool) (el : TagElement) : TagElement := mkTag (tag_name el) b.

(** One [forEach] of [updateTagSelections]: the elements reached before a
    throw are updated. *)
Fixpoint mark_tags (field : JSValue) (els : list TagElement)
  : Completion unit * list TagElement :=
  match els with
  | [] => (Returned tt, [])
  | el :: r =>
      match js_includes field (tag_name el) with
      | Returned b => let (c, r') := mark_tags field r in (c, set_active b el :: r')
      | Threw e => (Threw e, el :: r)
      end
  end.

Definition updateTagSelections (s : State) : Completion unit * State :=
  let (c1, bs) := mark_tags (baseModel (filters s)) (baseModelTags s) in
  let s1 := with_baseModelTags bs s in
  match c1 with
  | Threw e => (Threw e, s1)
  | Returned _ =>
      let (c2, ts) := mark_tags (tags (filters s1)) (modelTags s1) in
      (c2, with_modelTags ts s1)
  end.

Definition hasActiveFilters (s : State) : bool :=
  (positive (js_length (baseModel (filters s)))
   || positive (js_length (tags (filters s))))%bool.

(** [baseModel.length + tags.length > 0] and the text of the sum. *)
Definition totalActiveFilters (s : State) : option nat :=
  match js_length (baseModel (filters s)), js_length (tags (filters s)) with
  | Some a, Some b => Some (a + b)
  | _, _ => None
  end.

Definition set_badge (s : State) (b : Badge) : Badge :=
  if positive (totalActiveFilters s)
  then mkBadge (show_count (totalActiveFilters s)) "inline-flex"
  else mkBadge (badge_text b) "none".

(** The message of the summary toast of [applyFilters]. *)
Definition filter_message (s : State) : string :=
  let bc := js_length (baseModel (filters s)) in
  let tc := js_length (tags (filters s)) in
  if (positive bc && positive tc)%bool then
    "Filtering by " ++ show_count bc ++ " base model" ++ plural bc ++ " and "
      ++ show_count tc ++ " tag" ++ plural tc
  else if positive bc then
    "Filtering by " ++ show_count bc ++ " base model" ++ plural bc
  else if positive tc then
    "Filtering by " ++ show_count tc ++ " tag" ++ plural tc
  else "".

(** The end of [applyFilters]: the button state and the optional toast. *)
Definition show_filter_state (showToastNotification : bool) (s : State)
  : Completion unit * State :=
  match filterButton s with
  | None => (Threw TypeError, s)
  | Some _ =>
      if hasActiveFilters s then
        let s1 := with_filterButton (Some true) s in
        (Returned tt,
         if showToastNotification then showToast (filter_message s1) success s1 else s1)
      else
        let s1 := with_filterButton (Some false) s in
        (Returned tt,
         if showToastNotification then showToast "Filters cleared" info s1 else s1)
  end.

Definition JSON_stringify_filters (f : Filters) : string :=
  stringify (JObj [("baseModel", baseModel f); ("tags", tags f)]).

(** The click handler of a tag element, up to [applyFilters]: toggle the
    class, then add the tag if it is not included or filter it out. *)
Definition toggle_in (field : JSValue) (t : string) (now_active : bool)
  : Completion JSValue :=
  if now_active then
    match js_includes field t with
    | Threw e => Threw e
    | Returned true => Returned field
    | Returned false => js_push field t
    end
  else js_remove field t.

End Filters.

(** *** [FilterManager] *)

Module FilterManager.
Import JS Filters.

Definition storageKey (s : State) : string := currentPage s ++ "_filters".

Definition updateActiveFiltersCount (s : State) : State :=
  match activeFiltersCount s with
  | Some b => with_badge (Some (set_badge s b)) s
  | None => s
  end.

(** The reload of the listing of the manager's page. *)
Definition reload (s : State) : Completion unit * State :=
  if (String.eqb (currentPage s) "recipes" && bool_decide (is_Some (recipeManager s)))%bool
  then await LoadRecipesReset s
  else if String.eqb (currentPage s) "loras" then await LoadMoreLoras s
  else if (String.eqb (currentPage s) "checkpoints" && checkpointManager s)%bool
  then await LoadCheckpoints s
  else (Returned tt, s).

Definition applyFilters (showToastNotification : bool) (s : State)
  : Completion unit * State :=
  let s1 :=
    with_localStorage
      (<[storageKey s := JSON_stringify_filters (filters s)]> (localStorage s)) s in
  let s2 := with_pageFilters (Some (filters s1)) s1 in
  andThen (reload s2) (show_filter_state showToastNotification).

Definition clearFilters (s : State) : Completion unit * State :=
  let s1 := with_filters empty_filters s in
  let s2 := with_pageFilters (Some (filters s1)) s1 in
  andThen (updateTagSelections s2) (fun s3 =>
    let s4 := updateActiveFiltersCount s3 in
    let s5 := with_localStorage (delete (storageKey s4) (localStorage s4)) s4 in
    match filterButton s5 with
    | None => (Threw TypeError, s5)
    | Some _ =>
        andThen (reload (with_filterButton (Some false) s5)) (fun s6 =>
          (Returned tt, showToast "Filters cleared" info s6))
    end).

(** The body of the [try] block of [loadFiltersFromStorage]. *)
Definition load_saved (savedFilters : string) (s : State) : Completion unit * State :=
  match JSON_parse savedFilters with
  | Threw e => (Threw e, s)
  | Returned parsedFilters =>
      match get_prop parsedFilters "baseModel", get_prop parsedFilters "tags" with
      | Returned bm, Returned tg =>
          let s1 := with_filters (mkFilters (or_else bm (JArr [])) (or_else tg (JArr []))) s in
          let s2 := with_pageFilters (Some (filters s1)) s1 in
          andThen (updateTagSelections s2) (fun s3 =>
            let s4 := updateActiveFiltersCount s3 in
            if hasActiveFilters s4 then
              match filterButton s4 with
              | Some _ => (Returned tt, with_filterButton (Some true) s4)
              | None => (Threw TypeError, s4)
              end
            else (Returned tt, s4))
      | Threw e, _ => (Threw e, s)
      | _, Threw e => (Threw e, s)
      end
  end.

Definition loadFiltersFromStorage (s : State) : Completion unit * State :=
  match localStorage s !! storageKey s with
  | Some "" => (Returned tt, s)
  | Some savedFilters => try_catch (load_saved savedFilters s)
  | None => (Returned tt, s)
  end.

(** [options.page || document.body.dataset.page || 'loras'], for an
    options object whose [page], if any, is a string. *)
Definition page_of (optionsPage bodyPage : option string) : string :=
  match optionsPage with
  | Some (String c r) => String c r
  | _ =>
      match bodyPage with
      | Some (String c r) => String c r
      | _ => "loras"
      end
  end.

(** [new FilterManager(options)] on a page [env], with [options.page]
    and [document.body.dataset.page] as given ([None]: [undefined]): the
    filters start as the page state's filters, or empty, and [initialize]
    ends with [loadFiltersFromStorage].  (The base-model elements that
    [initialize] asks for arrive later, with a fetch.) *)
Definition new (optionsPage bodyPage : option string) (env : State)
  : Completion unit * State :=
  let s := with_currentPage (page_of optionsPage bodyPage) env in
  let s0 :=
    with_filters (match pageFilters s with Some f => f | None => empty_filters end) s in
  loadFiltersFromStorage s0.

(** The click handler that [createTagFilterElements] gives the [i]-th tag
    element (the toggle of a tag, kind "tags"). *)
Definition tagClick (i : nat) (s : State) : Completion unit * State :=
  match modelTags s !! i with
  | None => (Returned tt, s)
  | Some el =>
      let now_active := negb (active el) in
      let s1 := with_modelTags (<[i := set_active now_active el]> (modelTags s)) s in
      match toggle_in (tags (filters s1)) (tag_name el) now_active with
      | Threw e => (Threw e, s1)
      | Returned v =>
          let s2 := with_filters (mkFilters (baseModel (filters s1)) v) s1 in
          applyFilters false (updateActiveFiltersCount s2)
      end
  end.

(** The click handler that [createBaseModelTags] gives the [i]-th
    base-model element. *)
Definition baseModelClick (i : nat) (s : State) : Completion unit * State :=
  match baseModelTags s !! i with
  | None => (Returned tt, s)
  | Some el =>
      let now_active := negb (active el) in
      let s1 := with_baseModelTags (<[i := set_active now_active el]> (baseModelTags s)) s in
      match toggle_in (baseModel (filters s1)) (tag_name el) now_active with
      | Threw e => (Threw e, s1)
      | Returned v =>
          let s2 := with_filters (mkFilters v (tags (filters s1))) s1 in
          applyFilters false (updateActiveFiltersCount s2)
      end
  end.

End FilterManager.

(** *** [RecipeFilterManager] *)

Module RecipeFilterManager.
Import JS Filters.

Definition storageKey : string := "recipeFilters".

(** The count element is used without a check. *)
Definition updateActiveFiltersCount (s : State) : Completion unit * State :=
  match activeFiltersCount s with
  | Some b => (Returned tt, with_badge (Some (set_badge s b)) s)
  | None => (Threw TypeError, s)
  end.

(** [_applyFiltersByPageReload]: the parameters appended, then the
    navigation. *)
Definition _applyFiltersByPageReload (s : State) : Completion unit * State :=
  let bm := baseModel (filters s) in
  let tg := tags (filters s) in
  let p1 :=
    if positive (js_length bm) then
      match js_join bm with Returned x => Returned (Some x) | Threw e => Threw e end
    else Returned None in
  match p1 with
  | Threw e => (Threw e, s)
  | Returned base_models =>
      let p2 :=
        if positive (js_length tg) then
          match js_join tg with Returned x => Returned (Some x) | Threw e => Threw e end
        else Returned None in
      match p2 with
      | Threw e => (Threw e, s)
      | Returned tags_param => (Returned tt, call (Navigate base_models tags_param) s)
      end
  end.

Definition applyFilters (showToastNotification : bool) (s : State)
  : Completion unit * State :=
  let s1 :=
    with_localStorage
      (<[storageKey := JSON_stringify_filters (filters s)]> (localStorage s)) s in
  let reloaded :=
    match recipeManager s1 with
    | Some rm =>
        let s2 := if has_showLoading rm then call ShowLoading s1 else s1 in
        match await (LoadRecipesWith (filters s2)) s2 with
        | (Returned _, s3) =>
            (Returned tt, if has_hideLoading rm then call HideLoading s3 else s3)
        | (Threw _, s3) => _applyFiltersByPageReload s3
        end
    | None => _applyFiltersByPageReload s1
    end in
  andThen reloaded (show_filter_state showToastNotification).

Definition clearFilters (s : State) : Completion unit * State :=
  let s1 := with_filters empty_filters s in
  andThen (updateTagSelections s1) (fun s2 =>
    andThen (updateActiveFiltersCount s2) (fun s3 =>
      let s4 := with_localStorage (delete storageKey (localStorage s3)) s3 in
      match filterButton s4 with
      | None => (Threw TypeError, s4)
      | Some _ =>
          let s5 := with_filterButton (Some false) s4 in
          let reloaded :=
            match recipeManager s5 with
            | Some _ => await LoadRecipesPlain s5
            | None => (Returned tt, call (Navigate None None) s5)
            end in
          andThen reloaded (fun s6 =>
            (Returned tt, showToast "Recipe filters cleared" info s6))
      end)).

Definition load_saved (savedFilters : string) (s : State) : Completion unit * State :=
  match JSON_parse savedFilters with
  | Threw e => (Threw e, s)
  | Returned parsedFilters =>
      match get_prop parsedFilters "baseModel", get_prop parsedFilters "tags" with
      | Returned bm, Returned tg =>
          let s1 := with_filters (mkFilters (or_else bm (JArr [])) (or_else tg (JArr []))) s in
          andThen (updateTagSelections s1) (fun s2 =>
            andThen (updateActiveFiltersCount s2) (fun s3 =>
              if hasActiveFilters s3 then
                match filterButton s3 with
                | Some _ => (Returned tt, with_filterButton (Some true) s3)
                | None => (Threw TypeError, s3)
                end
              else (Returned tt, s3)))
      | Threw e, _ => (Threw e, s)
      | _, Threw e => (Threw e, s)
      end
  end.

Definition loadFiltersFromStorage (s : State) : Completion unit * State :=
  match localStorage s !! storageKey with
  | Some "" => (Returned tt, s)
  | Some savedFilters => try_catch (load_saved savedFilters s)
  | None => (Returned tt, s)
  end.

(** [new RecipeFilterManager()] on a page [env]: the filters start empty
    and [initialize] ends with [loadFiltersFromStorage]. *)
Definition new (env : State) : Completion unit * State :=
  loadFiltersFromStorage (with_filters empty_filters env).

Definition tagClick (i : nat) (s : State) : Completion unit * State :=
  match modelTags s !! i with
  | None => (Returned tt, s)
  | Some el =>
      let now_active := negb (active el) in
      let s1 := with_modelTags (<[i := set_active now_active el]> (modelTags s)) s in
      match toggle_in (tags (filters s1)) (tag_name el) now_active with
      | Threw e => (Threw e, s1)
      | Returned v =>
          let s2 := with_filters (mkFilters (baseModel (filters s1)) v) s1 in
          andThen (updateActiveFiltersCount s2) (applyFilters false)
      end
  end.

Definition baseModelClick (i : nat) (s : State) : Completion unit * State :=
  match baseModelTags s !! i with
  | None => (Returned tt, s)
  | Some el =>
      let now_active := negb (active el) in
      let s1 := with_baseModelTags (<[i := set_active now_active el]> (baseModelTags s)) s in
      match toggle_in (baseModel (filters s1)) (tag_name el) now_active with
      | Threw e => (Threw e, s1)
      | Returned v =>
          let s2 := with_filters (mkFilters v (tags (filters s1))) s1 in
          andThen (updateActiveFiltersCount s2) (applyFilters false)
      end
  end.

End RecipeFilterManager.

(** ** Texts *)

Module Text.

(** What is left of [s] after the prefix [p], if [s] starts with it. *)
Fixpoint strip_prefix (p s : string) : option string :=
  match p, s with
  | "", _ => Some s
  | String a p', String b s' => if Ascii.eqb a b then strip_prefix p' s' else None
  | _, _ => None
  end.

End Text.

(** ** The LoRA loader node: [mergeLoras] ([web/comfyui/lora_loader.js]) *)

Module LoraLoader.
Import JS Text.

(** A value as [mergeLoras] meets it: [undefined], the number [NaN], or
    a value JSON can write. *)
Inductive Value : Type :=
| Undefined
| NaN
| Json (v : JSValue).

(** The three properties the node reads or writes of an entry (an absent
    one is [Undefined]). *)
Record Lora : Type := mkLora {
  name : Value;
  strength : Value;
  active : Value
}.

(** An element of [lorasJson]: [None] stands for [null] or [undefined]. *)
Definition Element : Type := option Lora.

Definition prop_of (fs : list (string * JSValue)) (k : string) : Value :=
  match obj_get k fs with
  | Some v => Json v
  | None => Undefined
  end.

(** A parsed value as [lorasJson]: [None] when it is no array (it has no
    [find] method). *)
Definition element_of_json (v : JSValue) : Element :=
  match v with
  | JNull => None
  | JObj fs => Some (mkLora (prop_of fs "name") (prop_of fs "strength") (prop_of fs "active"))
  | _ => Some (mkLora Undefined Undefined Undefined)
  end.

Definition of_json (v : JSValue) : option (list Element) :=
  match v with
  | JArr l => Some (List.map element_of_json l)
  | _ => None
  end.

(** *** The pattern [/<lora:([^:]+):([\d\.]+)>/g]

    Each of the two groups is a greedy run that the next character of
    the pattern cannot extend, so backtracking never finds a match the
    maximal runs miss: the first group is the longest run without a
    colon, the second the longest run of digits and dots. *)

Fixpoint span (p : ascii -> bool) (s : string) : string * string :=
  match s with
  | String c r =>
      if p c then let (a, rest) := span p r in (String c a, rest)
      else ("", s)
  | "" => ("", "")
  end.

Definition not_colon (c : ascii) : bool := negb (Ascii.eqb c ":").

Definition digit_or_dot (c : ascii) : bool := (is_digit c || Ascii.eqb c ".")%bool.

(** A match that starts at the head of [s]: the two groups and the text
    after the match. *)
Definition match_at (s : string) : option (string * string * string) :=
  match strip_prefix "<lora:" s with
  | None => None
  | Some s1 =>
      match span not_colon s1 with
      | ("", _) => None
      | (group1, String ":" s2) =>
          match span digit_or_dot s2 with
          | ("", _) => None
          | (group2, String ">" s3) => Some (group1, group2, s3)
          | _ => None
          end
      | _ => None
      end
  end.

(** The loop of [pattern.exec]: the leftmost match from [lastIndex] on,
    then on from the end of that match.  [skip] counts the characters of
    the last match still to pass. *)
Fixpoint exec_all (skip : nat) (s : string) : list (string * string) :=
  match s with
  | "" => []
  | String _ r =>
      match skip with
      | S k => exec_all k r
      | O =>
          match match_at s with
          | Some (group1, group2, rest) =>
              (group1, group2)
                :: exec_all (String.length s - String.length rest - 1) r
          | None => exec_all 0 r
          end
      end
  end.

(** [Number(text)] on the texts the second group can hold: digits with
    at most one dot make a decimal, anything else is [NaN]. *)
Definition to_number (text : string) : Value :=
  let (ip, r) := span_digits text in
  match r with
  | "" => Json (JNum (to_double (normal_number false ip (Z.of_nat (String.length ip)))))
  | String "." r1 =>
      let (fp, r2) := span_digits r1 in
      match r2, ip, fp with
      | "", "", "" => NaN
      | "", _, _ =>
          Json (JNum (to_double (normal_number false (ip ++ fp) (Z.of_nat (String.length ip)))))
      | _, _, _ => NaN
      end
  | _ => NaN
  end.

(** [l.name === name]. *)
Definition is_name (n : string) (v : Value) : bool :=
  match v with
  | Json (JStr x) => String.eqb x n
  | _ => false
  end.

(** [lorasJson.find(l => l.name === name)]: reading [name] of [null] or
    [undefined] throws. *)
Fixpoint find (n : string) (l : list Element) : Completion (option Lora) :=
  match l with
  | [] => Returned None
  | None :: _ => Threw TypeError
  | Some x :: r => if is_name n (name x) then Returned (Some x) else find n r
  end.

(** The entry pushed for one match. *)
Definition entry (lorasJson : option (list Element)) (m : string * string)
  : Completion Lora :=
  match lorasJson with
  | None => Threw TypeError
  | Some l =>
      match find (fst m) l with
      | Threw e => Threw e
      | Returned (Some existingLora) =>
          Returned (mkLora (Json (JStr (fst m))) (strength existingLora) (active existingLora))
      | Returned None =>
          Returned (mkLora (Json (JStr (fst m))) (to_number (snd m)) (Json (JBool true)))
      end
  end.

Fixpoint entries (lorasJson : option (list Element)) (ms : list (string * string))
  : Completion (list Lora) :=
  match ms with
  | [] => Returned []
  | m :: r =>
      match entry lorasJson m with
      | Threw e => Threw e
      | Returned x =>
          match entries lorasJson r with
          | Threw e => Threw e
          | Returned xs => Returned (x :: xs)
          end
      end
  end.

Definition mergeLoras (lorasText : string) (lorasJson : option (list Element))
  : Completion (list Lora) :=
  entries lorasJson (exec_all 0 lorasText).

(** The merged entries as the widget's value, handed back to
    [mergeLoras] by the callback of the text widget. *)
Definition as_value (result : list Lora) : option (list Element) :=
  Some (List.map Some result).

End LoraLoader.

(** ** The page around the selection manager: [createLoraCard],
    [updateCardsForBulkMode] and [toggleBulkMode] *)

Module BulkPage.
Import JS Bulk.

(** *** [createLoraCard] *)

Fixpoint ends_with (suffix s : string) : bool :=
  (String.eqb suffix s ||
   match s with
   | "" => false
   | String _ r => ends_with suffix r
   end)%bool.

(** [card.dataset.x = lora.y]: the attribute holds the text of the
    property, [undefined] for a missing one; the conversion of an object
    may throw. *)
Definition dataset_of (lora : list (string * JSValue)) (k : string) : Completion string :=
  to_string_opt (obj_get k lora).

Definition bind {A B : Type} (c : Completion A) (k : A -> Completion B) : Completion B :=
  match c with
  | Returned a => k a
  | Threw e => Threw e
  end.

Notation "'do' x <- c ; k" := (bind c (fun x => k))
  (at level 10, x name, c at level 100, k at level 200).

(** [state.selectedLoras.has(lora.file_path)]: the set holds strings
    only. *)
Definition has_path (file_path : option JSValue) (sel : list string) : bool :=
  match file_path with
  | Some (JStr p) => set_has p sel
  | _ => false
  end.

(** [if (lora.modelDescription) card.dataset.modelDescription = ...]. *)
Definition description_of (lora : list (string * JSValue)) : Completion unit :=
  match obj_get "modelDescription" lora with
  | Some v => if truthy v then do _ <- to_string v ; Returned tt else Returned tt
  | None => Returned tt
  end.

(** [version ? `${previewUrl}?t=${version}` : previewUrl]. *)
Definition versioned (previewUrl : JSValue) (version : option JSValue) : Completion JSValue :=
  match version with
  | Some v =>
      if truthy v then
        do url <- to_string previewUrl ;
        do t <- to_string v ;
        Returned (JStr (url ++ "?t=" ++ t))
      else Returned previewUrl
  | None => Returned previewUrl
  end.

(** The card built for an entry of the listing (an object with the given
    fields; the map of preview versions is keyed by strings).  The data
    attributes are set in the order of the source, then the preview URL
    is built, then the markup.  [resolve] is the URL the browser makes of
    the text of a [src] attribute; the texts put into the markup are
    taken to hold no markup of their own. *)
Definition createLoraCard (resolve : string -> string) (bulkMode : bool)
    (selectedLoras : list string) (previewVersions : gmap string JSValue)
    (lora : list (string * JSValue))
  : Completion Card :=
  do _ <- dataset_of lora "sha256" ;
  do filepath <- dataset_of lora "file_path" ;
  do name <- dataset_of lora "model_name" ;
  do file_name <- dataset_of lora "file_name" ;
  do _ <- dataset_of lora "folder" ;
  do _ <- dataset_of lora "modified" ;
  do _ <- dataset_of lora "file_size" ;
  do _ <- dataset_of lora "from_civitai" ;
  do _ <- dataset_of lora "base_model" ;
  do usage_tips <- dataset_of lora "usage_tips" ;
  do _ <- dataset_of lora "notes" ;
  do _ <- description_of lora ;
  let file_path := obj_get "file_path" lora in
  let marked := (bulkMode && has_path file_path selectedLoras)%bool in
  let version :=
    match file_path with
    | Some (JStr p) => previewVersions !! p
    | _ => None
    end in
  let previewUrl :=
    or_else (obj_get "preview_url" lora) (JStr "/loras_static/images/no-preview.png") in
  do versionedPreviewUrl <- versioned previewUrl version ;
  match previewUrl, versionedPreviewUrl with
  | JStr url, JStr versioned_url =>
      let is_video := ends_with ".mp4" url in
      Returned
        (mkCard filepath (Some file_name) (Some usage_tips) (Some name)
           (if is_video then None else Some (resolve versioned_url)) is_video
           (if is_video then Some (resolve versioned_url) else None) marked)
  | _, _ => Threw TypeError
  end.

(** *** The page *)

(** The callbacks [toggleBulkMode] hands to [setTimeout]. *)
Inductive PanelCallback : Type :=
| AddVisibleClass
| AddHiddenClass.

Record Page : Type := mkPage {
  core : State;
  bulkBtn : option bool;                      (* the button, with its active class *)
  body_bulk_mode : bool;                      (* the bulk-mode class of the body *)
  actions : list string;                      (* per card, the display of its action groups *)
  panel_timers : list (nat * PanelCallback);  (* pending timeouts: delay, callback *)
  previewVersions : gmap string JSValue
}.

Definition with_core (v : State) (p : Page) : Page :=
  mkPage v (bulkBtn p) (body_bulk_mode p) (actions p) (panel_timers p) (previewVersions p).
Definition with_bulkBtn (v : option bool) (p : Page) : Page :=
  mkPage (core p) v (body_bulk_mode p) (actions p) (panel_timers p) (previewVersions p).
Definition with_body (v : bool) (p : Page) : Page :=
  mkPage (core p) (bulkBtn p) v (actions p) (panel_timers p) (previewVersions p).
Definition with_actions (v : list string) (p : Page) : Page :=
  mkPage (core p) (bulkBtn p) (body_bulk_mode p) v (panel_timers p) (previewVersions p).
Definition with_panel_timers (v : list (nat * PanelCallback)) (p : Page) : Page :=
  mkPage (core p) (bulkBtn p) (body_bulk_mode p) (actions p) v (previewVersions p).
Definition with_panel (v : Panel) (p : Page) : Page :=
  with_core (with_bulkPanel (Some v) (core p)) p.

(** A call of a method of the manager on the page. *)
Definition on_core (r : Completion unit * State) (p : Page) : Completion unit * Page :=
  (fst r, with_core (snd r) p).

Definition all_display (d : string) (p : Page) : Page :=
  with_actions (List.map (fun _ => d) (actions p)) p.

(** *** [updateCardsForBulkMode] *)

Definition updateCardsForBulkMode (fuel : nat) (isBulkMode : bool) (p : Page)
  : Completion unit * Page :=
  let p1 := with_body isBulkMode (with_core (with_bulkMode isBulkMode (core p)) p) in
  let p2 := all_display (if isBulkMode then "none" else "flex") p1 in
  if isBulkMode then on_core (applySelectionState fuel (core p2)) p2
  else (Returned tt, p2).

(** *** [toggleBulkMode] *)

Definition toggleBulkMode (fuel : nat) (p : Page) : Completion unit * Page :=
  let mode := negb (bulkMode (core p)) in
  let p1 := with_core (with_bulkMode mode (core p)) p in
  match bulkBtn p1 with
  | None => (Threw TypeError, p1)
  | Some _ =>
      let p2 := with_bulkBtn (Some mode) p1 in
      match bulkPanel (core p2) with
      | None => (Threw TypeError, p2)
      | Some panel =>
          let shown :=
            if mode then
              (Returned tt,
               with_panel_timers (panel_timers p2 ++ [(10, AddVisibleClass)])%list
                 (with_panel (mkPanel false (panel_visible panel)) p2))
            else
              let p3 :=
                with_panel_timers (panel_timers p2 ++ [(400, AddHiddenClass)])%list
                  (with_panel (mkPanel (panel_hidden panel) false) p2) in
              on_core (hideThumbnailStrip fuel (core p3)) p3 in
          match shown with
          | (Threw e, p4) => (Threw e, p4)
          | (Returned _, p4) =>
              match updateCardsForBulkMode fuel mode p4 with
              | (Threw e, p5) => (Threw e, p5)
              | (Returned _, p5) =>
                  if negb (bulkMode (core p5)) then
                    match on_core (clearSelection fuel (core p5)) p5 with
                    | (Threw e, p6) => (Threw e, p6)
                    | (Returned _, p6) => (Returned tt, all_display "flex" p6)
                    end
                  else (Returned tt, p5)
              end
          end
      end
  end.

(** The click handler of a card: a selection toggle in bulk mode, else
    the modal of the card (which leaves the page as it is). *)
Definition cardClick (fuel : nat) (i : nat) (p : Page) : Completion unit * Page :=
  if bulkMode (core p) then on_core (toggleCardSelection fuel i (core p)) p
  else (Returned tt, p).

End BulkPage.

(** ** The filter panel: [toggleFilterPanel], [closeFilterPanel] and the
    click outside *)

Module FilterPanel.
Import JS Filters.

(** A manager with its panel.  [loadTopTags] and [updatePanelPositions]
    are counted, not run: the first starts a fetch, the second belongs to
    [uiHelpers.js]. *)
Record View : Type := mkView {
  manager : State;
  filterPanel : option bool;      (* the panel, with its hidden class *)
  tagsLoaded : bool;
  loadTopTags_calls : nat;
  updatePanelPositions_calls : nat
}.

Definition with_manager (v : State) (w : View) : View :=
  mkView v (filterPanel w) (tagsLoaded w) (loadTopTags_calls w)
    (updatePanelPositions_calls w).
Definition with_filterPanel (v : option bool) (w : View) : View :=
  mkView (manager w) v (tagsLoaded w) (loadTopTags_calls w)
    (updatePanelPositions_calls w).

(** Where a click lands: inside the panel, on the filter button or
    inside it, or anywhere else. *)
Inductive Target : Type :=
| InPanel
| AtButton
| Elsewhere.

Definition closeFilterPanel (w : View) : View :=
  let w1 :=
    match filterPanel w with
    | Some _ => with_filterPanel (Some true) w
    | None => w
    end in
  match filterButton (manager w1) with
  | Some _ => with_manager (with_filterButton (Some false) (manager w1)) w1
  | None => w1
  end.

Definition toggleFilterPanel (w : View) : Completion unit * View :=
  match filterPanel w with
  | None => (Returned tt, w)
  | Some true =>
      let w1 :=
        mkView (manager w) (Some false) (tagsLoaded w) (loadTopTags_calls w)
          (S (updatePanelPositions_calls w)) in
      match filterButton (manager w1) with
      | None => (Threw TypeError, w1)
      | Some _ =>
          let w2 := with_manager (with_filterButton (Some true) (manager w1)) w1 in
          if tagsLoaded w2 then (Returned tt, w2)
          else
            (Returned tt,
             mkView (manager w2) (filterPanel w2) true (S (loadTopTags_calls w2))
               (updatePanelPositions_calls w2))
      end
  | Some false => (Returned tt, closeFilterPanel w)
  end.

(** The document's click listener of a [FilterManager]. *)
Definition documentClick (target : Target) (w : View) : Completion unit * View :=
  match filterPanel w with
  | None => (Returned tt, w)
  | Some hidden =>
      match target with
      | InPanel | AtButton => (Returned tt, w)
      | Elsewhere =>
          match filterButton (manager w) with
          | None => (Threw TypeError, w)
          | Some _ => if hidden then (Returned tt, w) else (Returned tt, closeFilterPanel w)
          end
      end
  end.

(** The listener of a [RecipeFilterManager]: the panel is used without
    a check. *)
Definition recipeDocumentClick (target : Target) (w : View) : Completion unit * View :=
  match filterPanel w with
  | None => (Threw TypeError, w)
  | Some hidden =>
      match target with
      | InPanel | AtButton => (Returned tt, w)
      | Elsewhere =>
          match filterButton (manager w) with
          | None => (Threw TypeError, w)
          | Some _ => if hidden then (Returned tt, w) else (Returned tt, closeFilterPanel w)
          end
      end
  end.

(** A click on the filter button: the button's listener, then the
    document's. *)
Definition buttonClick (w : View) : Completion unit * View :=
  match toggleFilterPanel w with
  | (Threw e, w1) => (Threw e, snd (documentClick AtButton w1))
  | (Returned _, w1) => documentClick AtButton w1
  end.

End FilterPanel.

(** ** The recipe import dialog: tags and target path
    ([static/js/managers/ImportManager.js]) *)

Module ImportManager.
Import JS Text.

(** *** [String.prototype.trim], on UTF-8 text *)

(** The one-byte white space and line terminators. *)
Definition ascii_space (c : ascii) : bool :=
  let n := N_of_ascii c in (((9 <=? n) && (n <=? 13)) || (n =? 32))%N.

(** The white space after which the rest of a text goes on: [None] when
    the text does not start with white space.  The longer encodings
    are those of U+00A0, U+1680, U+2000 to U+200A, U+2028, U+2029,
    U+202F, U+205F, U+3000 and U+FEFF. *)
Definition after_space (s : string) : option string :=
  match s with
  | String c r =>
      if ascii_space c then Some r
      else
        match N_of_ascii c, r with
        | 194%N, String d r1 => if (N_of_ascii d =? 160)%N then Some r1 else None
        | 225%N, String d (String e r2) =>
            if ((N_of_ascii d =? 154) && (N_of_ascii e =? 128))%N then Some r2 else None
        | 226%N, String d (String e r2) =>
            let x := N_of_ascii e in
            if (N_of_ascii d =? 128)%N then
              if (((128 <=? x) && (x <=? 138)) || (x =? 168) || (x =? 169) || (x =? 175))%N
              then Some r2 else None
            else if ((N_of_ascii d =? 129) && (x =? 159))%N then Some r2 else None
        | 227%N, String d (String e r2) =>
            if ((N_of_ascii d =? 128) && (N_of_ascii e =? 128))%N then Some r2 else None
        | 239%N, String d (String e r2) =>
            if ((N_of_ascii d =? 187) && (N_of_ascii e =? 191))%N then Some r2 else None
        | _, _ => None
        end
  | "" => None
  end.

(** [fuel] bounds the number of characters passed. *)
Fixpoint trim_start (fuel : nat) (s : string) : string :=
  match fuel with
  | O => s
  | S f =>
      match after_space s with
      | Some r => trim_start f r
      | None => s
      end
  end.

Fixpoint only_space (fuel : nat) (s : string) : bool :=
  match fuel, s with
  | _, "" => true
  | O, _ => false
  | S f, _ =>
      match after_space s with
      | Some r => only_space f r
      | None => false
      end
  end.

Fixpoint trim_end (s : string) : string :=
  match s with
  | "" => ""
  | String c r => if only_space (String.length s) s then "" else String c (trim_end r)
  end.

Definition trim (s : string) : string := trim_end (trim_start (String.length s) s).

(** *** The tags of the recipe *)

Record State : Type := mkState {
  recipeTags : list string;
  tagInput : option string;              (* the value of #tagInput; None: no element *)
  tagsContainer : option string;         (* the innerHTML given to #tagsContainer *)
  selectedFolder : string;
  folderItems : list (string * bool);    (* .folder-item: data-folder, selected class *)
  importLoraRoot : option string;        (* the value of the select *)
  importNewFolder : option string;       (* the value of the input *)
  pathDisplay : option string            (* the text put in #importTargetPathDisplay *)
}.

Definition with_recipeTags (v : list string) (s : State) : State :=
  mkState v (tagInput s) (tagsContainer s) (selectedFolder s) (folderItems s)
    (importLoraRoot s) (importNewFolder s) (pathDisplay s).
Definition with_tagInput (v : option string) (s : State) : State :=
  mkState (recipeTags s) v (tagsContainer s) (selectedFolder s) (folderItems s)
    (importLoraRoot s) (importNewFolder s) (pathDisplay s).
Definition with_tagsContainer (v : option string) (s : State) : State :=
  mkState (recipeTags s) (tagInput s) v (selectedFolder s) (folderItems s)
    (importLoraRoot s) (importNewFolder s) (pathDisplay s).
Definition with_selectedFolder (v : string) (s : State) : State :=
  mkState (recipeTags s) (tagInput s) (tagsContainer s) v (folderItems s)
    (importLoraRoot s) (importNewFolder s) (pathDisplay s).
Definition with_folderItems (v : list (string * bool)) (s : State) : State :=
  mkState (recipeTags s) (tagInput s) (tagsContainer s) (selectedFolder s) v
    (importLoraRoot s) (importNewFolder s) (pathDisplay s).
Definition with_pathDisplay (v : option string) (s : State) : State :=
  mkState (recipeTags s) (tagInput s) (tagsContainer s) (selectedFolder s) (folderItems s)
    (importLoraRoot s) (importNewFolder s) v.

Definition includes (t : string) (l : list string) : bool := existsb (String.eqb t) l.

(** The markup of one tag, as the template literal writes it: the tag
    goes into it as it is, twice. *)
Definition tag_markup (tag : string) : string :=
  let nl := String "010"%char "" in
  let q := String dquote "" in
  nl ++ "            <div class=" ++ q ++ "recipe-tag" ++ q ++ ">" ++ nl
    ++ "                " ++ tag ++ nl
    ++ "                <i class=" ++ q ++ "fas fa-times" ++ q ++ " onclick=" ++ q
    ++ "importManager.removeTag('" ++ tag ++ "')" ++ q ++ "></i>" ++ nl
    ++ "            </div>" ++ nl
    ++ "        ".

Definition tags_markup (tags : list string) : string :=
  let q := String dquote "" in
  match tags with
  | [] => "<div class=" ++ q ++ "empty-tags" ++ q ++ ">No tags added</div>"
  | _ => join "" (List.map tag_markup tags)
  end.

Definition updateTagsDisplay (s : State) : Completion unit * State :=
  match tagsContainer s with
  | None => (Threw TypeError, s)
  | Some _ => (Returned tt, with_tagsContainer (Some (tags_markup (recipeTags s))) s)
  end.

Definition addTag (s : State) : Completion unit * State :=
  match tagInput s with
  | None => (Threw TypeError, s)
  | Some value =>
      let tag := trim value in
      if String.eqb tag "" then (Returned tt, s)
      else
        let shown :=
          if includes tag (recipeTags s) then (Returned tt, s)
          else updateTagsDisplay (with_recipeTags (recipeTags s ++ [tag])%list s) in
        match shown with
        | (Threw e, s1) => (Threw e, s1)
        | (Returned _, s1) => (Returned tt, with_tagInput (Some "") s1)
        end
  end.

Definition removeTag (tag : string) (s : State) : Completion unit * State :=
  updateTagsDisplay
    (with_recipeTags (List.filter (fun t => negb (String.eqb t tag)) (recipeTags s)) s).

(** *** The target path *)

(** [el?.value?.trim()]: [None] is [undefined]. *)
Definition trimmed (value : option string) : option string := option_map trim value.

Definition nonempty (o : option string) : bool :=
  match o with
  | Some "" | None => false
  | Some _ => true
  end.

Definition text_of (o : option string) : string :=
  match o with
  | Some t => t
  | None => ""
  end.

Definition updateTargetPath (s : State) : State :=
  match pathDisplay s with
  | None => s
  | Some _ =>
      let loraRoot := text_of (importLoraRoot s) in
      let newFolder := text_of (trimmed (importNewFolder s)) in
      let fullPath :=
        if String.eqb loraRoot "" then "Select a LoRA root directory"
        else
          loraRoot
            ++ (if String.eqb (selectedFolder s) "" then "" else "/" ++ selectedFolder s)
            ++ (if String.eqb newFolder "" then "" else "/" ++ newFolder) in
      with_pathDisplay (Some fullPath) s
  end.

(** The click handler [initializeFolderBrowser] installs, for a click
    on the [i]-th folder item. *)
Definition folderClick (i : nat) (s : State) : State :=
  match folderItems s !! i with
  | None => s
  | Some (folder, true) =>
      updateTargetPath
        (with_selectedFolder "" (with_folderItems (<[i := (folder, false)]> (folderItems s)) s))
  | Some (folder, false) =>
      updateTargetPath
        (with_selectedFolder folder
           (with_folderItems
              (<[i := (folder, true)]> (List.map (fun f => (fst f, false)) (folderItems s)))
              s))
  end.

(** [text.replace(pattern, '')] for a string pattern: the first
    occurrence goes. *)
Fixpoint remove_first (pattern text : string) : string :=
  match strip_prefix pattern text with
  | Some rest => rest
  | None =>
      match text with
      | "" => ""
      | String c r => String c (remove_first pattern r)
      end
  end.

(** The part of [saveRecipe] that builds the download target, once a
    root is chosen: the target path and the [relative_path] sent with
    each download. *)
Definition targetPath (loraRoot : string) (s : State) : string :=
  loraRoot
    ++ (if String.eqb (selectedFolder s) "" then "" else "/" ++ selectedFolder s)
    ++ (if nonempty (trimmed (importNewFolder s))
        then "/" ++ text_of (trimmed (importNewFolder s)) else "").

Definition relative_path (loraRoot : string) (s : State) : string :=
  remove_first (loraRoot ++ "/") (targetPath loraRoot s).

End ImportManager.

(** ** Theme and folder tags ([static/js/utils/uiHelpers.js]) *)

Module UiHelpers.
Import JS.

Record Page : Type := mkPage {
  theme : option string;                   (* document.body.dataset.theme *)
  localStorage : gmap string string;
  folderTags : list (option string * bool); (* .folder-tags .tag: data-folder, active class *)
  activeFolder : option (option string);   (* state.activeFolder: null, or the tag's folder *)
  reloads : nat                            (* calls of resetAndReload *)
}.

(** [localStorage.getItem('theme') || 'dark']. *)
Definition initTheme (p : Page) : Page :=
  let stored :=
    match localStorage p !! "theme" with
    | Some "" | None => "dark"
    | Some t => t
    end in
  mkPage (Some stored) (localStorage p) (folderTags p) (activeFolder p) (reloads p).

Definition toggleTheme (p : Page) : Page :=
  let next :=
    match theme p with
    | Some t => if String.eqb t "light" then "dark" else "light"
    | None => "light"
    end in
  mkPage (Some next) (<["theme" := next]> (localStorage p)) (folderTags p) (activeFolder p)
    (reloads p).

(** A click on the [i]-th folder tag. *)
Definition toggleFolder (i : nat) (p : Page) : Page :=
  match folderTags p !! i with
  | None => p
  | Some (folder, wasActive) =>
      let cleared := List.map (fun t => (fst t, false)) (folderTags p) in
      if wasActive : bool then
        mkPage (theme p) (localStorage p) cleared None (S (reloads p))
      else
        mkPage (theme p) (localStorage p) (<[i := (folder, true)]> cleared) (Some folder)
          (S (reloads p))
  end.

End UiHelpers.

(** ** Properties of the selection manager *)

Module BulkProofs.
Import JS Bulk.

(** The part of the state the count element and the strip never touch. *)
Definition same_selection (s s' : State) : Prop :=
  cards s' = cards s /\ selectedLoras s' = selectedLoras s
  /\ loraMetadataCache s' = loraMetadataCache s
  /\ toasts s' = toasts s /\ clipboard s' = clipboard s.

Lemma same_selection_refl s : same_selection s s.
Proof. repeat split. Qed.

Lemma count_and_strip_keep_selection fuel :
  forall s,
    same_selection s (snd (updateSelectedCount fuel s))
    /\ same_selection s (snd (hideThumbnailStrip fuel s)).
Proof.
  induction fuel as [|f IH]; intros s.
  - split; apply same_selection_refl.
  - split; simpl.
    + destruct (countElement s); [|apply same_selection_refl].
      destruct (set_size (selectedLoras s) =? 0)%nat; [|repeat split].
      exact (proj2 (IH _)).
    + destruct (strips s) as [|st rest]; [apply same_selection_refl|].
      pose proof (proj1 (IH (with_isStripVisible false
                               (with_strips (mark_hidden st :: rest) s)))) as H.
      destruct (updateSelectedCount f _) as [[u|e] s2]; exact H.
Qed.

Lemma updateSelectedCount_keeps fuel s :
  same_selection s (snd (updateSelectedCount fuel s)).
Proof. exact (proj1 (count_and_strip_keep_selection fuel s)). Qed.

Lemma hideThumbnailStrip_keeps fuel s :
  same_selection s (snd (hideThumbnailStrip fuel s)).
Proof. exact (proj2 (count_and_strip_keep_selection fuel s)). Qed.

Lemma updateThumbnailStrip_keeps s : same_selection s (updateThumbnailStrip s).
Proof. unfold updateThumbnailStrip. destruct (strips s); repeat split. Qed.

(** The state [toggleCardSelection] hands to [updateSelectedCount]. *)
Definition toggled (i : nat) (card : Card) (s : State) : State :=
  if selected card then
    with_selectedLoras (set_delete (filepath card) (selectedLoras s))
      (with_cards (<[i := set_selected false card]> (cards s)) s)
  else
    with_cache (<[filepath card := card_metadata card]> (loraMetadataCache s))
      (with_selectedLoras (set_add (filepath card) (selectedLoras s))
         (with_cards (<[i := set_selected true card]> (cards s)) s)).

Lemma toggleCardSelection_selection fuel i s card :
  cards s !! i = Some card ->
  same_selection (toggled i card s) (snd (toggleCardSelection fuel i s)).
Proof.
  intros Hc. unfold toggleCardSelection. rewrite Hc. fold (toggled i card s).
  pose proof (updateSelectedCount_keeps fuel (toggled i card s)) as H.
  destruct (updateSelectedCount fuel (toggled i card s)) as [[u|e] s2]; simpl in *;
    [|exact H].
  destruct (isStripVisible s2); [|exact H].
  destruct H as (H1 & H2 & H3 & H4 & H5).
  destruct (updateThumbnailStrip_keeps s2) as (K1 & K2 & K3 & K4 & K5).
  repeat split; congruence.
Qed.

Lemma toggleCardSelection_no_card fuel i s :
  cards s !! i = None -> toggleCardSelection fuel i s = (Returned tt, s).
Proof. intros Hc. unfold toggleCardSelection. now rewrite Hc. Qed.

(** *** The JS Set operations *)

Lemma set_has_true k l : set_has k l = true <-> In k l.
Proof.
  unfold set_has. rewrite existsb_exists. split.
  - intros (x & Hx & E). apply String.eqb_eq in E. now subst.
  - intros H. exists k. split; [exact H|apply String.eqb_refl].
Qed.

Lemma set_has_add k k' l :
  set_has k (set_add k' l) = (String.eqb k k' || set_has k l)%bool.
Proof.
  unfold set_add. destruct (set_has k' l) eqn:E.
  - destruct (String.eqb_spec k k') as [->|]; [now rewrite E|reflexivity].
  - unfold set_has. rewrite existsb_app. simpl. rewrite orb_false_r. apply orb_comm.
Qed.

Lemma set_has_delete k k' l :
  set_has k (set_delete k' l) = (negb (String.eqb k k') && set_has k l)%bool.
Proof.
  unfold set_has, set_delete. induction l as [|x l IH]; simpl.
  - now rewrite andb_false_r.
  - destruct (String.eqb_spec k' x) as [->|Hne]; simpl.
    + rewrite IH. destruct (String.eqb_spec k x) as [_|]; simpl; [|reflexivity].
      now destruct (existsb _ l).
    + rewrite IH. destruct (String.eqb_spec k x) as [->|]; simpl; [|reflexivity].
      destruct (String.eqb_spec x k') as [->|]; [congruence|reflexivity].
Qed.

(** *** Toggling cards *)

(** A run of clicks on rendered cards, each given by the index of the
    card; what a call throws after its updates does not stop the next
    click. *)
Definition toggles (fuel : nat) (clicks : list nat) (s : State) : State :=
  fold_left (fun st i => snd (toggleCardSelection fuel i st)) clicks s.

(** The keys of the rendered cards, in document order. *)
Definition keys (s : State) : list string := filepath <$> cards s.

(** Every rendered card carries the marker exactly when its key is
    selected. *)
Definition in_sync (s : State) : Prop :=
  Forall (fun c => selected c = set_has (filepath c) (selectedLoras s)) (cards s).

(** How many of the clicks hit a card whose key is [k]. *)
Definition count_toggles (ks : list string) (k : string) (clicks : list nat) : nat :=
  length (List.filter (fun i => bool_decide (ks !! i = Some k)) clicks).

Lemma toggled_card fuel i s card :
  cards s !! i = Some card ->
  let s' := snd (toggleCardSelection fuel i s) in
  cards s' = <[i := set_selected (negb (selected card)) card]> (cards s)
  /\ selectedLoras s' =
       if selected card then set_delete (filepath card) (selectedLoras s)
       else set_add (filepath card) (selectedLoras s).
Proof.
  intros Hc s'. destruct (toggleCardSelection_selection fuel i s card Hc) as (H1 & H2 & _).
  subst s'. rewrite H1, H2. unfold toggled. destruct (selected card); split; reflexivity.
Qed.

Lemma toggle_step fuel i s :
  NoDup (keys s) -> in_sync s ->
  let s' := snd (toggleCardSelection fuel i s) in
  keys s' = keys s /\ in_sync s'
  /\ forall k, set_has k (selectedLoras s') =
               xorb (set_has k (selectedLoras s)) (bool_decide (keys s !! i = Some k)).
Proof.
  intros Hnd Hsync s'. destruct (cards s !! i) as [card|] eqn:Hc.
  - destruct (toggled_card fuel i s card Hc) as [Hcards Hsel]. fold s' in Hcards, Hsel.
    assert (Hk : keys s !! i = Some (filepath card)).
    { unfold keys. rewrite list_lookup_fmap, Hc. reflexivity. }
    assert (Hmark : selected card = set_has (filepath card) (selectedLoras s)).
    { unfold in_sync in Hsync. rewrite Forall_lookup in Hsync. exact (Hsync i card Hc). }
    assert (Hmem : forall k, set_has k (selectedLoras s') =
               xorb (set_has k (selectedLoras s)) (bool_decide (keys s !! i = Some k))).
    { intros k. rewrite Hsel, Hk.
      destruct (selected card) eqn:Hs.
      - rewrite set_has_delete. destruct (String.eqb_spec k (filepath card)) as [->|Hne].
        + rewrite <- Hmark. rewrite bool_decide_eq_true_2 by reflexivity. reflexivity.
        + rewrite bool_decide_eq_false_2 by congruence. simpl. now rewrite xorb_false_r.
      - rewrite set_has_add. destruct (String.eqb_spec k (filepath card)) as [->|Hne].
        + rewrite <- Hmark. rewrite bool_decide_eq_true_2 by reflexivity. reflexivity.
        + rewrite bool_decide_eq_false_2 by congruence. simpl. now rewrite xorb_false_r. }
    assert (Hkeys : keys s' = keys s).
    { unfold keys. rewrite Hcards, list_fmap_insert. simpl.
      apply list_insert_id. rewrite list_lookup_fmap, Hc. reflexivity. }
    split; [exact Hkeys|]. split; [|exact Hmem].
    unfold in_sync. rewrite Forall_lookup. intros j c Hj. rewrite Hcards in Hj.
    destruct (decide (i = j)) as [->|Hij].
    + rewrite list_lookup_insert_eq in Hj by (eapply lookup_lt_Some; exact Hc).
      injection Hj as <-. simpl. rewrite Hmem, Hk, <- Hmark.
      rewrite bool_decide_eq_true_2 by reflexivity. now destruct (selected card).
    + rewrite list_lookup_insert_ne in Hj by exact Hij.
      unfold in_sync in Hsync. rewrite Forall_lookup in Hsync.
      rewrite (Hsync j c Hj), Hmem, Hk.
      rewrite bool_decide_eq_false_2; [now rewrite xorb_false_r|].
      intros [= E]. apply Hij.
      apply (NoDup_lookup (keys s) i j (filepath card)); [exact Hnd|exact Hk|].
      unfold keys. rewrite list_lookup_fmap, Hj. simpl. now rewrite E.
  - subst s'. rewrite toggleCardSelection_no_card by exact Hc. simpl.
    split; [reflexivity|]. split; [exact Hsync|]. intros k.
    rewrite bool_decide_eq_false_2; [now rewrite xorb_false_r|].
    unfold keys. rewrite list_lookup_fmap, Hc. discriminate.
Qed.

Lemma odd_S n : Nat.odd (S n) = negb (Nat.odd n).
Proof. rewrite Nat.odd_succ. now rewrite <- Nat.negb_odd. Qed.

(** C1 (as amended): when the rendered cards have pairwise distinct keys
    and each card's marker agrees with the membership of its key, then
    after any run of [toggleCardSelection] calls on rendered cards the
    membership of every key is its original membership flipped exactly
    when the key was toggled an odd number of times. *)
Theorem toggle_parity (fuel : nat) (clicks : list nat) (s : State) :
  NoDup (keys s) -> in_sync s ->
  forall k,
    set_has k (selectedLoras (toggles fuel clicks s)) =
    xorb (set_has k (selectedLoras s)) (Nat.odd (count_toggles (keys s) k clicks)).
Proof.
  revert s. induction clicks as [|i clicks IH]; intros s Hnd Hsync k.
  - simpl. now rewrite xorb_false_r.
  - destruct (toggle_step fuel i s Hnd Hsync) as (Hkeys & Hsync' & Hmem).
    unfold toggles. simpl. fold (toggles fuel clicks (snd (toggleCardSelection fuel i s))).
    rewrite IH; [|rewrite Hkeys; exact Hnd|exact Hsync'].
    rewrite Hmem, Hkeys. unfold count_toggles. simpl.
    destruct (bool_decide (keys s !! i = Some k)); simpl.
    + rewrite odd_S. now destruct (set_has k (selectedLoras s)), (Nat.odd _).
    + now rewrite xorb_false_r.
Qed.

(** Two cards with distinct keys, markers in agreement, and a run of
    three clicks. *)
Definition plain_card (k : string) (mark : bool) : Card :=
  mkCard k (Some k) None (Some k) None false None mark.

Definition page (cs : list Card) (sel : list string) : State :=
  mkState true cs sel ∅ false [] 0 (Some (mkCount "" false false)) [] [] [] true
    (Some (mkPanel true false)).

Lemma toggle_parity_witness :
  set_has "a" (selectedLoras
     (toggles 8 [0; 1; 0] (page [plain_card "a" false; plain_card "b" true] ["b"]))) =
  xorb (set_has "a" ["b"]) (Nat.odd (count_toggles ["a"; "b"] "a" [0; 1; 0])).
Proof.
  apply (toggle_parity 8 [0; 1; 0] (page [plain_card "a" false; plain_card "b" true] ["b"])).
  - apply (bool_decide_unpack (NoDup ["a"; "b"])). vm_compute. exact I.
  - repeat constructor.
Defined.

(** C1, as stated, fails where a card without the marker shows a selected
    key: one toggle leaves the key selected. *)
Lemma toggle_parity_counterexample :
  ~ (forall (fuel : nat) (clicks : list nat) (s : State) (k : string),
        set_has k (selectedLoras (toggles fuel clicks s)) =
        xorb (set_has k (selectedLoras s)) (Nat.odd (count_toggles (keys s) k clicks))).
Proof.
  intros H.
  specialize (H 8 [0] (page [plain_card "a" false] ["a"]) "a").
  vm_compute in H. discriminate H.
Qed.

(** Two cards with one key lose the parity as well, from a state in which
    every marker agrees with the set. *)
Lemma toggle_parity_shared_key :
  let s := page [plain_card "a" false; plain_card "a" false] [] in
  in_sync s /\ set_has "a" (selectedLoras (toggles 8 [0; 1] s)) = true.
Proof. split; [repeat constructor|reflexivity]. Qed.

(** C8: after [toggleCardSelection] on a rendered card, whatever the
    marker and the set said before and however the call ends, the card
    carries the marker exactly when its key is in the selection set. *)
Theorem toggle_marker_matches_membership (fuel : nat) (i : nat) (s : State) (card : Card) :
  cards s !! i = Some card ->
  exists card',
    cards (snd (toggleCardSelection fuel i s)) !! i = Some card'
    /\ filepath card' = filepath card
    /\ selected card' =
         set_has (filepath card) (selectedLoras (snd (toggleCardSelection fuel i s))).
Proof.
  intros Hc. destruct (toggled_card fuel i s card Hc) as [Hcards Hsel].
  exists (set_selected (negb (selected card)) card).
  rewrite Hcards, Hsel.
  rewrite list_lookup_insert_eq by (eapply lookup_lt_Some; exact Hc).
  split; [reflexivity|]. split; [reflexivity|]. simpl.
  destruct (selected card); simpl.
  - rewrite set_has_delete, String.eqb_refl. reflexivity.
  - rewrite set_has_add, String.eqb_refl. reflexivity.
Qed.

(** The marker is absent, the key is in the set: they disagree before the
    call and agree after it. *)
Lemma toggle_marker_matches_membership_witness :
  exists card',
    cards (snd (toggleCardSelection 8 0 (page [plain_card "a" false] ["a"]))) !! 0
      = Some card'
    /\ filepath card' = "a"
    /\ selected card' =
         set_has "a" (selectedLoras
                        (snd (toggleCardSelection 8 0 (page [plain_card "a" false] ["a"])))).
Proof.
  apply (toggle_marker_matches_membership 8 0 (page [plain_card "a" false] ["a"])
           (plain_card "a" false)).
  reflexivity.
Defined.

(** *** Clearing the selection *)

(** Whatever else happens, [clearSelection] empties the set and takes the
    marker off every rendered card. *)
Lemma clearSelection_clears fuel s :
  selectedLoras (snd (clearSelection fuel s)) = []
  /\ Forall (fun c => selected c = false) (cards (snd (clearSelection fuel s))).
Proof.
  unfold clearSelection.
  set (s2 := with_selectedLoras [] (with_cards (List.map (set_selected false) (cards s)) s)).
  assert (Hgoal : forall s', same_selection s2 s' ->
            selectedLoras s' = [] /\ Forall (fun c => selected c = false) (cards s')).
  { intros s' (H1 & H2 & _). rewrite H1, H2. split; [reflexivity|].
    simpl. apply Forall_forall. intros c Hin. apply list_elem_of_In, in_map_iff in Hin.
    destruct Hin as (c0 & <- & _). reflexivity. }
  pose proof (updateSelectedCount_keeps fuel s2) as H.
  destruct (updateSelectedCount fuel s2) as [[u|e] s3]; simpl in *.
  - apply Hgoal. pose proof (hideThumbnailStrip_keeps fuel s3) as K.
    destruct H as (H1 & H2 & H3 & H4 & H5), K as (K1 & K2 & K3 & K4 & K5).
    repeat split; congruence.
  - apply Hgoal, H.
Qed.

(** With no strip in the document the call returns and there is still
    none. *)
Lemma clearSelection_no_strip fuel s :
  strips s = [] -> 2 <= fuel ->
  fst (clearSelection fuel s) = Returned tt /\ strips (snd (clearSelection fuel s)) = [].
Proof.
  intros Hs Hf. destruct fuel as [|[|f]]; [lia|lia|].
  unfold clearSelection. simpl. destruct (countElement s); repeat (simpl; rewrite ?Hs);
    split; reflexivity.
Qed.

(** With one strip and no count element the strip goes once the timers
    have fired. *)
Lemma clearSelection_without_count fuel s st :
  strips s = [st] -> countElement s = None -> timers s = [] -> 2 <= fuel ->
  fst (clearSelection fuel s) = Returned tt
  /\ strips (run_timers (snd (clearSelection fuel s))) = [].
Proof.
  intros Hs Hc Ht Hf. destruct fuel as [|[|f]]; [lia|lia|].
  unfold clearSelection. repeat (simpl; rewrite ?Hc, ?Hs, ?Ht).
  unfold run_timers. simpl. rewrite Nat.eqb_refl. split; reflexivity.
Qed.

(** With a strip in the document, a count element and an empty set the two
    methods call each other without end: at every stack depth the call
    throws, the strip stays and no timer is queued. *)
Lemma count_and_strip_overflow fuel :
  forall s, selectedLoras s = [] -> countElement s <> None -> strips s <> [] ->
    let overflow (r : Completion unit * State) :=
      fst r = Threw RangeError
      /\ strip_id <$> strips (snd r) = strip_id <$> strips s
      /\ timers (snd r) = timers s in
    overflow (updateSelectedCount fuel s) /\ overflow (hideThumbnailStrip fuel s).
Proof.
  induction fuel as [|f IH]; intros s Hsel Hc Hst; simpl.
  - repeat split.
  - split.
    + destruct (countElement s) as [el|]; [|congruence]. rewrite Hsel. simpl.
      apply (IH (with_countElement _ s)); simpl; [exact Hsel|discriminate|exact Hst].
    + destruct (strips s) as [|st rest] eqn:E; [congruence|].
      set (s1 := with_isStripVisible false (with_strips (mark_hidden st :: rest) s)).
      destruct (IH s1) as [(H1 & H2 & H3) _]; simpl; [exact Hsel|exact Hc|discriminate|].
      destruct (updateSelectedCount f s1) as [[u|e] s2]; simpl in *; [discriminate|].
      repeat split; assumption.
Qed.

(** C9 (what the code does at the failing input): called with the preview
    strip in the document and the count element on the page,
    [clearSelection] never returns normally: at every stack depth it ends
    in a [RangeError], the strip is still in the document and no removal
    is queued. *)
Theorem clearSelection_overflows (fuel : nat) (s : State) :
  countElement s <> None -> strips s <> [] ->
  fst (clearSelection fuel s) = Threw RangeError
  /\ strip_id <$> strips (snd (clearSelection fuel s)) = strip_id <$> strips s
  /\ timers (snd (clearSelection fuel s)) = timers s.
Proof.
  intros Hc Hst. unfold clearSelection.
  set (s2 := with_selectedLoras [] (with_cards (List.map (set_selected false) (cards s)) s)).
  destruct (count_and_strip_overflow fuel s2) as [(H1 & H2 & H3) _];
    [reflexivity|exact Hc|exact Hst|].
  destruct (updateSelectedCount fuel s2) as [[u|e] s3]; simpl in *; [discriminate|].
  repeat split; assumption.
Qed.

(** A page with one card: the card is selected, the count is clicked (the
    strip opens), the timers fire, and the selection is cleared. *)
Definition strip_open : State :=
  run_timers (snd (toggleThumbnailStrip 1000
     (snd (toggleCardSelection 1000 0 (page [plain_card "a" false] []))))).

Lemma clearSelection_overflows_witness :
  fst (clearSelection 1000 strip_open) = Threw RangeError
  /\ strip_id <$> strips (snd (clearSelection 1000 strip_open)) = strip_id <$> strips strip_open
  /\ timers (snd (clearSelection 1000 strip_open)) = timers strip_open.
Proof.
  apply (clearSelection_overflows 1000 strip_open); vm_compute; discriminate.
Defined.

Example strip_survives_clear :
  strip_id <$> strips (run_timers (snd (clearSelection 1000 strip_open))) = [0].
Proof. vm_compute. reflexivity. Qed.

(** *** Copying the selection as text *)

(** The name part of a token. *)
Definition token (file : option string) (strength : string) : string :=
  "<lora:" ++ text_or_undefined file ++ ":" ++ strength ++ ">".

(** The token with the text of a strength, or the error of its
    conversion to text. *)
Definition token_with (file : option string) (strength : JSValue) : Completion string :=
  match to_string strength with
  | Returned t => Returned (token file t)
  | Threw e => Threw e
  end.

Lemma usage_text_nonempty t : t <> "" -> usage_text (Some t) = t.
Proof. destruct t; [congruence|reflexivity]. Qed.


Lemma lora_syntax_parsed file tips v st :
  JSON_parse (usage_text tips) = Returned v ->
  get_prop v "strength" = Returned st ->
  lora_syntax file tips = token_with file (or_else st JOne).
Proof. intros Hp Hg. unfold lora_syntax, token_with. rewrite Hp, Hg. reflexivity. Qed.


Lemma collect_extends cache keys :
  forall syn miss syn' miss',
    collect cache keys syn miss = Returned (syn', miss') ->
    exists x y, syn' = (syn ++ x)%list /\ miss' = (miss ++ y)%list.
Proof.
  induction keys as [|k r IH]; intros syn miss syn' miss' H; simpl in H.
  - injection H as <- <-. exists [], []. now rewrite !app_nil_r.
  - destruct (cache !! k) as [m|].
    + destruct (lora_syntax _ _) as [t|e]; [|discriminate].
      destruct (IH _ _ _ _ H) as (x & y & -> & ->).
      exists (t :: x), y. now rewrite <- app_assoc.
    + destruct (IH _ _ _ _ H) as (x & y & -> & ->).
      exists x, (k :: y). now rewrite <- app_assoc.
Qed.

(** No token was built exactly when every selected key lacks metadata. *)
Lemma collect_no_tokens cache keys :
  forall miss miss',
    collect cache keys [] miss = Returned ([], miss') <->
    Forall (fun k => cache !! k = None) keys /\ miss' = (miss ++ keys)%list.
Proof.
  induction keys as [|k r IH]; intros miss miss'; simpl.
  - rewrite app_nil_r. split.
    + intros [= <-]. split; [constructor|reflexivity].
    + intros [_ ->]. reflexivity.
  - destruct (cache !! k) as [m|] eqn:E.
    + split.
      * destruct (lora_syntax _ _) as [t|e]; [|discriminate]. intros H.
        destruct (collect_extends _ _ _ _ _ _ H) as (x & y & Hx & _). discriminate Hx.
      * intros [H _]. inversion H; congruence.
    + rewrite IH. rewrite <- app_assoc. simpl. split.
      * intros [H ->]. split; [constructor; assumption|reflexivity].
      * intros [H ->]. split; [now inversion H|reflexivity].
Qed.

(** A selected entry whose usage tips make [JSON.parse] or the property
    read throw ends the whole copy: no toast, no clipboard write. *)
Lemma collect_throws cache keys :
  forall syn miss k m e,
    In k keys -> cache !! k = Some m ->
    lora_syntax (fileName m) (usageTips m) = Threw e ->
    exists e', collect cache keys syn miss = Threw e'.
Proof.
  induction keys as [|k0 r IH]; intros syn miss k m e Hin Hk Hl; [destruct Hin|].
  simpl. destruct (cache !! k0) as [m0|] eqn:E0.
  - destruct (lora_syntax (fileName m0) (usageTips m0)) as [t|e0] eqn:El; [|now exists e0].
    destruct Hin as [->|Hin]; [congruence|]. eapply IH; eassumption.
  - destruct Hin as [->|Hin]; [congruence|]. eapply IH; eassumption.
Qed.

Lemma copy_throws s k m e :
  In k (selectedLoras s) -> loraMetadataCache s !! k = Some m ->
  lora_syntax (fileName m) (usageTips m) = Threw e ->
  exists e', copyAllLorasSyntax s = (Threw e', s).
Proof.
  intros Hin Hk Hl. unfold copyAllLorasSyntax.
  destruct (selectedLoras s) as [|k0 r] eqn:E; [destruct Hin|]. simpl set_size. simpl Nat.eqb.
  cbv iota.
  destruct (collect_throws (loraMetadataCache s) (k0 :: r) [] [] k m e Hin Hk Hl) as [e' ->].
  now exists e'.
Qed.

(** The usage tips of the scenario: an object whose [strength] is 0.8. *)
Definition strength_08 : string := "{" ++ quote "strength" ++ ":0.8}".




Definition cached (file tips : string) : Metadata :=
  mkMetadata (Some file) (Some tips) "/loras_static/images/no-preview.png" false (Some file).

Definition selection (keys : list string) (cache : gmap string Metadata) : State :=
  mkState true [] keys cache false [] 0 (Some (mkCount "" false false)) [] [] [] true
    (Some (mkPanel true false)).



Example copy_unparseable_throws :
  let s := selection ["A"] {["A" := cached "foo" "oops"]} in
  copyAllLorasSyntax s = (Threw SyntaxError, s).
Proof. reflexivity. Qed.

(** C3: with nothing selected the copy shows the toast "No LoRAs selected"
    (at warning severity) and writes nothing to the clipboard; when keys
    are selected and no token was built (every selected key lacks
    metadata) it shows the error toast "No valid LoRAs to copy", after the
    warning about the missing items, and writes nothing to the clipboard. *)
Theorem copy_without_tokens (s : State) (miss : list string) :
  selectedLoras s = []
  \/ collect (loraMetadataCache s) (selectedLoras s) [] [] = Returned ([], miss) ->
  fst (copyAllLorasSyntax s) = Returned tt
  /\ clipboard (snd (copyAllLorasSyntax s)) = clipboard s
  /\ toasts (snd (copyAllLorasSyntax s)) =
       (toasts s ++
        match selectedLoras s with
        | [] => [("No LoRAs selected", warning)]
        | _ :: _ =>
            [("Missing data for " +:+ string_of_nat (length (selectedLoras s)) +:+ " LoRAs",
              warning);
             ("No valid LoRAs to copy", error)]
        end)%list.
Proof.
  intros H. unfold copyAllLorasSyntax.
  destruct (selectedLoras s) as [|k r] eqn:E; [repeat split|].
  destruct H as [H|H]; [discriminate|].
  pose proof (proj1 (collect_no_tokens _ _ _ _) H) as [_ Hm]. simpl in Hm. subst miss.
  rewrite H. simpl. repeat split. now rewrite <- app_assoc.
Qed.

Lemma copy_without_tokens_witness :
  let s := selection ["A"; "B"] ∅ in
  fst (copyAllLorasSyntax s) = Returned tt
  /\ clipboard (snd (copyAllLorasSyntax s)) = []
  /\ toasts (snd (copyAllLorasSyntax s)) =
       [("Missing data for 2 LoRAs", warning); ("No valid LoRAs to copy", error)].
Proof.
  intros s. apply (copy_without_tokens s ["A"; "B"]). right. reflexivity.
Defined.

Example copy_empty_selection :
  let s := selection [] ∅ in
  copyAllLorasSyntax s = (Returned tt, showToast "No LoRAs selected" warning s).
Proof. reflexivity. Qed.

(** Every selected entry with metadata yields a token: no usage tips in
    the selection make the loop throw. *)
Definition all_parse (cache : gmap string Metadata) (keys : list string) : Prop :=
  Forall (fun k => forall m, cache !! k = Some m ->
                   exists t, lora_syntax (fileName m) (usageTips m) = Returned t) keys.

Lemma collect_returns cache keys :
  all_parse cache keys ->
  forall syn miss, exists x y,
    collect cache keys syn miss = Returned ((syn ++ x)%list, (miss ++ y)%list)
    /\ forall k m t, In k keys -> cache !! k = Some m ->
         lora_syntax (fileName m) (usageTips m) = Returned t -> In t x.
Proof.
  induction 1 as [|k r Hk Hr IH]; intros syn miss.
  - exists [], []. rewrite !app_nil_r. split; [reflexivity|]. intros k m t [].
  - simpl. destruct (cache !! k) as [m|] eqn:E.
    + destruct (Hk m eq_refl) as [t Ht]. rewrite Ht.
      destruct (IH (syn ++ [t])%list miss) as (x & y & -> & Hin).
      exists (t :: x), y. rewrite <- app_assoc. split; [reflexivity|].
      intros k' m' t' [<-|Hk'] Hc Hl.
      * left. congruence.
      * right. eapply Hin; eassumption.
    + destruct (IH syn (miss ++ [k])%list) as (x & y & -> & Hin).
      exists x, (k :: y). rewrite <- app_assoc. split; [reflexivity|].
      intros k' m' t' [<-|Hk'] Hc Hl; [congruence|]. eapply Hin; eassumption.
Qed.

(** C10: a selected entry whose usage tips parse to a value with a falsy
    [strength] (0, -0, [false], [null], the empty string) is copied with
    strength 1: its token with [:1] is among the tokens written to the
    clipboard. *)
Theorem falsy_strength_copies_as_one
    (s : State) (k : string) (m : Metadata) (v st : JSValue) :
  In k (selectedLoras s) -> loraMetadataCache s !! k = Some m ->
  JSON_parse (usage_text (usageTips m)) = Returned v ->
  get_prop v "strength" = Returned (Some st) ->
  truthy st = false ->
  all_parse (loraMetadataCache s) (selectedLoras s) ->
  exists syn,
    fst (copyAllLorasSyntax s) = Returned tt
    /\ In (token (fileName m) "1") syn
    /\ clipboard (snd (copyAllLorasSyntax s)) = (clipboard s ++ [join ", " syn])%list.
Proof.
  intros Hin Hc Hp Hg Hf Hall.
  assert (Hl : lora_syntax (fileName m) (usageTips m) = Returned (token (fileName m) "1")).
  { rewrite (lora_syntax_parsed _ _ v (Some st) Hp Hg). simpl. now rewrite Hf. }
  destruct (collect_returns _ _ Hall [] []) as (syn & miss & Hcol & Htok).
  exists syn. pose proof (Htok k m _ Hin Hc Hl) as Hsyn.
  simpl in Hcol. unfold copyAllLorasSyntax. rewrite Hcol.
  destruct (selectedLoras s) as [|k0 r]; [destruct Hin|].
  destruct syn as [|t0 syn]; [destruct Hsyn|].
  simpl. destruct (0 <? length miss)%nat; simpl;
    destruct (clipboard_ok s); simpl; repeat split; exact Hsyn.
Qed.

Definition strength_zero : string := "{" ++ quote "strength" ++ ": 0}".

Lemma falsy_strength_copies_as_one_witness :
  exists syn,
    fst (copyAllLorasSyntax (selection ["A"] {["A" := cached "foo" strength_zero]}))
      = Returned tt
    /\ In "<lora:foo:1>" syn
    /\ clipboard (snd (copyAllLorasSyntax
                         (selection ["A"] {["A" := cached "foo" strength_zero]})))
       = [join ", " syn].
Proof.
  apply (falsy_strength_copies_as_one
           (selection ["A"] {["A" := cached "foo" strength_zero]}) "A"
           (cached "foo" strength_zero)
           (JObj [("strength", JNum (mkNum false "" 0))]) (JNum (mkNum false "" 0)));
    try reflexivity.
  - left. reflexivity.
  - constructor; [|constructor]. intros m Hm. vm_compute in Hm. injection Hm as <-.
    exists "<lora:foo:1>". reflexivity.
Defined.

(** The copy button of a card computes the same expression. *)
Lemma card_copy_falsy_strength (c : Card) (v st : JSValue) :
  JSON_parse (usage_text (usage_tips c)) = Returned v ->
  get_prop v "strength" = Returned (Some st) -> truthy st = false ->
  card_lora_syntax c = Returned (token (file_name c) "1").
Proof.
  intros Hp Hg Hf. unfold card_lora_syntax.
  rewrite (lora_syntax_parsed _ _ v (Some st) Hp Hg). simpl. now rewrite Hf.
Qed.

Example zero_strength_token :
  copyAllLorasSyntax (selection ["A"] {["A" := cached "foo" strength_zero]})
  = (Returned tt,
     showToast "Copied 1 LoRA syntaxes to clipboard" success
       (with_clipboard ["<lora:foo:1>"]
          (selection ["A"] {["A" := cached "foo" strength_zero]}))).
Proof. reflexivity. Qed.

(** *** Re-applying the selection, and removing one thumbnail *)

(** In selection mode [applySelectionState] gives every rendered card the
    marker of its key. *)
Lemma applySelectionState_syncs fuel s :
  bulkMode s = true -> in_sync (snd (applySelectionState fuel s)).
Proof.
  intros Hb. unfold applySelectionState. rewrite Hb. simpl negb. cbv iota.
  set (s1 := with_cache _ _).
  destruct (updateSelectedCount_keeps fuel s1) as (Hc & Hs & _).
  unfold in_sync. rewrite Hc, Hs. subst s1. simpl.
  apply Forall_forall. intros c Hin. apply list_elem_of_In, in_map_iff in Hin.
  destruct Hin as (c0 & <- & _). reflexivity.
Qed.

Lemma applySelectionState_off fuel s :
  bulkMode s = false -> applySelectionState fuel s = (Returned tt, s).
Proof. intros Hb. unfold applySelectionState. now rewrite Hb. Qed.

(** Removing the last thumbnail runs into the same endless pair of calls
    as [clearSelection], once the selector has been answered. *)
Lemma deselect_last_overflows engine fuel s k found :
  querySelector_card engine k (cards s) = Returned found ->
  selectedLoras s = [k] -> countElement s <> None -> strips s <> [] ->
  fst (deselectItem engine fuel k s) = Threw RangeError
  /\ strip_id <$> strips (snd (deselectItem engine fuel k s)) = strip_id <$> strips s.
Proof.
  intros Hq Hsel Hc Hst. unfold deselectItem. rewrite Hq.
  set (s1 := with_selectedLoras _ _).
  destruct (count_and_strip_overflow fuel s1) as [(H1 & H2 & _) _];
    [subst s1; simpl; rewrite Hsel; simpl; now rewrite String.eqb_refl|exact Hc|exact Hst|].
  destruct (updateSelectedCount fuel s1) as [[u|e] s2]; simpl in *; [discriminate|].
  split; assumption.
Qed.

End BulkProofs.

(** ** Properties of the filter managers *)

Module FilterProofs.
Import JS Filters.

(** *** [JSON.parse] inverts [JSON.stringify] on the stored filters *)

Lemma parse_escape_char c k :
  parse_string_chars (escape_char c ++ k) = prepend (String c "") (parse_string_chars k).
Proof. destruct c as [[] [] [] [] [] [] [] []]; reflexivity. Qed.

Lemma append_cons (x : ascii) (a b : string) : String x a ++ b = String x (a ++ b).
Proof. reflexivity. Qed.

Lemma append_nil (b : string) : "" ++ b = b.
Proof. reflexivity. Qed.

Lemma append_assoc (a b c : string) : (a ++ b) ++ c = a ++ (b ++ c).
Proof.
  induction a as [|x a IH]; [reflexivity|]. rewrite !append_cons. now rewrite IH.
Qed.

Lemma parse_quote_chars s rest :
  parse_string_chars (quote_chars s ++ String dquote rest) = Some (s, rest).
Proof.
  induction s as [|c s IH]; [reflexivity|].
  simpl quote_chars. rewrite append_assoc, parse_escape_char, IH. reflexivity.
Qed.

(** The unfolding equations of the parser used below. *)
Lemma parse_value_string f r :
  parse_value (S f) (String dquote r) =
  match parse_string_chars r with
  | Some (str, r') => Some (JStr str, r')
  | None => None
  end.
Proof. reflexivity. Qed.

Lemma parse_value_array f r :
  parse_value (S f) (String "[" r) =
  match skip_ws r with
  | String "]"%char r' => Some (JArr [], r')
  | r1 =>
      match parse_elems f r1 with
      | Some (vs, r') => Some (JArr vs, r')
      | None => None
      end
  end.
Proof. reflexivity. Qed.

Lemma parse_value_object f r :
  parse_value (S f) (String "{" r) =
  match skip_ws r with
  | String "}"%char r' => Some (JObj [], r')
  | r1 =>
      match parse_members f r1 with
      | Some (ms, r') => Some (JObj (obj_of_members ms), r')
      | None => None
      end
  end.
Proof. reflexivity. Qed.

Lemma parse_elems_step f s :
  parse_elems (S f) s =
  match parse_value f s with
  | Some (v, r) =>
      match skip_ws r with
      | String ","%char r' =>
          match parse_elems f (skip_ws r') with
          | Some (vs, r'') => Some (v :: vs, r'')
          | None => None
          end
      | String "]"%char r' => Some ([v], r')
      | _ => None
      end
  | None => None
  end.
Proof. reflexivity. Qed.

Lemma parse_members_step f r :
  parse_members (S f) (String dquote r) =
  match parse_string_chars r with
  | Some (k, r1) =>
      match skip_ws r1 with
      | String ":"%char r2 =>
          match parse_value f (skip_ws r2) with
          | Some (v, r3) =>
              match skip_ws r3 with
              | String ","%char r4 =>
                  match parse_members f (skip_ws r4) with
                  | Some (ms, r5) => Some ((k, v) :: ms, r5)
                  | None => None
                  end
              | String "}"%char r4 => Some ([(k, v)], r4)
              | _ => None
              end
          | None => None
          end
      | _ => None
      end
  | None => None
  end.
Proof. reflexivity. Qed.

(** An array of strings, as a filter field holds it. *)
Definition strs (l : list string) : JSValue := JArr (List.map JStr l).

(** The text of the elements of a non-empty array of strings. *)
Definition elems_text (x : string) (l : list string) : string :=
  join "," (List.map quote (x :: l)).

Lemma elems_text_cons x y l :
  elems_text x (y :: l) = quote x ++ String "," (elems_text y l).
Proof. reflexivity. Qed.

Lemma elems_text_head x l t :
  exists r, elems_text x l ++ t = String dquote r.
Proof.
  destruct l as [|y l].
  - eexists. unfold elems_text. simpl. unfold quote. rewrite append_cons. reflexivity.
  - eexists. rewrite elems_text_cons. unfold quote. rewrite !append_cons. reflexivity.
Qed.

Lemma parse_quoted f x rest :
  parse_value (S f) (quote x ++ rest) = Some (JStr x, rest).
Proof.
  unfold quote. rewrite append_cons, parse_value_string, append_assoc, append_cons,
    append_nil, parse_quote_chars. reflexivity.
Qed.

Lemma parse_elems_strs l :
  forall x rest f, length l + 2 <= f ->
    parse_elems f (elems_text x l ++ String "]" rest) = Some (JStr x :: List.map JStr l, rest).
Proof.
  induction l as [|y l IH]; intros x rest f Hf.
  - destruct f as [|[|f]]; [simpl in Hf; lia..|].
    rewrite parse_elems_step. unfold elems_text. simpl join.
    rewrite parse_quoted. reflexivity.
  - destruct f as [|[|f]]; [simpl in Hf; lia..|].
    rewrite parse_elems_step, elems_text_cons, append_assoc, parse_quoted, append_cons.
    destruct (elems_text_head y l (String "]" rest)) as [r Hr].
    simpl skip_ws at 1. cbv iota beta. rewrite Hr. simpl skip_ws. rewrite <- Hr.
    rewrite IH by (simpl in Hf; lia). reflexivity.
Qed.

Lemma stringify_strs_nil : stringify (strs []) = "[]".
Proof. reflexivity. Qed.

Lemma stringify_strs_cons x l :
  stringify (strs (x :: l)) = String "[" (elems_text x l ++ "]").
Proof.
  unfold strs, elems_text. simpl stringify. rewrite !List.map_map. reflexivity.
Qed.

Lemma parse_strs l rest f :
  length l + 2 <= f ->
  parse_value (S f) (stringify (strs l) ++ rest) = Some (strs l, rest).
Proof.
  intros Hf. destruct l as [|x l].
  - reflexivity.
  - rewrite stringify_strs_cons, append_cons, append_assoc, append_cons, append_nil.
    rewrite parse_value_array.
    destruct (elems_text_head x l (String "]" rest)) as [r Hr].
    rewrite Hr. simpl skip_ws. cbv iota beta. rewrite <- Hr.
    rewrite parse_elems_strs by (simpl in Hf; lia). reflexivity.
Qed.

Lemma stringify_filters_text (a b : JSValue) :
  JSON_stringify_filters (mkFilters a b) =
  String "{" (quote "baseModel" ++ String ":" (stringify a ++
    String "," (quote "tags" ++ String ":" (stringify b ++ "}")))).
Proof.
  unfold JSON_stringify_filters. cbn [baseModel tags].
  change (stringify (JObj [("baseModel", a); ("tags", b)]))
    with ("{" ++ ((quote "baseModel" ++ ":" ++ stringify a) ++ "," ++
                  (quote "tags" ++ ":" ++ stringify b)) ++ "}").
  rewrite !append_assoc, !append_cons, !append_nil. reflexivity.
Qed.

Lemma skip_ws_plain c r : is_ws c = false -> skip_ws (String c r) = String c r.
Proof. intros H. simpl. now rewrite H. Qed.

Lemma skip_ws_strs l rest : skip_ws (stringify (strs l) ++ rest) = stringify (strs l) ++ rest.
Proof.
  destruct l; [reflexivity|]. rewrite stringify_strs_cons, append_cons. reflexivity.
Qed.

Lemma parse_member_strs f key l rest :
  length l + 2 <= f ->
  parse_members (S (S f)) (quote key ++ String ":" (stringify (strs l) ++ rest)) =
  match skip_ws rest with
  | String ","%char r4 =>
      match parse_members (S f) (skip_ws r4) with
      | Some (ms, r5) => Some ((key, strs l) :: ms, r5)
      | None => None
      end
  | String "}"%char r4 => Some ([(key, strs l)], r4)
  | _ => None
  end.
Proof.
  intros Hf. unfold quote. rewrite append_cons, parse_members_step.
  rewrite append_assoc, append_cons, append_nil, parse_quote_chars.
  rewrite skip_ws_plain by reflexivity. cbv iota beta.
  rewrite skip_ws_strs, parse_strs by exact Hf. reflexivity.
Qed.

Lemma parse_filters_text bm tg f :
  length bm + length tg + 6 <= f ->
  parse_value f (JSON_stringify_filters (mkFilters (strs bm) (strs tg))) =
  Some (JObj [("baseModel", strs bm); ("tags", strs tg)], "").
Proof.
  intros Hf. rewrite stringify_filters_text.
  destruct f as [|[|[|f]]]; [lia..|].
  rewrite parse_value_object.
  replace (skip_ws (quote "baseModel" ++ String ":" (stringify (strs bm) ++
             String "," (quote "tags" ++ String ":" (stringify (strs tg) ++ "}")))))
    with (String dquote (quote_chars "baseModel" ++ String dquote "" ++
             String ":" (stringify (strs bm) ++
               String "," (quote "tags" ++ String ":" (stringify (strs tg) ++ "}")))))
    by reflexivity.
  cbv iota beta.
  change (String dquote (quote_chars "baseModel" ++ String dquote "" ++
             String ":" (stringify (strs bm) ++
               String "," (quote "tags" ++ String ":" (stringify (strs tg) ++ "}")))))
    with (quote "baseModel" ++ String ":" (stringify (strs bm) ++
             String "," (quote "tags" ++ String ":" (stringify (strs tg) ++ "}")))).
  rewrite parse_member_strs by lia.
  rewrite skip_ws_plain by reflexivity. cbv iota beta.
  replace (skip_ws (quote "tags" ++ String ":" (stringify (strs tg) ++ "}")))
    with (quote "tags" ++ String ":" (stringify (strs tg) ++ "}")) by reflexivity.
  destruct f as [|f]; [lia|].
  rewrite parse_member_strs by lia.
  reflexivity.
Qed.

Lemma length_append (a b : string) :
  String.length (a ++ b) = String.length a + String.length b.
Proof.
  induction a as [|x a IH]; [reflexivity|]. rewrite append_cons. simpl. now rewrite IH.
Qed.

Lemma length_elems_text l : forall x, length l <= String.length (elems_text x l).
Proof.
  induction l as [|y l IH]; intros x; [simpl; lia|].
  rewrite elems_text_cons, length_append. simpl. specialize (IH y). lia.
Qed.

Lemma length_stringify_strs l : length l <= String.length (stringify (strs l)).
Proof.
  destruct l as [|x l]; [simpl; lia|].
  rewrite stringify_strs_cons. simpl. rewrite length_append.
  pose proof (length_elems_text l x). simpl. lia.
Qed.

(** What [applyFilters] stores is read back by [JSON.parse] as the same
    two arrays. *)
Lemma JSON_parse_filters bm tg :
  JSON_parse (JSON_stringify_filters (mkFilters (strs bm) (strs tg))) =
  Returned (JObj [("baseModel", strs bm); ("tags", strs tg)]).
Proof.
  unfold JSON_parse.
  replace (skip_ws (JSON_stringify_filters (mkFilters (strs bm) (strs tg))))
    with (JSON_stringify_filters (mkFilters (strs bm) (strs tg)))
    by (rewrite stringify_filters_text; reflexivity).
  rewrite parse_filters_text; [reflexivity|].
  rewrite stringify_filters_text.
  pose proof (length_stringify_strs bm) as Hb. pose proof (length_stringify_strs tg) as Ht.
  set (A := stringify (strs bm)) in *. set (B := stringify (strs tg)) in *. clearbody A B.
  simpl String.length. rewrite !length_append. simpl String.length.
  rewrite !length_append. simpl String.length. lia.
Qed.

(** *** What the shared steps leave alone *)

(** The filters, the page, the storage and the collaborator log agree. *)
Definition same_core (s s' : State) : Prop :=
  currentPage s' = currentPage s /\ filters s' = filters s
  /\ localStorage s' = localStorage s /\ calls s' = calls s
  /\ recipeManager s' = recipeManager s /\ checkpointManager s' = checkpointManager s
  /\ reload_ok s' = reload_ok s /\ pageFilters s' = pageFilters s.

Lemma same_core_refl s : same_core s s.
Proof. repeat split. Qed.

Lemma same_core_trans s1 s2 s3 : same_core s1 s2 -> same_core s2 s3 -> same_core s1 s3.
Proof. unfold same_core. intuition congruence. Qed.

Lemma updateTagSelections_core s : same_core s (snd (updateTagSelections s)).
Proof.
  unfold updateTagSelections.
  destruct (mark_tags (baseModel (filters s)) (baseModelTags s)) as [[u|e] bs];
    [|repeat split].
  destruct (mark_tags _ _) as [c2 ts]. repeat split.
Qed.

Lemma show_filter_state_core b s : same_core s (snd (show_filter_state b s)).
Proof.
  unfold show_filter_state. destruct (filterButton s); [|repeat split].
  destruct (hasActiveFilters s), b; repeat split.
Qed.

Lemma fm_count_core s : same_core s (FilterManager.updateActiveFiltersCount s).
Proof. unfold FilterManager.updateActiveFiltersCount. destruct (activeFiltersCount s); repeat split. Qed.

Lemma rfm_count_core s : same_core s (snd (RecipeFilterManager.updateActiveFiltersCount s)).
Proof.
  unfold RecipeFilterManager.updateActiveFiltersCount.
  destruct (activeFiltersCount s); repeat split.
Qed.

(** The call the reload of a [FilterManager] makes, if its page has a
    collaborator. *)
Definition collaborator (s : State) : option Call :=
  if (String.eqb (currentPage s) "recipes" && bool_decide (is_Some (recipeManager s)))%bool
  then Some LoadRecipesReset
  else if String.eqb (currentPage s) "loras" then Some LoadMoreLoras
  else if (String.eqb (currentPage s) "checkpoints" && checkpointManager s)%bool
  then Some LoadCheckpoints
  else None.

Lemma await_state c s : snd (await c s) = call c s.
Proof. unfold await. now destruct (reload_ok s). Qed.

Lemma reload_state s :
  snd (FilterManager.reload s) =
  match collaborator s with Some c => call c s | None => s end.
Proof.
  unfold FilterManager.reload, collaborator.
  destruct (_ && _)%bool; [apply await_state|].
  destruct (String.eqb (currentPage s) "loras"); [apply await_state|].
  destruct (_ && _)%bool; [apply await_state|reflexivity].
Qed.

Lemma andThen_state r k (P : State -> Prop) :
  P (snd r) -> (forall s, P s -> P (snd (k s))) -> P (snd (andThen r k)).
Proof. destruct r as [[u|e] s]; simpl; auto. Qed.

(** [applyFilters] of a [FilterManager]: the storage gets the text of the
    filters under the page's key, the collaborator is called once, the
    filters stay. *)
Lemma fm_applyFilters_state b s :
  let s' := snd (FilterManager.applyFilters b s) in
  filters s' = filters s /\ currentPage s' = currentPage s
  /\ localStorage s' =
       <[FilterManager.storageKey s := JSON_stringify_filters (filters s)]> (localStorage s)
  /\ calls s' = (calls s ++ match collaborator s with Some c => [c] | None => [] end)%list
  /\ pageFilters s' = Some (filters s)
  /\ modelTags s' = modelTags s /\ baseModelTags s' = baseModelTags s
  /\ recipeManager s' = recipeManager s /\ checkpointManager s' = checkpointManager s.
Proof.
  unfold FilterManager.applyFilters.
  set (s2 := with_pageFilters _ _).
  assert (Hc : collaborator s2 = collaborator s) by reflexivity.
  pose proof (reload_state s2) as Hr. rewrite Hc in Hr.
  destruct (FilterManager.reload s2) as [[u|e] s3]; simpl in *; subst s3.
  - unfold show_filter_state.
    destruct (collaborator s); simpl;
      (destruct (filterButton s); simpl; [|rewrite ?app_nil_r; repeat split]);
      destruct (hasActiveFilters _), b; simpl; rewrite ?app_nil_r; repeat split.
  - destruct (collaborator s); simpl; rewrite ?app_nil_r; repeat split.
Qed.

(** *** Loading the stored filters *)

(** Neither manager lets [loadFiltersFromStorage] throw. *)
Lemma fm_load_returns s : fst (FilterManager.loadFiltersFromStorage s) = Returned tt.
Proof.
  unfold FilterManager.loadFiltersFromStorage.
  destruct (localStorage s !! FilterManager.storageKey s) as [[|c t]|]; reflexivity.
Qed.

Lemma rfm_load_returns s : fst (RecipeFilterManager.loadFiltersFromStorage s) = Returned tt.
Proof.
  unfold RecipeFilterManager.loadFiltersFromStorage.
  destruct (localStorage s !! RecipeFilterManager.storageKey) as [[|c t]|]; reflexivity.
Qed.

(** Names what [updateTagSelections] keeps of the state in the goal. *)
Ltac tag_core :=
  match goal with
  | |- context [updateTagSelections ?x] =>
      let Hp := fresh "Hpage" in
      let Hf := fresh "Hf" in
      let Hl := fresh "Hstore" in
      let Hc := fresh "Hcalls" in
      pose proof (updateTagSelections_core x) as (Hp & Hf & Hl & Hc & _)
  end.

(** The filters a parsed value gives: each field, or an empty array in
    place of a missing or falsy one. *)
Definition loaded (a b : option JSValue) : Filters :=
  mkFilters (or_else a (JArr [])) (or_else b (JArr [])).

Lemma fm_load_saved_filters saved s v a b :
  JSON_parse saved = Returned v ->
  get_prop v "baseModel" = Returned a -> get_prop v "tags" = Returned b ->
  filters (snd (FilterManager.load_saved saved s)) = loaded a b.
Proof.
  intros Hp Ha Hb. unfold FilterManager.load_saved. rewrite Hp, Ha, Hb.
  apply (andThen_state _ _ (fun st => filters st = loaded a b)).
  - tag_core. rewrite Hf. reflexivity.
  - intros s3 H3. destruct (fm_count_core s3) as (_ & Hf & _).
    destruct (hasActiveFilters _); [|simpl; congruence].
    destruct (filterButton _); simpl; congruence.
Qed.

Lemma rfm_load_saved_filters saved s v a b :
  JSON_parse saved = Returned v ->
  get_prop v "baseModel" = Returned a -> get_prop v "tags" = Returned b ->
  filters (snd (RecipeFilterManager.load_saved saved s)) = loaded a b.
Proof.
  intros Hp Ha Hb. unfold RecipeFilterManager.load_saved. rewrite Hp, Ha, Hb.
  apply (andThen_state _ _ (fun st => filters st = loaded a b)).
  - tag_core. rewrite Hf. reflexivity.
  - intros s2 H2. apply (andThen_state _ _ (fun st => filters st = loaded a b)).
    + destruct (rfm_count_core s2) as (_ & Hf & _). congruence.
    + intros s3 H3. destruct (hasActiveFilters _); [|simpl; congruence].
      destruct (filterButton _); simpl; congruence.
Qed.

(** What [loadFiltersFromStorage] leaves in the filters, for either
    manager and any stored text that is not empty: a text that does not
    parse, or parses to [null] (whose properties cannot be read), leaves
    them as they were; any other text gives each field the stored field
    if that is truthy, else an empty array. *)
Lemma fm_load_saved_throws saved s e :
  JSON_parse saved = Threw e -> FilterManager.load_saved saved s = (Threw e, s).
Proof. intros Hp. unfold FilterManager.load_saved. now rewrite Hp. Qed.

Lemma rfm_load_saved_throws saved s e :
  JSON_parse saved = Threw e -> RecipeFilterManager.load_saved saved s = (Threw e, s).
Proof. intros Hp. unfold RecipeFilterManager.load_saved. now rewrite Hp. Qed.

Lemma fm_load_saved_null saved s :
  JSON_parse saved = Returned JNull ->
  FilterManager.load_saved saved s = (Threw TypeError, s).
Proof. intros Hp. unfold FilterManager.load_saved. now rewrite Hp. Qed.

Lemma rfm_load_saved_null saved s :
  JSON_parse saved = Returned JNull ->
  RecipeFilterManager.load_saved saved s = (Threw TypeError, s).
Proof. intros Hp. unfold RecipeFilterManager.load_saved. now rewrite Hp. Qed.

Lemma parse_nonempty saved v : JSON_parse saved = Returned v -> saved <> "".
Proof. intros Hp ->. discriminate Hp. Qed.

(** The properties of a parsed value that is no object and not [null]
    are [undefined]. *)
Definition is_object (v : JSValue) : bool :=
  match v with
  | JObj _ => true
  | _ => false
  end.

Lemma get_prop_primitive v name :
  is_object v = false -> v <> JNull -> get_prop v name = Returned None.
Proof. destruct v; simpl; congruence. Qed.

Lemma fm_load_outcome s saved :
  localStorage s !! FilterManager.storageKey s = Some saved ->
  fst (FilterManager.loadFiltersFromStorage s) = Returned tt
  /\ (forall e, JSON_parse saved = Threw e ->
        filters (snd (FilterManager.loadFiltersFromStorage s)) = filters s)
  /\ (JSON_parse saved = Returned JNull ->
        filters (snd (FilterManager.loadFiltersFromStorage s)) = filters s)
  /\ (forall v a b,
        JSON_parse saved = Returned v ->
        get_prop v "baseModel" = Returned a -> get_prop v "tags" = Returned b ->
        filters (snd (FilterManager.loadFiltersFromStorage s)) = loaded a b).
Proof.
  intros Hs. split; [apply fm_load_returns|].
  unfold FilterManager.loadFiltersFromStorage. rewrite Hs.
  split; [|split].
  - intros e Hp. destruct saved as [|c t]; [reflexivity|].
    unfold try_catch. now rewrite (fm_load_saved_throws _ s e Hp).
  - intros Hp. destruct saved as [|c t]; [reflexivity|].
    unfold try_catch. now rewrite (fm_load_saved_null _ s Hp).
  - intros v a b Hp Ha Hb. destruct saved as [|c t]; [discriminate Hp|].
    apply (fm_load_saved_filters _ s v a b Hp Ha Hb).
Qed.

Lemma rfm_load_outcome s saved :
  localStorage s !! RecipeFilterManager.storageKey = Some saved ->
  fst (RecipeFilterManager.loadFiltersFromStorage s) = Returned tt
  /\ (forall e, JSON_parse saved = Threw e ->
        filters (snd (RecipeFilterManager.loadFiltersFromStorage s)) = filters s)
  /\ (JSON_parse saved = Returned JNull ->
        filters (snd (RecipeFilterManager.loadFiltersFromStorage s)) = filters s)
  /\ (forall v a b,
        JSON_parse saved = Returned v ->
        get_prop v "baseModel" = Returned a -> get_prop v "tags" = Returned b ->
        filters (snd (RecipeFilterManager.loadFiltersFromStorage s)) = loaded a b).
Proof.
  intros Hs. split; [apply rfm_load_returns|].
  unfold RecipeFilterManager.loadFiltersFromStorage. rewrite Hs.
  split; [|split].
  - intros e Hp. destruct saved as [|c t]; [reflexivity|].
    unfold try_catch. now rewrite (rfm_load_saved_throws _ s e Hp).
  - intros Hp. destruct saved as [|c t]; [reflexivity|].
    unfold try_catch. now rewrite (rfm_load_saved_null _ s Hp).
  - intros v a b Hp Ha Hb. destruct saved as [|c t]; [discriminate Hp|].
    apply (rfm_load_saved_filters _ s v a b Hp Ha Hb).
Qed.

(** The claim's reading of a malformed stored text: one that does not
    parse to the record [applyFilters] writes, an object whose
    [baseModel] and [tags] are arrays. *)
Definition expected_record (saved : string) : bool :=
  match JSON_parse saved with
  | Returned (JObj fs) =>
      match obj_get "baseModel" fs, obj_get "tags" fs with
      | Some (JArr _), Some (JArr _) => true
      | _, _ => false
      end
  | _ => false
  end.

Definition malformed (saved : string) : Prop := expected_record saved = false.

(** A stored text that [loadFiltersFromStorage] cannot read: [JSON.parse]
    throws, or gives [null], whose properties cannot be read. *)
Definition unreadable (saved : string) : Prop :=
  (exists e, JSON_parse saved = Threw e) \/ JSON_parse saved = Returned JNull.

(** C6 (as amended): whatever text is stored under the manager's key,
    [loadFiltersFromStorage] returns without an error, for either
    manager.  A text that does not parse as JSON, or parses to [null],
    leaves the criteria as they were before the call: empty in a
    [RecipeFilterManager] under construction, the filters of the page
    state (empty when it holds none) in a [FilterManager] under
    construction.  A text that parses to any other value gives each field
    the stored field if that is truthy, else an empty array: the criteria
    are empty when the value is no object, and a stored field that is
    truthy and no array is kept as it is. *)
Theorem malformed_storage_keeps_or_defaults (s : State) (saved : string) :
  (localStorage s !! "recipeFilters" = Some saved ->
   fst (RecipeFilterManager.loadFiltersFromStorage s) = Returned tt
   /\ (unreadable saved ->
       filters (snd (RecipeFilterManager.loadFiltersFromStorage s)) = filters s
       /\ filters (snd (RecipeFilterManager.new s)) = empty_filters)
   /\ (forall v a b,
         JSON_parse saved = Returned v ->
         get_prop v "baseModel" = Returned a -> get_prop v "tags" = Returned b ->
         filters (snd (RecipeFilterManager.loadFiltersFromStorage s)) =
           mkFilters (or_else a (JArr [])) (or_else b (JArr [])))
   /\ (forall v,
         JSON_parse saved = Returned v -> is_object v = false -> v <> JNull ->
         filters (snd (RecipeFilterManager.loadFiltersFromStorage s)) = empty_filters))
  /\ (localStorage s !! (currentPage s ++ "_filters") = Some saved ->
      fst (FilterManager.loadFiltersFromStorage s) = Returned tt
      /\ (unreadable saved ->
          filters (snd (FilterManager.loadFiltersFromStorage s)) = filters s)
      /\ (forall v a b,
            JSON_parse saved = Returned v ->
            get_prop v "baseModel" = Returned a -> get_prop v "tags" = Returned b ->
            filters (snd (FilterManager.loadFiltersFromStorage s)) =
              mkFilters (or_else a (JArr [])) (or_else b (JArr [])))
      /\ (forall v,
            JSON_parse saved = Returned v -> is_object v = false -> v <> JNull ->
            filters (snd (FilterManager.loadFiltersFromStorage s)) = empty_filters))
  /\ (forall optionsPage bodyPage,
        localStorage s !! (FilterManager.page_of optionsPage bodyPage ++ "_filters")
          = Some saved ->
        unreadable saved ->
        fst (FilterManager.new optionsPage bodyPage s) = Returned tt
        /\ filters (snd (FilterManager.new optionsPage bodyPage s)) =
             match pageFilters s with Some f => f | None => empty_filters end).
Proof.
  split; [|split].
  - intros Hs. destruct (rfm_load_outcome s saved Hs) as (Hr & Ht & Hn & Hv).
    split; [exact Hr|]. split; [|split].
    + intros Hu. split; [destruct Hu as [[e He]|He]; eauto|].
      unfold RecipeFilterManager.new.
      destruct (rfm_load_outcome (with_filters empty_filters s) saved Hs) as (_ & Ht' & Hn' & _).
      destruct Hu as [[e He]|He]; [rewrite (Ht' e He)|rewrite (Hn' He)]; reflexivity.
    + exact Hv.
    + intros v Hp Ho Hnull. apply (Hv v None None Hp); now apply get_prop_primitive.
  - intros Hs. destruct (fm_load_outcome s saved Hs) as (Hr & Ht & Hn & Hv).
    split; [exact Hr|]. split; [|split].
    + intros [[e He]|He]; eauto.
    + exact Hv.
    + intros v Hp Ho Hnull. apply (Hv v None None Hp); now apply get_prop_primitive.
  - intros o b Hs Hu. unfold FilterManager.new.
    set (s0 := with_filters _ _).
    destruct (fm_load_outcome s0 saved Hs) as (Hr & Ht & Hn & _).
    split; [exact Hr|].
    destruct Hu as [[e He]|He]; [rewrite (Ht e He)|rewrite (Hn He)]; reflexivity.
Qed.

(** A page with two tag elements, a badge and a button, an empty page
    state and the given storage. *)
Definition fresh_page (storage : gmap string string) : State :=
  mkState "" empty_filters None []
    [mkTag "sci-fi" false; mkTag "anime" false]
    (Some (mkBadge "" "none")) (Some false) storage None false true [] [].

Definition oops_page : State :=
  with_currentPage "loras"
    (fresh_page {["recipeFilters" := "{oops"; "loras_filters" := "{oops"]}).

Lemma malformed_storage_keeps_or_defaults_witness :
  (fst (RecipeFilterManager.loadFiltersFromStorage oops_page) = Returned tt
   /\ filters (snd (RecipeFilterManager.new oops_page)) = empty_filters)
  /\ (fst (FilterManager.new (Some "loras") None oops_page) = Returned tt
      /\ filters (snd (FilterManager.new (Some "loras") None oops_page)) = empty_filters).
Proof.
  destruct (malformed_storage_keeps_or_defaults oops_page "{oops") as (HR & _ & HN).
  assert (Hu : unreadable "{oops") by (left; exists SyntaxError; reflexivity).
  split.
  - destruct (HR eq_refl) as (Hr & Hkeep & _). split; [exact Hr|apply Hkeep, Hu].
  - exact (HN (Some "loras") None eq_refl Hu).
Defined.

(** The stored record whose [tags] is the text [abc], and a page state
    that holds a tag. *)
Definition tags_abc : string := "{" ++ quote "tags" ++ ":" ++ quote "abc" ++ "}".

Definition filtered_page : State :=
  with_pageFilters (Some (mkFilters (JArr []) (JArr [JStr "anime"])))
    (fresh_page {["loras_filters" := "{oops"]}).

(** C6, as stated, fails in two ways.  A stored record that is not the
    expected one but parses, such as one whose [tags] is a text, is loaded
    as it is; and a text that does not parse leaves a [FilterManager] with
    the filters of the page state, which need not be empty. *)
Lemma malformed_storage_counterexample :
  ~ (forall (env : State) (saved : string),
       malformed saved -> localStorage env !! "recipeFilters" = Some saved ->
       filters (snd (RecipeFilterManager.new env)) = empty_filters)
  /\ ~ (forall (env : State) (saved : string),
          malformed saved -> localStorage env !! "loras_filters" = Some saved ->
          filters (snd (FilterManager.new (Some "loras") None env)) = empty_filters).
Proof.
  split; intros H.
  - specialize (H (fresh_page {["recipeFilters" := tags_abc]}) tags_abc eq_refl eq_refl).
    vm_compute in H. discriminate H.
  - specialize (H filtered_page "{oops" eq_refl eq_refl).
    vm_compute in H. discriminate H.
Qed.

Example tags_abc_is_loaded :
  filters (snd (RecipeFilterManager.new (fresh_page {["recipeFilters" := tags_abc]})))
  = mkFilters (JArr []) (JStr "abc").
Proof. vm_compute. reflexivity. Qed.

Example unparseable_keeps_page_filters :
  FilterManager.new (Some "loras") None filtered_page
  = (Returned tt,
     with_filters (mkFilters (JArr []) (JArr [JStr "anime"]))
       (with_currentPage "loras" filtered_page)).
Proof. vm_compute. reflexivity. Qed.

(** *** The round trip through the storage *)

Lemma stringify_filters_nonempty f : JSON_stringify_filters f <> "".
Proof. destruct f as [a b]. rewrite stringify_filters_text. discriminate. Qed.

(** What a fresh [FilterManager] holds after reading a stored text that
    parses. *)
Lemma fm_new_filters optionsPage bodyPage env saved v a b :
  localStorage env !! (FilterManager.page_of optionsPage bodyPage ++ "_filters") = Some saved ->
  saved <> "" ->
  JSON_parse saved = Returned v ->
  get_prop v "baseModel" = Returned a -> get_prop v "tags" = Returned b ->
  filters (snd (FilterManager.new optionsPage bodyPage env)) = loaded a b.
Proof.
  intros Hs Hne Hp Ha Hb. unfold FilterManager.new, FilterManager.loadFiltersFromStorage.
  set (page := FilterManager.page_of optionsPage bodyPage) in *.
  set (s0 := with_filters _ (with_currentPage page env)).
  change (localStorage s0 !! FilterManager.storageKey s0)
    with (localStorage env !! (page ++ "_filters")).
  rewrite Hs. destruct saved as [|c t]; [congruence|].
  apply (fm_load_saved_filters _ s0 v a b Hp Ha Hb).
Qed.

(** C4: for every criteria of two arrays of tags, what [applyFilters]
    stores under the page's key is read back by a fresh [FilterManager] of
    the same page (its options and the body's data attribute give the
    page name of the first manager) as the very same criteria, whatever
    else the page it is built on holds. *)
Theorem filters_round_trip (notify : bool) (s env : State) (bm tg : list string)
    (optionsPage bodyPage : option string) :
  filters s = mkFilters (strs bm) (strs tg) ->
  localStorage env = localStorage (snd (FilterManager.applyFilters notify s)) ->
  FilterManager.page_of optionsPage bodyPage = currentPage s ->
  filters (snd (FilterManager.new optionsPage bodyPage env)) = filters s.
Proof.
  intros Hf Henv Hpage.
  destruct (fm_applyFilters_state notify s) as (_ & _ & Hst & _).
  rewrite Hst in Henv. clear Hst.
  rewrite (fm_new_filters optionsPage bodyPage env (JSON_stringify_filters (filters s))
             (JObj [("baseModel", strs bm); ("tags", strs tg)])
             (Some (strs bm)) (Some (strs tg))).
  - now rewrite Hf.
  - rewrite Henv, Hpage. apply lookup_insert_eq.
  - apply stringify_filters_nonempty.
  - rewrite Hf. apply JSON_parse_filters.
  - reflexivity.
  - reflexivity.
Qed.

Definition with_tags (l : list string) (s : State) : State :=
  with_filters (mkFilters (baseModel (filters s)) (strs l)) s.

Definition round_trip_state : State :=
  with_tags ["sci-fi"; "a\b"] (with_currentPage "loras" (fresh_page ∅)).

Definition round_trip_page : State :=
  fresh_page (localStorage (snd (FilterManager.applyFilters true round_trip_state))).

Lemma filters_round_trip_witness :
  filters (snd (FilterManager.new (Some "loras") None round_trip_page))
  = filters round_trip_state.
Proof.
  apply (filters_round_trip true round_trip_state round_trip_page [] ["sci-fi"; "a\b"]);
    reflexivity.
Defined.

Example round_trip_escapes :
  filters (snd (FilterManager.new None (Some "loras") round_trip_page))
  = mkFilters (JArr []) (JArr [JStr "sci-fi"; JStr "a\b"]).
Proof. vm_compute. reflexivity. Qed.

(** *** Toggling a tag *)





Definition sci_fi_page : State :=
  snd (FilterManager.new (Some "loras") None (fresh_page ∅)).


(** With the collaborator resolving and the filter button on the page,
    the click also returns normally. *)
Lemma fm_tagClick_returns i s el v :
  modelTags s !! i = Some el ->
  toggle_in (tags (filters s)) (tag_name el) (negb (active el)) = Returned v ->
  reload_ok s = true -> filterButton s <> None ->
  fst (FilterManager.tagClick i s) = Returned tt.
Proof.
  intros Hi Ht Hok Hb. unfold FilterManager.tagClick. rewrite Hi.
  cbn [tags filters with_modelTags]. rewrite Ht.
  set (s2 := with_filters _ _).
  unfold FilterManager.applyFilters.
  set (s4 := with_pageFilters _ _).
  assert (H4 : reload_ok s4 = true /\ filterButton s4 = filterButton s).
  { subst s4 s2. unfold FilterManager.updateActiveFiltersCount. simpl.
    destruct (activeFiltersCount s); simpl; auto. }
  destruct H4 as [Hok4 Hb4].
  unfold FilterManager.reload, await. rewrite Hok4.
  assert (Hshow : forall st, filterButton st = filterButton s ->
                    fst (show_filter_state false st) = Returned tt).
  { intros st Hst. unfold show_filter_state. rewrite Hst.
    destruct (filterButton s); [|congruence]. now destruct (hasActiveFilters st). }
  destruct (_ && _)%bool; [apply Hshow, Hb4|].
  destruct (String.eqb _ "loras"); [apply Hshow, Hb4|].
  destruct (_ && _)%bool; apply Hshow, Hb4.
Qed.

(** *** The invariant of the criteria *)

Definition is_array (v : JSValue) : bool :=
  match v with
  | JArr _ => true
  | _ => false
  end.

(** Both fields are arrays. *)
Definition arrays (f : Filters) : Prop :=
  is_array (baseModel f) = true /\ is_array (tags f) = true.

(** No field is [null]. *)
Definition never_null (f : Filters) : Prop :=
  baseModel f <> JNull /\ tags f <> JNull.

Definition nodup_field (v : JSValue) : Prop :=
  match v with
  | JArr l => NoDup l
  | _ => True
  end.

(** No field holds a tag twice. *)
Definition no_dups (f : Filters) : Prop :=
  nodup_field (baseModel f) /\ nodup_field (tags f).

(** A call leaves the filters as they are. *)
Definition keeps (s : State) (r : Completion unit * State) : Prop :=
  filters (snd r) = filters s.

Lemma keeps_andThen s r k :
  keeps s r -> (forall s', filters s' = filters s -> keeps s' (k s')) ->
  keeps s (andThen r k).
Proof.
  unfold keeps. intros Hr Hk. destruct r as [[u|e] s1]; simpl in *; [|exact Hr].
  rewrite (Hk s1 Hr). exact Hr.
Qed.

Lemma keeps_tags s : keeps s (updateTagSelections s).
Proof. exact (proj1 (proj2 (updateTagSelections_core s))). Qed.

Lemma keeps_show b s : keeps s (show_filter_state b s).
Proof. exact (proj1 (proj2 (show_filter_state_core b s))). Qed.

Lemma keeps_await c s : keeps s (await c s).
Proof. unfold keeps. now rewrite await_state. Qed.

Lemma keeps_fm_reload s : keeps s (FilterManager.reload s).
Proof. unfold keeps. rewrite reload_state. now destruct (collaborator s). Qed.

Lemma keeps_fm_apply b s : keeps s (FilterManager.applyFilters b s).
Proof. exact (proj1 (fm_applyFilters_state b s)). Qed.

Lemma keeps_rfm_count s : keeps s (RecipeFilterManager.updateActiveFiltersCount s).
Proof. exact (proj1 (proj2 (rfm_count_core s))). Qed.

Lemma keeps_page_reload s : keeps s (RecipeFilterManager._applyFiltersByPageReload s).
Proof.
  unfold keeps, RecipeFilterManager._applyFiltersByPageReload.
  destruct (positive (js_length (baseModel (filters s))));
    [destruct (js_join (baseModel (filters s))); [|reflexivity]|];
    (destruct (positive (js_length (tags (filters s))));
       [destruct (js_join (tags (filters s)))|]); reflexivity.
Qed.

Lemma keeps_rfm_apply b s : keeps s (RecipeFilterManager.applyFilters b s).
Proof.
  unfold RecipeFilterManager.applyFilters. set (s1 := with_localStorage _ s).
  change (keeps s1 (andThen
    match recipeManager s1 with
    | Some rm =>
        match await (LoadRecipesWith
                (filters (if has_showLoading rm then call ShowLoading s1 else s1)))
                (if has_showLoading rm then call ShowLoading s1 else s1) with
        | (Returned _, s3) =>
            (Returned tt, if has_hideLoading rm then call HideLoading s3 else s3)
        | (Threw _, s3) => RecipeFilterManager._applyFiltersByPageReload s3
        end
    | None => RecipeFilterManager._applyFiltersByPageReload s1
    end (show_filter_state b))).
  apply keeps_andThen; [|intros s' _; apply keeps_show].
  destruct (recipeManager s1) as [rm|]; [|apply keeps_page_reload].
  set (s2 := if has_showLoading rm then call ShowLoading s1 else s1).
  assert (H2 : filters s2 = filters s1) by (subst s2; now destruct (has_showLoading rm)).
  pose proof (keeps_await (LoadRecipesWith (filters s2)) s2) as Ha. unfold keeps in *.
  destruct (await _ s2) as [[u|e] s3]; simpl in *.
  - destruct (has_hideLoading rm); simpl; congruence.
  - rewrite (keeps_page_reload s3). congruence.
Qed.

(** On an array the toggle returns an array, and adds no tag twice. *)
Lemma toggle_in_array field t b :
  is_array field = true ->
  exists v, toggle_in field t b = Returned v /\ is_array v = true
            /\ (nodup_field field -> nodup_field v).
Proof.
  destruct field as [| | | |l|]; try discriminate. intros _.
  destruct b; simpl.
  - destruct (existsb (is_str t) l) eqn:E.
    + exists (JArr l). repeat split. auto.
    + exists (JArr (l ++ [JStr t])%list). repeat split. simpl. intros Hl.
      apply NoDup_app. split; [exact Hl|]. split; [|repeat constructor; set_solver].
      intros x Hx Hx'. apply list_elem_of_singleton in Hx'. subst x.
      assert (existsb (is_str t) l = true); [|congruence].
      apply existsb_exists. exists (JStr t). split; [now apply list_elem_of_In|].
      simpl. apply String.eqb_refl.
  - exists (JArr (List.filter (fun x => negb (is_str t x)) l)). repeat split.
    simpl. intros Hl. apply NoDup_ListNoDup, List.NoDup_filter, NoDup_ListNoDup, Hl.
Qed.

(** A tag that is already in the field is not added again. *)
Lemma toggle_in_present l t :
  In (JStr t) l -> toggle_in (JArr l) t true = Returned (JArr l).
Proof.
  intros Hin. simpl.
  replace (existsb (is_str t) l) with true; [reflexivity|].
  symmetry. apply existsb_exists. exists (JStr t). split; [exact Hin|].
  simpl. apply String.eqb_refl.
Qed.

Lemma fm_clear_filters s : filters (snd (FilterManager.clearFilters s)) = empty_filters.
Proof.
  unfold FilterManager.clearFilters.
  set (s2 := with_pageFilters _ _). change empty_filters with (filters s2).
  apply keeps_andThen; [apply keeps_tags|]. intros s3 _.
  destruct (fm_count_core s3) as (_ & Hf & _).
  set (s5 := with_localStorage _ _).
  assert (H5 : filters s5 = filters s3) by exact Hf.
  destruct (filterButton s5); unfold keeps; [|exact H5].
  rewrite <- H5. apply keeps_andThen.
  - unfold keeps. now rewrite (keeps_fm_reload (with_filterButton (Some false) s5)).
  - intros s6 _. reflexivity.
Qed.

Lemma rfm_clear_filters s : filters (snd (RecipeFilterManager.clearFilters s)) = empty_filters.
Proof.
  unfold RecipeFilterManager.clearFilters.
  set (s1 := with_filters empty_filters s). change empty_filters with (filters s1).
  apply keeps_andThen; [apply keeps_tags|]. intros s2 _.
  apply keeps_andThen; [apply keeps_rfm_count|]. intros s3 _.
  set (s4 := with_localStorage _ _).
  destruct (filterButton s4); unfold keeps; [|reflexivity].
  change (filters s3) with (filters (with_filterButton (Some false) s4)).
  apply keeps_andThen; [|intros s6 _; reflexivity].
  destruct (recipeManager _); [apply keeps_await|reflexivity].
Qed.

(** What a click on a tag element does to the filters of either manager:
    nothing, or the toggled field. *)
Definition toggled_tags (i : nat) (s s' : State) : Prop :=
  filters s' = filters s
  \/ exists el v,
       modelTags s !! i = Some el
       /\ toggle_in (tags (filters s)) (tag_name el) (negb (active el)) = Returned v
       /\ filters s' = mkFilters (baseModel (filters s)) v.

Definition toggled_baseModel (i : nat) (s s' : State) : Prop :=
  filters s' = filters s
  \/ exists el v,
       baseModelTags s !! i = Some el
       /\ toggle_in (baseModel (filters s)) (tag_name el) (negb (active el)) = Returned v
       /\ filters s' = mkFilters v (tags (filters s)).

Lemma fm_tagClick_filters i s : toggled_tags i s (snd (FilterManager.tagClick i s)).
Proof.
  unfold FilterManager.tagClick. destruct (modelTags s !! i) as [el|] eqn:Hi; [|now left].
  cbn [tags filters with_modelTags].
  destruct (toggle_in _ _ _) as [v|e] eqn:Ht; [|now left].
  right. exists el, v. split; [exact Hi|]. split; [exact Ht|].
  rewrite keeps_fm_apply. now destruct (fm_count_core (with_filters
    (mkFilters (baseModel (filters s)) v)
    (with_modelTags (<[i := set_active (negb (active el)) el]> (modelTags s)) s)))
    as (_ & -> & _).
Qed.

Lemma fm_baseModelClick_filters i s :
  toggled_baseModel i s (snd (FilterManager.baseModelClick i s)).
Proof.
  unfold FilterManager.baseModelClick.
  destruct (baseModelTags s !! i) as [el|] eqn:Hi; [|now left].
  cbn [baseModel filters with_baseModelTags].
  destruct (toggle_in _ _ _) as [v|e] eqn:Ht; [|now left].
  right. exists el, v. split; [exact Hi|]. split; [exact Ht|].
  rewrite keeps_fm_apply. now destruct (fm_count_core (with_filters
    (mkFilters v (tags (filters s)))
    (with_baseModelTags (<[i := set_active (negb (active el)) el]> (baseModelTags s)) s)))
    as (_ & -> & _).
Qed.

Lemma rfm_tagClick_filters i s : toggled_tags i s (snd (RecipeFilterManager.tagClick i s)).
Proof.
  unfold RecipeFilterManager.tagClick.
  destruct (modelTags s !! i) as [el|] eqn:Hi; [|now left].
  cbn [tags filters with_modelTags].
  destruct (toggle_in _ _ _) as [v|e] eqn:Ht; [|now left].
  right. exists el, v. split; [exact Hi|]. split; [exact Ht|].
  set (s2 := with_filters _ _). change (mkFilters (baseModel (filters s)) v) with (filters s2).
  apply keeps_andThen; [apply keeps_rfm_count|]. intros s3 _. apply keeps_rfm_apply.
Qed.

Lemma rfm_baseModelClick_filters i s :
  toggled_baseModel i s (snd (RecipeFilterManager.baseModelClick i s)).
Proof.
  unfold RecipeFilterManager.baseModelClick.
  destruct (baseModelTags s !! i) as [el|] eqn:Hi; [|now left].
  cbn [baseModel filters with_baseModelTags].
  destruct (toggle_in _ _ _) as [v|e] eqn:Ht; [|now left].
  right. exists el, v. split; [exact Hi|]. split; [exact Ht|].
  set (s2 := with_filters _ _). change (mkFilters v (tags (filters s))) with (filters s2).
  apply keeps_andThen; [apply keeps_rfm_count|]. intros s3 _. apply keeps_rfm_apply.
Qed.

(** What [loadFiltersFromStorage] does to the filters of either manager:
    nothing, or the fields of the parsed stored value. *)
Definition loaded_from (saved : option string) (s s' : State) : Prop :=
  filters s' = filters s
  \/ exists text v a b,
       saved = Some text /\ JSON_parse text = Returned v
       /\ get_prop v "baseModel" = Returned a /\ get_prop v "tags" = Returned b
       /\ filters s' = loaded a b.

Lemma fm_load_filters s :
  loaded_from (localStorage s !! FilterManager.storageKey s) s
    (snd (FilterManager.loadFiltersFromStorage s)).
Proof.
  unfold FilterManager.loadFiltersFromStorage.
  destruct (localStorage s !! FilterManager.storageKey s) as [[|c t]|]; [now left| |now left].
  set (text := String c t).
  destruct (JSON_parse text) as [v|e] eqn:Hp.
  - destruct (get_prop v "baseModel") as [a|e] eqn:Ha.
    + assert (Hb : get_prop v "tags" = Returned (match v with JObj fs => obj_get "tags" fs
                                                 | _ => None end)).
      { destruct v; try reflexivity. discriminate Ha. }
      right. eexists text, v, a, _. repeat split; try eassumption.
      apply (fm_load_saved_filters text s v a _ Hp Ha Hb).
    + left. unfold try_catch, FilterManager.load_saved. rewrite Hp, Ha. reflexivity.
  - left. unfold try_catch, FilterManager.load_saved. rewrite Hp. reflexivity.
Qed.

Lemma rfm_load_filters s :
  loaded_from (localStorage s !! RecipeFilterManager.storageKey) s
    (snd (RecipeFilterManager.loadFiltersFromStorage s)).
Proof.
  unfold RecipeFilterManager.loadFiltersFromStorage.
  destruct (localStorage s !! RecipeFilterManager.storageKey) as [[|c t]|];
    [now left| |now left].
  set (text := String c t).
  destruct (JSON_parse text) as [v|e] eqn:Hp.
  - destruct (get_prop v "baseModel") as [a|e] eqn:Ha.
    + assert (Hb : get_prop v "tags" = Returned (match v with JObj fs => obj_get "tags" fs
                                                 | _ => None end)).
      { destruct v; try reflexivity. discriminate Ha. }
      right. eexists text, v, a, _. repeat split; try eassumption.
      apply (rfm_load_saved_filters text s v a _ Hp Ha Hb).
    + left. unfold try_catch, RecipeFilterManager.load_saved. rewrite Hp, Ha. reflexivity.
  - left. unfold try_catch, RecipeFilterManager.load_saved. rewrite Hp. reflexivity.
Qed.

(** The operations of a filter manager, for either class. *)
Inductive Manager : Type := ItemsFilter | RecipeFilter.

Inductive Operation : Type :=
| Construct (optionsPage bodyPage : option string)
| Load
| ToggleTag (i : nat)
| ToggleBaseModel (i : nat)
| Apply (notify : bool)
| Clear.

Definition run (m : Manager) (o : Operation) (s : State) : Completion unit * State :=
  match m, o with
  | ItemsFilter, Construct o b => FilterManager.new o b s
  | ItemsFilter, Load => FilterManager.loadFiltersFromStorage s
  | ItemsFilter, ToggleTag i => FilterManager.tagClick i s
  | ItemsFilter, ToggleBaseModel i => FilterManager.baseModelClick i s
  | ItemsFilter, Apply b => FilterManager.applyFilters b s
  | ItemsFilter, Clear => FilterManager.clearFilters s
  | RecipeFilter, Construct _ _ => RecipeFilterManager.new s
  | RecipeFilter, Load => RecipeFilterManager.loadFiltersFromStorage s
  | RecipeFilter, ToggleTag i => RecipeFilterManager.tagClick i s
  | RecipeFilter, ToggleBaseModel i => RecipeFilterManager.baseModelClick i s
  | RecipeFilter, Apply b => RecipeFilterManager.applyFilters b s
  | RecipeFilter, Clear => RecipeFilterManager.clearFilters s
  end.

Definition reads_storage (o : Operation) : bool :=
  match o with
  | Construct _ _ | Load => true
  | _ => false
  end.

(** A stored field is harmless when it is absent, falsy or an array. *)
Definition field_ok (o : option JSValue) : Prop :=
  match o with
  | Some v => truthy v = true -> is_array v = true
  | None => True
  end.

Definition stored_ok (text : string) : Prop :=
  match JSON_parse text with
  | Returned (JObj fs) => field_ok (obj_get "baseModel" fs) /\ field_ok (obj_get "tags" fs)
  | _ => True
  end.

(** Every stored text is harmless. *)
Definition storage_ok (s : State) : Prop :=
  forall key text, localStorage s !! key = Some text -> stored_ok text.

(** The filters of the page state, if any, are arrays. *)
Definition page_ok (s : State) : Prop :=
  match pageFilters s with
  | Some f => arrays f
  | None => True
  end.

Definition page_never_null (s : State) : Prop :=
  match pageFilters s with
  | Some f => never_null f
  | None => True
  end.

Lemma or_else_not_null a : or_else a (JArr []) <> JNull.
Proof.
  destruct a as [v|]; simpl; [|discriminate].
  destruct (truthy v) eqn:E; [|discriminate]. intros ->. discriminate E.
Qed.

Lemma loaded_never_null a b : never_null (loaded a b).
Proof. split; apply or_else_not_null. Qed.

Lemma or_else_array a : field_ok a -> is_array (or_else a (JArr [])) = true.
Proof.
  destruct a as [v|]; simpl; [|reflexivity]. intros H.
  destruct (truthy v); [now apply H|reflexivity].
Qed.

Lemma loaded_arrays text v a b :
  stored_ok text -> JSON_parse text = Returned v ->
  get_prop v "baseModel" = Returned a -> get_prop v "tags" = Returned b ->
  arrays (loaded a b).
Proof.
  unfold stored_ok. intros Hok Hp Ha Hb. rewrite Hp in Hok.
  destruct v; simpl in Ha, Hb; try discriminate;
    injection Ha as <-; injection Hb as <-; try (split; reflexivity).
  destruct Hok as [H1 H2]. split; simpl; now apply or_else_array.
Qed.

Lemma toggled_tags_inv i s s' :
  toggled_tags i s s' ->
  (never_null (filters s) -> never_null (filters s'))
  /\ (arrays (filters s) -> arrays (filters s'))
  /\ (arrays (filters s) -> no_dups (filters s) -> no_dups (filters s')).
Proof.
  intros [->|(el & v & _ & Ht & ->)]; [tauto|].
  split; [|split].
  - intros [Hb Hg]. split; [exact Hb|]. simpl.
    destruct (tags (filters s)) as [| | | |l|] eqn:E; try congruence;
      try (simpl in Ht; destruct (negb (active el)); simpl in Ht; try discriminate;
           repeat match type of Ht with
                  | context [if ?c then _ else _] => destruct c
                  end; try discriminate; injection Ht as <-; discriminate).
  - intros [Hb Hg]. destruct (toggle_in_array _ (tag_name el) (negb (active el)) Hg)
      as (v' & Hv & Harr & _). rewrite Hv in Ht. injection Ht as <-. split; assumption.
  - intros [Hb Hg] [Db Dg]. destruct (toggle_in_array _ (tag_name el) (negb (active el)) Hg)
      as (v' & Hv & _ & Hnd). rewrite Hv in Ht. injection Ht as <-. split; [exact Db|].
    simpl. now apply Hnd.
Qed.

Lemma toggled_baseModel_inv i s s' :
  toggled_baseModel i s s' ->
  (never_null (filters s) -> never_null (filters s'))
  /\ (arrays (filters s) -> arrays (filters s'))
  /\ (arrays (filters s) -> no_dups (filters s) -> no_dups (filters s')).
Proof.
  intros [->|(el & v & _ & Ht & ->)]; [tauto|].
  split; [|split].
  - intros [Hb Hg]. split; [|exact Hg]. simpl.
    destruct (baseModel (filters s)) as [| | | |l|] eqn:E; try congruence;
      try (simpl in Ht; destruct (negb (active el)); simpl in Ht; try discriminate;
           repeat match type of Ht with
                  | context [if ?c then _ else _] => destruct c
                  end; try discriminate; injection Ht as <-; discriminate).
  - intros [Hb Hg]. destruct (toggle_in_array _ (tag_name el) (negb (active el)) Hb)
      as (v' & Hv & Harr & _). rewrite Hv in Ht. injection Ht as <-. split; assumption.
  - intros [Hb Hg] [Db Dg]. destruct (toggle_in_array _ (tag_name el) (negb (active el)) Hb)
      as (v' & Hv & _ & Hnd). rewrite Hv in Ht. injection Ht as <-. split; [|exact Dg].
    simpl. now apply Hnd.
Qed.

Lemma loaded_from_arrays saved s s' :
  loaded_from saved s s' -> (forall text, saved = Some text -> stored_ok text) ->
  arrays (filters s) -> arrays (filters s').
Proof.
  intros [->|(text & v & a & b & Hs & Hp & Ha & Hb & ->)] Hok Harr; [exact Harr|].
  eapply loaded_arrays; eauto.
Qed.

Lemma loaded_from_never_null saved s s' :
  loaded_from saved s s' -> never_null (filters s) -> never_null (filters s').
Proof.
  intros [->|(text & v & a & b & _ & _ & _ & _ & ->)] H; [exact H|apply loaded_never_null].
Qed.

Lemma empty_filters_arrays : arrays empty_filters.
Proof. split; reflexivity. Qed.

Lemma empty_filters_no_dups : no_dups empty_filters.
Proof. split; constructor. Qed.

(** C7 (as amended): every operation of either filter manager keeps both
    fields arrays, provided the page state it starts from holds arrays and
    every stored text is harmless (no JSON, no object, or an object whose
    [baseModel] and [tags] are absent, falsy or arrays, as [applyFilters]
    writes them); and the operations that do not read the storage
    (the two toggles, [applyFilters], [clearFilters]) never put a tag
    twice into a field that had none twice. *)
Theorem filters_stay_arrays (m : Manager) (o : Operation) (s : State) :
  arrays (filters s) -> page_ok s -> storage_ok s ->
  arrays (filters (snd (run m o s)))
  /\ (reads_storage o = false -> no_dups (filters s) -> no_dups (filters (snd (run m o s)))).
Proof.
  intros Harr Hpage Hstore.
  destruct m, o; simpl run; simpl reads_storage;
    (split; [|try discriminate; intros _ Hnd]).
  - unfold FilterManager.new. set (s0 := with_filters _ _).
    apply (loaded_from_arrays _ s0 _ (fm_load_filters s0)).
    + intros text Ht. exact (Hstore _ _ Ht).
    + subst s0. simpl. unfold page_ok in Hpage.
      destruct (pageFilters s); [exact Hpage|exact empty_filters_arrays].
  - apply (loaded_from_arrays _ s _ (fm_load_filters s)); [|exact Harr].
    intros text Ht. exact (Hstore _ _ Ht).
  - now apply (toggled_tags_inv i s _ (fm_tagClick_filters i s)).
  - now apply (toggled_tags_inv i s _ (fm_tagClick_filters i s)).
  - now apply (toggled_baseModel_inv i s _ (fm_baseModelClick_filters i s)).
  - now apply (toggled_baseModel_inv i s _ (fm_baseModelClick_filters i s)).
  - now rewrite keeps_fm_apply.
  - now rewrite keeps_fm_apply.
  - rewrite fm_clear_filters. exact empty_filters_arrays.
  - rewrite fm_clear_filters. exact empty_filters_no_dups.
  - unfold RecipeFilterManager.new. set (s0 := with_filters _ _).
    apply (loaded_from_arrays _ s0 _ (rfm_load_filters s0)).
    + intros text Ht. exact (Hstore _ _ Ht).
    + exact empty_filters_arrays.
  - apply (loaded_from_arrays _ s _ (rfm_load_filters s)); [|exact Harr].
    intros text Ht. exact (Hstore _ _ Ht).
  - now apply (toggled_tags_inv i s _ (rfm_tagClick_filters i s)).
  - now apply (toggled_tags_inv i s _ (rfm_tagClick_filters i s)).
  - now apply (toggled_baseModel_inv i s _ (rfm_baseModelClick_filters i s)).
  - now apply (toggled_baseModel_inv i s _ (rfm_baseModelClick_filters i s)).
  - now rewrite keeps_rfm_apply.
  - now rewrite keeps_rfm_apply.
  - rewrite rfm_clear_filters. exact empty_filters_arrays.
  - rewrite rfm_clear_filters. exact empty_filters_no_dups.
Qed.

(** Whatever the storage holds, no operation makes a field [null]. *)
Lemma filters_never_null (m : Manager) (o : Operation) (s : State) :
  never_null (filters s) -> page_never_null s ->
  never_null (filters (snd (run m o s))).
Proof.
  intros Hn Hpage. destruct m, o; simpl run.
  - unfold FilterManager.new. set (s0 := with_filters _ _).
    apply (loaded_from_never_null _ s0 _ (fm_load_filters s0)).
    subst s0. simpl. unfold page_never_null in Hpage.
    destruct (pageFilters s); [exact Hpage|split; discriminate].
  - exact (loaded_from_never_null _ s _ (fm_load_filters s) Hn).
  - now apply (toggled_tags_inv i s _ (fm_tagClick_filters i s)).
  - now apply (toggled_baseModel_inv i s _ (fm_baseModelClick_filters i s)).
  - now rewrite keeps_fm_apply.
  - rewrite fm_clear_filters. split; discriminate.
  - unfold RecipeFilterManager.new. set (s0 := with_filters _ _).
    apply (loaded_from_never_null _ s0 _ (rfm_load_filters s0)). split; discriminate.
  - exact (loaded_from_never_null _ s _ (rfm_load_filters s) Hn).
  - now apply (toggled_tags_inv i s _ (rfm_tagClick_filters i s)).
  - now apply (toggled_baseModel_inv i s _ (rfm_baseModelClick_filters i s)).
  - now rewrite keeps_rfm_apply.
  - rewrite rfm_clear_filters. split; discriminate.
Qed.

(** A page whose tag "sci-fi" is already among the filters while its
    element is not active: the click that activates it adds nothing. *)
Definition already_present : State :=
  with_tags ["sci-fi"] (with_currentPage "loras" (fresh_page ∅)).

Lemma filters_stay_arrays_witness :
  arrays (filters (snd (run ItemsFilter (ToggleTag 0) already_present)))
  /\ (reads_storage (ToggleTag 0) = false -> no_dups (filters already_present) ->
      no_dups (filters (snd (run ItemsFilter (ToggleTag 0) already_present)))).
Proof.
  apply (filters_stay_arrays ItemsFilter (ToggleTag 0) already_present).
  - split; reflexivity.
  - exact I.
  - intros key text H. vm_compute in H. discriminate H.
Defined.

Example toggle_present_tag :
  filters (snd (run ItemsFilter (ToggleTag 0) already_present))
  = mkFilters (JArr []) (JArr [JStr "sci-fi"]).
Proof. vm_compute. reflexivity. Qed.

(** A stored record whose [tags] is a string. *)
Definition tags_as_text : string := "{" ++ quote "tags" ++ ":" ++ quote "abc" ++ "}".

(** C7, as stated, fails on a stored record with a truthy field that is no
    array: the fresh manager holds the stored string as its tag field. *)
Lemma filters_stay_arrays_counterexample :
  ~ (forall (m : Manager) (o : Operation) (s : State),
        arrays (filters s) -> page_ok s ->
        arrays (filters (snd (run m o s)))).
Proof.
  intros H.
  specialize (H ItemsFilter (Construct (Some "loras") None)
                (fresh_page {["loras_filters" := tags_as_text]})
                empty_filters_arrays I).
  destruct H as [_ H]. vm_compute in H. discriminate H.
Qed.

Example stored_text_field :
  filters (snd (FilterManager.new (Some "loras") None (fresh_page {["loras_filters" := tags_as_text]})))
  = mkFilters (JArr []) (JStr "abc").
Proof. vm_compute. reflexivity. Qed.

End FilterProofs.

(** ** More on the selection manager *)

Module BulkExtras.
Import JS Bulk BulkProofs.

(** The count element and the strip leave the mode flag alone. *)
Lemma count_and_strip_keep_mode fuel :
  forall s,
    bulkMode (snd (updateSelectedCount fuel s)) = bulkMode s
    /\ bulkMode (snd (hideThumbnailStrip fuel s)) = bulkMode s.
Proof.
  induction fuel as [|f IH]; intros s; [split; reflexivity|]. split; simpl.
  - destruct (countElement s); [|reflexivity].
    destruct (set_size (selectedLoras s) =? 0)%nat; [|reflexivity].
    exact (proj2 (IH _)).
  - destruct (strips s) as [|st rest]; [reflexivity|].
    pose proof (proj1 (IH (with_isStripVisible false
                             (with_strips (mark_hidden st :: rest) s)))) as H.
    destruct (updateSelectedCount f _) as [[u|e] s2]; exact H.
Qed.

(** Nor do they touch the panel. *)
Lemma count_and_strip_keep_panel fuel :
  forall s,
    bulkPanel (snd (updateSelectedCount fuel s)) = bulkPanel s
    /\ bulkPanel (snd (hideThumbnailStrip fuel s)) = bulkPanel s.
Proof.
  induction fuel as [|f IH]; intros s; [split; reflexivity|]. split; simpl.
  - destruct (countElement s); [|reflexivity].
    destruct (set_size (selectedLoras s) =? 0)%nat; [|reflexivity].
    exact (proj2 (IH _)).
  - destruct (strips s) as [|st rest]; [reflexivity|].
    pose proof (proj1 (IH (with_isStripVisible false
                             (with_strips (mark_hidden st :: rest) s)))) as H.
    destruct (updateSelectedCount f _) as [[u|e] s2]; exact H.
Qed.

Definition remark (sel : list string) (c : Card) : Card :=
  set_selected (set_has (filepath c) sel) c.

Lemma applySelectionState_state fuel s :
  bulkMode s = true ->
  let s' := snd (applySelectionState fuel s) in
  cards s' = List.map (remark (selectedLoras s)) (cards s)
  /\ selectedLoras s' = selectedLoras s
  /\ loraMetadataCache s' =
       refresh_cache (selectedLoras s) (cards s) (loraMetadataCache s)
  /\ bulkMode s' = true.
Proof.
  intros Hb s'. subst s'. unfold applySelectionState. rewrite Hb. simpl negb. cbv iota.
  set (s1 := with_cache _ _).
  destruct (updateSelectedCount_keeps fuel s1) as (Hc & Hs & Hm & _).
  rewrite Hc, Hs, Hm, (proj1 (count_and_strip_keep_mode fuel s1)).
  repeat split. exact Hb.
Qed.

Lemma map_remark_keys sel cs : filepath <$> List.map (remark sel) cs = filepath <$> cs.
Proof.
  induction cs as [|c cs IH]; [reflexivity|].
  change (filepath c :: (filepath <$> List.map (remark sel) cs) = filepath c :: (filepath <$> cs)).
  now rewrite IH.
Qed.

Lemma map_set_selected_keys b cs :
  filepath <$> List.map (set_selected b) cs = filepath <$> cs.
Proof.
  induction cs as [|c cs IH]; [reflexivity|].
  change (filepath c :: (filepath <$> List.map (set_selected b) cs)
          = filepath c :: (filepath <$> cs)).
  now rewrite IH.
Qed.

(** Outside selection mode [applySelectionState] does nothing; in
    selection mode it leaves the selection and the keys of the cards as
    they are and gives every rendered card the marker of its key. *)
Theorem applySelectionState_marks (fuel : nat) (s : State) :
  if bulkMode s
  then in_sync (snd (applySelectionState fuel s))
       /\ selectedLoras (snd (applySelectionState fuel s)) = selectedLoras s
       /\ keys (snd (applySelectionState fuel s)) = keys s
  else applySelectionState fuel s = (Returned tt, s).
Proof.
  destruct (bulkMode s) eqn:Hb; [|now apply applySelectionState_off].
  destruct (applySelectionState_state fuel s Hb) as (Hc & Hs & _).
  split; [now apply applySelectionState_syncs|]. split; [exact Hs|].
  unfold keys. rewrite Hc. apply map_remark_keys.
Qed.

(** [applySelectionState] is idempotent on what is seen: a second
    call, at any stack depth, leaves the markers of the cards and the
    selection as the first call left them. *)
Theorem applySelectionState_idempotent (fuel fuel' : nat) (s : State) :
  cards (snd (applySelectionState fuel' (snd (applySelectionState fuel s))))
    = cards (snd (applySelectionState fuel s))
  /\ selectedLoras (snd (applySelectionState fuel' (snd (applySelectionState fuel s))))
     = selectedLoras (snd (applySelectionState fuel s)).
Proof.
  destruct (bulkMode s) eqn:Hb.
  - destruct (applySelectionState_state fuel s Hb) as (Hc & Hs & _ & Hb').
    destruct (applySelectionState_state fuel' _ Hb') as (Hc2 & Hs2 & _).
    rewrite Hc2, Hs2, Hc, Hs. split; [|reflexivity].
    rewrite List.map_map. apply List.map_ext. intros c. reflexivity.
  - rewrite (applySelectionState_off fuel s Hb). simpl.
    rewrite (applySelectionState_off fuel' s Hb). split; reflexivity.
Qed.

(** The count element and the strip apart, [clearSelection] only
    unmarks the cards and empties the selection. *)
Lemma clearSelection_selection fuel s :
  same_selection
    (with_selectedLoras [] (with_cards (List.map (set_selected false) (cards s)) s))
    (snd (clearSelection fuel s)).
Proof.
  unfold clearSelection.
  set (s2 := with_selectedLoras [] (with_cards (List.map (set_selected false) (cards s)) s)).
  pose proof (updateSelectedCount_keeps fuel s2) as H.
  destruct (updateSelectedCount fuel s2) as [[u|e] s3]; simpl in *; [|exact H].
  pose proof (hideThumbnailStrip_keeps fuel s3) as K.
  destruct H as (H1 & H2 & H3 & H4 & H5), K as (K1 & K2 & K3 & K4 & K5).
  repeat split; congruence.
Qed.

(** However it ends, [clearSelection] leaves the selection empty and
    no rendered card marked, and it keeps the keys of the cards and every
    cache entry. *)
Theorem clearSelection_always_clears (fuel : nat) (s : State) :
  selectedLoras (snd (clearSelection fuel s)) = []
  /\ Forall (fun c => selected c = false) (cards (snd (clearSelection fuel s)))
  /\ keys (snd (clearSelection fuel s)) = keys s
  /\ loraMetadataCache (snd (clearSelection fuel s)) = loraMetadataCache s.
Proof.
  destruct (clearSelection_selection fuel s) as (H1 & H2 & H3 & _).
  unfold keys. rewrite H1, H2, H3.
  split; [reflexivity|]. split; [|split; [|reflexivity]]; simpl.
  - apply Forall_forall. intros c Hin. apply list_elem_of_In, in_map_iff in Hin.
    destruct Hin as (c0 & <- & _). reflexivity.
  - apply map_set_selected_keys.
Qed.

(** *** What the other methods leave alone *)

Lemma same_selection_trans s1 s2 s3 :
  same_selection s1 s2 -> same_selection s2 s3 -> same_selection s1 s3.
Proof. unfold same_selection. intuition congruence. Qed.

Lemma showThumbnailStrip_keeps fuel s : same_selection s (snd (showThumbnailStrip fuel s)).
Proof.
  unfold showThumbnailStrip. destruct (bulkPanel s); [|apply same_selection_refl].
  set (s1 := with_next_id _ _). set (s2 := with_isStripVisible true _).
  assert (H2 : same_selection s s2).
  { subst s2. destruct (updateThumbnailStrip_keeps s1) as (A & B & C & D & E).
    repeat split; simpl; [rewrite A|rewrite B|rewrite C|rewrite D|rewrite E]; reflexivity. }
  pose proof (updateSelectedCount_keeps fuel s2) as H.
  destruct (updateSelectedCount fuel s2) as [[u|e] s3]; simpl in *;
    (eapply same_selection_trans; [exact H2|]); [|exact H].
  destruct H as (A & B & C & D & E). repeat split; assumption.
Qed.

Lemma toggleThumbnailStrip_keeps fuel s :
  same_selection s (snd (toggleThumbnailStrip fuel s)).
Proof.
  unfold toggleThumbnailStrip.
  destruct (set_size (selectedLoras s) =? 0)%nat; [apply same_selection_refl|].
  destruct (strips s); [apply showThumbnailStrip_keeps|apply hideThumbnailStrip_keeps].
Qed.

(** [deselectItem] after the selector: a throw leaves the page as it is;
    otherwise the card found is unmarked and the key leaves the
    selection, the count element and the strip apart. *)
Lemma deselectItem_throws engine fuel k s e :
  querySelector_card engine k (cards s) = Threw e ->
  deselectItem engine fuel k s = (Threw e, s).
Proof. intros Hq. unfold deselectItem. now rewrite Hq. Qed.

Lemma deselectItem_selection engine fuel k s found :
  querySelector_card engine k (cards s) = Returned found ->
  same_selection
    (with_selectedLoras (set_delete k (selectedLoras s))
       (with_cards (unmark_found found (cards s)) s))
    (snd (deselectItem engine fuel k s)).
Proof.
  intros Hq. unfold deselectItem. rewrite Hq. set (s1 := with_selectedLoras _ _).
  pose proof (updateSelectedCount_keeps fuel s1) as H.
  destruct (updateSelectedCount fuel s1) as [[u|e] s2]; simpl in *; [|exact H].
  pose proof (updateThumbnailStrip_keeps s2) as H3.
  pose proof (same_selection_trans _ _ _ H H3) as H13.
  destruct (set_size _ =? 0)%nat; [|exact H13].
  eapply same_selection_trans; [exact H13|apply hideThumbnailStrip_keeps].
Qed.

(** What [copyAllLorasSyntax] does to the state: toasts and at most
    one clipboard text are appended, the rest stays. *)
Lemma copy_appends (s : State) :
  with_clipboard (clipboard s) (with_toasts (toasts s) (snd (copyAllLorasSyntax s))) = s
  /\ (exists ts, toasts (snd (copyAllLorasSyntax s)) = (toasts s ++ ts)%list)
  /\ (exists cs, clipboard (snd (copyAllLorasSyntax s)) = (clipboard s ++ cs)%list
                 /\ length cs <= 1).
Proof.
  assert (Hs : with_clipboard (clipboard s) (with_toasts (toasts s) s) = s)
    by (destruct s; reflexivity).
  unfold copyAllLorasSyntax.
  destruct (set_size (selectedLoras s) =? 0)%nat.
  { split; [exact Hs|]. split; [eexists; reflexivity|].
    exists []. rewrite app_nil_r. split; [reflexivity|simpl; lia]. }
  destruct (collect _ _ _ _) as [[syn miss]|e].
  2:{ split; [exact Hs|]. split; [exists []|exists []]; rewrite app_nil_r;
        [reflexivity|split; [reflexivity|simpl; lia]]. }
  set (s1 := if (0 <? length miss)%nat then _ else s).
  assert (H1 : with_clipboard (clipboard s) (with_toasts (toasts s) s1) = s
               /\ (exists ts, toasts s1 = (toasts s ++ ts)%list)
               /\ clipboard s1 = clipboard s /\ clipboard_ok s1 = clipboard_ok s).
  { subst s1. destruct (0 <? length miss)%nat.
    - split; [exact Hs|]. split; [eexists; reflexivity|split; reflexivity].
    - split; [exact Hs|]. split; [exists []; now rewrite app_nil_r|split; reflexivity]. }
  destruct H1 as (Hs1 & (ts & Hts) & Hc1 & Hok).
  destruct (length syn =? 0)%nat.
  { simpl. split; [exact Hs1|]. split.
    - eexists. rewrite Hts, <- app_assoc. reflexivity.
    - exists []. rewrite app_nil_r. split; [exact Hc1|simpl; lia]. }
  simpl. rewrite Hok.
  destruct (clipboard_ok s); simpl; (split; [exact Hs1|]); (split;
    [eexists; rewrite Hts, <- app_assoc; reflexivity
    |eexists; rewrite Hc1; split; [reflexivity|simpl; lia]]).
Qed.

(** X1: the copy reads the selection and never writes it: cards,
    selection, cache, strip, count and timers are as before, whatever
    the cache holds and however the copy ends; toasts are only appended,
    and at most one text is written to the clipboard. *)
Theorem copy_only_reports (s : State) :
  cards (snd (copyAllLorasSyntax s)) = cards s
  /\ selectedLoras (snd (copyAllLorasSyntax s)) = selectedLoras s
  /\ loraMetadataCache (snd (copyAllLorasSyntax s)) = loraMetadataCache s
  /\ strips (snd (copyAllLorasSyntax s)) = strips s
  /\ isStripVisible (snd (copyAllLorasSyntax s)) = isStripVisible s
  /\ countElement (snd (copyAllLorasSyntax s)) = countElement s
  /\ timers (snd (copyAllLorasSyntax s)) = timers s
  /\ bulkMode (snd (copyAllLorasSyntax s)) = bulkMode s
  /\ bulkPanel (snd (copyAllLorasSyntax s)) = bulkPanel s
  /\ (exists ts, toasts (snd (copyAllLorasSyntax s)) = (toasts s ++ ts)%list)
  /\ (exists cs, clipboard (snd (copyAllLorasSyntax s)) = (clipboard s ++ cs)%list
                 /\ length cs <= 1).
Proof.
  destruct (copy_appends s) as (Hs & Ht & Hc).
  repeat (split; [rewrite <- Hs at 2; reflexivity|]). split; assumption.
Qed.

(** *** The cache covers the selection *)

(** Every selected key has a cache entry. *)
Definition covered (s : State) : Prop :=
  Forall (fun k => is_Some (loraMetadataCache s !! k)) (selectedLoras s).

(** The cache of [s'] holds every key the cache of [s] holds. *)
Definition cache_grows (s s' : State) : Prop :=
  forall k, is_Some (loraMetadataCache s !! k) -> is_Some (loraMetadataCache s' !! k).

(** What the user can do to the selection. *)
Inductive Action : Type :=
| Toggle (i : nat)
| Reapply
| ClearAll
| Deselect (k : string)
| ToggleStrip
| Copy.

Definition act (engine : SelectorEngine) (fuel : nat) (a : Action) (s : State) : State :=
  snd (match a with
       | Toggle i => toggleCardSelection fuel i s
       | Reapply => applySelectionState fuel s
       | ClearAll => clearSelection fuel s
       | Deselect k => deselectItem engine fuel k s
       | ToggleStrip => toggleThumbnailStrip fuel s
       | Copy => copyAllLorasSyntax s
       end).

Lemma refresh_cache_grows sel cs :
  forall m k, is_Some (m !! k) -> is_Some (refresh_cache sel cs m !! k).
Proof.
  unfold refresh_cache. induction cs as [|c cs IH]; intros m k Hk; [exact Hk|].
  simpl. apply IH. destruct (set_has (filepath c) sel); [|exact Hk].
  destruct (decide (filepath c = k)) as [->|Hne].
  - rewrite lookup_insert_eq. eauto.
  - now rewrite lookup_insert_ne.
Qed.

Lemma In_set_delete k k' l : In k (set_delete k' l) -> In k l.
Proof.
  intros H. apply set_has_true in H. rewrite set_has_delete in H.
  apply andb_true_iff in H. apply set_has_true, H.
Qed.

Lemma In_set_add k k' l : In k (set_add k' l) -> k = k' \/ In k l.
Proof.
  intros H. apply set_has_true in H. rewrite set_has_add in H.
  apply orb_true_iff in H. destruct H as [H|H].
  - left. now apply String.eqb_eq.
  - right. now apply set_has_true.
Qed.

Lemma covered_same s s' :
  selectedLoras s' = selectedLoras s -> cache_grows s s' -> covered s -> covered s'.
Proof.
  unfold covered. intros Hs Hg Hc. rewrite Hs.
  eapply Forall_impl; [exact Hc|]. intros k Hk. now apply Hg.
Qed.

Lemma act_covered engine fuel a s :
  covered s -> covered (act engine fuel a s) /\ cache_grows s (act engine fuel a s).
Proof.
  intros Hc. destruct a as [i| | |k| |]; unfold act.
  - destruct (cards s !! i) as [card|] eqn:Hi.
    + destruct (toggleCardSelection_selection fuel i s card Hi) as (_ & Hs & Hm & _).
      unfold covered, cache_grows. rewrite Hs, Hm. unfold toggled.
      destruct (selected card); simpl.
      * split; [|auto]. apply Forall_forall. intros k Hk.
        apply list_elem_of_In, In_set_delete, list_elem_of_In in Hk.
        unfold covered in Hc. rewrite Forall_forall in Hc. auto.
      * split.
        -- apply Forall_forall. intros k Hk.
           apply list_elem_of_In, In_set_add in Hk. destruct Hk as [->|Hk].
           ++ rewrite lookup_insert_eq. eauto.
           ++ destruct (decide (filepath card = k)) as [->|Hne];
                [rewrite lookup_insert_eq; eauto|rewrite lookup_insert_ne by exact Hne].
              unfold covered in Hc. rewrite Forall_forall in Hc.
              apply Hc. now apply list_elem_of_In.
        -- intros k Hk. destruct (decide (filepath card = k)) as [->|Hne];
             [rewrite lookup_insert_eq; eauto|now rewrite lookup_insert_ne].
    + rewrite (toggleCardSelection_no_card fuel i s Hi). simpl. split; [exact Hc|].
      intros k Hk. exact Hk.
  - destruct (bulkMode s) eqn:Hb.
    + destruct (applySelectionState_state fuel s Hb) as (_ & Hs & Hm & _).
      assert (Hg : cache_grows s (snd (applySelectionState fuel s))).
      { intros k Hk. rewrite Hm. now apply refresh_cache_grows. }
      split; [|exact Hg]. now apply (covered_same s).
    + rewrite (applySelectionState_off fuel s Hb). simpl. split; [exact Hc|].
      intros k Hk. exact Hk.
  - destruct (clearSelection_selection fuel s) as (_ & Hs & Hm & _).
    unfold covered, cache_grows. rewrite Hs, Hm. split; [constructor|auto].
  - destruct (querySelector_card engine k (cards s)) as [found|e] eqn:Hq.
    2:{ rewrite (deselectItem_throws engine fuel k s e Hq). simpl. split; [exact Hc|].
        intros k' Hk. exact Hk. }
    destruct (deselectItem_selection engine fuel k s found Hq) as (_ & Hs & Hm & _).
    unfold covered, cache_grows. rewrite Hs, Hm. simpl. split; [|auto].
    apply Forall_forall. intros k' Hk.
    apply list_elem_of_In, In_set_delete, list_elem_of_In in Hk.
    unfold covered in Hc. rewrite Forall_forall in Hc. auto.
  - destruct (toggleThumbnailStrip_keeps fuel s) as (_ & Hs & Hm & _).
    assert (Hg : cache_grows s (snd (toggleThumbnailStrip fuel s))).
    { intros k' Hk. now rewrite Hm. }
    split; [|exact Hg]. now apply (covered_same s).
  - destruct (copy_appends s) as (Hs & _).
    assert (E1 : selectedLoras (snd (copyAllLorasSyntax s)) = selectedLoras s).
    { rewrite <- Hs at 2. reflexivity. }
    assert (E2 : loraMetadataCache (snd (copyAllLorasSyntax s)) = loraMetadataCache s).
    { rewrite <- Hs at 2. reflexivity. }
    assert (Hg : cache_grows s (snd (copyAllLorasSyntax s))).
    { intros k' Hk. now rewrite E2. }
    split; [|exact Hg]. now apply (covered_same s).
Qed.

(** X2: once every selected key has a cache entry it stays so under any
    run of user actions (toggling cards, re-applying the selection,
    clearing, removing a thumbnail, opening or closing the strip,
    copying), however the calls end and whatever the selector engine
    answers; and no action ever removes a cache entry. *)
Theorem selection_stays_covered (engine : SelectorEngine) (fuel : nat)
    (acts : list Action) (s : State) :
  covered s ->
  covered (fold_left (fun st a => act engine fuel a st) acts s)
  /\ cache_grows s (fold_left (fun st a => act engine fuel a st) acts s).
Proof.
  revert s. induction acts as [|a acts IH]; intros s Hc; simpl.
  - split; [exact Hc|]. intros k Hk. exact Hk.
  - destruct (act_covered engine fuel a s Hc) as [Hc1 Hg1].
    destruct (IH _ Hc1) as [Hc2 Hg2]. split; [exact Hc2|].
    intros k Hk. apply Hg2, Hg1, Hk.
Qed.

(** An engine that rejects every selector it is asked about. *)
Definition strict_engine : SelectorEngine := fun _ _ => Threw SyntaxError.

Lemma selection_stays_covered_witness :
  covered (fold_left (fun st a => act strict_engine 8 a st)
             [Toggle 0; Toggle 1; ToggleStrip; Deselect "a"; Reapply; Toggle 1; Copy]
             (page [plain_card "a" false; plain_card "b" false] []))
  /\ cache_grows (page [plain_card "a" false; plain_card "b" false] [])
       (fold_left (fun st a => act strict_engine 8 a st)
          [Toggle 0; Toggle 1; ToggleStrip; Deselect "a"; Reapply; Toggle 1; Copy]
          (page [plain_card "a" false; plain_card "b" false] [])).
Proof.
  apply (selection_stays_covered strict_engine 8
           [Toggle 0; Toggle 1; ToggleStrip; Deselect "a"; Reapply; Toggle 1; Copy]
           (page [plain_card "a" false; plain_card "b" false] [])).
  constructor.
Defined.

(** *** Copying a covered selection *)

(** The token of the cache entry of a key. *)
Definition token_of (cache : gmap string Metadata) (k t : string) : Prop :=
  exists m, cache !! k = Some m /\ lora_syntax (fileName m) (usageTips m) = Returned t.

Lemma collect_covered cache keys :
  Forall (fun k => is_Some (cache !! k)) keys -> all_parse cache keys ->
  forall syn miss, exists x,
    collect cache keys syn miss = Returned ((syn ++ x)%list, miss)
    /\ Forall2 (token_of cache) keys x.
Proof.
  induction keys as [|k r IH]; intros Hc Hp syn miss.
  - exists []. rewrite app_nil_r. split; [reflexivity|constructor].
  - inversion Hc as [|? ? [m Hm] Hc']; subst. inversion Hp as [|? ? Hk Hp']; subst.
    destruct (Hk m Hm) as [t Ht]. simpl. rewrite Hm, Ht.
    destruct (IH Hc' Hp' (syn ++ [t])%list miss) as (x & -> & Hx).
    exists (t :: x). rewrite <- app_assoc. split; [reflexivity|].
    constructor; [now exists m|exact Hx].
Qed.

(** X3: when every selected key has a cache entry from which the token
    can be built (the usage tips parse, to a value other than [null], and
    the strength has a text), the copy of a non-empty selection returns,
    shows no warning, and writes one text: the tokens of the selected
    keys, in the order of their selection, joined by a comma and a space;
    its only toast counts the selected keys, or reports the failed
    write. *)
Theorem copy_covered (s : State) :
  selectedLoras s <> [] -> covered s ->
  all_parse (loraMetadataCache s) (selectedLoras s) ->
  exists syn,
    Forall2 (token_of (loraMetadataCache s)) (selectedLoras s) syn
    /\ copyAllLorasSyntax s =
       (Returned tt,
        showToast
          (if clipboard_ok s
           then "Copied " ++ string_of_nat (length (selectedLoras s))
                  ++ " LoRA syntaxes to clipboard"
           else "Copy failed")
          (if clipboard_ok s then success else error)
          (with_clipboard (clipboard s ++ [join ", " syn])%list s)).
Proof.
  intros Hne Hc Hp.
  destruct (collect_covered _ _ Hc Hp [] []) as (syn & Hcol & Hsyn).
  exists syn. split; [exact Hsyn|].
  pose proof (Forall2_length _ _ _ Hsyn) as Hlen.
  unfold copyAllLorasSyntax. rewrite Hcol. simpl.
  destruct (selectedLoras s) as [|k r] eqn:E; [congruence|].
  destruct syn as [|t syn]; [discriminate Hlen|]. simpl in *.
  injection Hlen as Hlen. rewrite Hlen.
  destruct (clipboard_ok s); reflexivity.
Qed.

Definition copy_page : State :=
  selection ["A"; "B"] {["A" := cached "foo" strength_08; "B" := cached "bar" ""]}.

Lemma copy_covered_witness :
  exists syn,
    Forall2 (token_of (loraMetadataCache copy_page)) (selectedLoras copy_page) syn
    /\ copyAllLorasSyntax copy_page =
       (Returned tt,
        showToast
          (if clipboard_ok copy_page
           then "Copied " ++ string_of_nat (length (selectedLoras copy_page))
                  ++ " LoRA syntaxes to clipboard"
           else "Copy failed")
          (if clipboard_ok copy_page then success else error)
          (with_clipboard (clipboard copy_page ++ [join ", " syn])%list copy_page)).
Proof.
  apply (copy_covered copy_page).
  - discriminate.
  - repeat constructor; vm_compute; eauto.
  - repeat constructor; intros m Hm; vm_compute in Hm; injection Hm as <-;
      eexists; vm_compute; reflexivity.
Defined.

(** *** Removing one key *)




Definition two_selected : State :=
  page [plain_card "a" true; plain_card "b" true] ["a"; "b"].


(** A key with a quote in it: the engine that rejects the selector leaves
    the key selected and its card marked. *)
Example deselect_quoted_key :
  let k := String dquote "a" in
  let s := page [plain_card k true] [k] in
  deselectItem strict_engine 3 k s = (Threw SyntaxError, s).
Proof. reflexivity. Qed.

(** *** The thumbnail strip *)













End BulkExtras.

(** ** Further properties of the filter managers *)

Module FilterExtras.
Import JS Filters FilterProofs.

(** *** What the reload and the closing steps leave alone *)

(** The filters, the tag elements, the page and the storage agree. *)
Definition frame (s s' : State) : Prop :=
  filters s' = filters s /\ modelTags s' = modelTags s
  /\ baseModelTags s' = baseModelTags s /\ currentPage s' = currentPage s
  /\ localStorage s' = localStorage s.

Lemma frame_refl s : frame s s.
Proof. repeat split. Qed.

Lemma frame_trans s1 s2 s3 : frame s1 s2 -> frame s2 s3 -> frame s1 s3.
Proof. unfold frame. intuition congruence. Qed.

Lemma frame_andThen s r k :
  frame s (snd r) -> (forall s', frame s' (snd (k s'))) -> frame s (snd (andThen r k)).
Proof.
  intros Hr Hk. destruct r as [[u|e] s1]; simpl in *; [|exact Hr].
  eapply frame_trans; [exact Hr|apply Hk].
Qed.

Lemma frame_show b s : frame s (snd (show_filter_state b s)).
Proof.
  unfold show_filter_state. destruct (filterButton s); [|repeat split].
  destruct (hasActiveFilters s), b; repeat split.
Qed.

Lemma frame_await c s : frame s (snd (await c s)).
Proof. rewrite await_state. repeat split. Qed.

Lemma frame_fm_reload s : frame s (snd (FilterManager.reload s)).
Proof. rewrite reload_state. destruct (collaborator s); repeat split. Qed.

Lemma frame_fm_count s : frame s (FilterManager.updateActiveFiltersCount s).
Proof.
  unfold FilterManager.updateActiveFiltersCount. destruct (activeFiltersCount s); repeat split.
Qed.

Lemma frame_rfm_count s : frame s (snd (RecipeFilterManager.updateActiveFiltersCount s)).
Proof.
  unfold RecipeFilterManager.updateActiveFiltersCount.
  destruct (activeFiltersCount s); repeat split.
Qed.

Lemma frame_page_reload s : frame s (snd (RecipeFilterManager._applyFiltersByPageReload s)).
Proof.
  unfold RecipeFilterManager._applyFiltersByPageReload.
  destruct (positive (js_length (baseModel (filters s))));
    [destruct (js_join (baseModel (filters s))); [|repeat split]|];
    (destruct (positive (js_length (tags (filters s))));
       [destruct (js_join (tags (filters s)))|]); repeat split.
Qed.

(** The state in which [applyFilters] starts its reload. *)
Definition stored (key : string) (s : State) : State :=
  with_localStorage (<[key := JSON_stringify_filters (filters s)]> (localStorage s)) s.

Lemma frame_fm_apply b s :
  frame (stored (FilterManager.storageKey s) s) (snd (FilterManager.applyFilters b s)).
Proof.
  unfold FilterManager.applyFilters. apply frame_andThen; [|apply frame_show].
  eapply frame_trans; [|apply frame_fm_reload]. repeat split.
Qed.

Lemma frame_rfm_reload s1 :
  frame s1
    (snd match recipeManager s1 with
         | Some rm =>
             match await (LoadRecipesWith
                     (filters (if has_showLoading rm then call ShowLoading s1 else s1)))
                     (if has_showLoading rm then call ShowLoading s1 else s1) with
             | (Returned _, s3) =>
                 (Returned tt, if has_hideLoading rm then call HideLoading s3 else s3)
             | (Threw _, s3) => RecipeFilterManager._applyFiltersByPageReload s3
             end
         | None => RecipeFilterManager._applyFiltersByPageReload s1
         end).
Proof.
  destruct (recipeManager s1) as [rm|]; [|apply frame_page_reload].
  set (s2 := if has_showLoading rm then call ShowLoading s1 else s1).
  assert (H2 : frame s1 s2) by (subst s2; destruct (has_showLoading rm); repeat split).
  pose proof (frame_await (LoadRecipesWith (filters s2)) s2) as Ha.
  destruct (await _ s2) as [[u|e] s3]; simpl in *.
  - eapply frame_trans; [exact H2|]. eapply frame_trans; [exact Ha|].
    destruct (has_hideLoading rm); repeat split.
  - eapply frame_trans; [exact H2|]. eapply frame_trans; [exact Ha|].
    apply frame_page_reload.
Qed.

Lemma frame_rfm_apply b s :
  frame (stored RecipeFilterManager.storageKey s)
    (snd (RecipeFilterManager.applyFilters b s)).
Proof.
  unfold RecipeFilterManager.applyFilters.
  apply frame_andThen; [|apply frame_show]. apply (frame_rfm_reload (stored _ s)).
Qed.

(** *** The storage key of a manager *)

(** The key a manager reads and writes. *)
Definition own_key (m : Manager) (o : Operation) (s : State) : string :=
  match m with
  | ItemsFilter =>
      match o with
      | Construct optionsPage bodyPage => FilterManager.page_of optionsPage bodyPage
      | _ => currentPage s
      end ++ "_filters"
  | RecipeFilter => "recipeFilters"
  end.

(** The page is the same and the storage agrees outside [key]. *)
Definition within (key : string) (s s' : State) : Prop :=
  currentPage s' = currentPage s
  /\ forall k, k <> key -> localStorage s' !! k = localStorage s !! k.

Lemma within_refl key s : within key s s.
Proof. split; [reflexivity|intros k _; reflexivity]. Qed.

Lemma within_trans key s1 s2 s3 : within key s1 s2 -> within key s2 s3 -> within key s1 s3.
Proof.
  intros [P1 L1] [P2 L2]. split; [congruence|].
  intros k Hk. rewrite (L2 k Hk). apply (L1 k Hk).
Qed.

Lemma within_frame key s s' : frame s s' -> within key s s'.
Proof. intros (_ & _ & _ & Hp & Hl). split; [exact Hp|]. intros k _. now rewrite Hl. Qed.

Lemma within_core key s s' : same_core s s' -> within key s s'.
Proof. intros (Hp & _ & Hl & _). split; [exact Hp|]. intros k _. now rewrite Hl. Qed.

Lemma within_andThen key s r k :
  within key s (snd r) ->
  (forall s', within key s s' -> within key s' (snd (k s'))) ->
  within key s (snd (andThen r k)).
Proof.
  intros Hr Hk. destruct r as [[u|e] s1]; simpl in *; [|exact Hr].
  eapply within_trans; [exact Hr|apply Hk, Hr].
Qed.

(** A step that writes neither the page nor the storage. *)
Ltac untouched := split; [reflexivity|intros ? _; reflexivity].

Lemma within_stored key s : within key s (stored key s).
Proof.
  split; [reflexivity|]. intros k Hk. simpl. apply lookup_insert_ne. congruence.
Qed.

Lemma within_fm_apply b s :
  within (FilterManager.storageKey s) s (snd (FilterManager.applyFilters b s)).
Proof.
  eapply within_trans; [apply within_stored|apply within_frame, frame_fm_apply].
Qed.

Lemma within_rfm_apply b s :
  within "recipeFilters" s (snd (RecipeFilterManager.applyFilters b s)).
Proof.
  eapply within_trans;
    [apply (within_stored "recipeFilters")|apply within_frame, frame_rfm_apply].
Qed.

Lemma within_fm_load key s : within key s (snd (FilterManager.loadFiltersFromStorage s)).
Proof.
  unfold FilterManager.loadFiltersFromStorage.
  destruct (localStorage s !! FilterManager.storageKey s) as [[|c t]|];
    try apply within_refl.
  unfold try_catch, FilterManager.load_saved. cbn [snd].
  destruct (JSON_parse _) as [v|e]; [|apply within_refl].
  destruct (get_prop v "baseModel") as [a|e]; [|apply within_refl].
  destruct (get_prop v "tags") as [b|e]; [|apply within_refl].
  set (s2 := with_pageFilters _ _).
  apply (within_trans key s s2); [untouched|].
  apply within_andThen; [apply within_core, updateTagSelections_core|].
  intros s3 _. eapply within_trans; [apply within_core, (fm_count_core s3)|].
  destruct (hasActiveFilters _); [|apply within_refl].
  destruct (filterButton _); untouched.
Qed.

Lemma within_rfm_load key s :
  within key s (snd (RecipeFilterManager.loadFiltersFromStorage s)).
Proof.
  unfold RecipeFilterManager.loadFiltersFromStorage.
  destruct (localStorage s !! RecipeFilterManager.storageKey) as [[|c t]|];
    try apply within_refl.
  unfold try_catch, RecipeFilterManager.load_saved. cbn [snd].
  destruct (JSON_parse _) as [v|e]; [|apply within_refl].
  destruct (get_prop v "baseModel") as [a|e]; [|apply within_refl].
  destruct (get_prop v "tags") as [b|e]; [|apply within_refl].
  set (s1 := with_filters _ _).
  apply (within_trans key s s1); [untouched|].
  apply within_andThen; [apply within_core, updateTagSelections_core|].
  intros s2 _. apply within_andThen; [apply within_core, rfm_count_core|].
  intros s3 _. destruct (hasActiveFilters _); [|apply within_refl].
  destruct (filterButton _); untouched.
Qed.

Lemma within_removed key s :
  within key s (with_localStorage (delete key (localStorage s)) s).
Proof. split; [reflexivity|]. intros k Hk. simpl. apply lookup_delete_ne. congruence. Qed.

Lemma within_fm_clear s :
  within (FilterManager.storageKey s) s (snd (FilterManager.clearFilters s)).
Proof.
  unfold FilterManager.clearFilters.
  set (s2 := with_pageFilters _ _).
  apply (within_trans _ s s2); [untouched|].
  apply within_andThen; [apply within_core, updateTagSelections_core|].
  intros s3 [H3 _].
  eapply within_trans; [apply within_core, (fm_count_core s3)|].
  set (s4 := FilterManager.updateActiveFiltersCount s3).
  assert (Hk : FilterManager.storageKey s4 = FilterManager.storageKey s).
  { unfold FilterManager.storageKey. subst s4.
    destruct (fm_count_core s3) as (-> & _). now rewrite H3. }
  rewrite Hk. eapply within_trans; [apply within_removed|].
  set (s5 := with_localStorage _ s4).
  destruct (filterButton s5); [|apply within_refl].
  apply within_andThen; [|intros s6 _; untouched].
  eapply within_trans; [|apply within_frame, frame_fm_reload]. untouched.
Qed.

Lemma within_rfm_clear s :
  within "recipeFilters" s (snd (RecipeFilterManager.clearFilters s)).
Proof.
  unfold RecipeFilterManager.clearFilters.
  set (s1 := with_filters _ _).
  apply (within_trans _ s s1); [untouched|].
  apply within_andThen; [apply within_core, updateTagSelections_core|].
  intros s2 _. apply within_andThen; [apply within_core, rfm_count_core|].
  intros s3 _. eapply within_trans; [apply (within_removed "recipeFilters")|].
  set (s4 := with_localStorage _ s3).
  destruct (filterButton s4); [|apply within_refl].
  apply within_andThen; [|intros s6 _; untouched].
  destruct (recipeManager _);
    [eapply within_trans; [|apply within_frame, frame_await]|]; untouched.
Qed.

Lemma within_fm_tagClick i s :
  within (FilterManager.storageKey s) s (snd (FilterManager.tagClick i s)).
Proof.
  unfold FilterManager.tagClick. destruct (modelTags s !! i) as [el|]; [|apply within_refl].
  cbn [tags filters with_modelTags].
  destruct (toggle_in _ _ _) as [v|e]; [|untouched].
  set (s2 := with_filters _ _).
  apply (within_trans _ s s2); [untouched|].
  eapply within_trans; [apply within_frame, frame_fm_count|].
  assert (Hk : FilterManager.storageKey s
               = FilterManager.storageKey (FilterManager.updateActiveFiltersCount s2)).
  { unfold FilterManager.storageKey.
    now destruct (frame_fm_count s2) as (_ & _ & _ & -> & _). }
  rewrite Hk. apply within_fm_apply.
Qed.

Lemma within_fm_baseModelClick i s :
  within (FilterManager.storageKey s) s (snd (FilterManager.baseModelClick i s)).
Proof.
  unfold FilterManager.baseModelClick.
  destruct (baseModelTags s !! i) as [el|]; [|apply within_refl].
  cbn [baseModel filters with_baseModelTags].
  destruct (toggle_in _ _ _) as [v|e]; [|untouched].
  set (s2 := with_filters _ _).
  apply (within_trans _ s s2); [untouched|].
  eapply within_trans; [apply within_frame, frame_fm_count|].
  assert (Hk : FilterManager.storageKey s
               = FilterManager.storageKey (FilterManager.updateActiveFiltersCount s2)).
  { unfold FilterManager.storageKey.
    now destruct (frame_fm_count s2) as (_ & _ & _ & -> & _). }
  rewrite Hk. apply within_fm_apply.
Qed.

Lemma within_rfm_tagClick i s :
  within "recipeFilters" s (snd (RecipeFilterManager.tagClick i s)).
Proof.
  unfold RecipeFilterManager.tagClick.
  destruct (modelTags s !! i) as [el|]; [|apply within_refl].
  cbn [tags filters with_modelTags].
  destruct (toggle_in _ _ _) as [v|e]; [|untouched].
  set (s2 := with_filters _ _).
  apply (within_trans _ s s2); [untouched|].
  apply within_andThen; [apply within_frame, frame_rfm_count|].
  intros s3 _. apply within_rfm_apply.
Qed.

Lemma within_rfm_baseModelClick i s :
  within "recipeFilters" s (snd (RecipeFilterManager.baseModelClick i s)).
Proof.
  unfold RecipeFilterManager.baseModelClick.
  destruct (baseModelTags s !! i) as [el|]; [|apply within_refl].
  cbn [baseModel filters with_baseModelTags].
  destruct (toggle_in _ _ _) as [v|e]; [|untouched].
  set (s2 := with_filters _ _).
  apply (within_trans _ s s2); [untouched|].
  apply within_andThen; [apply within_frame, frame_rfm_count|].
  intros s3 _. apply within_rfm_apply.
Qed.

(** X7: whatever a manager is asked to do, it leaves every storage entry
    but its own alone: a [FilterManager] writes only under the key of its
    page, a [RecipeFilterManager] only under [recipeFilters]. *)
Theorem writes_only_own_key (m : Manager) (o : Operation) (s : State) (k : string) :
  k <> own_key m o s ->
  localStorage (snd (run m o s)) !! k = localStorage s !! k.
Proof.
  intros Hk. destruct m, o; simpl in *.
  - unfold FilterManager.new. set (s0 := with_filters _ _).
    change (localStorage s) with (localStorage s0).
    apply (proj2 (within_fm_load
                    (FilterManager.page_of optionsPage bodyPage ++ "_filters") s0)), Hk.
  - apply (proj2 (within_fm_load (currentPage s ++ "_filters") s)), Hk.
  - apply (proj2 (within_fm_tagClick i s)), Hk.
  - apply (proj2 (within_fm_baseModelClick i s)), Hk.
  - apply (proj2 (within_fm_apply notify s)), Hk.
  - apply (proj2 (within_fm_clear s)), Hk.
  - apply (proj2 (within_rfm_load "recipeFilters" (with_filters empty_filters s))), Hk.
  - apply (proj2 (within_rfm_load "recipeFilters" s)), Hk.
  - apply (proj2 (within_rfm_tagClick i s)), Hk.
  - apply (proj2 (within_rfm_baseModelClick i s)), Hk.
  - apply (proj2 (within_rfm_apply notify s)), Hk.
  - apply (proj2 (within_rfm_clear s)), Hk.
Qed.

(** The recipes page with stored filters of the other manager. *)
Definition recipes_page : State :=
  with_tags ["anime"]
    (with_currentPage "recipes" (fresh_page {["recipeFilters" := "kept"]})).

Lemma writes_only_own_key_witness :
  localStorage (snd (run ItemsFilter (Apply true) recipes_page)) !! "recipeFilters"
  = localStorage recipes_page !! "recipeFilters".
Proof.
  apply (writes_only_own_key ItemsFilter (Apply true) recipes_page "recipeFilters").
  discriminate.
Defined.

(** *** The marks of the tag elements *)

(** The field is an array and an element carries the [active] class
    exactly when its tag is in it. *)
Definition marks_agree (field : JSValue) (els : list TagElement) : Prop :=
  exists l, field = JArr l
            /\ Forall (fun el => active el = existsb (is_str (tag_name el)) l) els.

(** Both kinds of element agree with their field, and carry the names
    [n]. *)
Definition synced (n : list string * list string) (s : State) : Prop :=
  (tag_name <$> baseModelTags s, tag_name <$> modelTags s) = n
  /\ marks_agree (baseModel (filters s)) (baseModelTags s)
  /\ marks_agree (tags (filters s)) (modelTags s).

Definition remark_tags (l : list JSValue) (els : list TagElement) : list TagElement :=
  List.map (fun el => set_active (existsb (is_str (tag_name el)) l) el) els.

Lemma mark_tags_array l els : mark_tags (JArr l) els = (Returned tt, remark_tags l els).
Proof.
  induction els as [|el r IH]; [reflexivity|].
  cbn [mark_tags js_includes]. rewrite IH. reflexivity.
Qed.

Lemma remark_names l els : tag_name <$> remark_tags l els = tag_name <$> els.
Proof.
  induction els as [|el r IH]; [reflexivity|].
  change (tag_name el :: (tag_name <$> remark_tags l r) = tag_name el :: (tag_name <$> r)).
  now rewrite IH.
Qed.

Lemma remark_agrees l els : marks_agree (JArr l) (remark_tags l els).
Proof.
  exists l. split; [reflexivity|]. induction els as [|el r IH]; constructor; auto.
Qed.

Lemma updateTagSelections_arrays s a b :
  filters s = mkFilters (JArr a) (JArr b) ->
  updateTagSelections s =
    (Returned tt,
     with_modelTags (remark_tags b (modelTags s))
       (with_baseModelTags (remark_tags a (baseModelTags s)) s)).
Proof.
  intros Hf. unfold updateTagSelections. rewrite Hf. cbn [baseModel].
  rewrite mark_tags_array. cbn [filters with_baseModelTags modelTags].
  rewrite Hf. cbn [tags]. rewrite mark_tags_array. reflexivity.
Qed.

(** The filters and the tag elements agree. *)
Definition view (s s' : State) : Prop :=
  filters s' = filters s /\ modelTags s' = modelTags s
  /\ baseModelTags s' = baseModelTags s.

Lemma view_frame s s' : frame s s' -> view s s'.
Proof. intros (Hf & Hm & Hb & _). repeat split; assumption. Qed.

Lemma view_fm_apply b s : view s (snd (FilterManager.applyFilters b s)).
Proof. exact (view_frame _ _ (frame_fm_apply b s)). Qed.

Lemma view_rfm_apply b s : view s (snd (RecipeFilterManager.applyFilters b s)).
Proof. exact (view_frame _ _ (frame_rfm_apply b s)). Qed.

Lemma synced_view n s s' : view s s' -> synced n s -> synced n s'.
Proof.
  intros (Hf & Hm & Hb) (Hn & Ha & Ht). unfold synced. rewrite Hf, Hm, Hb. auto.
Qed.

Lemma synced_frame n s s' : frame s s' -> synced n s -> synced n s'.
Proof. intros H. apply synced_view, view_frame, H. Qed.

Lemma synced_andThen n r k :
  synced n (snd r) -> (forall s, synced n s -> synced n (snd (k s))) ->
  synced n (snd (andThen r k)).
Proof. apply (andThen_state r k (synced n)). Qed.

Lemma existsb_is_str_app t l x :
  existsb (is_str t) (l ++ [JStr x])%list = (existsb (is_str t) l || String.eqb x t)%bool.
Proof. rewrite existsb_app. simpl. now rewrite orb_false_r. Qed.

Lemma existsb_is_str_filter t x l :
  x <> t ->
  existsb (is_str t) (List.filter (fun v => negb (is_str x v)) l) = existsb (is_str t) l.
Proof.
  intros Hne. induction l as [|v l IH]; [reflexivity|]. simpl.
  destruct (is_str x v) eqn:Ex; simpl; rewrite IH; [|reflexivity].
  destruct v as [| | |y| |]; simpl in *; try discriminate.
  apply String.eqb_eq in Ex. subst y.
  destruct (String.eqb_spec x t); [congruence|reflexivity].
Qed.

Lemma existsb_is_str_removed t l :
  existsb (is_str t) (List.filter (fun v => negb (is_str t v)) l) = false.
Proof.
  induction l as [|v l IH]; [reflexivity|]. simpl.
  destruct (is_str t v) eqn:E; simpl; [exact IH|]. now rewrite E, IH.
Qed.

(** A click on the [i]-th element toggles its class and its tag in the
    field together. *)
Lemma toggle_keeps_agreement field els i el :
  NoDup (tag_name <$> els) -> marks_agree field els -> els !! i = Some el ->
  exists v,
    toggle_in field (tag_name el) (negb (active el)) = Returned v
    /\ marks_agree v (<[i := set_active (negb (active el)) el]> els).
Proof.
  intros Hnd (l & -> & Hall) Hi.
  assert (Hel : active el = existsb (is_str (tag_name el)) l).
  { rewrite Forall_lookup in Hall. exact (Hall i el Hi). }
  assert (Hother : forall j x, j <> i -> els !! j = Some x -> tag_name x <> tag_name el).
  { intros j x Hji Hj E. apply Hji.
    apply (NoDup_lookup (tag_name <$> els) j i (tag_name x)); [exact Hnd| |].
    - rewrite list_lookup_fmap, Hj. reflexivity.
    - rewrite list_lookup_fmap, Hi. simpl. now rewrite E. }
  destruct (active el) eqn:Ea; cbn [negb toggle_in js_remove js_includes js_push].
  - eexists. split; [reflexivity|]. eexists. split; [reflexivity|].
    apply Forall_lookup. intros j x Hj.
    apply list_lookup_insert_Some in Hj as [(<- & <- & _)|[Hji Hj]].
    + simpl. now rewrite existsb_is_str_removed.
    + rewrite existsb_is_str_filter.
      * rewrite Forall_lookup in Hall. exact (Hall j x Hj).
      * intros E. apply (Hother j x); [congruence|exact Hj|now symmetry].
  - rewrite <- Hel. cbn [js_push]. eexists. split; [reflexivity|]. eexists.
    split; [reflexivity|].
    apply Forall_lookup. intros j x Hj.
    apply list_lookup_insert_Some in Hj as [(<- & <- & _)|[Hji Hj]].
    + simpl. rewrite existsb_is_str_app, String.eqb_refl. now rewrite orb_true_r.
    + rewrite existsb_is_str_app.
      rewrite Forall_lookup in Hall. rewrite <- (Hall j x Hj).
      destruct (String.eqb_spec (tag_name el) (tag_name x)) as [E|_];
        [|now rewrite orb_false_r].
      exfalso. apply (Hother j x); [congruence|exact Hj|now symmetry].
Qed.

Lemma insert_names i el b (els : list TagElement) :
  els !! i = Some el -> tag_name <$> <[i := set_active b el]> els = tag_name <$> els.
Proof.
  intros Hi. rewrite list_fmap_insert. simpl. apply list_insert_id.
  rewrite list_lookup_fmap, Hi. reflexivity.
Qed.

Lemma synced_empty n s :
  (tag_name <$> baseModelTags s, tag_name <$> modelTags s) = n ->
  forall s0, filters s0 = empty_filters ->
    modelTags s0 = modelTags s -> baseModelTags s0 = baseModelTags s ->
    synced n (snd (updateTagSelections s0)).
Proof.
  intros Hn s0 Hf Hm Hb.
  rewrite (updateTagSelections_arrays s0 [] [] Hf). unfold synced. simpl.
  rewrite Hf, Hm, Hb, !remark_names. split; [exact Hn|].
  split; apply remark_agrees.
Qed.

Lemma synced_step n m o s :
  NoDup n.1 -> NoDup n.2 -> reads_storage o = false ->
  synced n s -> synced n (snd (run m o s)).
Proof.
  intros Hb Ht Ho Hs. pose proof Hs as (Hn & Hab & Hat). subst n. simpl in Hb, Ht.
  destruct o; try discriminate Ho; destruct m; cbn [run].
  - unfold FilterManager.tagClick. destruct (modelTags s !! i) as [el|] eqn:Hi; [|exact Hs].
    cbn [tags filters with_modelTags].
    destruct (toggle_keeps_agreement _ _ i el Ht Hat Hi) as (v & -> & Hv).
    set (s2 := with_filters _ _).
    apply (synced_view _ (FilterManager.updateActiveFiltersCount s2));
      [apply view_fm_apply|].
    apply (synced_frame _ s2); [apply frame_fm_count|].
    unfold synced. simpl. rewrite (insert_names i el _ _ Hi). auto.
  - unfold RecipeFilterManager.tagClick.
    destruct (modelTags s !! i) as [el|] eqn:Hi; [|exact Hs].
    cbn [tags filters with_modelTags].
    destruct (toggle_keeps_agreement _ _ i el Ht Hat Hi) as (v & -> & Hv).
    set (s2 := with_filters _ _).
    assert (H2 : synced (tag_name <$> baseModelTags s, tag_name <$> modelTags s) s2).
    { unfold synced. simpl. rewrite (insert_names i el _ _ Hi). auto. }
    apply synced_andThen; [apply (synced_frame _ s2); [apply frame_rfm_count|exact H2]|].
    intros s3 H3. apply (synced_view _ s3); [apply view_rfm_apply|exact H3].
  - unfold FilterManager.baseModelClick.
    destruct (baseModelTags s !! i) as [el|] eqn:Hi; [|exact Hs].
    cbn [baseModel filters with_baseModelTags].
    destruct (toggle_keeps_agreement _ _ i el Hb Hab Hi) as (v & -> & Hv).
    set (s2 := with_filters _ _).
    apply (synced_view _ (FilterManager.updateActiveFiltersCount s2));
      [apply view_fm_apply|].
    apply (synced_frame _ s2); [apply frame_fm_count|].
    unfold synced. simpl. rewrite (insert_names i el _ _ Hi). auto.
  - unfold RecipeFilterManager.baseModelClick.
    destruct (baseModelTags s !! i) as [el|] eqn:Hi; [|exact Hs].
    cbn [baseModel filters with_baseModelTags].
    destruct (toggle_keeps_agreement _ _ i el Hb Hab Hi) as (v & -> & Hv).
    set (s2 := with_filters _ _).
    assert (H2 : synced (tag_name <$> baseModelTags s, tag_name <$> modelTags s) s2).
    { unfold synced. simpl. rewrite (insert_names i el _ _ Hi). auto. }
    apply synced_andThen; [apply (synced_frame _ s2); [apply frame_rfm_count|exact H2]|].
    intros s3 H3. apply (synced_view _ s3); [apply view_rfm_apply|exact H3].
  - apply (synced_view _ s); [apply view_fm_apply|exact Hs].
  - apply (synced_view _ s); [apply view_rfm_apply|exact Hs].
  - unfold FilterManager.clearFilters.
    apply synced_andThen; [now apply (synced_empty _ s)|].
    intros s3 H3.
    set (s5 := with_localStorage _ _).
    assert (H5 : synced (tag_name <$> baseModelTags s, tag_name <$> modelTags s) s5).
    { apply (synced_view _ (FilterManager.updateActiveFiltersCount s3));
        [repeat split|apply (synced_frame _ s3); [apply frame_fm_count|exact H3]]. }
    destruct (filterButton s5); [|exact H5].
    apply synced_andThen; [|intros s6 H6; exact H6].
    apply (synced_frame _ (with_filterButton (Some false) s5)); [apply frame_fm_reload|].
    exact H5.
  - unfold RecipeFilterManager.clearFilters.
    apply synced_andThen; [now apply (synced_empty _ s)|].
    intros s2 H2.
    apply synced_andThen; [apply (synced_frame _ s2); [apply frame_rfm_count|exact H2]|].
    intros s3 H3. set (s4 := with_localStorage _ _).
    assert (H4 : synced (tag_name <$> baseModelTags s, tag_name <$> modelTags s) s4)
      by exact H3.
    destruct (filterButton s4); [|exact H4].
    apply synced_andThen; [|intros s6 H6; exact H6].
    destruct (recipeManager _); [|exact H4].
    apply (synced_frame _ (with_filterButton (Some false) s4)); [apply frame_await|].
    exact H4.
Qed.

(** X8: when the tag elements of each kind have distinct names and carry
    the [active] class exactly for the tags in their field, they still do
    after any sequence of clicks, applications and clearings, in either
    manager and whether or not a step throws. *)
Theorem marks_follow_filters (m : Manager) (ops : list Operation) (s : State) :
  Forall (fun o => reads_storage o = false) ops ->
  NoDup (tag_name <$> baseModelTags s) -> NoDup (tag_name <$> modelTags s) ->
  marks_agree (baseModel (filters s)) (baseModelTags s) ->
  marks_agree (tags (filters s)) (modelTags s) ->
  let s' := fold_left (fun st o => snd (run m o st)) ops s in
  marks_agree (baseModel (filters s')) (baseModelTags s')
  /\ marks_agree (tags (filters s')) (modelTags s')
  /\ tag_name <$> baseModelTags s' = tag_name <$> baseModelTags s
  /\ tag_name <$> modelTags s' = tag_name <$> modelTags s.
Proof.
  intros Hops Hb Ht Hab Hat.
  set (n := (tag_name <$> baseModelTags s, tag_name <$> modelTags s)).
  assert (Hs : synced n s) by (repeat split; assumption).
  assert (H : forall st, synced n st ->
                synced n (fold_left (fun st o => snd (run m o st)) ops st)).
  { assert (Hb' : NoDup n.1) by exact Hb. assert (Ht' : NoDup n.2) by exact Ht.
    clearbody n. clear s Hs Hb Ht Hab Hat.
    induction Hops as [|o ops Ho _ IH]; intros st Hst; [exact Hst|].
    simpl. apply IH. now apply synced_step. }
  destruct (H s Hs) as (Hn & Ha' & Ht'). cbv zeta. injection Hn as Hn1 Hn2. auto.
Qed.

Lemma marks_follow_filters_witness :
  let s' := fold_left (fun st o => snd (run ItemsFilter o st))
              [ToggleTag 1; ToggleTag 0; ToggleTag 1; Apply true; Clear; ToggleTag 0]
              sci_fi_page in
  marks_agree (baseModel (filters s')) (baseModelTags s')
  /\ marks_agree (tags (filters s')) (modelTags s')
  /\ tag_name <$> baseModelTags s' = tag_name <$> baseModelTags sci_fi_page
  /\ tag_name <$> modelTags s' = tag_name <$> modelTags sci_fi_page.
Proof.
  apply (marks_follow_filters ItemsFilter
           [ToggleTag 1; ToggleTag 0; ToggleTag 1; Apply true; Clear; ToggleTag 0]
           sci_fi_page).
  - repeat constructor.
  - constructor.
  - apply (bool_decide_unpack (NoDup ["sci-fi"; "anime"])). vm_compute. exact I.
  - exists []. split; [reflexivity|constructor].
  - exists []. split; [reflexivity|repeat constructor].
Defined.

(** *** Clearing the filters *)

Definition unmark (els : list TagElement) : list TagElement :=
  List.map (set_active false) els.

Definition hide_badge (b : option Badge) : option Badge :=
  match b with
  | Some x => Some (mkBadge (badge_text x) "none")
  | None => None
  end.

(** What the reload and the closing toast of [clearFilters] keep. *)
Definition settled_by (s s' : State) : Prop :=
  filters s' = filters s /\ pageFilters s' = pageFilters s
  /\ localStorage s' = localStorage s /\ modelTags s' = modelTags s
  /\ baseModelTags s' = baseModelTags s /\ activeFiltersCount s' = activeFiltersCount s
  /\ currentPage s' = currentPage s.

Lemma fm_clear_tail s :
  settled_by s
    (snd match filterButton s with
         | None => (Threw TypeError, s)
         | Some _ =>
             andThen (FilterManager.reload (with_filterButton (Some false) s))
               (fun s6 => (Returned tt, showToast "Filters cleared" info s6))
         end).
Proof.
  destruct (filterButton s); [|repeat split].
  pose proof (reload_state (with_filterButton (Some false) s)) as Hr.
  destruct (FilterManager.reload _) as [[u|e] s6]; cbn [andThen snd] in *; subst s6;
    destruct (collaborator _); repeat split.
Qed.

(** A manager constructed on a page whose state holds the manager's
    filters and whose storage has no entry for the page changes
    nothing. *)
Lemma fm_new_nothing_stored optionsPage bodyPage s :
  currentPage s = FilterManager.page_of optionsPage bodyPage ->
  pageFilters s = Some (filters s) ->
  localStorage s !! (currentPage s ++ "_filters") = None ->
  FilterManager.new optionsPage bodyPage s = (Returned tt, s).
Proof.
  intros Hg. unfold FilterManager.new. rewrite <- Hg. clear Hg.
  destruct s. cbn. intros -> Hl.
  unfold FilterManager.loadFiltersFromStorage, FilterManager.storageKey.
  cbn. rewrite Hl. reflexivity.
Qed.

(** X9: however it ends, [clearFilters] of a [FilterManager] leaves the
    empty criteria in the manager and in the page state, removes the
    page's storage entry, takes the [active] class off every tag element
    and hides the count; a manager constructed for the same page
    afterwards finds nothing to load and starts with the empty
    criteria. *)
Theorem fm_clear_resets (s : State) :
  let s' := snd (FilterManager.clearFilters s) in
  filters s' = empty_filters /\ pageFilters s' = Some empty_filters
  /\ localStorage s' = delete (currentPage s ++ "_filters") (localStorage s)
  /\ modelTags s' = unmark (modelTags s) /\ baseModelTags s' = unmark (baseModelTags s)
  /\ activeFiltersCount s' = hide_badge (activeFiltersCount s)
  /\ (forall optionsPage bodyPage,
        FilterManager.page_of optionsPage bodyPage = currentPage s ->
        FilterManager.new optionsPage bodyPage s' = (Returned tt, s')).
Proof.
  cbv zeta. unfold FilterManager.clearFilters.
  rewrite (updateTagSelections_arrays _ [] []) by reflexivity.
  cbn [andThen]. set (s3 := with_modelTags _ _).
  set (s5 := with_localStorage _ (FilterManager.updateActiveFiltersCount s3)).
  assert (H5 : filters s5 = empty_filters /\ pageFilters s5 = Some empty_filters
               /\ localStorage s5 = delete (currentPage s ++ "_filters") (localStorage s)
               /\ modelTags s5 = unmark (modelTags s)
               /\ baseModelTags s5 = unmark (baseModelTags s)
               /\ activeFiltersCount s5 = hide_badge (activeFiltersCount s)
               /\ currentPage s5 = currentPage s).
  { subst s5 s3. unfold FilterManager.updateActiveFiltersCount, FilterManager.storageKey.
    cbn. destruct (activeFiltersCount s) eqn:E; cbn; rewrite ?E; repeat split. }
  destruct (fm_clear_tail s5) as (Hf & Hp & Hl & Hm & Hb & Hc & Hg).
  set (s' := snd _) in *. clearbody s' s5.
  destruct H5 as (Hf5 & Hp5 & Hl5 & Hm5 & Hb5 & Hc5 & Hg5).
  rewrite Hf5 in Hf. rewrite Hp5 in Hp. rewrite Hl5 in Hl. rewrite Hm5 in Hm.
  rewrite Hb5 in Hb. rewrite Hc5 in Hc. rewrite Hg5 in Hg.
  repeat (split; [assumption|]).
  intros o b Hpage.
  apply fm_new_nothing_stored; [congruence|now rewrite Hf, Hp|].
  rewrite Hl, Hg. apply lookup_delete_eq.
Qed.

(** What a fresh [RecipeFilterManager] holds depends on the stored text
    alone. *)
Lemma rfm_new_reads_storage env env' :
  localStorage env' = localStorage env ->
  filters (snd (RecipeFilterManager.new env')) = filters (snd (RecipeFilterManager.new env)).
Proof.
  intros Hl. unfold RecipeFilterManager.new, RecipeFilterManager.loadFiltersFromStorage.
  change (localStorage (with_filters empty_filters env'))
    with (localStorage env').
  change (localStorage (with_filters empty_filters env)) with (localStorage env).
  rewrite Hl.
  destruct (localStorage env !! RecipeFilterManager.storageKey) as [[|c t]|];
    try reflexivity.
  unfold try_catch. cbn [snd]. set (text := String c t).
  destruct (JSON_parse text) as [v|e] eqn:Hp;
    [|unfold RecipeFilterManager.load_saved; rewrite Hp; reflexivity].
  destruct (get_prop v "baseModel") as [a|e] eqn:Ha;
    [|unfold RecipeFilterManager.load_saved; rewrite Hp, Ha; reflexivity].
  destruct (get_prop v "tags") as [b|e] eqn:Hb.
  - rewrite (rfm_load_saved_filters text _ v a b Hp Ha Hb).
    now rewrite (rfm_load_saved_filters text _ v a b Hp Ha Hb).
  - unfold RecipeFilterManager.load_saved. rewrite Hp, Ha, Hb. reflexivity.
Qed.

(** X10: on a page without the count element, [clearFilters] of a
    [RecipeFilterManager] throws a [TypeError] after emptying the
    criteria in memory and before touching the storage, the button, the
    listing or the toasts; so a manager constructed afterwards holds the
    stored criteria again. *)
Theorem rfm_clear_without_count (s : State) :
  activeFiltersCount s = None ->
  let s' := snd (RecipeFilterManager.clearFilters s) in
  fst (RecipeFilterManager.clearFilters s) = Threw TypeError
  /\ filters s' = empty_filters /\ localStorage s' = localStorage s
  /\ filterButton s' = filterButton s /\ calls s' = calls s /\ toasts s' = toasts s
  /\ filters (snd (RecipeFilterManager.new s')) = filters (snd (RecipeFilterManager.new s)).
Proof.
  intros Hb. cbv zeta.
  assert (H : RecipeFilterManager.clearFilters s =
              (Threw TypeError,
               with_modelTags (remark_tags [] (modelTags s))
                 (with_baseModelTags (remark_tags [] (baseModelTags s))
                    (with_filters empty_filters s)))).
  { unfold RecipeFilterManager.clearFilters.
    rewrite (updateTagSelections_arrays _ [] []) by reflexivity.
    cbn [andThen]. unfold RecipeFilterManager.updateActiveFiltersCount. simpl.
    rewrite Hb. reflexivity. }
  rewrite H. cbn [fst snd]. repeat split. now apply rfm_new_reads_storage.
Qed.

(** A recipes page without the count element, with stored criteria. *)
Definition no_count_page : State :=
  with_badge None
    (fresh_page {["recipeFilters" := JSON_stringify_filters (mkFilters (strs []) (strs ["anime"]))]}).

Lemma rfm_clear_without_count_witness :
  let s' := snd (RecipeFilterManager.clearFilters no_count_page) in
  fst (RecipeFilterManager.clearFilters no_count_page) = Threw TypeError
  /\ filters s' = empty_filters /\ localStorage s' = localStorage no_count_page
  /\ filterButton s' = filterButton no_count_page /\ calls s' = calls no_count_page
  /\ toasts s' = toasts no_count_page
  /\ filters (snd (RecipeFilterManager.new s'))
     = filters (snd (RecipeFilterManager.new no_count_page)).
Proof. apply (rfm_clear_without_count no_count_page). reflexivity. Defined.

Example stored_criteria_come_back :
  filters (snd (RecipeFilterManager.new
                  (snd (RecipeFilterManager.clearFilters no_count_page))))
  = mkFilters (JArr []) (JArr [JStr "anime"]).
Proof. vm_compute. reflexivity. Qed.

(** With the count element on the page the stored entry is removed,
    however the call ends. *)
Lemma rfm_clear_removes (s : State) (b : Badge) :
  activeFiltersCount s = Some b ->
  localStorage (snd (RecipeFilterManager.clearFilters s))
  = delete "recipeFilters" (localStorage s).
Proof.
  intros Hb. unfold RecipeFilterManager.clearFilters.
  rewrite (updateTagSelections_arrays _ [] []) by reflexivity.
  cbn [andThen]. unfold RecipeFilterManager.updateActiveFiltersCount, await. simpl.
  rewrite Hb. simpl.
  destruct (filterButton s); simpl; [|reflexivity].
  destruct (recipeManager s); simpl; [|reflexivity].
  destruct (reload_ok s); reflexivity.
Qed.

(** *** The round trip of the recipe manager *)

Lemma rfm_new_filters env saved v a b :
  localStorage env !! "recipeFilters" = Some saved -> saved <> "" ->
  JSON_parse saved = Returned v ->
  get_prop v "baseModel" = Returned a -> get_prop v "tags" = Returned b ->
  filters (snd (RecipeFilterManager.new env)) = loaded a b.
Proof.
  intros Hs Hne Hp Ha Hb.
  unfold RecipeFilterManager.new, RecipeFilterManager.loadFiltersFromStorage.
  set (s0 := with_filters _ env).
  change (localStorage s0 !! RecipeFilterManager.storageKey)
    with (localStorage env !! "recipeFilters").
  rewrite Hs. destruct saved as [|c t]; [congruence|].
  apply (rfm_load_saved_filters _ s0 v a b Hp Ha Hb).
Qed.

(** X11: for every criteria of two arrays of tags, what [applyFilters]
    of a [RecipeFilterManager] stores is read back by a fresh
    [RecipeFilterManager] as the very same criteria, however the reload
    of the listing went. *)
Theorem rfm_round_trip (notify : bool) (s env : State) (bm tg : list string) :
  filters s = mkFilters (strs bm) (strs tg) ->
  localStorage env = localStorage (snd (RecipeFilterManager.applyFilters notify s)) ->
  filters (snd (RecipeFilterManager.new env)) = filters s.
Proof.
  intros Hf Henv.
  destruct (frame_rfm_apply notify s) as (_ & _ & _ & _ & Hst).
  rewrite Hst in Henv. clear Hst.
  rewrite (rfm_new_filters env (JSON_stringify_filters (filters s))
             (JObj [("baseModel", strs bm); ("tags", strs tg)])
             (Some (strs bm)) (Some (strs tg))).
  - now rewrite Hf.
  - rewrite Henv. apply lookup_insert_eq.
  - apply stringify_filters_nonempty.
  - rewrite Hf. apply JSON_parse_filters.
  - reflexivity.
  - reflexivity.
Qed.

Definition recipe_state : State :=
  with_filters (mkFilters (strs ["SDXL"]) (strs ["sci-fi"; "a,b"])) (fresh_page ∅).

Definition recipe_page : State :=
  fresh_page (localStorage (snd (RecipeFilterManager.applyFilters true recipe_state))).

Lemma rfm_round_trip_witness :
  filters (snd (RecipeFilterManager.new recipe_page)) = filters recipe_state.
Proof.
  apply (rfm_round_trip true recipe_state recipe_page ["SDXL"] ["sci-fi"; "a,b"]);
    reflexivity.
Defined.

(** *** A reload that fails *)

Lemma reload_collaborator s :
  FilterManager.reload s =
  match collaborator s with Some c => await c s | None => (Returned tt, s) end.
Proof.
  unfold FilterManager.reload, collaborator.
  destruct (_ && _)%bool; [reflexivity|].
  destruct (String.eqb (currentPage s) "loras"); [reflexivity|].
  destruct (_ && _)%bool; reflexivity.
Qed.

(** When the reload of the listing rejects, [applyFilters] of a
    [FilterManager] rejects too: the criteria are stored and put in the
    page state and the collaborator is called, but the filter button is
    not updated and no toast is shown. *)
Theorem fm_apply_rejected (notify : bool) (s : State) (c : Call) :
  collaborator s = Some c -> reload_ok s = false ->
  FilterManager.applyFilters notify s =
    (Threw Rejected,
     call c (with_pageFilters (Some (filters s)) (stored (FilterManager.storageKey s) s))).
Proof.
  intros Hc Hr. unfold FilterManager.applyFilters. rewrite reload_collaborator.
  change (collaborator (with_pageFilters _ _)) with (collaborator s). rewrite Hc.
  unfold await. cbn [reload_ok with_pageFilters with_localStorage]. rewrite Hr. reflexivity.
Qed.

Definition offline_page : State :=
  mkState "loras" (mkFilters (strs []) (strs ["anime"])) None []
    [mkTag "anime" true] (Some (mkBadge "1" "inline-flex")) (Some false) ∅ None false
    false [] [].

Lemma fm_apply_rejected_witness :
  FilterManager.applyFilters true offline_page =
    (Threw Rejected,
     call LoadMoreLoras
       (with_pageFilters (Some (filters offline_page))
          (stored (FilterManager.storageKey offline_page) offline_page))).
Proof. apply (fm_apply_rejected true offline_page LoadMoreLoras); reflexivity. Defined.

(** The query parameter of a field: absent for an empty array, else the
    tags joined by commas. *)
Definition param (l : list string) : option string :=
  match l with
  | [] => None
  | _ => Some (join "," l)
  end.

Lemma to_string_array l : to_string (JArr l) = join_elements l [].
Proof. reflexivity. Qed.

Lemma join_elements_strs l :
  forall acc, join_elements (List.map JStr l) acc = Returned (join "," (acc ++ l)).
Proof.
  induction l as [|x l IH]; intros acc; cbn [List.map join_elements to_string].
  - now rewrite app_nil_r.
  - rewrite IH, <- app_assoc. reflexivity.
Qed.

Lemma js_join_strs l : js_join (strs l) = Returned (join "," l).
Proof. unfold js_join, strs. rewrite to_string_array. apply join_elements_strs. Qed.

Lemma page_reload_strs s bm tg :
  filters s = mkFilters (strs bm) (strs tg) ->
  RecipeFilterManager._applyFiltersByPageReload s
  = (Returned tt, call (Navigate (param bm) (param tg)) s).
Proof.
  intros Hf. unfold RecipeFilterManager._applyFiltersByPageReload. rewrite Hf.
  cbn [baseModel tags]. rewrite !js_join_strs.
  destruct bm, tg; reflexivity.
Qed.

(** X12: when [window.recipeManager] is missing, or its load rejects,
    [applyFilters] of a [RecipeFilterManager] still returns: it ends the
    reload by navigating to the recipes page with one query parameter per
    non-empty field, the tags joined by commas, it never calls
    [hideLoading], and it goes on to update the filter button. *)
Theorem rfm_apply_falls_back (notify : bool) (s : State) (bm tg : list string) (btn : bool) :
  recipeManager s = None \/ reload_ok s = false ->
  filters s = mkFilters (strs bm) (strs tg) -> filterButton s = Some btn ->
  let s' := snd (RecipeFilterManager.applyFilters notify s) in
  fst (RecipeFilterManager.applyFilters notify s) = Returned tt
  /\ (exists before,
        calls s' = (calls s ++ before ++ [Navigate (param bm) (param tg)])%list
        /\ ~ In HideLoading before)
  /\ filterButton s' = Some (hasActiveFilters s).
Proof.
  intros Hfall Hf Hb. cbv zeta. unfold RecipeFilterManager.applyFilters.
  set (s1 := with_localStorage _ s).
  assert (H : exists before,
            (let reloaded :=
               match recipeManager s1 with
               | Some rm =>
                   let s2 := if has_showLoading rm then call ShowLoading s1 else s1 in
                   match await (LoadRecipesWith (filters s2)) s2 with
                   | (Returned _, s3) =>
                       (Returned tt, if has_hideLoading rm then call HideLoading s3 else s3)
                   | (Threw _, s3) => RecipeFilterManager._applyFiltersByPageReload s3
                   end
               | None => RecipeFilterManager._applyFiltersByPageReload s1
               end in reloaded)
            = (Returned tt,
               with_calls (calls s ++ before ++ [Navigate (param bm) (param tg)])%list s1)
            /\ ~ In HideLoading before).
  { cbv zeta. destruct (recipeManager s1) as [rm|] eqn:Erm.
    - destruct Hfall as [Hn|Hr]; [change (recipeManager s1) with (recipeManager s) in Erm;
                                  congruence|].
      unfold await.
      destruct (has_showLoading rm); cbn [reload_ok call with_calls]; subst s1;
        cbn [reload_ok with_localStorage]; rewrite Hr.
      + exists [ShowLoading; LoadRecipesWith (filters s)].
        split; [|intros [H|[H|[]]]; discriminate].
        rewrite (page_reload_strs _ bm tg) by exact Hf.
        unfold call. cbn. rewrite <- !app_assoc. reflexivity.
      + exists [LoadRecipesWith (filters s)].
        split; [|intros [H|[]]; discriminate].
        rewrite (page_reload_strs _ bm tg) by exact Hf.
        unfold call. cbn. rewrite <- !app_assoc. reflexivity.
    - exists []. split; [|intros []].
      rewrite (page_reload_strs _ bm tg) by exact Hf. reflexivity. }
  cbv zeta in H. destruct H as (before & -> & Hno).
  cbn [andThen]. unfold show_filter_state. subst s1.
  cbn [filterButton with_calls with_localStorage]. rewrite Hb.
  change (hasActiveFilters (with_calls _ _)) with (hasActiveFilters s).
  destruct (hasActiveFilters s), notify; cbn; (split; [reflexivity|]);
    (split; [exists before; split; [reflexivity|exact Hno]|reflexivity]).
Qed.

(** A recipes page whose manager shows a loading state and whose load
    rejects. *)
Definition failing_recipes : State :=
  mkState "recipes" (mkFilters (strs ["SDXL"; "Flux"]) (strs [])) None [] []
    (Some (mkBadge "" "none")) (Some false) ∅ (Some (mkRecipeManager true true)) false
    false [] [].

Lemma rfm_apply_falls_back_witness :
  fst (RecipeFilterManager.applyFilters true failing_recipes) = Returned tt
  /\ (exists before,
        calls (snd (RecipeFilterManager.applyFilters true failing_recipes))
        = (calls failing_recipes ++ before
             ++ [Navigate (param ["SDXL"; "Flux"]) (param [])])%list
        /\ ~ In HideLoading before)
  /\ filterButton (snd (RecipeFilterManager.applyFilters true failing_recipes))
     = Some (hasActiveFilters failing_recipes).
Proof.
  apply (rfm_apply_falls_back true failing_recipes ["SDXL"; "Flux"] [] false);
    [right; reflexivity|reflexivity|reflexivity].
Defined.

(** *** What construction shows of the stored criteria *)

Definition count_badge (n : nat) (b : option Badge) : option Badge :=
  match b with
  | Some x =>
      Some (if (0 <? n)%nat then mkBadge (string_of_nat n) "inline-flex"
            else mkBadge (badge_text x) "none")
  | None => None
  end.

Definition lit (n : nat) (b : option bool) : option bool :=
  match b with
  | Some a => Some (if (0 <? n)%nat then true else a)
  | None => None
  end.

Lemma fm_new_loads optionsPage bodyPage env saved :
  localStorage env !! (FilterManager.page_of optionsPage bodyPage ++ "_filters") = Some saved ->
  saved <> "" ->
  FilterManager.new optionsPage bodyPage env =
  try_catch
    (FilterManager.load_saved saved
       (with_filters (match pageFilters env with Some f => f | None => empty_filters end)
          (with_currentPage (FilterManager.page_of optionsPage bodyPage) env))).
Proof.
  intros Hs Hne. unfold FilterManager.new, FilterManager.loadFiltersFromStorage.
  set (page := FilterManager.page_of optionsPage bodyPage) in *.
  set (s0 := with_filters _ (with_currentPage page env)).
  change (localStorage s0 !! FilterManager.storageKey s0)
    with (localStorage env !! (page ++ "_filters")).
  rewrite Hs. destruct saved; [congruence|reflexivity].
Qed.

(** The state [load_saved] reaches after marking the tag elements. *)
Definition marked (bm tg : list string) (s : State) : State :=
  with_modelTags (remark_tags (List.map JStr tg) (modelTags s))
    (with_baseModelTags (remark_tags (List.map JStr bm) (baseModelTags s))
       (with_pageFilters (Some (mkFilters (strs bm) (strs tg)))
          (with_filters (mkFilters (strs bm) (strs tg)) s))).

Lemma fm_load_saved_strs bm tg s :
  FilterManager.load_saved (JSON_stringify_filters (mkFilters (strs bm) (strs tg))) s =
  let s4 := FilterManager.updateActiveFiltersCount (marked bm tg s) in
  if hasActiveFilters s4 then
    match filterButton s4 with
    | Some _ => (Returned tt, with_filterButton (Some true) s4)
    | None => (Threw TypeError, s4)
    end
  else (Returned tt, s4).
Proof.
  unfold FilterManager.load_saved. rewrite JSON_parse_filters.
  change (get_prop (JObj [("baseModel", strs bm); ("tags", strs tg)]) "baseModel")
    with (Returned (Some (strs bm))).
  change (get_prop (JObj [("baseModel", strs bm); ("tags", strs tg)]) "tags")
    with (Returned (Some (strs tg))).
  cbv beta iota zeta.
  change (or_else (Some (strs bm)) (JArr [])) with (strs bm).
  change (or_else (Some (strs tg)) (JArr [])) with (strs tg).
  rewrite (updateTagSelections_arrays _ (List.map JStr bm) (List.map JStr tg))
    by reflexivity.
  reflexivity.
Qed.

Lemma marked_counted bm tg s :
  let s4 := FilterManager.updateActiveFiltersCount (marked bm tg s) in
  filters s4 = mkFilters (strs bm) (strs tg)
  /\ pageFilters s4 = Some (mkFilters (strs bm) (strs tg))
  /\ baseModelTags s4 = remark_tags (List.map JStr bm) (baseModelTags s)
  /\ modelTags s4 = remark_tags (List.map JStr tg) (modelTags s)
  /\ activeFiltersCount s4 = count_badge (length bm + length tg) (activeFiltersCount s)
  /\ filterButton s4 = filterButton s
  /\ hasActiveFilters s4 = (0 <? length bm + length tg)%nat.
Proof.
  cbv zeta.
  unfold FilterManager.updateActiveFiltersCount, set_badge, totalActiveFilters,
    hasActiveFilters, marked.
  cbn. rewrite !length_map.
  destruct (activeFiltersCount s) eqn:Eb; cbn; rewrite ?Eb, ?length_map;
    repeat split; destruct bm, tg; reflexivity.
Qed.

(** X13: a [FilterManager] constructed on a page whose storage holds,
    under the key of the manager's page (the page of its options, else
    of the body, else [loras]), criteria of two arrays of tags shows
    them: each tag element carries the [active] class exactly when its
    tag is stored, the count shows the number of stored tags (or is
    hidden when there is none), the filter button is lit when there is
    one, and the page state holds the criteria. *)
Theorem restored_filters_are_shown (optionsPage bodyPage : option string) (env : State)
    (bm tg : list string) :
  localStorage env !! (FilterManager.page_of optionsPage bodyPage ++ "_filters")
    = Some (JSON_stringify_filters (mkFilters (strs bm) (strs tg))) ->
  filters (snd (FilterManager.new optionsPage bodyPage env)) = mkFilters (strs bm) (strs tg)
  /\ pageFilters (snd (FilterManager.new optionsPage bodyPage env)) = Some (mkFilters (strs bm) (strs tg))
  /\ baseModelTags (snd (FilterManager.new optionsPage bodyPage env))
     = remark_tags (List.map JStr bm) (baseModelTags env)
  /\ modelTags (snd (FilterManager.new optionsPage bodyPage env))
     = remark_tags (List.map JStr tg) (modelTags env)
  /\ activeFiltersCount (snd (FilterManager.new optionsPage bodyPage env))
     = count_badge (length bm + length tg) (activeFiltersCount env)
  /\ filterButton (snd (FilterManager.new optionsPage bodyPage env))
     = lit (length bm + length tg) (filterButton env).
Proof.
  intros Hs.
  rewrite (fm_new_loads optionsPage bodyPage env _ Hs) by apply stringify_filters_nonempty.
  set (s0 := with_filters _ (with_currentPage _ env)).
  rewrite fm_load_saved_strs. unfold try_catch. cbn [snd]. cbv zeta.
  destruct (marked_counted bm tg s0) as (F & P & B & M & C & K & A).
  set (s4 := FilterManager.updateActiveFiltersCount _) in *. clearbody s4.
  change (baseModelTags s0) with (baseModelTags env) in B.
  change (modelTags s0) with (modelTags env) in M.
  change (activeFiltersCount s0) with (activeFiltersCount env) in C.
  change (filterButton s0) with (filterButton env) in K.
  clearbody s0. rewrite A. unfold lit. rewrite <- K.
  destruct (0 <? length bm + length tg)%nat.
  - destruct (filterButton s4) as [a|] eqn:Ea; cbn [snd]; rewrite ?Ea;
      repeat split; assumption.
  - cbn [snd]. destruct (filterButton s4); repeat split; assumption.
Qed.

Definition stored_page : State :=
  fresh_page {["loras_filters" :=
                 JSON_stringify_filters (mkFilters (strs []) (strs ["anime"; "mecha"]))]}.

Lemma restored_filters_are_shown_witness :
  filters (snd (FilterManager.new (Some "loras") None stored_page))
    = mkFilters (strs []) (strs ["anime"; "mecha"])
  /\ pageFilters (snd (FilterManager.new (Some "loras") None stored_page))
     = Some (mkFilters (strs []) (strs ["anime"; "mecha"]))
  /\ baseModelTags (snd (FilterManager.new (Some "loras") None stored_page))
     = remark_tags (List.map JStr []) (baseModelTags stored_page)
  /\ modelTags (snd (FilterManager.new (Some "loras") None stored_page))
     = remark_tags (List.map JStr ["anime"; "mecha"]) (modelTags stored_page)
  /\ activeFiltersCount (snd (FilterManager.new (Some "loras") None stored_page))
     = count_badge (length (@nil string) + length ["anime"; "mecha"])
         (activeFiltersCount stored_page)
  /\ filterButton (snd (FilterManager.new (Some "loras") None stored_page))
     = lit (length (@nil string) + length ["anime"; "mecha"]) (filterButton stored_page).
Proof.
  apply (restored_filters_are_shown (Some "loras") None stored_page [] ["anime"; "mecha"]).
  reflexivity.
Defined.

End FilterExtras.

(** ** Numbers: every Number of the embedding is a double *)

Module NumberProofs.
Import JS FilterProofs.
Local Open Scope Z_scope.

(** *** Rounding to the nearest double *)

(** The significand and the exponent of a finite double that is no
    zero: 53 bits or, at the least exponent, fewer. *)
Definition canonical (m e : Z) : Prop :=
  0 < m < 2 ^ 53 /\ -1074 <= e <= 971 /\ (2 ^ 52 <= m \/ e = -1074).

(** [num / den / 2^e] as one quotient of integers. *)
Definition scaled_num (num e : Z) : Z := num * 2 ^ Z.max (- e) 0.
Definition scaled_den (den e : Z) : Z := den * 2 ^ Z.max e 0.

(** [num / den] is [m * 2^e]. *)
Definition denotes (num den m e : Z) : Prop :=
  scaled_num num e = m * scaled_den den e.

Lemma floor_scaled_ratio num den e :
  floor_scaled num den e = scaled_num num e / scaled_den den e.
Proof.
  unfold floor_scaled, scaled_num, scaled_den.
  destruct (0 <=? e) eqn:E.
  - apply Z.leb_le in E. rewrite (Z.max_r (- e) 0), (Z.max_l e 0) by lia.
    now rewrite Z.pow_0_r, Z.mul_1_r.
  - apply Z.leb_gt in E. rewrite (Z.max_l (- e) 0), (Z.max_r e 0) by lia.
    now rewrite Z.pow_0_r, Z.mul_1_r.
Qed.

Lemma round_scaled_ratio num den e :
  round_scaled num den e = round_half_even (scaled_num num e) (scaled_den den e).
Proof.
  unfold round_scaled, scaled_num, scaled_den.
  destruct (0 <=? e) eqn:E.
  - apply Z.leb_le in E. rewrite (Z.max_r (- e) 0), (Z.max_l e 0) by lia.
    now rewrite Z.pow_0_r, Z.mul_1_r.
  - apply Z.leb_gt in E. rewrite (Z.max_l (- e) 0), (Z.max_r e 0) by lia.
    now rewrite Z.pow_0_r, Z.mul_1_r.
Qed.

Lemma pow2_pos n : 0 <= n -> 0 < 2 ^ n.
Proof. intros. apply Z.pow_pos_nonneg; lia. Qed.

Lemma scaled_den_pos den e : 0 < den -> 0 < scaled_den den e.
Proof. intros. unfold scaled_den. apply Z.mul_pos_pos; [assumption|apply pow2_pos; lia]. Qed.

Lemma scaled_num_pos num e : 0 < num -> 0 < scaled_num num e.
Proof. intros. unfold scaled_num. apply Z.mul_pos_pos; [assumption|apply pow2_pos; lia]. Qed.

Lemma round_half_even_range n d :
  round_half_even n d = n / d \/ round_half_even n d = n / d + 1.
Proof.
  unfold round_half_even.
  destruct (2 * (n mod d) <? d); [now left|].
  destruct (d <? 2 * (n mod d)); [now right|].
  destruct (Z.even (n / d)); [now left|now right].
Qed.

Lemma round_half_even_exact m d : 0 < d -> round_half_even (m * d) d = m.
Proof.
  intros Hd. unfold round_half_even.
  rewrite Z.div_mul, Z.mod_mul by lia.
  replace (2 * 0 <? d) with true by (symmetry; apply Z.ltb_lt; lia). reflexivity.
Qed.

(** One exponent up, the numerator is halved or the denominator
    doubled. *)
Lemma scaled_step num den e :
  scaled_num num e * scaled_den den (e + 1) = 2 * scaled_num num (e + 1) * scaled_den den e.
Proof.
  unfold scaled_num, scaled_den.
  destruct (Z_lt_le_dec e 0) as [H|H].
  - rewrite (Z.max_l (- e) 0), (Z.max_r e 0), (Z.max_l (- (e + 1)) 0), (Z.max_r (e + 1) 0) by lia.
    replace (- e) with (- (e + 1) + 1) by lia.
    rewrite Z.pow_add_r, Z.pow_0_r by lia. change (2 ^ 1) with 2. ring.
  - rewrite (Z.max_r (- e) 0), (Z.max_l e 0), (Z.max_r (- (e + 1)) 0), (Z.max_l (e + 1) 0) by lia.
    rewrite Z.pow_add_r, Z.pow_0_r by lia. change (2 ^ 1) with 2. ring.
Qed.

Lemma floor_step num den e :
  0 < den -> floor_scaled num den (e + 1) = floor_scaled num den e / 2.
Proof.
  intros Hd. unfold floor_scaled.
  destruct (0 <=? e) eqn:E; [apply Z.leb_le in E|apply Z.leb_gt in E].
  - replace (0 <=? e + 1) with true by (symmetry; apply Z.leb_le; lia).
    rewrite Z.pow_add_r by lia. change (2 ^ 1) with 2.
    rewrite Z.mul_assoc, <- Z.div_div; [reflexivity| |lia].
    pose proof (pow2_pos e E). nia.
  - destruct (Z.eq_dec e (-1)) as [->|Hne].
    + change (num / (den * 1) = num * 2 / den / 2).
      rewrite Z.mul_1_r, Z.div_div by lia.
      rewrite (Z.mul_comm num 2), (Z.mul_comm den 2).
      now rewrite Z.div_mul_cancel_l by lia.
    + replace (0 <=? e + 1) with false by (symmetry; apply Z.leb_gt; lia).
      replace (- e) with (- (e + 1) + 1) by lia.
      rewrite Z.pow_add_r by lia. change (2 ^ 1) with 2.
      rewrite Z.div_div by lia.
      replace (num * (2 ^ (- (e + 1)) * 2)) with (2 * (num * 2 ^ (- (e + 1)))) by ring.
      rewrite (Z.mul_comm den 2).
      now rewrite Z.div_mul_cancel_l by lia.
Qed.

(** The quotient at exponent [e] lies between the powers of two that the
    bit lengths of [num] and [den] give. *)
Lemma scaled_bounds num den e :
  0 < num -> 0 < den ->
  (0 <= Z.log2 num - Z.log2 den - 1 - e ->
   2 ^ (Z.log2 num - Z.log2 den - 1 - e) <= floor_scaled num den e)
  /\ floor_scaled num den e < 2 ^ Z.max (Z.log2 num - Z.log2 den + 1 - e) 0.
Proof.
  intros Hn Hd.
  destruct (Z.log2_spec num Hn) as [Ha1 Ha2].
  destruct (Z.log2_spec den Hd) as [Hb1 Hb2].
  pose proof (Z.log2_nonneg num) as Ha0. pose proof (Z.log2_nonneg den) as Hb0.
  set (a := Z.log2 num) in *. set (b := Z.log2 den) in *.
  rewrite floor_scaled_ratio. unfold scaled_num, scaled_den.
  set (en := Z.max (- e) 0). set (ep := Z.max e 0).
  assert (Hen : 0 <= en) by (subst en; lia).
  assert (Hep : 0 <= ep) by (subst ep; lia).
  assert (He : ep - en = e) by (subst ep en; lia).
  pose proof (pow2_pos en Hen) as Pen. pose proof (pow2_pos ep Hep) as Pep.
  split.
  - intros Hj. set (j := a - b - 1 - e) in *.
    apply Z.div_le_lower_bound; [nia|].
    assert (H1 : den * 2 ^ ep * 2 ^ j < 2 ^ (a + en)).
    { replace (a + en) with (Z.succ b + ep + j) by (subst j; lia).
      rewrite !Z.pow_add_r by lia.
      pose proof (pow2_pos j Hj). nia. }
    assert (H2 : 2 ^ (a + en) <= num * 2 ^ en).
    { rewrite Z.pow_add_r by lia. nia. }
    lia.
  - set (k := Z.max (a - b + 1 - e) 0).
    assert (Hk : 0 <= k) by (subst k; lia).
    apply Z.div_lt_upper_bound; [nia|].
    assert (H1 : num * 2 ^ en < 2 ^ (Z.succ a + en)).
    { rewrite Z.pow_add_r by lia. nia. }
    assert (H2 : 2 ^ (Z.succ a + en) <= 2 ^ (b + ep + k)).
    { apply Z.pow_le_mono_r; [lia|]. subst k. lia. }
    assert (H3 : 2 ^ (b + ep + k) <= den * 2 ^ ep * 2 ^ k).
    { rewrite !Z.pow_add_r by lia. pose proof (pow2_pos k Hk). nia. }
    lia.
Qed.

Lemma two_pow_53 : 2 ^ 53 = 9007199254740992.
Proof. reflexivity. Qed.

Lemma two_pow_52 : 2 ^ 52 = 4503599627370496.
Proof. reflexivity. Qed.

Lemma two_pow_54 : 2 ^ 54 = 18014398509481984.
Proof. reflexivity. Qed.

Lemma round_scaled_range num den e :
  round_scaled num den e = floor_scaled num den e
  \/ round_scaled num den e = floor_scaled num den e + 1.
Proof. rewrite round_scaled_ratio, floor_scaled_ratio. apply round_half_even_range. Qed.

(** What [nearest_ratio] gives is a double. *)
Lemma nearest_ratio_canonical num den m e :
  0 < num -> 0 < den -> nearest_ratio num den = BFinite m e -> canonical m e.
Proof.
  intros Hn Hd. unfold nearest_ratio.
  set (l := Z.log2 num - Z.log2 den).
  set (e0 := Z.max (l - 53) (-1074)).
  cbv zeta.
  set (ef := if floor_scaled num den e0 <? 2 ^ 53 then e0 else e0 + 1).
  set (mf := round_scaled num den ef).
  assert (Hq : 0 <= floor_scaled num den ef < 2 ^ 53
               /\ (2 ^ 52 <= floor_scaled num den ef \/ ef = -1074) /\ -1074 <= ef).
  { destruct (scaled_bounds num den e0 Hn Hd) as [Hlo Hhi]. fold l in Hlo, Hhi.
    assert (H0 : forall x, 0 <= floor_scaled num den x).
    { intros x. rewrite floor_scaled_ratio. apply Z.div_pos.
      - pose proof (scaled_num_pos num x Hn). lia.
      - now apply scaled_den_pos. }
    destruct (Z_le_gt_dec (-1074) (l - 53)) as [Hl|Hl].
    - assert (E0 : e0 = l - 53) by (subst e0; lia).
      replace (l - 1 - e0) with 52 in Hlo by lia.
      replace (Z.max (l + 1 - e0) 0) with 54 in Hhi by lia.
      specialize (Hlo ltac:(lia)). rewrite two_pow_52 in Hlo. rewrite two_pow_54 in Hhi.
      subst ef. rewrite two_pow_53, two_pow_52.
      destruct (floor_scaled num den e0 <? 9007199254740992) eqn:C.
      + apply Z.ltb_lt in C. lia.
      + apply Z.ltb_ge in C. rewrite floor_step by assumption.
        pose proof (Z.div_lt_upper_bound (floor_scaled num den e0) 2 9007199254740992
                      ltac:(lia) ltac:(lia)).
        pose proof (Z.div_le_lower_bound (floor_scaled num den e0) 2 4503599627370496
                      ltac:(lia) ltac:(lia)).
        pose proof (H0 (e0 + 1)) as Hnn. rewrite floor_step in Hnn by assumption. lia.
    - assert (E0 : e0 = -1074) by (subst e0; lia).
      assert (Hk : Z.max (l + 1 - e0) 0 <= 53) by lia.
      assert (Hp : 2 ^ Z.max (l + 1 - e0) 0 <= 2 ^ 53) by (apply Z.pow_le_mono_r; lia).
      subst ef.
      replace (floor_scaled num den e0 <? 2 ^ 53) with true
        by (symmetry; apply Z.ltb_lt; lia).
      split; [split; [apply H0|lia]|]. split; [now right|lia]. }
  destruct Hq as (Hq1 & Hq2 & Hq3).
  assert (Hm : mf = floor_scaled num den ef \/ mf = floor_scaled num den ef + 1)
    by apply round_scaled_range.
  rewrite two_pow_53, two_pow_52 in *.
  destruct (mf =? 0) eqn:C0; [discriminate|]. apply Z.eqb_neq in C0.
  destruct (mf =? 9007199254740992) eqn:C1.
  - destruct (971 <? ef + 1) eqn:C2; [discriminate|]. apply Z.ltb_ge in C2.
    intros [= <- <-]. unfold canonical. rewrite two_pow_53, two_pow_52. lia.
  - apply Z.eqb_neq in C1.
    destruct (971 <? ef) eqn:C2; [discriminate|]. apply Z.ltb_ge in C2.
    intros [= <- <-]. unfold canonical. rewrite two_pow_53, two_pow_52. lia.
Qed.

Lemma floor_scaled_exact num den m e :
  0 < den -> denotes num den m e ->
  floor_scaled num den e = m /\ floor_scaled num den (e - 1) = 2 * m.
Proof.
  intros Hd H. unfold denotes in H.
  pose proof (scaled_den_pos den e Hd) as HD.
  pose proof (scaled_den_pos den (e - 1) Hd) as HD1.
  split.
  - rewrite floor_scaled_ratio, H. apply Z.div_mul. lia.
  - rewrite floor_scaled_ratio.
    pose proof (scaled_step num den (e - 1)) as S.
    replace (e - 1 + 1) with e in S by lia. rewrite H in S.
    assert (E : scaled_num num (e - 1) = 2 * m * scaled_den den (e - 1)) by nia.
    rewrite E. apply Z.div_mul. lia.
Qed.

(** A quotient that is a double is rounded to itself. *)
Lemma nearest_ratio_exact num den m e :
  0 < num -> 0 < den -> canonical m e -> denotes num den m e ->
  nearest_ratio num den = BFinite m e.
Proof.
  intros Hn Hd (Hm & He & Hc) H.
  destruct (floor_scaled_exact num den m e Hd H) as [F0 F1].
  destruct (scaled_bounds num den e Hn Hd) as [Hlo Hhi].
  rewrite F0 in Hlo, Hhi.
  unfold nearest_ratio.
  set (l := Z.log2 num - Z.log2 den) in *.
  set (e0 := Z.max (l - 53) (-1074)).
  cbv zeta. rewrite two_pow_53, two_pow_52 in *.
  assert (Hle : l - 53 <= e).
  { destruct (Z_lt_le_dec (l - 1 - e) 0) as [Hneg|Hpos]; [lia|].
    specialize (Hlo Hpos).
    destruct (Z_lt_le_dec 52 (l - 1 - e)) as [Hbig|]; [|lia].
    assert (2 ^ 53 <= 2 ^ (l - 1 - e)) by (apply Z.pow_le_mono_r; lia).
    rewrite two_pow_53 in *. lia. }
  assert (Hef : (if floor_scaled num den e0 <? 9007199254740992 then e0 else e0 + 1) = e).
  { destruct (Z.eq_dec e0 e) as [E|E].
    - rewrite E, F0. replace (m <? 9007199254740992) with true
        by (symmetry; apply Z.ltb_lt; lia). reflexivity.
    - assert (Hlt : e0 < e) by (subst e0; lia).
      assert (Hnorm : 4503599627370496 <= m) by (destruct Hc; [assumption|subst e0; lia]).
      assert (Hge : e - 1 <= l - 53).
      { destruct (Z_lt_le_dec (l + 1 - e) 53) as [Hs|]; [|lia].
        assert (Z.max (l + 1 - e) 0 <= 52) by lia.
        assert (2 ^ Z.max (l + 1 - e) 0 <= 2 ^ 52) by (apply Z.pow_le_mono_r; lia).
        rewrite two_pow_52 in *. lia. }
      assert (E1 : e0 = e - 1) by (subst e0; lia).
      rewrite E1, F1.
      replace (2 * m <? 9007199254740992) with false
        by (symmetry; apply Z.ltb_ge; lia). lia. }
  rewrite Hef.
  assert (Hr : round_scaled num den e = m).
  { rewrite round_scaled_ratio. unfold denotes in H. rewrite H.
    apply round_half_even_exact. now apply scaled_den_pos. }
  rewrite Hr.
  replace (m =? 0) with false by (symmetry; apply Z.eqb_neq; lia).
  replace (m =? 9007199254740992) with false by (symmetry; apply Z.eqb_neq; lia).
  replace (971 <? e) with false by (symmetry; apply Z.ltb_ge; lia).
  reflexivity.
Qed.

(** *** The digits of an integer *)

Lemma Z_of_digits_app (x y : string) (a : Z) :
  Z_of_digits (x ++ y) a = Z_of_digits y (Z_of_digits x a).
Proof.
  revert a. induction x as [|c x IH]; intros a; [reflexivity|].
  rewrite append_cons. cbn [Z_of_digits]. apply IH.
Qed.

Lemma Z_of_digits_zeros (t : nat) (a : Z) :
  Z_of_digits (zeros t) a = a * 10 ^ Z.of_nat t.
Proof.
  revert a. induction t as [|t IH]; intros a.
  - cbn. lia.
  - cbn [zeros Z_of_digits]. rewrite IH.
    change (Z.of_N (N_of_ascii "0" - 48)) with 0.
    rewrite Nat2Z.inj_succ, Z.pow_succ_r by lia. ring.
Qed.

(** The digit characters. *)
Lemma digit_cases (d : N) :
  (d < 10)%N ->
  is_digit (digit_of_N d) = true
  /\ Z.of_N (N_of_ascii (digit_of_N d) - 48) = Z.of_N d
  /\ (d <> 0%N -> digit_of_N d <> "0"%char).
Proof.
  intros H.
  assert (C : (d = 0 \/ d = 1 \/ d = 2 \/ d = 3 \/ d = 4 \/ d = 5 \/ d = 6 \/ d = 7
              \/ d = 8 \/ d = 9)%N) by lia.
  repeat destruct C as [->|C]; try subst d;
    (split; [reflexivity|split; [reflexivity|]]); intros H0; try congruence; discriminate.
Qed.

(** The text starts with a character other than the digit zero. *)
Definition head_nonzero (ds : string) : Prop :=
  match ds with
  | String c _ => c <> "0"%char
  | "" => False
  end.

Lemma head_nonzero_app a b : head_nonzero a -> head_nonzero (a ++ b).
Proof. destruct a; [intros []|]. rewrite append_cons. exact (fun H => H). Qed.

Lemma N_digits_S f n acc :
  N_digits (S f) n acc =
  if (n / 10 =? 0)%N then String (digit_of_N (n mod 10)) acc
  else N_digits f (n / 10)%N (String (digit_of_N (n mod 10)) acc).
Proof. reflexivity. Qed.

(** With fuel for every bit, [N_digits] writes the decimal of [n]: digits
    only, as many as [n] needs, none of them a leading zero. *)
Lemma N_digits_spec (f : nat) :
  forall (n : N) (acc : string),
    (n < 2 ^ N.of_nat (S f))%N ->
    exists ds,
      N_digits (S f) n acc = ds ++ acc
      /\ ds <> ""
      /\ all_digits ds = true
      /\ (forall a, Z_of_digits ds a = a * 10 ^ Z.of_nat (String.length ds) + Z.of_N n)
      /\ Z.of_N n < 10 ^ Z.of_nat (String.length ds)
      /\ ((0 < n)%N ->
          head_nonzero ds /\ 10 ^ (Z.of_nat (String.length ds) - 1) <= Z.of_N n).
Proof.
  induction f as [|f IH]; intros n acc Hn.
  - change (2 ^ N.of_nat 1)%N with 2%N in Hn.
    assert (Hd : (n / 10 = 0)%N) by (apply N.div_small; lia).
    assert (Hm : (n mod 10 = n)%N) by (apply N.mod_small; lia).
    rewrite N_digits_S, Hd, Hm. change (0 =? 0)%N with true. cbv iota.
    destruct (digit_cases n ltac:(lia)) as (D1 & D2 & D3).
    exists (String (digit_of_N n) ""). repeat split.
    + discriminate.
    + cbn [all_digits]. now rewrite D1.
    + intros a. cbn [Z_of_digits String.length]. rewrite D2.
      change (Z.of_nat 1) with 1. lia.
    + cbn [String.length]. change (Z.of_nat 1) with 1. lia.
    + cbn [head_nonzero]. apply D3. lia.
    + cbn [String.length]. change (Z.of_nat 1 - 1) with 0. lia.
  - rewrite N_digits_S.
    set (q := (n / 10)%N). set (d := (n mod 10)%N).
    assert (Hqd : (n = 10 * q + d)%N) by (subst q d; apply N.div_mod; lia).
    assert (Hd10 : (d < 10)%N) by (subst d; apply N.mod_lt; lia).
    destruct (digit_cases d Hd10) as (D1 & D2 & D3).
    destruct (q =? 0)%N eqn:Eq.
    + apply N.eqb_eq in Eq.
      exists (String (digit_of_N d) ""). repeat split.
      * discriminate.
      * cbn [all_digits]. now rewrite D1.
      * intros a. cbn [Z_of_digits String.length]. rewrite D2.
        change (Z.of_nat 1) with 1. lia.
      * cbn [String.length]. change (Z.of_nat 1) with 1. lia.
      * cbn [head_nonzero]. apply D3. lia.
      * cbn [String.length]. change (Z.of_nat 1 - 1) with 0. lia.
    + apply N.eqb_neq in Eq.
      assert (Hq : (q < 2 ^ N.of_nat (S f))%N).
      { rewrite Nat2N.inj_succ, N.pow_succ_r' in Hn. lia. }
      destruct (IH q (String (digit_of_N d) acc) Hq) as (ds' & E & Hne & Hall & Hval & Hup & Hlow).
      destruct (Hlow ltac:(lia)) as [Hhead Hlo].
      exists (ds' ++ String (digit_of_N d) ""). repeat split.
      * rewrite E, append_assoc. reflexivity.
      * destruct ds'; [congruence|discriminate].
      * clear - Hall D1. induction ds' as [|c r IHr]; cbn [all_digits] in *.
        -- rewrite append_nil. cbn [all_digits]. now rewrite D1.
        -- rewrite append_cons. cbn [all_digits]. apply andb_prop in Hall as [-> Hr].
           now rewrite IHr.
      * intros a. rewrite Z_of_digits_app, Hval. cbn [Z_of_digits]. rewrite D2.
        rewrite length_append. cbn [String.length].
        rewrite Nat2Z.inj_add. change (Z.of_nat 1) with 1.
        rewrite Z.pow_add_r by lia. change (10 ^ 1) with 10. lia.
      * rewrite length_append. cbn [String.length].
        rewrite Nat2Z.inj_add. change (Z.of_nat 1) with 1.
        rewrite Z.pow_add_r by lia. change (10 ^ 1) with 10. lia.
      * now apply head_nonzero_app.
      * rewrite length_append. cbn [String.length].
        rewrite Nat2Z.inj_add. change (Z.of_nat 1) with 1.
        replace (Z.of_nat (String.length ds') + 1 - 1)
          with (Z.succ (Z.of_nat (String.length ds') - 1)) by lia.
        assert (0 < Z.of_nat (String.length ds'))
          by (destruct ds'; [congruence|cbn [String.length]; lia]).
        rewrite Z.pow_succ_r by lia. lia.
Qed.

Lemma string_of_N_spec (n : N) :
  (0 < n)%N ->
  let ds := string_of_N n in
  all_digits ds = true
  /\ Z_of_digits ds 0 = Z.of_N n
  /\ head_nonzero ds
  /\ 10 ^ (Z.of_nat (String.length ds) - 1) <= Z.of_N n < 10 ^ Z.of_nat (String.length ds).
Proof.
  intros Hn. unfold string_of_N.
  destruct (N_digits_spec (N.to_nat (N.log2 n)) n "") as (ds & E & Hne & Hall & Hval & Hup & Hlow).
  { rewrite Nat2N.inj_succ, N2Nat.id. apply N.log2_spec. lia. }
  destruct (Hlow Hn) as [Hh Hl].
  assert (E' : N_digits (S (N.to_nat (N.log2 n))) n "" = ds).
  { rewrite E. clear. induction ds as [|c r IH]; [reflexivity|]. rewrite append_cons. now rewrite IH. }
  cbv zeta. rewrite E'. repeat split; try assumption.
  rewrite Hval. lia.
Qed.

(** *** Normal forms *)

Lemma strip_leading_nonzero ds p : head_nonzero ds -> strip_leading ds p = (ds, p).
Proof.
  destruct ds as [|c r]; [intros []|]. cbn [head_nonzero]. intros H.
  destruct c as [[] [] [] [] [] [] [] []]; try reflexivity. congruence.
Qed.

Lemma strip_trailing_cons c r :
  strip_trailing (String c r) =
  if (Ascii.eqb c "0" && String.eqb (strip_trailing r) "")%bool then ""
  else String c (strip_trailing r).
Proof.
  cbn [strip_trailing].
  destruct c as [[] [] [] [] [] [] [] []]; destruct (strip_trailing r); reflexivity.
Qed.

Lemma strip_trailing_spec s : exists t, s = strip_trailing s ++ zeros t.
Proof.
  induction s as [|c r [t IH]]; [exists 0%nat; reflexivity|].
  rewrite strip_trailing_cons.
  destruct (Ascii.eqb c "0" && String.eqb (strip_trailing r) "")%bool eqn:E.
  - apply andb_prop in E as [E1 E2]. apply Ascii.eqb_eq in E1. apply String.eqb_eq in E2.
    subst c. rewrite E2 in IH. rewrite append_nil in IH. exists (S t). rewrite append_nil.
    cbn [zeros]. now rewrite <- IH.
  - exists t. rewrite append_cons. now rewrite <- IH.
Qed.

Lemma strip_trailing_head s : head_nonzero s -> head_nonzero (strip_trailing s).
Proof.
  destruct s as [|c r]; [intros []|]. cbn [head_nonzero]. intros H.
  rewrite strip_trailing_cons.
  replace (Ascii.eqb c "0") with false by (symmetry; now apply Ascii.eqb_neq).
  exact H.
Qed.

Lemma zeros_length t : String.length (zeros t) = t.
Proof. induction t; [reflexivity|]. cbn. now f_equal. Qed.

(** Every double is below [10^310], and the least one is above
    [10^-331]. *)
Lemma doubles_below : 2 ^ 53 * 2 ^ 971 < 10 ^ 310.
Proof. reflexivity. Qed.

Lemma doubles_above : 2 ^ 1074 < 10 ^ 331.
Proof. reflexivity. Qed.

Lemma pow10_split n : 0 <= n -> 10 ^ n = 2 ^ n * 5 ^ n.
Proof. intros. change 10 with (2 * 5). now rewrite Z.pow_mul_l. Qed.

(** *** The shortest decimal of a double reads back as the double *)

(** The integer [M] with [m * 2^e = M * 10^(min e 0)]. *)
Definition exact_digits (m e : Z) : Z := if 0 <=? e then m * 2 ^ e else m * 5 ^ (- e).

(** The decimal that writes a double out in full reads back as the
    double. *)
Lemma nearest_candidate neg m e :
  canonical m e ->
  nearest_of (candidate neg (exact_digits m e) (Z.min e 0)) = BFinite m e
  /\ exists ds p, candidate neg (exact_digits m e) (Z.min e 0) = mkNum neg ds p.
Proof.
  intros Hc. pose proof Hc as (Hm & He & Hn).
  set (M := exact_digits m e). set (sh := Z.min e 0).
  assert (HM : 0 < M).
  { subst M. unfold exact_digits. destruct (0 <=? e) eqn:E.
    - apply Z.leb_le in E. pose proof (pow2_pos e E). nia.
    - apply Z.leb_gt in E. assert (0 < 5 ^ (- e)) by (apply Z.pow_pos_nonneg; lia). nia. }
  unfold candidate.
  destruct (string_of_N_spec (Z.to_N M) ltac:(lia)) as (Hall & Hval & Hhead & Hlo & Hup).
  rewrite Z2N.id in Hval, Hlo, Hup by lia.
  set (S0 := string_of_N (Z.to_N M)) in *.
  set (L := Z.of_nat (String.length S0)) in *.
  destruct (strip_trailing_spec S0) as [t Ht].
  pose proof (strip_trailing_head S0 Hhead) as Hhead'.
  set (S1 := strip_trailing S0) in *.
  set (k := Z.of_nat (String.length S1)).
  assert (HL : L = k + Z.of_nat t).
  { subst L k. rewrite Ht at 1. rewrite length_append, zeros_length. lia. }
  set (D := Z_of_digits S1 0).
  assert (HD : M = D * 10 ^ Z.of_nat t).
  { rewrite <- Hval, Ht, Z_of_digits_app, Z_of_digits_zeros. reflexivity. }
  assert (Ht0 : 0 < 10 ^ Z.of_nat t) by (apply Z.pow_pos_nonneg; lia).
  assert (HD0 : 0 < D) by nia.
  assert (Hk : 0 < k).
  { subst k. destruct S1; [destruct Hhead'|]. cbn [String.length]. lia. }
  assert (Hcand : normal_number neg S0 (sh + L) = mkNum neg S1 (sh + L)).
  { unfold normal_number. rewrite (strip_leading_nonzero _ _ Hhead).
    fold S1. destruct S1; [destruct Hhead'|reflexivity]. }
  rewrite Hcand. split; [|eauto].
  cbn [nearest_of]. unfold nearest.
  rewrite (strip_leading_nonzero _ _ Hhead'). fold D. fold k.
  replace (D =? 0) with false by (symmetry; apply Z.eqb_neq; lia).
  assert (G1 : sh + L <= 310).
  { destruct (Z_le_gt_dec (sh + L) 310) as [|Hbig]; [assumption|exfalso].
    subst M sh. unfold exact_digits in *. destruct (0 <=? e) eqn:E.
    - apply Z.leb_le in E. rewrite Z.min_r in Hbig by lia.
      assert (10 ^ 310 <= 10 ^ (L - 1)) by (apply Z.pow_le_mono_r; lia).
      assert (2 ^ e <= 2 ^ 971) by (apply Z.pow_le_mono_r; lia).
      pose proof (pow2_pos e E). pose proof doubles_below.
      assert (m * 2 ^ e < 2 ^ 53 * 2 ^ 971) by nia. lia.
    - apply Z.leb_gt in E. rewrite Z.min_l in Hbig by lia.
      assert (10 ^ (310 + - e) <= 10 ^ (L - 1)) by (apply Z.pow_le_mono_r; lia).
      rewrite Z.pow_add_r in H by lia.
      assert (5 ^ (- e) <= 10 ^ (- e)) by (apply Z.pow_le_mono_l; lia).
      assert (0 < 5 ^ (- e)) by (apply Z.pow_pos_nonneg; lia).
      assert (2 ^ 53 < 10 ^ 310) by reflexivity.
      assert (m * 5 ^ (- e) < 10 ^ 310 * 10 ^ (- e)) by nia. lia. }
  assert (G2 : -330 <= sh + L).
  { destruct (Z_le_gt_dec (-330) (sh + L)) as [|Hsmall]; [assumption|exfalso].
    assert (HL1 : 1 <= L) by lia.
    subst M sh. unfold exact_digits in *. destruct (0 <=? e) eqn:E.
    - apply Z.leb_le in E. rewrite Z.min_r in Hsmall by lia. lia.
    - apply Z.leb_gt in E. rewrite Z.min_l in Hsmall by lia.
      assert (H1 : 10 ^ L <= 10 ^ (- e - 331)) by (apply Z.pow_le_mono_r; lia).
      assert (H2 : 10 ^ (- e) = 10 ^ (- e - 331) * 10 ^ 331).
      { rewrite <- Z.pow_add_r by lia. f_equal. lia. }
      rewrite (pow10_split (- e)) in H2 by lia.
      assert (H3 : 2 ^ (- e) <= 2 ^ 1074) by (apply Z.pow_le_mono_r; lia).
      assert (H4 : 0 < 5 ^ (- e)) by (apply Z.pow_pos_nonneg; lia).
      assert (H5 : 0 < 2 ^ (- e)) by (apply Z.pow_pos_nonneg; lia).
      pose proof doubles_above as H6.
      assert (H7 : 5 ^ (- e) <= m * 5 ^ (- e)) by nia.
      assert (H8 : 5 ^ (- e) < 10 ^ (- e - 331)) by lia.
      assert (H9 : 0 < 10 ^ 331) by reflexivity.
      assert (H10 : 5 ^ (- e) * 10 ^ 331 < 10 ^ (- e - 331) * 10 ^ 331) by nia.
      assert (H11 : 2 ^ (- e) * 5 ^ (- e) < 10 ^ 331 * 5 ^ (- e)) by nia.
      nia. }
  replace (310 <? sh + L) with false by (symmetry; apply Z.ltb_ge; lia).
  replace (sh + L <? -330) with false by (symmetry; apply Z.ltb_ge; lia).
  destruct (k <=? sh + L) eqn:Ek; [apply Z.leb_le in Ek|apply Z.leb_gt in Ek].
  - apply nearest_ratio_exact; [|lia|assumption|].
    + assert (0 < 10 ^ (sh + L - k)) by (apply Z.pow_pos_nonneg; lia). nia.
    + unfold denotes, scaled_num, scaled_den.
      replace (sh + L - k) with (sh + Z.of_nat t) by lia.
      subst M sh. unfold exact_digits in *. destruct (0 <=? e) eqn:E.
      * apply Z.leb_le in E. rewrite (Z.min_r e 0) in * by lia.
        rewrite (Z.max_r (- e) 0), (Z.max_l e 0) by lia.
        rewrite Z.pow_0_r, Z.add_0_l, <- HD. ring.
      * apply Z.leb_gt in E. rewrite (Z.min_l e 0) in * by lia.
        rewrite (Z.max_l (- e) 0), (Z.max_r e 0) by lia.
        rewrite Z.pow_0_r.
        assert (H1 : 10 ^ Z.of_nat t = 10 ^ (e + Z.of_nat t) * 10 ^ (- e)).
        { rewrite <- Z.pow_add_r by lia. f_equal. lia. }
        rewrite (pow10_split (- e)) in H1 by lia.
        assert (H4 : 0 < 5 ^ (- e)) by (apply Z.pow_pos_nonneg; lia).
        rewrite H1 in HD.
        apply (Z.mul_reg_r _ _ (5 ^ (- e))); [lia|].
        transitivity (m * 5 ^ (- e)); [rewrite HD; ring|ring].
  - apply nearest_ratio_exact; [lia| |assumption|].
    + apply Z.pow_pos_nonneg; lia.
    + unfold denotes, scaled_num, scaled_den.
      replace (k - (sh + L)) with (- (sh + Z.of_nat t)) by lia.
      subst M sh. unfold exact_digits in *. destruct (0 <=? e) eqn:E.
      * apply Z.leb_le in E. rewrite (Z.min_r e 0) in * by lia. lia.
      * apply Z.leb_gt in E. rewrite (Z.min_l e 0) in * by lia.
        rewrite (Z.max_l (- e) 0), (Z.max_r e 0) by lia.
        rewrite Z.pow_0_r.
        assert (H1 : 10 ^ (- e) = 10 ^ (- (e + Z.of_nat t)) * 10 ^ Z.of_nat t).
        { rewrite <- Z.pow_add_r by lia. f_equal. lia. }
        rewrite (pow10_split (- e)) in H1 by lia.
        apply (Z.mul_reg_r _ _ (10 ^ Z.of_nat t)); [lia|].
        transitivity (D * 10 ^ Z.of_nat t * 2 ^ (- e)); [ring|].
        rewrite <- HD.
        transitivity (m * (2 ^ (- e) * 5 ^ (- e))); [ring|]. rewrite H1. ring.
Qed.

Lemma Binary64_eqb_eq a b : Binary64_eqb a b = true -> a = b.
Proof.
  destruct a, b; cbn; try discriminate; try reflexivity.
  intros H. apply andb_prop in H as [H1 H2].
  apply Z.eqb_eq in H1, H2. now subst.
Qed.

(** The sign of a number, [true] for the negative ones. *)
Definition sign_of (x : JSNumber) : bool :=
  match x with mkNum n _ _ | Infinity n => n end.

Lemma Z_of_digits_nonneg s a : 0 <= a -> 0 <= Z_of_digits s a.
Proof.
  revert a. induction s as [|c r IH]; intros a Ha; [exact Ha|].
  cbn [Z_of_digits]. apply IH. lia.
Qed.

Lemma nearest_canonical ds p m e : nearest ds p = BFinite m e -> canonical m e.
Proof.
  unfold nearest. destruct (strip_leading ds p) as [ds' p'].
  pose proof (Z_of_digits_nonneg ds' 0 ltac:(lia)) as H0.
  set (D := Z_of_digits ds' 0) in *. set (k := Z.of_nat (String.length ds')).
  cbv zeta.
  destruct (D =? 0) eqn:E0; [discriminate|]. apply Z.eqb_neq in E0.
  destruct (310 <? p'); [discriminate|].
  destruct (p' <? -330); [discriminate|].
  destruct (k <=? p') eqn:Ek; [apply Z.leb_le in Ek|apply Z.leb_gt in Ek].
  - apply nearest_ratio_canonical; [|lia].
    assert (0 < 10 ^ (p' - k)) by (apply Z.pow_pos_nonneg; lia). nia.
  - apply nearest_ratio_canonical; [lia|]. apply Z.pow_pos_nonneg; lia.
Qed.

(** Normal form: digits only, no zero at either end, the point of a
    zero at 0. *)
Definition normal (x : JSNumber) : Prop :=
  match x with
  | mkNum _ ds p =>
      all_digits ds = true
      /\ (ds = "" -> p = 0)
      /\ strip_leading ds p = (ds, p) /\ strip_trailing ds = ds
  | Infinity _ => True
  end.

Lemma strip_leading_spec s p :
  exists t, s = zeros t ++ fst (strip_leading s p)
            /\ (fst (strip_leading s p) = "" \/ head_nonzero (fst (strip_leading s p))).
Proof.
  revert p. induction s as [|c r IH]; intros p.
  - exists 0%nat. split; [reflexivity|now left].
  - destruct (Ascii.eqb c "0") eqn:E.
    + apply Ascii.eqb_eq in E. subst c. cbn [strip_leading].
      destruct (IH (p - 1)) as (t & E1 & E2). exists (S t). split; [|exact E2].
      cbn [zeros]. rewrite append_cons. now rewrite <- E1.
    + apply Ascii.eqb_neq in E. rewrite (strip_leading_nonzero (String c r) p E).
      exists 0%nat. split; [reflexivity|now right].
Qed.

Lemma all_digits_app a b : all_digits (a ++ b) = (all_digits a && all_digits b)%bool.
Proof.
  induction a as [|c r IH]; [reflexivity|]. rewrite append_cons. cbn [all_digits].
  now rewrite IH, andb_assoc.
Qed.

Lemma strip_trailing_idem s : strip_trailing (strip_trailing s) = strip_trailing s.
Proof.
  induction s as [|c r IH]; [reflexivity|].
  rewrite strip_trailing_cons.
  destruct (Ascii.eqb c "0" && String.eqb (strip_trailing r) "")%bool eqn:E; [reflexivity|].
  rewrite strip_trailing_cons, IH, E. reflexivity.
Qed.

Lemma normal_number_normal neg s p :
  all_digits s = true ->
  normal (normal_number neg s p) /\ sign_of (normal_number neg s p) = neg.
Proof.
  intros Hall. unfold normal_number.
  destruct (strip_leading_spec s p) as (t & E1 & E2).
  destruct (strip_leading s p) as [s1 p1] eqn:Es. cbn [fst] in E1, E2.
  destruct (strip_trailing_spec s1) as [t' E3].
  assert (Hall1 : all_digits (strip_trailing s1) = true).
  { rewrite E1, all_digits_app in Hall. apply andb_prop in Hall as [_ Hall].
    rewrite E3, all_digits_app in Hall. now apply andb_prop in Hall as [Hall _]. }
  destruct (strip_trailing s1) as [|c r] eqn:Et.
  - cbn. repeat split; reflexivity.
  - cbn [normal sign_of]. split; [|reflexivity]. rewrite <- Et in *.
    split; [exact Hall1|]. split; [rewrite Et; discriminate|]. split.
    + apply strip_leading_nonzero. destruct E2 as [E2|E2].
      * subst s1. discriminate Et.
      * apply strip_trailing_head in E2. exact E2.
    + apply strip_trailing_idem.
Qed.

Lemma string_of_N_digits n : all_digits (string_of_N n) = true.
Proof.
  unfold string_of_N.
  destruct (N_digits_spec (N.to_nat (N.log2 n)) n "") as (ds & E & _ & Hall & _).
  { rewrite Nat2N.inj_succ, N2Nat.id.
    destruct (N.eq_dec n 0%N) as [->|Hn]; [reflexivity|]. apply N.log2_spec. lia. }
  rewrite E. rewrite all_digits_app, Hall. reflexivity.
Qed.

Lemma candidate_normal neg s last :
  normal (candidate neg s last) /\ sign_of (candidate neg s last) = neg.
Proof. unfold candidate. apply normal_number_normal, string_of_N_digits. Qed.

(** The search returns a decimal that reads back as the double, given
    that the decimal of all its digits does. *)
Lemma shortest_from_spec fuel neg b M L sh :
  nearest_of (candidate neg M sh) = b ->
  forall k,
    nearest_of (shortest_from fuel neg b M L sh k) = b
    /\ normal (shortest_from fuel neg b M L sh k)
    /\ sign_of (shortest_from fuel neg b M L sh k) = neg.
Proof.
  intros Hb. induction fuel as [|f IH]; intros k.
  - cbn [shortest_from]. split; [exact Hb|apply candidate_normal].
  - cbn [shortest_from]. cbv zeta.
    set (c_lo := candidate neg (M / 10 ^ (L - k)) (sh + L - k)).
    set (c_hi := candidate neg (M / 10 ^ (L - k) + 1) (sh + L - k)).
    destruct (_ || _)%bool.
    + destruct (Binary64_eqb (nearest_of c_lo) b) eqn:E1.
      { split; [now apply Binary64_eqb_eq|apply candidate_normal]. }
      destruct (Binary64_eqb (nearest_of c_hi) b) eqn:E2.
      { split; [now apply Binary64_eqb_eq|apply candidate_normal]. }
      apply IH.
    + destruct (Binary64_eqb (nearest_of c_hi) b) eqn:E1.
      { split; [now apply Binary64_eqb_eq|apply candidate_normal]. }
      destruct (Binary64_eqb (nearest_of c_lo) b) eqn:E2.
      { split; [now apply Binary64_eqb_eq|apply candidate_normal]. }
      apply IH.
Qed.

Lemma shortest_spec neg m e :
  canonical m e ->
  nearest_of (shortest neg m e) = BFinite m e
  /\ normal (shortest neg m e) /\ sign_of (shortest neg m e) = neg.
Proof.
  intros Hc. unfold shortest. cbv zeta.
  apply shortest_from_spec.
  apply (nearest_candidate neg m e Hc).
Qed.

(** The decimal is the one kept for a double: rounding it to the nearest
    double gives it back. *)
Definition is_double (x : JSNumber) : Prop := to_double x = x.

(** Every number [to_double] gives is a double in its shortest decimal,
    in normal form, with the sign of the decimal rounded. *)
Lemma to_double_spec x :
  is_double (to_double x)
  /\ normal (to_double x) /\ sign_of (to_double x) = sign_of x.
Proof.
  destruct (nearest_of x) as [|m e|] eqn:E.
  - assert (Hx : to_double x = mkNum (sign_of x) "" 0)
      by (unfold to_double; rewrite E; reflexivity).
    rewrite Hx. split; [reflexivity|]. split; [|reflexivity]. cbn. repeat split; reflexivity.
  - assert (Hx : to_double x = shortest (sign_of x) m e)
      by (unfold to_double; rewrite E; reflexivity).
    assert (Hc : canonical m e).
    { destruct x as [n ds p|n]; [|discriminate]. cbn [nearest_of] in E.
      now apply nearest_canonical in E. }
    destruct (shortest_spec (sign_of x) m e Hc) as (H1 & H2 & H3).
    rewrite Hx. split; [|split; assumption].
    unfold is_double, to_double. rewrite H1. fold (sign_of (shortest (sign_of x) m e)).
    now rewrite H3.
  - assert (Hx : to_double x = Infinity (sign_of x))
      by (unfold to_double; rewrite E; reflexivity).
    rewrite Hx. split; [reflexivity|]. split; [exact I|reflexivity].
Qed.

(** *** The numbers of a parsed text *)

(** The number is one [to_double] gave. *)
Definition rounded (x : JSNumber) : Prop := exists y, x = to_double y.

Lemma integer_part_cases {A : Type} (ip : string) (body : option A) (r : A) :
  match ip with
  | "" => None
  | String "0"%char (String _ _) => None
  | _ => body
  end = Some r -> body = Some r.
Proof.
  destruct ip as [|c [|c' r']]; try discriminate;
    destruct c as [[] [] [] [] [] [] [] []]; (discriminate || exact (fun H => H)).
Qed.

Lemma parse_number_rounded s n r : parse_number s = Some (n, r) -> rounded n.
Proof.
  unfold parse_number.
  match goal with |- context [let (_, _) := ?x in _] => destruct x as [neg s1] end.
  destruct (span_digits s1) as [ip s2].
  intros H. apply integer_part_cases in H.
  match type of H with
  | context [match ?x with Some _ => _ | None => _ end] => destruct x as [[fp s3]|]
  end; [|discriminate].
  match type of H with
  | context [match ?x with Some _ => _ | None => _ end] => destruct x as [[e s4]|]
  end; [|discriminate].
  injection H as <- _. eexists. reflexivity.
Qed.

(** What [parse_value] gives: a number is one [parse_number] gave, an
    object is empty or built from the members [parse_members] gave. *)
Definition parsed_shape (f : nat) (v : JSValue) : Prop :=
  match v with
  | JNum n => rounded n
  | JObj fs =>
      fs = [] \/ exists ms r1 r2, parse_members f r1 = Some (ms, r2) /\ fs = obj_of_members ms
  | _ => True
  end.

Lemma parse_value_shape f s v r :
  parse_value (S f) s = Some (v, r) -> parsed_shape f v.
Proof.
  cbn [parse_value].
  destruct s as [|c s]; [discriminate|].
  destruct (parse_number (String c s)) as [[n r0]|] eqn:En.
  - apply parse_number_rounded in En.
    destruct c as [[] [] [] [] [] [] [] []];
      try (intros [= <- <-]; exact En);
      repeat match goal with
      | |- context [match skip_ws ?x with _ => _ end] => destruct (skip_ws x) as [|[[] [] [] [] [] [] [] []] ?]
      | |- context [match parse_elems ?a ?b with _ => _ end] => destruct (parse_elems a b) as [[? ?]|]
      | |- context [match parse_members ?a ?b with _ => _ end] => destruct (parse_members a b) as [[? ?]|] eqn:?
      | |- context [match parse_string_chars ?b with _ => _ end] => destruct (parse_string_chars b) as [[? ?]|]
      | |- (match ?x with "" => _ | String _ _ => _ end) = _ -> _ => destruct x as [|[[] [] [] [] [] [] [] []] ?]
      | |- None = _ -> _ => discriminate
      | |- Some _ = _ -> _ => intros [= <- <-]; cbn; eauto 10
      end.
  - destruct c as [[] [] [] [] [] [] [] []];
      try discriminate;
      repeat match goal with
      | |- context [match skip_ws ?x with _ => _ end] => destruct (skip_ws x) as [|[[] [] [] [] [] [] [] []] ?]
      | |- context [match parse_elems ?a ?b with _ => _ end] => destruct (parse_elems a b) as [[? ?]|]
      | |- context [match parse_members ?a ?b with _ => _ end] => destruct (parse_members a b) as [[? ?]|] eqn:?
      | |- context [match parse_string_chars ?b with _ => _ end] => destruct (parse_string_chars b) as [[? ?]|]
      | |- (match ?x with "" => _ | String _ _ => _ end) = _ -> _ => destruct x as [|[[] [] [] [] [] [] [] []] ?]
      | |- None = _ -> _ => discriminate
      | |- Some _ = _ -> _ => intros [= <- <-]; cbn; eauto 10
      end.
Qed.

Definition top_rounded (v : JSValue) : Prop :=
  match v with
  | JNum n => rounded n
  | _ => True
  end.

Lemma parse_value_rounded f s v r : parse_value f s = Some (v, r) -> top_rounded v.
Proof.
  destruct f as [|f]; [discriminate|]. intros H. apply parse_value_shape in H.
  destruct v; cbn in *; auto.
Qed.

Lemma parse_members_rounded f :
  forall s ms r,
    parse_members f s = Some (ms, r) -> Forall (fun kv => top_rounded (snd kv)) ms.
Proof.
  induction f as [|f IH]; intros s ms r; [discriminate|].
  destruct s as [|c s]; [discriminate|].
  destruct (Ascii.eqb c "034") eqn:Ec.
  - apply Ascii.eqb_eq in Ec. subst c. rewrite parse_members_step.
    destruct (parse_string_chars s) as [[k r1]|]; [|discriminate].
    destruct (skip_ws r1) as [|c1 r2]; [discriminate|].
    destruct (parse_value f (skip_ws r2)) as [[v r3]|] eqn:Ev.
    + apply parse_value_rounded in Ev.
      destruct (skip_ws r3) as [|c3 r4].
      * destruct c1 as [[] [] [] [] [] [] [] []]; discriminate.
      * destruct (parse_members f (skip_ws r4)) as [[ms' r5]|] eqn:Em.
        -- apply IH in Em.
           destruct c1 as [[] [] [] [] [] [] [] []]; try discriminate;
             destruct c3 as [[] [] [] [] [] [] [] []]; try discriminate;
             intros [= <- <-]; repeat constructor; assumption.
        -- destruct c1 as [[] [] [] [] [] [] [] []]; try discriminate;
             destruct c3 as [[] [] [] [] [] [] [] []]; try discriminate;
             intros [= <- <-]; repeat constructor; assumption.
    + destruct c1 as [[] [] [] [] [] [] [] []]; discriminate.
  - apply Ascii.eqb_neq in Ec. cbn [parse_members].
    destruct c as [[] [] [] [] [] [] [] []]; try discriminate. congruence.
Qed.

Lemma obj_set_rounded k v fs :
  top_rounded v -> Forall (fun kv => top_rounded (snd kv)) fs ->
  Forall (fun kv => top_rounded (snd kv)) (obj_set k v fs).
Proof.
  intros Hv. induction 1 as [|[k' v'] r Hk Hr IH]; cbn [obj_set].
  - repeat constructor. exact Hv.
  - destruct (String.eqb k k'); [constructor; assumption|].
    destruct (goes_before k k'); repeat constructor; assumption.
Qed.

Lemma obj_of_members_rounded ms :
  Forall (fun kv => top_rounded (snd kv)) ms ->
  Forall (fun kv => top_rounded (snd kv)) (obj_of_members ms).
Proof.
  unfold obj_of_members. intros H.
  assert (G : forall acc, Forall (fun kv => top_rounded (snd kv)) acc ->
            Forall (fun kv => top_rounded (snd kv))
              (fold_left (fun acc kv => obj_set (fst kv) (snd kv) acc) ms acc)).
  { induction H as [|kv r Hkv Hr IH]; intros acc Hacc; [exact Hacc|].
    cbn [fold_left]. apply IH. now apply obj_set_rounded. }
  apply G. constructor.
Qed.

Lemma obj_get_rounded k fs v :
  Forall (fun kv => top_rounded (snd kv)) fs -> obj_get k fs = Some v -> top_rounded v.
Proof.
  induction 1 as [|[k' v'] r Hk Hr IH]; [discriminate|]. cbn [obj_get].
  destruct (String.eqb k k'); [intros [= <-]; exact Hk|exact IH].
Qed.

(** A number read from a property of a parsed object is a double in its
    shortest decimal. *)
Lemma parsed_property_rounded text v name x :
  JSON_parse text = Returned v -> get_prop v name = Returned (Some (JNum x)) ->
  rounded x.
Proof.
  unfold JSON_parse.
  destruct (parse_value _ _) as [[v0 r]|] eqn:E; [|discriminate].
  destruct (skip_ws r); [|discriminate]. intros [= <-].
  apply parse_value_shape in E.
  destruct v0; try discriminate. cbn [get_prop]. intros [= H].
  cbn [parsed_shape] in E. destruct E as [->|(ms & r1 & r2 & Hm & ->)]; [discriminate|].
  apply parse_members_rounded, obj_of_members_rounded in Hm.
  exact (obj_get_rounded _ _ _ Hm H).
Qed.

Lemma rounded_is_double x : rounded x -> is_double x /\ normal x.
Proof.
  intros [y ->]. destruct (to_double_spec y) as (H1 & H2 & _). now split.
Qed.

End NumberProofs.

(** ** Properties of [mergeLoras] *)

Module LoraProofs.
Import JS Text LoraLoader FilterProofs NumberProofs.

(** All characters of a text satisfy [p]. *)
Fixpoint all_chars (p : ascii -> bool) (s : string) : bool :=
  match s with
  | "" => true
  | String c r => (p c && all_chars p r)%bool
  end.

Lemma span_spec p s : s = fst (span p s) ++ snd (span p s) /\ all_chars p (fst (span p s)) = true.
Proof.
  induction s as [|c r [IH1 IH2]]; [split; reflexivity|]. simpl.
  destruct (p c) eqn:E; [|split; reflexivity].
  destruct (span p r) as [a rest]. simpl in *. rewrite append_cons, E. split; [congruence|exact IH2].
Qed.

Lemma span_run p a c r :
  all_chars p a = true -> p c = false -> span p (a ++ String c r) = (a, String c r).
Proof.
  intros Ha Hc. induction a as [|x a IH].
  - rewrite append_nil. simpl. now rewrite Hc.
  - simpl in Ha. apply andb_prop in Ha as [Hx Ha]. rewrite append_cons. simpl.
    rewrite Hx, (IH Ha). reflexivity.
Qed.

Lemma strip_prefix_append p s : strip_prefix p (p ++ s) = Some s.
Proof.
  induction p as [|a p IH]; [now destruct s|].
  rewrite append_cons. simpl. now rewrite Ascii.eqb_refl.
Qed.

Lemma strip_prefix_spec p s r : strip_prefix p s = Some r -> s = p ++ r.
Proof.
  revert s. induction p as [|a p IH]; intros s H.
  - destruct s; injection H as <-; reflexivity.
  - destruct s as [|b s]; [discriminate|]. simpl in H.
    destruct (Ascii.eqb_spec a b) as [<-|]; [|discriminate].
    rewrite append_cons. now rewrite (IH s H).
Qed.

(** The shape of a match: the literal parts of the pattern around a
    run without a colon and a run of digits and dots, both non-empty. *)
Definition lora_token (group1 group2 : string) : string :=
  "<lora:" ++ group1 ++ ":" ++ group2 ++ ">".

Definition groups_ok (group1 group2 : string) : Prop :=
  group1 <> "" /\ group2 <> ""
  /\ all_chars not_colon group1 = true /\ all_chars digit_or_dot group2 = true.

Lemma append_char (c : ascii) (x : string) : String c "" ++ x = String c x.
Proof. reflexivity. Qed.

Lemma match_at_complete g1 g2 rest :
  groups_ok g1 g2 -> match_at (lora_token g1 g2 ++ rest) = Some (g1, g2, rest).
Proof.
  intros (H1 & H2 & A1 & A2). unfold match_at, lora_token.
  rewrite append_assoc, strip_prefix_append.
  rewrite !append_assoc, !append_char, (span_run not_colon g1 ":" _ A1 eq_refl).
  destruct g1 as [|c1 g1]; [congruence|].
  rewrite (span_run digit_or_dot g2 ">" _ A2 eq_refl).
  destruct g2 as [|c2 g2]; [congruence|]. reflexivity.
Qed.

Lemma match_at_sound s g1 g2 rest :
  match_at s = Some (g1, g2, rest) -> s = lora_token g1 g2 ++ rest /\ groups_ok g1 g2.
Proof.
  unfold match_at. destruct (strip_prefix "<lora:" s) as [s1|] eqn:E1; [|discriminate].
  apply strip_prefix_spec in E1. subst s.
  destruct (span_spec not_colon s1) as [S1 A1].
  destruct (span not_colon s1) as [a s2]. simpl in S1, A1.
  destruct a as [|c1 a]; [discriminate|].
  destruct s2 as [|c s2]; [discriminate|].
  destruct (Ascii.eqb_spec c ":") as [->|Hc];
    [|destruct c as [[] [] [] [] [] [] [] []]; try discriminate; congruence].
  destruct (span_spec digit_or_dot s2) as [S2 A2].
  destruct (span digit_or_dot s2) as [b s3]. simpl in S2, A2.
  destruct b as [|c2 b]; [discriminate|].
  destruct s3 as [|d s3]; [discriminate|].
  destruct (Ascii.eqb_spec d ">") as [->|Hd];
    [|destruct d as [[] [] [] [] [] [] [] []]; try discriminate; congruence].
  intros H. injection H as <- <- <-. split.
  - unfold lora_token. rewrite S1, S2. rewrite !append_assoc, !append_char. reflexivity.
  - repeat split; [discriminate|discriminate|exact A1|exact A2].
Qed.

(** The pattern matches at the head of a text exactly when the text
    starts with [<lora:], a non-empty run without a colon, a colon, a
    non-empty run of digits and dots, and [>]; the groups are the two
    runs. *)
Theorem match_at_shape (s g1 g2 rest : string) :
  match_at s = Some (g1, g2, rest) <-> s = lora_token g1 g2 ++ rest /\ groups_ok g1 g2.
Proof.
  split; [apply match_at_sound|]. intros [-> H]. now apply match_at_complete.
Qed.

(** *** The loop over the matches *)

Lemma exec_skip a r : exec_all (String.length a) (a ++ r) = exec_all 0 r.
Proof.
  induction a as [|x a IH]; [now rewrite append_nil|].
  rewrite append_cons. cbn [exec_all String.length]. exact IH.
Qed.

Lemma exec_token g1 g2 rest :
  groups_ok g1 g2 -> exec_all 0 (lora_token g1 g2 ++ rest) = (g1, g2) :: exec_all 0 rest.
Proof.
  intros H. pose proof (match_at_complete g1 g2 rest H) as Hm.
  assert (Ht : exists t, lora_token g1 g2 = String "<" t) by (eexists; reflexivity).
  destruct Ht as [t Ht]. rewrite Ht in *. rewrite append_cons in *.
  cbn [exec_all]. rewrite Hm. f_equal.
  cbn [String.length]. rewrite length_append.
  replace (S (String.length t + String.length rest) - String.length rest - 1)
    with (String.length t) by lia.
  apply exec_skip.
Qed.

Lemma match_at_other c r : Ascii.eqb "<" c = false -> match_at (String c r) = None.
Proof. intros H. unfold match_at. cbn [strip_prefix]. now rewrite H. Qed.

Lemma exec_separator r : exec_all 0 (", " ++ r) = exec_all 0 r.
Proof.
  change (", " ++ r) with (String "," (String " " r)).
  cbn [exec_all]. rewrite !match_at_other by reflexivity. reflexivity.
Qed.

Lemma append_empty (a : string) : a ++ "" = a.
Proof. induction a as [|x a IH]; [reflexivity|]. rewrite append_cons. now rewrite IH. Qed.

(** The text [copyAllLorasSyntax] writes for the given names and
    strength texts. *)
Definition copied (es : list (string * string)) : string :=
  join ", " (List.map (fun e => BulkProofs.token (Some (fst e)) (snd e)) es).

Lemma token_is_lora_token n st : BulkProofs.token (Some n) st = lora_token n st.
Proof. reflexivity. Qed.

Lemma exec_copied es :
  Forall (fun e => groups_ok (fst e) (snd e)) es -> exec_all 0 (copied es) = es.
Proof.
  unfold copied. induction 1 as [|[n st] es He Hes IH]; [reflexivity|].
  cbn [fst snd] in He. destruct es as [|e2 es].
  - cbn [List.map join fst snd]. rewrite token_is_lora_token.
    rewrite <- (append_empty (lora_token n st)).
    rewrite (exec_token n st "" He). reflexivity.
  - cbn [List.map join fst snd] in *. rewrite token_is_lora_token.
    rewrite (exec_token n st _ He), exec_separator, IH. reflexivity.
Qed.

(** *** The merged entries *)

Definition name_of (m : string * string) : Value := Json (JStr (fst m)).

Lemma entry_name json m x : entry json m = Returned x -> name x = name_of m.
Proof.
  unfold entry. destruct json as [l|]; [|discriminate].
  destruct (find (fst m) l) as [[y|]|e]; intros H; try discriminate;
    injection H as <-; reflexivity.
Qed.

Lemma entries_names json ms r :
  entries json ms = Returned r -> List.map name r = List.map name_of ms.
Proof.
  revert r. induction ms as [|m ms IH]; intros r H.
  - injection H as <-. reflexivity.
  - cbn [entries] in H. destruct (entry json m) as [x|e] eqn:Ex; [|discriminate].
    destruct (entries json ms) as [xs|e]; [|discriminate]. injection H as <-.
    cbn [List.map]. now rewrite (entry_name _ _ _ Ex), (IH xs eq_refl).
Qed.

Lemma find_total n l : Forall is_Some l -> exists o, find n l = Returned o.
Proof.
  induction 1 as [|x l [y ->] _ [o IH]]; [now exists None|].
  cbn [find]. destruct (is_name n (name y)); eauto.
Qed.

Lemma entries_total l ms : Forall is_Some l -> exists r, entries (Some l) ms = Returned r.
Proof.
  intros Hl. induction ms as [|m ms [r IH]]; [now exists []|].
  cbn [entries entry]. destruct (find_total (fst m) l Hl) as [o ->].
  rewrite IH. destruct o; eauto.
Qed.

(** X14: the names of the merged entries are the first groups of the
    matches in the text, in their order, whatever [lorasJson] holds; the
    merge returns when [lorasJson] is an array without [null], and, when
    the text has no match, for any [lorasJson] at all; a [lorasJson]
    without [find] makes it throw as soon as the text has a match. *)
Theorem merge_names (lorasText : string) (lorasJson : option (list Element)) :
  (forall r, mergeLoras lorasText lorasJson = Returned r ->
     List.map name r = List.map name_of (exec_all 0 lorasText))
  /\ (forall l, lorasJson = Some l -> Forall is_Some l ->
        exists r, mergeLoras lorasText lorasJson = Returned r)
  /\ (exec_all 0 lorasText = [] -> mergeLoras lorasText lorasJson = Returned [])
  /\ (lorasJson = None -> exec_all 0 lorasText <> [] ->
        mergeLoras lorasText lorasJson = Threw TypeError).
Proof.
  unfold mergeLoras. repeat split.
  - intros r. apply entries_names.
  - intros l -> Hl. now apply entries_total.
  - intros ->. reflexivity.
  - intros -> Hne. destruct (exec_all 0 lorasText); [congruence|reflexivity].
Qed.

(** *** Merging again *)

Lemma find_after pre x post n :
  Forall (fun y => is_name n (name y) = false) pre -> is_name n (name x) = true ->
  find n (List.map Some (pre ++ x :: post)%list) = Returned (Some x).
Proof.
  intros Hpre Hx. induction Hpre as [|y pre Hy _ IH]; cbn [app List.map find].
  - now rewrite Hx.
  - now rewrite Hy.
Qed.

Lemma is_name_of (m : string * string) x : name x = name_of m -> is_name (fst m) (name x) = true.
Proof. intros ->. simpl. apply String.eqb_refl. Qed.

Lemma is_name_other (m m' : string * string) x :
  name x = name_of m -> fst m <> fst m' -> is_name (fst m') (name x) = false.
Proof. intros -> H. simpl. now apply String.eqb_neq. Qed.

Lemma entries_again ms r :
  Forall2 (fun m x => name x = name_of m) ms r -> NoDup (fst <$> ms) ->
  forall pre,
    Forall (fun y => Forall (fun m => is_name (fst m) (name y) = false) ms) pre ->
    entries (Some (List.map Some (pre ++ r)%list)) ms = Returned r.
Proof.
  induction 1 as [|m x ms r Hx Hr IH]; intros Hnd pre Hpre; [reflexivity|].
  change (fst <$> m :: ms) with (fst m :: (fst <$> ms)) in Hnd.
  apply NoDup_cons in Hnd as [Hnot Hnd].
  cbn [entries entry].
  rewrite (find_after pre x r (fst m)).
  - replace (pre ++ x :: r)%list with ((pre ++ [x]) ++ r)%list
      by (rewrite <- app_assoc; reflexivity).
    rewrite IH.
    + destruct x as [xn xs xa]. simpl in Hx. subst xn. reflexivity.
    + exact Hnd.
    + apply Forall_app. split.
      * eapply Forall_impl; [exact Hpre|]. intros y Hy. now inversion Hy.
      * constructor; [|constructor]. apply Forall_forall. intros m' Hm'.
        apply (is_name_other m m' x Hx). intros E. apply Hnot. rewrite E.
        apply list_elem_of_fmap. exists m'. split; [reflexivity|exact Hm'].
  - eapply Forall_impl; [exact Hpre|]. intros y Hy. now inversion Hy.
  - now apply is_name_of.
Qed.

Lemma entries_shape json ms r :
  entries json ms = Returned r -> Forall2 (fun m x => name x = name_of m) ms r.
Proof.
  revert r. induction ms as [|m ms IH]; intros r H.
  - injection H as <-. constructor.
  - cbn [entries] in H. destruct (entry json m) as [x|e] eqn:Ex; [|discriminate].
    destruct (entries json ms) as [xs|e]; [|discriminate]. injection H as <-.
    constructor; [exact (entry_name _ _ _ Ex)|now apply IH].
Qed.

(** X15: when no name occurs twice in the text, merging the text with
    the entries a merge of it returned gives those entries again: the
    callback of the text widget leaves the widget's value alone when the
    text has not changed. *)
Theorem merge_idempotent (lorasText : string) (lorasJson : option (list Element))
    (r : list Lora) :
  NoDup (fst <$> exec_all 0 lorasText) ->
  mergeLoras lorasText lorasJson = Returned r ->
  mergeLoras lorasText (as_value r) = Returned r.
Proof.
  unfold mergeLoras, as_value. intros Hnd Hr.
  apply (entries_again _ r (entries_shape _ _ _ Hr) Hnd []). constructor.
Qed.

Definition two_loras : string := "a <lora:foo:0.8> and <lora:bar:1.2.3>, done".

Definition saved_loras : option (list Element) :=
  Some [Some (mkLora (Json (JStr "bar")) (Json (JStr "strong")) (Json (JBool false)))].

Definition merged_loras : list Lora :=
  [mkLora (Json (JStr "foo")) (Json (JNum (mkNum false "8" 0))) (Json (JBool true));
   mkLora (Json (JStr "bar")) (Json (JStr "strong")) (Json (JBool false))].

Lemma merge_idempotent_witness :
  mergeLoras two_loras (as_value merged_loras) = Returned merged_loras.
Proof.
  apply (merge_idempotent two_loras saved_loras merged_loras).
  - apply (bool_decide_unpack (NoDup ["foo"; "bar"])). vm_compute. exact I.
  - vm_compute. reflexivity.
Defined.

(** Two tokens of one name with different strengths: the second merge
    gives both the strength of the first. *)
Example merge_twice_differs :
  mergeLoras "<lora:a:1><lora:a:2>" (Some []) =
    Returned [mkLora (Json (JStr "a")) (Json (JNum (mkNum false "1" 1))) (Json (JBool true));
              mkLora (Json (JStr "a")) (Json (JNum (mkNum false "2" 1))) (Json (JBool true))]
  /\ mergeLoras "<lora:a:1><lora:a:2>"
       (as_value
          [mkLora (Json (JStr "a")) (Json (JNum (mkNum false "1" 1))) (Json (JBool true));
           mkLora (Json (JStr "a")) (Json (JNum (mkNum false "2" 1))) (Json (JBool true))]) =
     Returned [mkLora (Json (JStr "a")) (Json (JNum (mkNum false "1" 1))) (Json (JBool true));
               mkLora (Json (JStr "a")) (Json (JNum (mkNum false "1" 1))) (Json (JBool true))].
Proof. split; vm_compute; reflexivity. Qed.

(** *** Reading the copied text *)

Lemma merge_copied (es : list (string * string)) :
  Forall (fun e => groups_ok (fst e) (snd e)) es ->
  mergeLoras (copied es) (Some []) =
  Returned (List.map (fun e => mkLora (Json (JStr (fst e))) (to_number (snd e))
                                 (Json (JBool true))) es).
Proof.
  intros H. unfold mergeLoras. rewrite (exec_copied es H). clear H.
  induction es as [|e es IH]; [reflexivity|].
  cbn [entries entry find List.map]. now rewrite IH.
Qed.

(** X16: the text [copyAllLorasSyntax] writes for names without a colon
    and strengths printed with digits and dots only is read back by
    [mergeLoras], against an empty [lorasJson], as one active entry per
    token, in order, with the name and the number the strength text
    denotes. *)
Theorem merge_reads_copied (es : list (string * string)) :
  Forall (fun e => groups_ok (fst e) (snd e)) es ->
  exec_all 0 (copied es) = es
  /\ mergeLoras (copied es) (Some []) =
     Returned (List.map (fun e => mkLora (Json (JStr (fst e))) (to_number (snd e))
                                    (Json (JBool true))) es).
Proof. intros H. split; [now apply exec_copied|now apply merge_copied]. Qed.

Lemma merge_reads_copied_witness :
  exec_all 0 (copied [("foo", "0.8"); ("my lora", "1")]) = [("foo", "0.8"); ("my lora", "1")]
  /\ mergeLoras (copied [("foo", "0.8"); ("my lora", "1")]) (Some []) =
     Returned (List.map (fun e => mkLora (Json (JStr (fst e))) (to_number (snd e))
                                    (Json (JBool true)))
                 [("foo", "0.8"); ("my lora", "1")]).
Proof.
  apply (merge_reads_copied [("foo", "0.8"); ("my lora", "1")]).
  repeat constructor; discriminate.
Defined.

(** *** Strengths the pattern does not know *)

(** Some colon of the text is directly followed by a digit or a dot. *)
Fixpoint colon_then_number (s : string) : bool :=
  match s with
  | "" => false
  | String c r =>
      ((Ascii.eqb c ":" && match r with String d _ => digit_or_dot d | "" => false end)
       || colon_then_number r)%bool
  end.

Lemma colon_then_number_app a d r :
  digit_or_dot d = true -> colon_then_number (a ++ String ":" (String d r)) = true.
Proof.
  intros Hd. induction a as [|x a IH].
  - rewrite append_nil. cbn [colon_then_number]. rewrite Hd. reflexivity.
  - rewrite append_cons. cbn [colon_then_number]. rewrite IH. apply orb_true_r.
Qed.

Lemma match_needs_number s m : match_at s = Some m -> colon_then_number s = true.
Proof.
  destruct m as [[g1 g2] rest]. intros H.
  apply match_at_sound in H as [-> (_ & H2 & _ & A2)].
  destruct g2 as [|d g2]; [congruence|]. cbn [all_chars] in A2.
  apply andb_prop in A2 as [Hd _].
  replace (lora_token g1 (String d g2) ++ rest)
    with (("<lora:" ++ g1) ++ String ":" (String d (g2 ++ ">" ++ rest)))
    by (unfold lora_token; rewrite !append_assoc; reflexivity).
  now apply colon_then_number_app.
Qed.

Lemma exec_without_number s :
  colon_then_number s = false -> forall k, exec_all k s = [].
Proof.
  induction s as [|c r IH]; intros H k; [reflexivity|].
  assert (Hr : colon_then_number r = false).
  { cbn [colon_then_number] in H. now apply orb_false_elim in H as [_ H]. }
  cbn [exec_all]. destruct k as [|k]; [|now apply IH].
  destruct (match_at (String c r)) as [m|] eqn:Em; [|now apply IH].
  apply match_needs_number in Em. congruence.
Qed.

(** X17: a text in which no colon is directly followed by a digit or a
    dot has no match, so the merge returns no entry, whatever
    [lorasJson] is: a token whose strength is printed with a sign, as
    the copy prints a negative strength, is dropped. *)
Theorem signed_strength_is_dropped (lorasText : string) (lorasJson : option (list Element)) :
  colon_then_number lorasText = false ->
  mergeLoras lorasText lorasJson = Returned [].
Proof.
  intros H. unfold mergeLoras. now rewrite (exec_without_number _ H 0).
Qed.

Lemma signed_strength_is_dropped_witness :
  mergeLoras (BulkProofs.token (Some "foo") "-0.5") None = Returned [].
Proof.
  apply (signed_strength_is_dropped (BulkProofs.token (Some "foo") "-0.5") None).
  reflexivity.
Defined.

(** *** Reading a printed strength *)

(** A positive finite number in normal form: digits only, no zero at
    either end, printed without an exponent. *)
Definition plain_positive (x : JSNumber) : Prop :=
  match x with
  | mkNum neg ds n =>
      neg = false /\ ds <> "" /\ all_chars is_digit ds = true
      /\ strip_leading ds n = (ds, n) /\ strip_trailing ds = ds
      /\ (-6 < n <= 21)%Z
  | Infinity _ => False
  end.

Lemma span_digits_all a : all_chars is_digit a = true -> span_digits a = (a, "").
Proof.
  induction a as [|c a IH]; [reflexivity|]. cbn [all_chars]. intros H.
  apply andb_prop in H as [Hc Ha]. cbn [span_digits]. now rewrite Hc, (IH Ha).
Qed.

Lemma span_digits_run a c r :
  all_chars is_digit a = true -> is_digit c = false ->
  span_digits (a ++ String c r) = (a, String c r).
Proof.
  intros Ha Hc. induction a as [|x a IH].
  - rewrite append_nil. cbn [span_digits]. now rewrite Hc.
  - cbn [all_chars] in Ha. apply andb_prop in Ha as [Hx Ha].
    rewrite append_cons. cbn [span_digits]. now rewrite Hx, (IH Ha).
Qed.

Lemma all_chars_app p a b :
  all_chars p (a ++ b) = (all_chars p a && all_chars p b)%bool.
Proof.
  induction a as [|x a IH]; [reflexivity|]. rewrite append_cons. cbn [all_chars].
  now rewrite IH, andb_assoc.
Qed.

Lemma all_chars_weaken (p q : ascii -> bool) a :
  (forall c, p c = true -> q c = true) -> all_chars p a = true -> all_chars q a = true.
Proof.
  intros Hpq. induction a as [|x a IH]; [reflexivity|]. cbn [all_chars]. intros H.
  apply andb_prop in H as [Hx Ha]. now rewrite (Hpq x Hx), (IH Ha).
Qed.

Lemma zeros_digits n : all_chars is_digit (zeros n) = true.
Proof. induction n as [|n IH]; [reflexivity|]. cbn [zeros all_chars]. now rewrite IH. Qed.

Lemma take_drop n s : take_str n s ++ drop_str n s = s.
Proof.
  revert s. induction n as [|n IH]; intros s; [now destruct s|].
  destruct s as [|c s]; [reflexivity|]. cbn [take_str drop_str].
  now rewrite append_cons, IH.
Qed.

Lemma take_length n s : (n <= String.length s)%nat -> String.length (take_str n s) = n.
Proof.
  revert s. induction n as [|n IH]; intros s H; [now destruct s|].
  destruct s as [|c s]; [simpl in H; lia|]. cbn [take_str String.length].
  rewrite IH; [reflexivity|]. simpl in H. lia.
Qed.

Lemma length_zeros n : String.length (zeros n) = n.
Proof. induction n as [|n IH]; [reflexivity|]. cbn [zeros String.length]. now rewrite IH. Qed.

Lemma strip_trailing_zeros a n : strip_trailing (a ++ zeros n) = strip_trailing a.
Proof.
  induction a as [|c a IH].
  - rewrite append_nil. induction n as [|n IHn]; [reflexivity|].
    cbn [zeros strip_trailing]. now rewrite IHn.
  - rewrite append_cons. cbn [strip_trailing]. now rewrite IH.
Qed.

Lemma strip_leading_zeros n s p :
  strip_leading (zeros n ++ s) p = strip_leading s (p - Z.of_nat n).
Proof.
  revert p. induction n as [|n IH]; intros p.
  - rewrite append_nil. f_equal. lia.
  - cbn [zeros]. rewrite append_cons. cbn [strip_leading]. rewrite IH. f_equal. lia.
Qed.

Lemma strip_leading_shift s p q :
  strip_leading s p = (s, p) -> strip_leading s q = (s, q).
Proof.
  destruct s as [|c s]; [reflexivity|].
  assert (Hlen : forall t a, String.length (fst (strip_leading t a)) <= String.length t).
  { induction t as [|y t IHt]; intros a; [simpl; lia|].
    cbn [strip_leading].
    destruct y as [[] [] [] [] [] [] [] []]; try (simpl; lia).
    specialize (IHt (a - 1)%Z). simpl in *. lia. }
  destruct c as [[] [] [] [] [] [] [] []]; try reflexivity.
  cbn [strip_leading]. intros H. pose proof (Hlen s (p - 1)%Z) as Hl.
  rewrite H in Hl. simpl in Hl. lia.
Qed.

Lemma normal_plain ds p :
  ds <> "" -> strip_leading ds p = (ds, p) -> strip_trailing ds = ds ->
  normal_number false ds p = mkNum false ds p.
Proof.
  intros Hne Hl Ht. unfold normal_number. rewrite Hl, Ht. now destruct ds.
Qed.

Lemma plain_take n ds :
  all_chars is_digit ds = true ->
  all_chars is_digit (take_str n ds) = true /\ all_chars is_digit (drop_str n ds) = true.
Proof.
  intros H. rewrite <- (take_drop n ds), all_chars_app in H. now apply andb_prop in H.
Qed.

(** Printing a plain positive number and reading the text as a number
    gives the double nearest to the number. *)
Lemma to_number_printed x :
  plain_positive x -> to_number (number_to_string x) = Json (JNum (to_double x)).
Proof.
  destruct x as [neg ds n|neg]; [|intros []].
  intros (Hneg & Hne & Hd & Hl & Ht & Hr). subst neg.
  unfold number_to_string.
  destruct ds as [|d rest] eqn:Eds; [congruence|]. rewrite <- Eds in *.
  cbv zeta.
  assert (Hk : String.length ds = S (String.length rest)) by (subst ds; reflexivity).
  set (k := Z.of_nat (String.length ds)).
  destruct ((k <=? n) && (n <=? 21))%Z eqn:C1.
  { apply andb_prop in C1 as [C1 _]. apply Z.leb_le in C1.
    unfold to_number.
    rewrite span_digits_all by (rewrite all_chars_app, Hd, zeros_digits; reflexivity).
    rewrite length_append, length_zeros.
    replace (Z.of_nat (String.length ds + Z.to_nat (n - k))) with n by (subst k; lia).
    unfold normal_number.
    assert (Hlead : strip_leading (ds ++ zeros (Z.to_nat (n - k))) n
                    = (ds ++ zeros (Z.to_nat (n - k)), n)).
    { subst ds. rewrite append_cons in *. cbn [strip_leading] in *.
      destruct d as [[] [] [] [] [] [] [] []]; try reflexivity.
      exfalso. clear - Hl.
      assert (Hlen : forall t a, String.length (fst (strip_leading t a)) <= String.length t).
      { induction t as [|y t IHt]; intros a; [simpl; lia|].
        cbn [strip_leading].
        destruct y as [[] [] [] [] [] [] [] []]; try (simpl; lia).
        specialize (IHt (a - 1)%Z). simpl in *. lia. }
      pose proof (Hlen rest (n - 1)%Z) as H. rewrite Hl in H. simpl in H. lia. }
    rewrite Hlead, strip_trailing_zeros, Ht. subst ds. reflexivity. }
  destruct ((0 <? n) && (n <=? 21))%Z eqn:C2.
  { apply andb_prop in C2 as [C2 _]. apply Z.ltb_lt in C2.
    assert (Hnk : (n < k)%Z).
    { apply andb_false_iff in C1 as [C1|C1]; [now apply Z.leb_gt in C1|].
      apply Z.leb_gt in C1. lia. }
    destruct (plain_take (Z.to_nat n) ds Hd) as [Htk Hdr].
    unfold to_number.
    rewrite append_char, (span_digits_run _ "." _ Htk eq_refl).
    rewrite (span_digits_all _ Hdr).
    rewrite take_drop, take_length by (subst k; lia).
    replace (Z.of_nat (Z.to_nat n)) with n by lia.
    rewrite (normal_plain ds n Hne Hl Ht).
    destruct (take_str (Z.to_nat n) ds) eqn:Etk; [|reflexivity].
    exfalso. pose proof (take_length (Z.to_nat n) ds ltac:(subst k; lia)) as Hlen.
    rewrite Etk in Hlen. simpl in Hlen. lia. }
  destruct ((-6 <? n) && (n <=? 0))%Z eqn:C3.
  { apply andb_prop in C3 as [_ C3]. apply Z.leb_le in C3.
    unfold to_number.
    change ("0." ++ zeros (Z.to_nat (- n)) ++ ds)
      with (String "0" (String "." (zeros (Z.to_nat (- n)) ++ ds))).
    cbn [span_digits is_digit]. 
    change (is_digit "0") with true. change (is_digit ".") with false.
    cbv beta iota.
    rewrite span_digits_all by (rewrite all_chars_app, Hd, zeros_digits; reflexivity).
    cbv beta iota. change (String.length "0") with 1%nat.
    change ("0" ++ zeros (Z.to_nat (- n)) ++ ds)
      with (String "0" (zeros (Z.to_nat (- n)) ++ ds)).
    unfold normal_number. cbn [strip_leading].
    rewrite strip_leading_zeros.
    replace (Z.of_nat 1 - 1 - Z.of_nat (Z.to_nat (- n)))%Z with n by lia.
    rewrite (strip_leading_shift ds n n Hl), Ht. subst ds. reflexivity. }
  exfalso.
  apply andb_false_iff in C2. apply andb_false_iff in C3.
  destruct C2 as [C2|C2], C3 as [C3|C3];
    try apply Z.ltb_ge in C2; try apply Z.leb_gt in C2;
    try apply Z.ltb_ge in C3; try apply Z.leb_gt in C3; lia.
Qed.

Lemma digit_is_digit_or_dot c : is_digit c = true -> digit_or_dot c = true.
Proof. unfold digit_or_dot. now intros ->. Qed.

(** A plain positive number prints as a non-empty text of digits and
    dots. *)
Lemma printed_plain x :
  plain_positive x ->
  number_to_string x <> "" /\ all_chars digit_or_dot (number_to_string x) = true.
Proof.
  destruct x as [neg ds n|neg]; [|intros []].
  intros (Hneg & Hne & Hd & Hl & Ht & Hr). subst neg.
  pose proof (all_chars_weaken _ _ ds digit_is_digit_or_dot Hd) as Hdd.
  unfold number_to_string.
  destruct ds as [|d rest] eqn:Eds; [congruence|]. rewrite <- Eds in *.
  cbv zeta.
  destruct (_ && (n <=? 21))%Z.
  { split; [subst ds; rewrite append_cons; discriminate|].
    rewrite all_chars_app, Hdd.
    apply (all_chars_weaken _ _ _ digit_is_digit_or_dot), zeros_digits. }
  destruct (_ && (n <=? 21))%Z eqn:C2.
  { destruct (plain_take (Z.to_nat n) ds Hd) as [Htk Hdr].
    split.
    - destruct (take_str (Z.to_nat n) ds); [rewrite append_nil|rewrite append_cons];
        discriminate.
    - rewrite !all_chars_app.
      rewrite (all_chars_weaken _ _ _ digit_is_digit_or_dot Htk).
      rewrite (all_chars_weaken _ _ _ digit_is_digit_or_dot Hdr). reflexivity. }
  destruct (_ && (n <=? 0))%Z eqn:C3.
  { split; [discriminate|].
    rewrite !all_chars_app, Hdd.
    rewrite (all_chars_weaken _ _ _ digit_is_digit_or_dot (zeros_digits _)). reflexivity. }
  exfalso.
  apply andb_false_iff in C2. apply andb_false_iff in C3.
  destruct C2 as [C2|C2], C3 as [C3|C3];
    try apply Z.ltb_ge in C2; try apply Z.leb_gt in C2;
    try apply Z.ltb_ge in C3; try apply Z.leb_gt in C3; lia.
Qed.

Lemma all_digits_chars s : all_digits s = all_chars is_digit s.
Proof. induction s as [|c r IH]; [reflexivity|]. cbn [all_digits all_chars]. now rewrite IH. Qed.

(** A number read from a property of a parsed text is a double in
    normal form; when it is positive and printed without an exponent, it
    is a plain positive number. *)
Lemma parsed_plain text v name ds p :
  JSON_parse text = Returned v ->
  get_prop v name = Returned (Some (JNum (mkNum false ds p))) ->
  ds <> "" -> (-6 < p <= 21)%Z ->
  plain_positive (mkNum false ds p) /\ is_double (mkNum false ds p).
Proof.
  intros Hp Hg Hne Hr.
  destruct (rounded_is_double _ (parsed_property_rounded _ _ _ _ Hp Hg)) as [Hd Hn].
  split; [|exact Hd].
  destruct Hn as (Hall & _ & Hl & Ht).
  rewrite all_digits_chars in Hall. repeat split; try assumption; lia.
Qed.

(** X18: from the copy to the loader node: when the usage tips of a
    cached entry parse to an object whose strength is a positive number
    printed without an exponent (from 0.000001 up to, not including,
    1e21), and the file name is not empty and has no colon, the token the
    copy builds is read by [mergeLoras], against an empty [lorasJson], as
    one active entry with that name and that strength. *)
Theorem copied_strength_is_read_back (n : string) (tips : option string)
    (v : JSValue) (ds : string) (p : Z) :
  n <> "" -> all_chars not_colon n = true ->
  JSON_parse (Bulk.usage_text tips) = Returned v ->
  get_prop v "strength" = Returned (Some (JNum (mkNum false ds p))) ->
  ds <> "" -> (-6 < p <= 21)%Z ->
  exists t,
    Bulk.lora_syntax (Some n) tips = Returned t
    /\ mergeLoras t (Some []) =
       Returned [mkLora (Json (JStr n)) (Json (JNum (mkNum false ds p))) (Json (JBool true))].
Proof.
  intros Hn Hc Hp Hg Hne Hr.
  destruct (parsed_plain _ _ _ _ _ Hp Hg Hne Hr) as [Hx Hdouble].
  set (x := mkNum false ds p) in *.
  destruct (printed_plain x Hx) as [Hpr Hdd].
  assert (Hor : or_else (Some (JNum x)) JOne = JNum x).
  { subst x. unfold or_else, truthy. destruct ds; [congruence|reflexivity]. }
  exists (BulkProofs.token (Some n) (number_to_string x)). split.
  - rewrite (BulkProofs.lora_syntax_parsed (Some n) tips v _ Hp Hg), Hor. reflexivity.
  - assert (Hok : Forall (fun e => groups_ok (fst e) (snd e)) [(n, number_to_string x)]).
    { repeat constructor; assumption. }
    pose proof (merge_copied _ Hok) as H.
    unfold copied in H. cbn [List.map join fst snd] in H.
    rewrite H, (to_number_printed x Hx), Hdouble. reflexivity.
Qed.

Lemma copied_strength_is_read_back_witness :
  exists t,
    Bulk.lora_syntax (Some "foo") (Some BulkProofs.strength_08) = Returned t
    /\ mergeLoras t (Some []) =
       Returned [mkLora (Json (JStr "foo")) (Json (JNum (mkNum false "8" 0)))
                   (Json (JBool true))].
Proof.
  apply (copied_strength_is_read_back "foo" (Some BulkProofs.strength_08)
           (JObj [("strength", JNum (mkNum false "8" 0))]) "8" 0).
  - discriminate.
  - reflexivity.
  - vm_compute. reflexivity.
  - reflexivity.
  - discriminate.
  - lia.
Defined.

(** A strength beyond the plain ones: the literal is read as the double
    1e21, which prints with an exponent, and the pattern does not match
    the token. *)
Example large_strength_is_dropped :
  let tips := Some ("{" ++ quote "strength" ++ ":999999999999999999999.9}") in
  Bulk.lora_syntax (Some "foo") tips = Returned "<lora:foo:1e+21>"
  /\ mergeLoras "<lora:foo:1e+21>" (Some []) = Returned [].
Proof. split; vm_compute; reflexivity. Qed.

End LoraProofs.

(** ** Properties of the page around the selection manager *)

Module BulkPageProofs.
Import JS Bulk BulkPage BulkProofs BulkExtras.

(** *** The count element and the strip, once more *)

(** What the pair of methods never changes: the mode, the strips in the
    document (up to their classes and thumbnails) and the presence of
    the count element; and the only error they raise. *)
Definition settled_pair (s : State) (r : Completion unit * State) : Prop :=
  bulkMode (snd r) = bulkMode s
  /\ strip_id <$> strips (snd r) = strip_id <$> strips s
  /\ (countElement (snd r) = None <-> countElement s = None)
  /\ (fst r = Returned tt \/ fst r = Threw RangeError).

Lemma count_and_strip_settled fuel :
  forall s, settled_pair s (updateSelectedCount fuel s)
            /\ settled_pair s (hideThumbnailStrip fuel s).
Proof.
  induction fuel as [|f IH]; intros s.
  - split; (repeat split; auto).
  - split; cbn [updateSelectedCount hideThumbnailStrip].
    + destruct (countElement s) as [el|] eqn:Ec; [|repeat split; auto].
      destruct (set_size (selectedLoras s) =? 0)%nat.
      * destruct (proj2 (IH (with_countElement
                               (Some (mkCount (string_of_nat (set_size (selectedLoras s))
                                                 ++ " selected ")
                                        (isStripVisible s)
                                        (0 <? set_size (selectedLoras s))%nat)) s)))
          as (A & B & C & D).
        split; [exact A|]. split; [exact B|]. split; [|exact D].
        split; intros H; [apply C in H; discriminate H|congruence].
      * split; [reflexivity|]. split; [reflexivity|]. split; [|now left].
        split; intros H; [discriminate H|congruence].
    + destruct (strips s) as [|st rest] eqn:Es; [repeat split; auto|].
      destruct (proj1 (IH (with_isStripVisible false
                             (with_strips (mark_hidden st :: rest) s))))
        as (A & B & C & D).
      destruct (updateSelectedCount f _) as [[u|e] s2]; cbn in A, B, C, D.
      * split; [exact A|]. split; [rewrite Es; exact B|]. split; [exact C|now left].
      * destruct D as [D|D]; [discriminate|].
        split; [exact A|]. split; [rewrite Es; exact B|]. split; [exact C|right; exact D].
Qed.

Lemma hide_returns f s :
  selectedLoras s <> [] -> fst (hideThumbnailStrip (S (S f)) s) = Returned tt.
Proof.
  intros Hne. cbn [hideThumbnailStrip]. destruct (strips s) as [|st rest]; [reflexivity|].
  cbn [updateSelectedCount countElement with_isStripVisible with_strips].
  destruct (countElement s); [|reflexivity].
  cbn [selectedLoras with_isStripVisible with_strips].
  destruct (selectedLoras s); [congruence|reflexivity].
Qed.

Lemma hide_nothing f s : strips s = [] -> hideThumbnailStrip (S f) s = (Returned tt, s).
Proof. intros Hs. cbn [hideThumbnailStrip]. now rewrite Hs. Qed.

Lemma count_returns f s :
  strips s = [] -> fst (updateSelectedCount (S (S f)) s) = Returned tt.
Proof.
  intros Hs. cbn [updateSelectedCount]. destruct (countElement s); [|reflexivity].
  destruct (set_size (selectedLoras s) =? 0)%nat; [|reflexivity].
  now rewrite hide_nothing.
Qed.

Lemma clearSelection_settled fuel s :
  bulkMode (snd (clearSelection fuel s)) = bulkMode s
  /\ strip_id <$> strips (snd (clearSelection fuel s)) = strip_id <$> strips s
  /\ (fst (clearSelection fuel s) = Returned tt
      \/ fst (clearSelection fuel s) = Threw RangeError).
Proof.
  unfold clearSelection.
  set (s2 := with_selectedLoras [] (with_cards (List.map (set_selected false) (cards s)) s)).
  destruct (proj1 (count_and_strip_settled fuel s2)) as (A & B & _ & D).
  destruct (updateSelectedCount fuel s2) as [[u|e] s3]; cbn [fst snd] in *.
  - destruct (proj2 (count_and_strip_settled fuel s3)) as (A' & B' & _ & D').
    split; [now rewrite A', A|]. split; [now rewrite B', B|exact D'].
  - split; [exact A|]. split; [exact B|exact D].
Qed.

(** With a strip in the document and the count element on the page,
    [clearSelection] overflows the stack. *)
Lemma clearSelection_stack fuel s :
  countElement s <> None -> strips s <> [] ->
  fst (clearSelection fuel s) = Threw RangeError.
Proof.
  intros Hc Hst. unfold clearSelection.
  set (s2 := with_selectedLoras [] (with_cards (List.map (set_selected false) (cards s)) s)).
  destruct (count_and_strip_overflow fuel s2) as [(H1 & _) _];
    [reflexivity|exact Hc|exact Hst|].
  destruct (updateSelectedCount fuel s2) as [[u|e] s3]; cbn [fst snd] in *;
    [discriminate|exact H1].
Qed.

Lemma applySelectionState_settled fuel s :
  bulkMode (snd (applySelectionState fuel s)) = bulkMode s
  /\ selectedLoras (snd (applySelectionState fuel s)) = selectedLoras s
  /\ (fst (applySelectionState fuel s) = Returned tt
      \/ fst (applySelectionState fuel s) = Threw RangeError).
Proof.
  unfold applySelectionState. destruct (bulkMode s) eqn:Hb; cbn [negb]; [|auto].
  set (s1 := with_cache _ _).
  destruct (proj1 (count_and_strip_settled fuel s1)) as (A & _ & _ & D).
  destruct (updateSelectedCount_keeps fuel s1) as (_ & Hs & _).
  split; [rewrite A; exact Hb|]. split; [exact Hs|exact D].
Qed.

Lemma applySelectionState_panel fuel s :
  bulkPanel (snd (applySelectionState fuel s)) = bulkPanel s.
Proof.
  unfold applySelectionState. destruct (bulkMode s); cbn [negb]; [|reflexivity].
  now rewrite (proj1 (count_and_strip_keep_panel fuel _)).
Qed.

Lemma clearSelection_panel fuel s :
  bulkPanel (snd (clearSelection fuel s)) = bulkPanel s.
Proof.
  unfold clearSelection.
  set (s2 := with_selectedLoras [] _).
  pose proof (proj1 (count_and_strip_keep_panel fuel s2)) as H.
  destruct (updateSelectedCount fuel s2) as [[u|e] s3]; cbn [fst snd] in *; [|exact H].
  now rewrite (proj2 (count_and_strip_keep_panel fuel s3)).
Qed.

(** *** [toggleBulkMode] *)

(** The page [toggleBulkMode] has reached when it starts on the panel. *)
Definition switched (p : Page) : Page :=
  with_bulkBtn (Some (negb (bulkMode (core p))))
    (with_core (with_bulkMode (negb (bulkMode (core p))) (core p)) p).

Definition entering (pan : Panel) (p : Page) : Page :=
  with_panel_timers (panel_timers p ++ [(10, AddVisibleClass)])%list
    (with_panel (mkPanel false (panel_visible pan)) (switched p)).

Definition leaving (pan : Panel) (p : Page) : Page :=
  with_panel_timers (panel_timers p ++ [(400, AddHiddenClass)])%list
    (with_panel (mkPanel (panel_hidden pan) false) (switched p)).

Lemma toggleBulkMode_enters fuel p b pan :
  bulkMode (core p) = false -> bulkBtn p = Some b -> bulkPanel (core p) = Some pan ->
  toggleBulkMode fuel p =
    on_core (applySelectionState fuel (core (entering pan p)))
      (all_display "none" (with_body true (entering pan p))).
Proof.
  intros Hm Hb Hp. unfold toggleBulkMode.
  cbn [bulkBtn bulkPanel core with_core with_bulkBtn with_bulkMode]. rewrite Hb, Hp, Hm.
  cbn [negb].
  unfold updateCardsForBulkMode.
  set (p4 := with_panel_timers _ _).
  assert (E : p4 = entering pan p) by (unfold entering, switched; now rewrite Hm).
  rewrite <- E. clearbody p4.
  assert (Hcore : with_bulkMode true (core p4) = core p4).
  { rewrite E. unfold entering, switched. rewrite Hm. cbn. destruct (core p); reflexivity. }
  cbn [core with_core with_body all_display with_actions]. rewrite Hcore.
  destruct (applySelectionState_settled fuel (core p4)) as (A & _ & D).
  assert (Hmode : bulkMode (core p4) = true).
  { rewrite E. unfold entering, switched. cbn. now rewrite Hm. }
  unfold on_core.
  destruct (applySelectionState fuel (core p4)) as [[u|e] s5]; cbn [fst snd] in *;
    [|reflexivity].
  cbn [core with_core]. rewrite A, Hmode. destruct u. reflexivity.
Qed.

(** The page on which [toggleBulkMode] calls [clearSelection], after the
    strip was told to hide and left the manager in state [s4]. *)
Definition left (pan : Panel) (s4 : State) (p : Page) : Page :=
  all_display "flex"
    (with_body false (with_core (with_bulkMode false s4) (leaving pan p))).

Lemma toggleBulkMode_leaves fuel p b pan :
  bulkMode (core p) = true -> bulkBtn p = Some b -> bulkPanel (core p) = Some pan ->
  toggleBulkMode fuel p =
    match hideThumbnailStrip fuel (core (leaving pan p)) with
    | (Threw e, s4) => (Threw e, with_core s4 (leaving pan p))
    | (Returned _, s4) =>
        match clearSelection fuel (with_bulkMode false s4) with
        | (Threw e, s6) => (Threw e, with_core s6 (left pan s4 p))
        | (Returned _, s6) => (Returned tt, all_display "flex" (with_core s6 (left pan s4 p)))
        end
    end.
Proof.
  intros Hm Hb Hp. unfold toggleBulkMode.
  cbn [bulkBtn bulkPanel core with_core with_bulkBtn with_bulkMode]. rewrite Hb, Hp, Hm.
  cbn [negb].
  set (p3 := with_panel_timers _ _).
  assert (E : p3 = leaving pan p) by (unfold leaving, switched; now rewrite Hm).
  rewrite <- E. clearbody p3. unfold on_core.
  destruct (hideThumbnailStrip fuel (core p3)) as [[u|e] s4]; cbn [fst snd]; [|reflexivity].
  unfold updateCardsForBulkMode, left.
  cbn [core with_core with_body all_display with_actions bulkMode with_bulkMode negb].
  subst p3.
  destruct (clearSelection fuel (with_bulkMode false s4)) as [[u'|e] s6]; reflexivity.
Qed.

(** X19: with the button and the panel on the page, [toggleBulkMode]
    flips the mode and the button with it, however it ends, and the only
    error it can raise is the stack overflow; leaving bulk mode (with
    two stack frames to spare) always empties the selection. *)
Theorem toggleBulkMode_flips (fuel : nat) (p : Page) :
  bulkBtn p <> None -> bulkPanel (core p) <> None ->
  bulkMode (core (snd (toggleBulkMode fuel p))) = negb (bulkMode (core p))
  /\ bulkBtn (snd (toggleBulkMode fuel p)) = Some (negb (bulkMode (core p)))
  /\ (fst (toggleBulkMode fuel p) = Returned tt
      \/ fst (toggleBulkMode fuel p) = Threw RangeError)
  /\ (bulkMode (core p) = true -> (2 <= fuel)%nat ->
      selectedLoras (core (snd (toggleBulkMode fuel p))) = []).
Proof.
  intros Hb Hp.
  destruct (bulkBtn p) as [b|] eqn:Eb; [clear Hb|congruence].
  destruct (bulkPanel (core p)) as [pan|] eqn:Ep; [clear Hp|congruence].
  destruct (bulkMode (core p)) eqn:Hm; cbn [negb].
  - rewrite (toggleBulkMode_leaves fuel p b pan Hm Eb Ep).
    destruct (proj2 (count_and_strip_settled fuel (core (leaving pan p))))
      as (A & _ & _ & D).
    pose proof (hideThumbnailStrip_keeps fuel (core (leaving pan p))) as (_ & Hs & _).
    destruct (hideThumbnailStrip fuel (core (leaving pan p))) as [[u|e] s4] eqn:Eh;
      cbn [fst snd] in *.
    + destruct (clearSelection_settled fuel (with_bulkMode false s4)) as (A' & _ & D').
      destruct (clearSelection_selection fuel (with_bulkMode false s4)) as (_ & Hs' & _).
      destruct (clearSelection fuel (with_bulkMode false s4)) as [[u'|e] s6];
        cbn [fst snd] in *; (split; [exact A'|]); (split; [unfold left, leaving, switched;
          cbn; now rewrite Hm|]); (split; [|intros _ _; exact Hs']); auto.
    + cbn [core with_core].
      split; [rewrite A; unfold leaving, switched; cbn; now rewrite Hm|].
      split; [unfold leaving, switched; cbn; now rewrite Hm|].
      split; [destruct D as [D|D]; [discriminate|right; exact D]|].
      intros _ Hf. destruct fuel as [|[|f]]; [lia|lia|].
      rewrite Hs. unfold leaving, switched, with_panel.
      cbn [core with_core with_panel_timers
        with_bulkPanel with_bulkBtn selectedLoras with_bulkMode].
      destruct (selectedLoras (core p)) as [|k r] eqn:Esel; [reflexivity|].
      assert (Hr : fst (hideThumbnailStrip (S (S f)) (core (leaving pan p))) = Returned tt).
      { apply hide_returns. unfold leaving, switched. cbn. rewrite Esel. discriminate. }
      rewrite Eh in Hr. discriminate Hr.
  - rewrite (toggleBulkMode_enters fuel p b pan Hm Eb Ep).
    destruct (applySelectionState_settled fuel (core (entering pan p))) as (A & _ & D).
    unfold on_core. cbn [fst snd core with_core].
    split; [rewrite A; unfold entering, switched; cbn; now rewrite Hm|].
    split; [unfold entering, switched; cbn; now rewrite Hm|].
    split; [exact D|discriminate].
Qed.

(** A page in bulk mode with two cards, both selected, no strip. *)
Definition bulk_page : Page :=
  mkPage (with_bulkPanel (Some (mkPanel false true)) two_selected) (Some true) true
    ["none"; "none"] [] ∅.

Lemma toggleBulkMode_flips_witness :
  bulkMode (core (snd (toggleBulkMode 3 bulk_page))) = negb (bulkMode (core bulk_page))
  /\ bulkBtn (snd (toggleBulkMode 3 bulk_page)) = Some (negb (bulkMode (core bulk_page)))
  /\ (fst (toggleBulkMode 3 bulk_page) = Returned tt
      \/ fst (toggleBulkMode 3 bulk_page) = Threw RangeError)
  /\ (bulkMode (core bulk_page) = true -> (2 <= 3)%nat ->
      selectedLoras (core (snd (toggleBulkMode 3 bulk_page))) = []).
Proof. apply (toggleBulkMode_flips 3 bulk_page); discriminate. Defined.

(** X20: leaving bulk mode while the preview strip is in the document
    and the count element on the page never returns normally: the call
    ends in a stack overflow at every stack depth, with the mode already
    off. *)
Theorem leaving_with_strip_overflows (fuel : nat) (p : Page) :
  bulkMode (core p) = true -> bulkBtn p <> None -> bulkPanel (core p) <> None ->
  strips (core p) <> [] -> countElement (core p) <> None ->
  fst (toggleBulkMode fuel p) = Threw RangeError
  /\ bulkMode (core (snd (toggleBulkMode fuel p))) = false
  /\ strip_id <$> strips (core (snd (toggleBulkMode fuel p))) = strip_id <$> strips (core p).
Proof.
  intros Hm Hb Hp Hst Hc.
  destruct (bulkBtn p) as [b|] eqn:Eb; [clear Hb|congruence].
  destruct (bulkPanel (core p)) as [pan|] eqn:Ep; [clear Hp|congruence].
  rewrite (toggleBulkMode_leaves fuel p b pan Hm Eb Ep).
  destruct (proj2 (count_and_strip_settled fuel (core (leaving pan p))))
    as (A & B & C & D).
  assert (Hmode : bulkMode (core (leaving pan p)) = false).
  { unfold leaving, switched. cbn. now rewrite Hm. }
  change (strips (core (leaving pan p))) with (strips (core p)) in B.
  change (countElement (core (leaving pan p))) with (countElement (core p)) in C.
  destruct (hideThumbnailStrip fuel (core (leaving pan p))) as [[u|e] s4];
    cbn [fst snd] in *.
  - assert (Hst4 : strips (with_bulkMode false s4) <> []).
    { cbn. intros E. rewrite E in B. destruct (strips (core p)); [congruence|discriminate]. }
    assert (Hc4 : countElement (with_bulkMode false s4) <> None).
    { cbn. intros E. apply Hc, C, E. }
    pose proof (clearSelection_stack fuel _ Hc4 Hst4) as Hover.
    destruct (clearSelection_settled fuel (with_bulkMode false s4)) as (A' & B' & _).
    destruct (clearSelection fuel (with_bulkMode false s4)) as [[u'|e] s6];
      cbn [fst snd] in *; [discriminate|].
    split; [exact Hover|]. split; [exact A'|]. cbn [core with_core]. now rewrite B'.
  - destruct D as [D|D]; [discriminate|].
    split; [exact D|]. cbn [core with_core]. split; [now rewrite A|exact B].
Qed.

(** The page after two cards were selected and the strip was opened. *)
Definition strip_page_open : Page :=
  mkPage (snd (toggleThumbnailStrip 3 (with_bulkPanel (Some (mkPanel false true)) two_selected)))
    (Some true) true ["none"; "none"] [] ∅.

Lemma leaving_with_strip_overflows_witness :
  fst (toggleBulkMode 1000 strip_page_open) = Threw RangeError
  /\ bulkMode (core (snd (toggleBulkMode 1000 strip_page_open))) = false
  /\ strip_id <$> strips (core (snd (toggleBulkMode 1000 strip_page_open)))
     = strip_id <$> strips (core strip_page_open).
Proof.
  apply (leaving_with_strip_overflows 1000 strip_page_open);
    try reflexivity; vm_compute; discriminate.
Defined.

(** X21: entering bulk mode on a page without a strip returns (given
    two stack frames): every card takes the marker of its key, the
    selection is kept, the action groups of the cards are hidden, the body
    and the button show the mode, and the panel loses its [hidden] class
    at once and is promised its [visible] class after 10 ms. *)
Theorem entering_marks_cards (fuel : nat) (p : Page) (b : bool) (pan : Panel) :
  bulkMode (core p) = false -> bulkBtn p = Some b -> bulkPanel (core p) = Some pan ->
  strips (core p) = [] -> (2 <= fuel)%nat ->
  fst (toggleBulkMode fuel p) = Returned tt
  /\ in_sync (core (snd (toggleBulkMode fuel p)))
  /\ selectedLoras (core (snd (toggleBulkMode fuel p))) = selectedLoras (core p)
  /\ keys (core (snd (toggleBulkMode fuel p))) = keys (core p)
  /\ body_bulk_mode (snd (toggleBulkMode fuel p)) = true
  /\ bulkBtn (snd (toggleBulkMode fuel p)) = Some true
  /\ actions (snd (toggleBulkMode fuel p)) = List.map (fun _ => "none") (actions p)
  /\ bulkPanel (core (snd (toggleBulkMode fuel p))) = Some (mkPanel false (panel_visible pan))
  /\ panel_timers (snd (toggleBulkMode fuel p))
     = (panel_timers p ++ [(10, AddVisibleClass)])%list.
Proof.
  intros Hm Hb Hp Hst Hf. destruct fuel as [|[|f]]; [lia|lia|].
  rewrite (toggleBulkMode_enters _ p b pan Hm Hb Hp).
  set (s := core (entering pan p)).
  assert (Hmode : bulkMode s = true).
  { subst s. unfold entering, switched. cbn. now rewrite Hm. }
  destruct (applySelectionState_state (S (S f)) s Hmode) as (Hc & Hs & _).
  pose proof (applySelectionState_syncs (S (S f)) s Hmode) as Hsync.
  assert (Hret : fst (applySelectionState (S (S f)) s) = Returned tt).
  { unfold applySelectionState. rewrite Hmode. cbn [negb]. apply count_returns. exact Hst. }
  unfold on_core. cbn [fst snd core with_core body_bulk_mode bulkBtn actions bulkPanel
    panel_timers all_display with_actions with_body].
  split; [exact Hret|]. split; [exact Hsync|]. split; [rewrite Hs; reflexivity|].
  split; [unfold keys; rewrite Hc; apply map_remark_keys|].
  rewrite (applySelectionState_panel (S (S f)) s). subst s.
  unfold entering, switched, with_panel. cbn. rewrite Hm. repeat split.
Qed.

(** A page out of bulk mode on which a reload has left a selection. *)
Definition browsing_page : Page :=
  mkPage (with_bulkMode false (page [plain_card "a" false; plain_card "b" false] ["b"]))
    (Some false) false [""; ""] [] ∅.

Lemma entering_marks_cards_witness :
  fst (toggleBulkMode 2 browsing_page) = Returned tt
  /\ in_sync (core (snd (toggleBulkMode 2 browsing_page)))
  /\ selectedLoras (core (snd (toggleBulkMode 2 browsing_page)))
     = selectedLoras (core browsing_page)
  /\ keys (core (snd (toggleBulkMode 2 browsing_page))) = keys (core browsing_page)
  /\ body_bulk_mode (snd (toggleBulkMode 2 browsing_page)) = true
  /\ bulkBtn (snd (toggleBulkMode 2 browsing_page)) = Some true
  /\ actions (snd (toggleBulkMode 2 browsing_page))
     = List.map (fun _ => "none") (actions browsing_page)
  /\ bulkPanel (core (snd (toggleBulkMode 2 browsing_page)))
     = Some (mkPanel false (panel_visible (mkPanel true false)))
  /\ panel_timers (snd (toggleBulkMode 2 browsing_page))
     = (panel_timers browsing_page ++ [(10, AddVisibleClass)])%list.
Proof.
  apply (entering_marks_cards 2 browsing_page false (mkPanel true false));
    try reflexivity; lia.
Defined.

(** X22: leaving bulk mode on a page without a strip returns (given two
    stack frames): the selection is empty, no card is marked, the action
    groups of the cards are shown again, the body and the button show the
    mode, and the panel loses its [visible] class at once and is promised
    its [hidden] class after 400 ms. *)
Theorem leaving_clears (fuel : nat) (p : Page) (b : bool) (pan : Panel) :
  bulkMode (core p) = true -> bulkBtn p = Some b -> bulkPanel (core p) = Some pan ->
  strips (core p) = [] -> (2 <= fuel)%nat ->
  fst (toggleBulkMode fuel p) = Returned tt
  /\ selectedLoras (core (snd (toggleBulkMode fuel p))) = []
  /\ Forall (fun c => selected c = false) (cards (core (snd (toggleBulkMode fuel p))))
  /\ keys (core (snd (toggleBulkMode fuel p))) = keys (core p)
  /\ body_bulk_mode (snd (toggleBulkMode fuel p)) = false
  /\ bulkBtn (snd (toggleBulkMode fuel p)) = Some false
  /\ actions (snd (toggleBulkMode fuel p)) = List.map (fun _ => "flex") (actions p)
  /\ bulkPanel (core (snd (toggleBulkMode fuel p))) = Some (mkPanel (panel_hidden pan) false)
  /\ panel_timers (snd (toggleBulkMode fuel p))
     = (panel_timers p ++ [(400, AddHiddenClass)])%list.
Proof.
  intros Hm Hb Hp Hst Hf. destruct fuel as [|[|f]]; [lia|lia|].
  rewrite (toggleBulkMode_leaves _ p b pan Hm Hb Hp).
  rewrite (hide_nothing (S f) (core (leaving pan p)) Hst).
  set (s4 := with_bulkMode false (core (leaving pan p))).
  destruct (clearSelection_no_strip (S (S f)) s4 Hst ltac:(lia)) as [Hret _].
  destruct (clearSelection_selection (S (S f)) s4) as (Hc & Hs & _).
  pose proof (clearSelection_panel (S (S f)) s4) as Hpan.
  destruct (clearSelection (S (S f)) s4) as [[u|e] s6]; cbn [fst snd] in *;
    [|discriminate].
  cbn [core with_core body_bulk_mode bulkBtn actions bulkPanel panel_timers all_display
    with_actions with_body left].
  split; [reflexivity|]. split; [exact Hs|].
  split.
  { rewrite Hc. cbn. apply Forall_forall. intros c Hin.
    apply list_elem_of_In, in_map_iff in Hin. destruct Hin as (c0 & <- & _). reflexivity. }
  split; [unfold keys; rewrite Hc; apply map_set_selected_keys|].
  rewrite Hpan. subst s4.
  unfold leaving, switched, with_panel. cbn. rewrite Hm, List.map_map. repeat split.
Qed.

Lemma leaving_clears_witness :
  fst (toggleBulkMode 2 bulk_page) = Returned tt
  /\ selectedLoras (core (snd (toggleBulkMode 2 bulk_page))) = []
  /\ Forall (fun c => selected c = false) (cards (core (snd (toggleBulkMode 2 bulk_page))))
  /\ keys (core (snd (toggleBulkMode 2 bulk_page))) = keys (core bulk_page)
  /\ body_bulk_mode (snd (toggleBulkMode 2 bulk_page)) = false
  /\ bulkBtn (snd (toggleBulkMode 2 bulk_page)) = Some false
  /\ actions (snd (toggleBulkMode 2 bulk_page))
     = List.map (fun _ => "flex") (actions bulk_page)
  /\ bulkPanel (core (snd (toggleBulkMode 2 bulk_page)))
     = Some (mkPanel (panel_hidden (mkPanel false true)) false)
  /\ panel_timers (snd (toggleBulkMode 2 bulk_page))
     = (panel_timers bulk_page ++ [(400, AddHiddenClass)])%list.
Proof.
  apply (leaving_clears 2 bulk_page true (mkPanel false true)); try reflexivity; lia.
Defined.

(** *** [createLoraCard] *)

(** What a returned card holds of the entry it was built for. *)
Lemma createLoraCard_card resolve mode sel versions lora card :
  createLoraCard resolve mode sel versions lora = Returned card ->
  exists fn ut,
    file_name card = Some fn /\ usage_tips card = Some ut
    /\ dataset_of lora "file_name" = Returned fn
    /\ dataset_of lora "usage_tips" = Returned ut
    /\ dataset_of lora "file_path" = Returned (filepath card)
    /\ selected card = (mode && has_path (obj_get "file_path" lora) sel)%bool.
Proof.
  intros Hc. unfold createLoraCard in Hc.
  repeat match type of Hc with
         | bind ?c _ = _ =>
             let E := fresh "E" in
             destruct c eqn:E; cbn [bind] in Hc; [|discriminate Hc]
         end.
  destruct (or_else _ _); try discriminate Hc.
  match type of Hc with
  | match ?v with _ => _ end = _ => destruct v; try discriminate Hc
  end.
  injection Hc as <-. cbn [file_name usage_tips filepath selected].
  eexists _, _. repeat split; eassumption.
Qed.

(** X23: in bulk mode, a card built by [createLoraCard] for an entry
    whose [file_path] is a string carries that path as its key and the
    marker of the selection, so a listing whose markers agree with the
    selection still agrees after the card is appended. *)
Theorem created_card_agrees (resolve : string -> string) (s : State)
    (versions : gmap string JSValue) (lora : list (string * JSValue)) (path : string)
    (card : Card) :
  bulkMode s = true -> in_sync s ->
  obj_get "file_path" lora = Some (JStr path) ->
  createLoraCard resolve (bulkMode s) (selectedLoras s) versions lora = Returned card ->
  filepath card = path
  /\ selected card = set_has path (selectedLoras s)
  /\ in_sync (with_cards (cards s ++ [card])%list s).
Proof.
  intros Hb Hsync Hp Hc.
  destruct (createLoraCard_card _ _ _ _ _ _ Hc) as (fn & ut & _ & _ & _ & _ & Hfp & Hsel).
  unfold dataset_of in Hfp. rewrite Hp in Hfp. injection Hfp as Hfp.
  rewrite Hb, Hp in Hsel. cbn [andb has_path] in Hsel.
  split; [now symmetry|]. split; [exact Hsel|].
  unfold in_sync. cbn [cards with_cards selectedLoras]. apply Forall_app. split; [exact Hsync|].
  constructor; [now rewrite Hsel, <- Hfp|constructor].
Qed.

Definition listed_lora : list (string * JSValue) :=
  [("file_path", JStr "b"); ("file_name", JStr "bar"); ("model_name", JStr "Bar");
   ("preview_url", JStr "/previews/bar.mp4")].

(** A page served from [http://127.0.0.1:8188/]. *)
Definition local_url (src : string) : string := "http://127.0.0.1:8188" ++ src.

Definition created_lora : Card :=
  mkCard "b" (Some "bar") (Some "undefined") (Some "Bar") None true
    (Some "http://127.0.0.1:8188/previews/bar.mp4") true.

Lemma created_card_agrees_witness :
  filepath created_lora = "b"
  /\ selected created_lora = set_has "b" (selectedLoras (page [plain_card "a" false] ["b"]))
  /\ in_sync (with_cards (cards (page [plain_card "a" false] ["b"]) ++ [created_lora])%list
                (page [plain_card "a" false] ["b"])).
Proof.
  apply (created_card_agrees local_url (page [plain_card "a" false] ["b"]) ∅ listed_lora "b"
           created_lora); try reflexivity.
  repeat constructor.
Defined.

(** X24: [createLoraCard] writes the text of [lora.usage_tips] into the
    card, so for an entry without usage tips the card holds the text
    [undefined], and for [null] the text [null]; neither is usable: the
    copy button of the card throws (a syntax error, a type error), and
    so does the copy of a selection that holds the card. *)
Theorem unusable_usage_tips (resolve : string -> string) (mode : bool) (sel : list string)
    (versions : gmap string JSValue) (lora : list (string * JSValue)) (card : Card)
    (e : JSError) :
  (obj_get "usage_tips" lora = None /\ e = SyntaxError)
  \/ (obj_get "usage_tips" lora = Some JNull /\ e = TypeError) ->
  createLoraCard resolve mode sel versions lora = Returned card ->
  card_lora_syntax card = Threw e
  /\ forall s, In (filepath card) (selectedLoras s) ->
       loraMetadataCache s !! filepath card = Some (card_metadata card) ->
       exists e', copyAllLorasSyntax s = (Threw e', s).
Proof.
  intros Htips Hc.
  destruct (createLoraCard_card _ _ _ _ _ _ Hc) as (fn & ut & Hfn & Hut & _ & Htext & _).
  assert (Hsyn : lora_syntax (file_name card) (usage_tips card) = Threw e).
  { rewrite Hfn, Hut. unfold dataset_of in Htext.
    destruct Htips as [[Hu ->]|[Hu ->]]; rewrite Hu in Htext; injection Htext as <-;
      reflexivity. }
  split; [exact Hsyn|].
  intros s Hin Hk. apply (copy_throws s _ _ e Hin Hk). exact Hsyn.
Qed.

Lemma unusable_usage_tips_witness :
  card_lora_syntax created_lora = Threw SyntaxError
  /\ forall s, In (filepath created_lora) (selectedLoras s) ->
       loraMetadataCache s !! filepath created_lora = Some (card_metadata created_lora) ->
       exists e', copyAllLorasSyntax s = (Threw e', s).
Proof.
  apply (unusable_usage_tips local_url true ["b"] ∅ listed_lora created_lora SyntaxError);
    [left; split; reflexivity|reflexivity].
Defined.

(** An entry whose [notes] is an object with a [toString] of its own has
    no text: the card is not built. *)
Example card_of_unprintable_notes :
  createLoraCard local_url false [] ∅
    (("notes", JObj [("toString", JNull)]) :: listed_lora) = Threw TypeError.
Proof. reflexivity. Qed.

End BulkPageProofs.

(** ** Properties of the filter panel *)

Module PanelProofs.
Import JS Filters FilterPanel.

(** What the user does to the panel. *)
Inductive Event : Type :=
| ClickButton
| ClickAt (target : Target)
| RecipeClickAt (target : Target).

Definition handle (e : Event) (w : View) : View :=
  match e with
  | ClickButton => snd (buttonClick w)
  | ClickAt t => snd (documentClick t w)
  | RecipeClickAt t => snd (recipeDocumentClick t w)
  end.

(** The calls of [loadTopTags] made, and the one still to come. *)
Definition loads_due (w : View) : nat :=
  loadTopTags_calls w + (if tagsLoaded w then 0 else 1).

Lemma close_loads w : loads_due (closeFilterPanel w) = loads_due w.
Proof.
  unfold closeFilterPanel. destruct (filterPanel w); cbn;
    destruct (filterButton (manager w)); reflexivity.
Qed.

Lemma close_calls w : loadTopTags_calls (closeFilterPanel w) = loadTopTags_calls w.
Proof.
  unfold closeFilterPanel. destruct (filterPanel w); cbn;
    destruct (filterButton (manager w)); reflexivity.
Qed.

Lemma documentClick_loads t w :
  loads_due (snd (documentClick t w)) = loads_due w
  /\ loadTopTags_calls (snd (documentClick t w)) = loadTopTags_calls w.
Proof.
  unfold documentClick. destruct (filterPanel w) as [h|] eqn:E; [|split; reflexivity].
  destruct t; try (split; reflexivity).
  destruct (filterButton (manager w)); [|split; reflexivity].
  destruct h; cbn [snd]; [split; reflexivity|]. split; [apply close_loads|apply close_calls].
Qed.

Lemma recipeDocumentClick_loads t w :
  loads_due (snd (recipeDocumentClick t w)) = loads_due w
  /\ loadTopTags_calls (snd (recipeDocumentClick t w)) = loadTopTags_calls w.
Proof.
  unfold recipeDocumentClick. destruct (filterPanel w) as [h|] eqn:E; [|split; reflexivity].
  destruct t; try (split; reflexivity).
  destruct (filterButton (manager w)); [|split; reflexivity].
  destruct h; cbn [snd]; [split; reflexivity|]. split; [apply close_loads|apply close_calls].
Qed.

Lemma toggle_loads w :
  loads_due (snd (toggleFilterPanel w)) = loads_due w
  /\ loadTopTags_calls w <= loadTopTags_calls (snd (toggleFilterPanel w)).
Proof.
  unfold toggleFilterPanel. destruct (filterPanel w) as [[|]|]; cbn [snd].
  - cbn [manager]. destruct (filterButton (manager w)); cbn [snd]; [|split; reflexivity].
    cbn [tagsLoaded with_manager]. unfold loads_due.
    destruct (tagsLoaded w); cbn; split; lia.
  - split; [apply close_loads|rewrite close_calls; lia].
  - split; reflexivity.
Qed.

Lemma handle_loads e w :
  loads_due (handle e w) = loads_due w
  /\ loadTopTags_calls w <= loadTopTags_calls (handle e w).
Proof.
  destruct e as [|t|t]; cbn [handle].
  - unfold buttonClick. destruct (toggle_loads w) as [A B].
    destruct (toggleFilterPanel w) as [[u|e] w1]; cbn [snd] in *;
      destruct (documentClick_loads AtButton w1) as [C D]; rewrite C, D; auto.
  - destruct (documentClick_loads t w) as [C D]. rewrite C, D. auto.
  - destruct (recipeDocumentClick_loads t w) as [C D]. rewrite C, D. auto.
Qed.

(** X25: however the panel is opened and closed, by the button or by
    clicks elsewhere, and whether a handler throws or not,
    [loadTopTags] is called at most once: at the first opening that
    finds the button, and never again. *)
Theorem tags_are_loaded_once (events : list Event) (w : View) :
  let w' := fold_left (fun v e => handle e v) events w in
  loads_due w' = loads_due w
  /\ loadTopTags_calls w <= loadTopTags_calls w'
  /\ (tagsLoaded w = true -> loadTopTags_calls w' = loadTopTags_calls w)
  /\ (tagsLoaded w = false -> loadTopTags_calls w' <= S (loadTopTags_calls w)).
Proof.
  cbv zeta.
  assert (H : loads_due (fold_left (fun v e => handle e v) events w) = loads_due w
              /\ loadTopTags_calls w
                 <= loadTopTags_calls (fold_left (fun v e => handle e v) events w)).
  { revert w. induction events as [|e events IH]; intros w; [split; reflexivity|].
    cbn [fold_left]. destruct (IH (handle e w)) as [A B].
    destruct (handle_loads e w) as [C D]. split; [congruence|lia]. }
  destruct H as [A B]. split; [exact A|]. split; [exact B|].
  unfold loads_due in A.
  split; intros Hl; rewrite Hl in A;
    destruct (tagsLoaded (fold_left (fun v e => handle e v) events w)); lia.
Qed.

Definition opened_view (w : View) : View :=
  mkView (with_filterButton (Some true) (manager w)) (Some false) true
    (if tagsLoaded w then loadTopTags_calls w else S (loadTopTags_calls w))
    (S (updatePanelPositions_calls w)).

Definition closed_view (w : View) : View :=
  mkView (with_filterButton (Some false) (manager w)) (Some true) (tagsLoaded w)
    (loadTopTags_calls w) (updatePanelPositions_calls w).

Lemma button_opens w lit :
  filterPanel w = Some true -> filterButton (manager w) = Some lit ->
  buttonClick w = (Returned tt, opened_view w).
Proof.
  intros Hp Hb. unfold buttonClick, toggleFilterPanel. rewrite Hp. cbn [manager]. rewrite Hb.
  cbn [with_manager manager filterPanel tagsLoaded loadTopTags_calls
       updatePanelPositions_calls].
  unfold opened_view. destruct (tagsLoaded w); reflexivity.
Qed.

Lemma button_closes w lit :
  filterPanel w = Some false -> filterButton (manager w) = Some lit ->
  buttonClick w = (Returned tt, closed_view w).
Proof.
  intros Hp Hb. unfold buttonClick, toggleFilterPanel, closeFilterPanel. rewrite Hp.
  cbn [manager with_filterPanel]. rewrite Hb. reflexivity.
Qed.

(** X26: the [active] class of the filter button serves two masters:
    with active filters and the panel closed, a click on the button
    opens the panel and lights the button, and the next click closes
    the panel and puts the button out, though the filters are still
    active. *)
Theorem closing_puts_button_out (w : View) (lit : bool) :
  filterPanel w = Some true -> filterButton (manager w) = Some lit ->
  hasActiveFilters (manager w) = true ->
  fst (buttonClick w) = Returned tt
  /\ filterPanel (snd (buttonClick w)) = Some false
  /\ filterButton (manager (snd (buttonClick w))) = Some true
  /\ fst (buttonClick (snd (buttonClick w))) = Returned tt
  /\ filterPanel (snd (buttonClick (snd (buttonClick w)))) = Some true
  /\ filterButton (manager (snd (buttonClick (snd (buttonClick w))))) = Some false
  /\ hasActiveFilters (manager (snd (buttonClick (snd (buttonClick w))))) = true.
Proof.
  intros Hp Hb Ha. rewrite (button_opens w lit Hp Hb). cbn [fst snd].
  rewrite (button_closes (opened_view w) true eq_refl eq_refl).
  repeat split. exact Ha.
Qed.

Definition filtered_view : View :=
  mkView FilterExtras.offline_page (Some true) false 0 0.

Lemma closing_puts_button_out_witness :
  fst (buttonClick filtered_view) = Returned tt
  /\ filterPanel (snd (buttonClick filtered_view)) = Some false
  /\ filterButton (manager (snd (buttonClick filtered_view))) = Some true
  /\ fst (buttonClick (snd (buttonClick filtered_view))) = Returned tt
  /\ filterPanel (snd (buttonClick (snd (buttonClick filtered_view)))) = Some true
  /\ filterButton (manager (snd (buttonClick (snd (buttonClick filtered_view))))) = Some false
  /\ hasActiveFilters (manager (snd (buttonClick (snd (buttonClick filtered_view))))) = true.
Proof. apply (closing_puts_button_out filtered_view false); reflexivity. Defined.

End PanelProofs.

(** ** Properties of the recipe import dialog *)

Module ImportProofs.
Import JS Text ImportManager FilterProofs.

(** *** The tags *)

(** What the user does to the tags. *)
Inductive TagAction : Type :=
| TypeTag (text : string)
| AddTag
| RemoveTag (tag : string).

Definition tag_act (a : TagAction) (s : State) : State :=
  match a with
  | TypeTag text =>
      match tagInput s with
      | Some _ => with_tagInput (Some text) s
      | None => s
      end
  | AddTag => snd (addTag s)
  | RemoveTag tag => snd (removeTag tag s)
  end.

(** No tag twice, no empty tag, and the container, if there is one,
    holds the markup written for the tags. *)
Definition tags_ok (s : State) : Prop :=
  NoDup (recipeTags s) /\ Forall (fun t => t <> "") (recipeTags s)
  /\ (tagsContainer s = None \/ tagsContainer s = Some (tags_markup (recipeTags s))).

Lemma includes_false t l : includes t l = false -> t ∉ l.
Proof.
  intros H Hin. apply list_elem_of_In in Hin.
  assert (includes t l = true); [|congruence].
  apply existsb_exists. exists t. split; [exact Hin|apply String.eqb_refl].
Qed.

Lemma updateTagsDisplay_ok s :
  NoDup (recipeTags s) -> Forall (fun t => t <> "") (recipeTags s) ->
  tags_ok (snd (updateTagsDisplay s))
  /\ recipeTags (snd (updateTagsDisplay s)) = recipeTags s.
Proof.
  intros Hn Hf. unfold updateTagsDisplay, tags_ok.
  destruct (tagsContainer s) eqn:E; cbn; auto.
Qed.

Lemma act_ok a s : tags_ok s -> tags_ok (tag_act a s).
Proof.
  intros (Hn & Hf & Hc). destruct a as [text| |tag]; cbn [tag_act].
  - destruct (tagInput s); [|repeat split; assumption]. repeat split; assumption.
  - unfold addTag. destruct (tagInput s) as [value|]; [|repeat split; assumption].
    destruct (String.eqb_spec (trim value) "") as [E|E]; [repeat split; assumption|].
    destruct (includes (trim value) (recipeTags s)) eqn:Ei; [repeat split; assumption|].
    set (s1 := with_recipeTags _ s).
    assert (Hn1 : NoDup (recipeTags s1)).
    { cbn. apply NoDup_app. split; [exact Hn|]. split; [|repeat constructor; set_solver].
      intros x Hx Hx'. apply list_elem_of_singleton in Hx'. subst x.
      now apply includes_false in Ei. }
    assert (Hf1 : Forall (fun t => t <> "") (recipeTags s1)).
    { cbn. apply Forall_app. split; [exact Hf|]. now repeat constructor. }
    destruct (updateTagsDisplay_ok s1 Hn1 Hf1) as [Hok _].
    destruct (updateTagsDisplay s1) as [[u|e] s2]; cbn [snd] in *; [|exact Hok].
    destruct Hok as (A & B & C). repeat split; assumption.
  - unfold removeTag. set (s1 := with_recipeTags _ s).
    apply updateTagsDisplay_ok; cbn.
    + apply NoDup_ListNoDup, List.NoDup_filter, NoDup_ListNoDup, Hn.
    + apply Forall_forall. intros t Ht. apply list_elem_of_In, filter_In in Ht as [Ht _].
      rewrite Forall_forall in Hf. apply Hf. now apply list_elem_of_In.
Qed.

(** X27: from the opened dialog on, whatever is typed, added and
    removed, and whether a step throws or not: no tag is held twice, no
    tag is empty, and the container, if the page has one, holds the
    markup [updateTagsDisplay] writes for the tags held (each tag put
    into it as it is, unescaped), or the placeholder when none is
    held. *)
Theorem tags_stay_ok (actions : list TagAction) (s : State) :
  tags_ok s -> tags_ok (fold_left (fun st a => tag_act a st) actions s).
Proof.
  revert s. induction actions as [|a actions IH]; intros s H; [exact H|].
  cbn [fold_left]. apply IH, act_ok, H.
Qed.

(** The dialog as [resetSteps] leaves it, with a root chosen. *)
Definition opened_dialog : State :=
  mkState [] (Some "") (Some (tags_markup [])) "" [("characters", false); ("styles", false)]
    (Some "/models/loras") (Some "") (Some "").

Lemma tags_stay_ok_witness :
  tags_ok (fold_left (fun st a => tag_act a st)
             [TypeTag " anime "; AddTag; TypeTag "anime"; AddTag; TypeTag "   "; AddTag;
              TypeTag "mecha"; AddTag; RemoveTag "anime"]
             opened_dialog).
Proof.
  apply (tags_stay_ok _ opened_dialog).
  repeat split; [constructor|constructor|right; reflexivity].
Defined.

Example tags_after_typing :
  recipeTags (fold_left (fun st a => tag_act a st)
                [TypeTag " anime "; AddTag; TypeTag "anime"; AddTag; TypeTag "   "; AddTag;
                 TypeTag "mecha"; AddTag; RemoveTag "anime"]
                opened_dialog) = ["mecha"].
Proof. vm_compute. reflexivity. Qed.

(** A tag with markup in it is held as typed and goes into the container
    as markup: the container then shows the letter in italics, not the
    tag. *)
Example tag_with_markup :
  let s := tag_act AddTag (tag_act (TypeTag "<i>x</i>") opened_dialog) in
  recipeTags s = ["<i>x</i>"] /\ tagsContainer s = Some (tag_markup "<i>x</i>").
Proof. split; vm_compute; reflexivity. Qed.

(** *** The target path *)










(** With no folder selected or named, the download is told the root as
    its relative path. *)
Example relative_path_without_folder :
  relative_path "/models/loras" opened_dialog = "/models/loras"
  /\ relative_path "/models/loras" (folderClick 1 opened_dialog) = "styles".
Proof. split; vm_compute; reflexivity. Qed.

End ImportProofs.

(** ** Properties of the theme and the folder tags *)

Module UiProofs.
Import JS UiHelpers.

(** X29: [toggleTheme] leaves one of the two themes on the body and
    stores it; a page loaded afterwards, whose [initTheme] reads the
    storage, shows the same theme; and a second toggle gives [light]
    exactly when the body showed [light] at the start. *)
Theorem theme_persists (p q : Page) :
  localStorage q = localStorage (toggleTheme p) ->
  theme (initTheme q) = theme (toggleTheme p)
  /\ (theme (toggleTheme p) = Some "light" \/ theme (toggleTheme p) = Some "dark")
  /\ theme (toggleTheme (toggleTheme p))
     = Some (match theme p with
             | Some t => if String.eqb t "light" then "light" else "dark"
             | None => "dark"
             end).
Proof.
  intros Hq. unfold initTheme, toggleTheme in *. cbn in *. rewrite Hq, lookup_insert_eq.
  destruct (theme p) as [t|]; [destruct (String.eqb t "light")|]; cbn; auto.
Qed.

Definition dark_page : Page := mkPage (Some "dark") ∅ [] None 0.

Lemma theme_persists_witness :
  theme (initTheme (mkPage None (localStorage (toggleTheme dark_page)) [] None 0))
    = theme (toggleTheme dark_page)
  /\ (theme (toggleTheme dark_page) = Some "light"
      \/ theme (toggleTheme dark_page) = Some "dark")
  /\ theme (toggleTheme (toggleTheme dark_page))
     = Some (match theme dark_page with
             | Some t => if String.eqb t "light" then "light" else "dark"
             | None => "dark"
             end).
Proof.
  apply (theme_persists dark_page
           (mkPage None (localStorage (toggleTheme dark_page)) [] None 0)).
  reflexivity.
Defined.

(** The folder of the state and the tags agree: with no active folder
    no tag is active; with one, exactly one tag is active, and it is a
    tag of that folder. *)
Definition folder_shown (p : Page) : Prop :=
  match activeFolder p with
  | None => Forall (fun t => snd t = false) (folderTags p)
  | Some folder =>
      exists i,
        folderTags p !! i = Some (folder, true)
        /\ forall j t, folderTags p !! j = Some t -> snd t = true -> j = i
  end.

Lemma cleared_inactive (tags : list (option string * bool)) :
  Forall (fun t => snd t = false) (List.map (fun t => (fst t, false)) tags).
Proof. induction tags; constructor; auto. Qed.

(** X30: a click on a folder tag leaves the state and the tags in
    agreement, whatever they were before: the clicked tag alone is
    active and its folder is the active folder, if the tag was not
    active; no tag is active and there is no active folder, if it was;
    either way the listing is reloaded once. *)
Theorem folder_click_agrees (i : nat) (p : Page) (folder : option string) (wasActive : bool) :
  folderTags p !! i = Some (folder, wasActive) ->
  folder_shown (toggleFolder i p)
  /\ activeFolder (toggleFolder i p) = (if wasActive then None else Some folder)
  /\ fst <$> folderTags (toggleFolder i p) = fst <$> folderTags p
  /\ reloads (toggleFolder i p) = S (reloads p).
Proof.
  intros Hi. unfold toggleFolder. rewrite Hi.
  set (cleared := List.map (fun t => (fst t, false)) (folderTags p)).
  assert (Hnames : fst <$> cleared = fst <$> folderTags p).
  { subst cleared. clear Hi. induction (folderTags p) as [|t l IH]; [reflexivity|].
    change (fst t :: (fst <$> List.map (fun t => (fst t, false)) l) = fst t :: (fst <$> l)).
    now rewrite IH. }
  assert (Hlen : i < length cleared).
  { subst cleared. rewrite length_map. eapply lookup_lt_Some. exact Hi. }
  destruct wasActive; cbn [activeFolder folderTags reloads folder_shown].
  - split; [apply cleared_inactive|]. repeat split. exact Hnames.
  - split.
    + exists i. split; [now apply list_lookup_insert_eq|].
      intros j t Hj Ht. destruct (decide (j = i)) as [E|E]; [exact E|].
      rewrite list_lookup_insert_ne in Hj by congruence.
      pose proof (cleared_inactive (folderTags p)) as Hc. fold cleared in Hc.
      rewrite Forall_lookup in Hc. rewrite (Hc j t Hj) in Ht. discriminate.
    + repeat split. rewrite list_fmap_insert. cbn [fst]. rewrite Hnames.
      apply list_insert_id. rewrite list_lookup_fmap, Hi. reflexivity.
Qed.

Definition folder_page : Page :=
  mkPage (Some "dark") ∅ [(Some "characters", true); (Some "styles", false)]
    (Some (Some "characters")) 0.

Lemma folder_click_agrees_witness :
  folder_shown (toggleFolder 1 folder_page)
  /\ activeFolder (toggleFolder 1 folder_page) = (if false then None else Some (Some "styles"))
  /\ fst <$> folderTags (toggleFolder 1 folder_page) = fst <$> folderTags folder_page
  /\ reloads (toggleFolder 1 folder_page) = S (reloads folder_page).
Proof. apply (folder_click_agrees 1 folder_page (Some "styles") false). reflexivity. Defined.

End UiProofs.
